(* ===== verification/_CoqProject ===== *)
-Q . S2P
Prelude.v
Word.v
Errno.v
GuestMem.v
Text.v
Parse.v
Meter.v
Percentile.v
Path.v
Host.v
Arena.v
LinearAllocator.v
Vfs.v
Udp.v
Net.v
Fd.v
Sock.v
Futex.v
Resolver.v
Kernel.v
Snapshot.v
SnapMem.v
KernInv.v
SysMemory.v
SysPath.v
SysEventfd.v
SysFile.v
SysFileInv.v
SysFileSpec.v
SysFileIo.v
SysSignal.v
SysFutex.v
SysProcess.v
SysPoll.v
SysSelect.v
SysEpoll.v
SysReady.v
SysMisc.v
SysSocket.v
SysSocketInv.v
SysSocketSpec.v
SysResolver.v
SnapshotSpec.v
Dispatch.v
Confine.v
Sandbox.v
SysRet.v
Wasm.v
Cli.v
CliTools.v
Terminal.v
CliSpec.v
