(* ===== verification/Prelude.v ===== *)
(** * A verification of the edge-libos kernel

    edge-libos runs Linux programs compiled to WebAssembly. The guest makes
    Linux syscalls through one imported function; the kernel, a Rust library,
    answers them inside the host process. A command line runs a guest, freezes
    it to a file, resumes it from the file, or traces its calls. This
    development is a shallow embedding of all of it: every syscall handler is
    a function from the kernel state and the six [i64] arguments to a result
    and a new state, every subcommand a function from its arguments and the
    state of the host to an exit code and a new state, and the theorems are
    about those functions.

    ** The parts of the program and their files

    A call enters in [dispatch] (src/dispatch.rs, [Dispatch]), which looks the
    number up and runs one handler. A handler reads its arguments out of guest
    memory through the checked accessors of src/mem.rs ([Kernel]), works on
    the state of src/kernel.rs ([Kernel]) and on the components below, and
    writes its answer back to guest memory.

    - [Prelude]: results, outcomes, the bind notations, shared tactics, hints
      and list lemmas. [Word]: Rust's integers as [Z] with their casts,
      wrap-around and little-endian bytes. [Errno] (src/errno.rs).
    - [GuestMem]: the bytes of a linear memory. [Text], [Parse] and [Path]:
      the parts of UTF-8 decoding, of [str::parse] and printing, and of
      [std::path] that strings of the guest and of the user go through.
    - [Host] and [Net]: the interfaces to the machine below (file system,
      clocks, random bytes; network sockets) as type classes over a type of
      host states, with the laws the theorems use and small instances.
    - [Arena] (src/mm/arena.rs) and [LinearAllocator] (src/mm/mod.rs): the
      allocator behind [mmap]. [SysMemory] (src/sys/memory.rs): the syscalls.
    - [Vfs] (src/vfs.rs): path resolution under the preopened directory, the
      [struct stat] and [linux_dirent64] encodings. [SysPath]
      (src/sys/path.rs): path arguments relative to a descriptor.
    - [Fd] (src/fd.rs): the descriptor table and the resources. What Rust
      shares through an [Arc] is an object of an explicit heap, so aliasing
      descriptors share it; a [Notify] is a location and the heap records the
      notifications sent. [Udp] (src/sys/udp.rs): the receive queue.
      [Sock]: the socket objects of src/fd.rs and the binding of UDP sockets.
    - [Kernel]: the kernel state, its constructors and guest memory access.
      [KernInv]: the invariant [kern_wf] and the classes [Preserves],
      [PreservesFd] and [PreservesOut] that state it is kept by a handler.
    - [SysFile] (src/sys/file.rs), its invariant proofs [SysFileInv] and its
      functional theorems [SysFileSpec] and, for positions and writing,
      [SysFileIo]; [SysEventfd] (src/sys/eventfd.rs).
      [SysSocket] (src/sys/socket.rs), [SysSocketInv] and [SysSocketSpec], in
      the same way.
    - [Futex] and [SysFutex] (src/sys/futex.rs), [SysProcess]
      (src/sys/process.rs), [SysSignal] (src/sys/signal.rs), [SysPoll]
      (src/sys/poll.rs) with the theorems on [select] in [SysSelect],
      [SysEpoll] (src/sys/epoll.rs), [SysMisc] (src/sys/identity.rs, random.rs,
      ioctl.rs, time.rs). [SysReady]: what [poll] and [epoll] announce against
      what [read] and [write] do. [SysRet]: the results of all of them together.
    - [Confine] and [Sandbox]: the host cut down to one directory, and every
      handler over it; no part of the source, they carry the statement that the
      preopened directory is a sandbox.
    - [Resolver] and [SysResolver] (src/sys/resolver.rs): the cache of looked
      up names, and the syscall with the list it builds in guest memory.
    - [Snapshot] (src/snapshot.rs, src/snapshot/io.rs and the snapshot syscall
      of src/sys/process.rs): freezing a kernel to a value and thawing it.
      [SnapMem] has the facts on memory pages, [SnapshotSpec] the theorems.
    - [Meter] (src/meter.rs): CPU budgets as fuel. [Percentile]: the figures of
      [bench] in binary64 arithmetic (src/cli/bench.rs). [Wasm]: the interface to
      wasmtime and to the operating system's processes and environment, with
      what the code builds on it: engines, stores and linkers (src/host.rs),
      the imported function and its observer (src/dispatch.rs,
      src/cli/trace.rs), the kernel's constructors (src/kernel.rs) and forked
      children (src/sys/process.rs).
    - [Cli] (src/cli: error.rs, subcommand.rs, util.rs, run.rs, freeze.rs,
      serve.rs) and [CliTools] (migrate.rs, trace.rs, bench.rs, mod.rs): the
      subcommands and the dispatcher. [Terminal]: a small concrete host for
      their witnesses. [CliSpec]: the theorems.

    ** How code becomes definitions

    Handlers are Rocq functions with the names of the source. A handler that
    always returns has type [kern W → args → Z * kern W]; one that can block
    or panic returns an [outcome]: [Return], [Hang] or [Panic]. Early returns
    are the [let! ... on ...] and [... <-? ...] notations of [Prelude].
    Integers are [Z], with the casts of the source written out ([as_i32],
    [as_u32], [u32_try_from]) and the arithmetic that can leave its width
    wrapped as in a release build.

    An [.await] that sleeps hands the thread to others. What they do meanwhile
    is an argument of the handler. For [poll] and [wait4] it is a list of state
    changes; a sleeping call is resumed after a change that fires one of the
    [Notify]s it is parked on ([Fd.fired]), or when its timer expires, and by
    nothing else, so a call parked on a [Notify] that nobody fires sleeps
    through its whole schedule, which is [Hang]. In [SysEpoll], [SysFutex],
    [SysMisc] and [SysSocket] it is one change, that of the sleep that ended. The iteration order of a hash map is an argument too, any
    permutation of the map's entries.

    Loops are structural recursions. Fuel is used for two: [Fd.probe] gets one
    more step than the table has entries, and [insert_at_least_lowest] shows
    that [Hang] is then the true answer; the merge loop of [Arena.free] gets
    the length of the free list, and [coalesce_correct] shows it ends within
    it.

    ** What the theorems show

    - The whole kernel: [every_run_wf] (the invariant [kern_wf] holds after any
      sequence of syscalls: memory, descriptors and their objects, directories,
      resolver cache, child and waiter tables, ids and allocator mark),
      [syscall_result] (the range of what every call may answer: a status, a
      count, a value; and which calls may wait for ever or panic), [sandbox] (a run, but for UNIX names and snapshots,
      needs no path of the host outside the preopened directory),
      [dispatch_table].
    - Memory: [guest_access_checked], [guest_write_read_back]; the allocator
      ([alloc_sound], [alloc_None_iff], [free_sound], [free_then_alloc],
      [munmap_sound], [reachable_blocks_disjoint]) and the syscall on top
      ([sys_mmap_fresh_zeroed], [sys_mmap_error]).
    - Files: confinement of paths ([resolve_path_contained],
      [resolve_confined], [normalize_lexical]), the descriptor table
      ([insert_fresh], [insert_at_least_lowest], [dup_shares]), pipes as byte
      queues ([pipe_fifo], [sys_pipe_transfer], [pipe2_fresh],
      [writev_gather]), regular files ([read_file_content],
      [rewrite_reads_back]), directories
      ([dirents_roundtrip], [getdents_stream]), event counters and datagrams
      ([eventfd_conserves], [eventfd_compat_agrees],
      [udp_queue_keeps_latest]).
    - Waiting and waking: futexes ([wake_counts], [futex_wake_bounded],
      [futex_wait_balanced], [futex_snapshot_roundtrip]), [wait4]
      ([wait4_nohang], [wait4_wakes_on_exit], [exit_ends_children],
      [fork_fresh]), [poll] and
      [epoll] ([poll_reports], [poll_wakes_up], [select_sets_are_poll],
      [epoll_ctl_map], [epoll_wait_reports]), and what both announce of pipes
      against what reads and writes do ([readiness_matches_io]).
    - Signals: [sigaction_roundtrip], [sigprocmask_effect].
    - Sockets: streams received in order ([recvmsg_in_order]), names
      ([bind_getsockname]), closing a direction ([shutdown_effect]).
    - Names: [resolve_answers], [resolve_remembers], [from_env_roundtrip].
    - Snapshots: a thawed kernel has the state that was frozen, and its memory
      up to trailing zero pages ([freeze_thaw]), and is well-formed
      ([thaw_wf]); what cannot be reopened is refused ([unthawable_refused]);
      snapshots do not depend on the iteration
      order of hash maps ([build_order_independent]), and the syscall writes
      one or says why not ([snapshot_syscall_file]); inherited listeners find
      their descriptors free ([inherited_listener_restored]).
    - Children: [fork] only makes a table entry, and no code of the repository
      starts the thread of a child; about that thread [child_resumes_parent]
      says that it starts from its parent's state and [child_reports] that its
      end reaches the parent's table.
    - The command line, with the store a subcommand builds and the module it
      loads named in the statements ([CliSpec.loads]): [run] reports what the
      guest did ([run_reports]) within its budget ([meter_galois]); [serve] resumes what [freeze] wrote
      ([freeze_then_serve]) and nothing else ([serve_refuses_mismatch]);
      [trace] shows the calls made ([trace_is_run]); [bench] reports percentiles
      and judges by the median ([bench_reports]); arguments and variables
      are handed over ([migrate_hands_over], [inherited_fds_parsed],
      [port_overridden]) and mistakes in them have no effect
      ([usage_error_harmless]).

    Some files end with a section of deviations: closed lemmas that exhibit
    what the code does where it differs from its comments or from Linux.

    ** What is assumed and what is not modelled

    The host obeys [HostLaws] (and, for the content of files, [FileHost] and
    [FileWriteHost]), its
    network [NetLaws] (and, for the content of streams, [StreamNet]);
    [Memory32] says that growing a memory never passes 65536 pages, the limit of
    a 32-bit memory. Theorems that need a memory below 4 GiB say so: at 4 GiB
    the allocator's mark wraps ([high_water_wraps]). Name lookups obey [DnsLaws].
    The encoding of snapshots (the [postcard] library, the class [Codec]) obeys
    [CodecLaws] (and [CodecVec]: an encoding is shorter than 2^63 bytes); that a
    written file reads back is a condition on that file ([reads_back]). The
    SHA-256 digest is the class [Digest].
    wasmtime is the class [Wasm]: compiling, instantiating and calling a module
    are functions of the interface, and [WasmLaws] says that what they do to the
    kernel is a sequence of syscalls through the imported function and of
    changes to the guest's own memory and fuel ([guest_run]); [CallLog] names
    that sequence for the theorem on traces. [sane_init] and [sane_module] are
    conditions on the module at hand: while it is instantiated the other threads
    keep the kernel's invariant and the counter of descriptor numbers does not
    run over its 32 bits, the same restriction as in [every_run_wf]. The environment,
    the child processes and the standard streams are the class [Os];
    [CanonicalCwd] says that the working directory is an absolute path
    without dots. [sandbox] assumes that other threads keep the paths of the
    kernel inside the directory while a call sleeps ([runtime_conf]), as every
    syscall does ([dispatch_keeps]), and compares paths by name: what lies behind
    a symbolic link is the host's. [bench_reports] is for up to 2^40 iterations,
    where the rounding of the index is under control; the vectors of more
    samples would take 16 TiB. Shared linear memories are attached, frozen and thawed but not
    accessed by the syscalls, as in the source.

    Not modelled, because nothing is decided by it and most of it quotes the
    error texts of other crates: what is printed to standard error (help,
    version, diagnostics, log lines). *)

From stdpp Require Export base numbers list gmap strings.
From Stdlib Require Export ZArith Lia Sorted.

#[export] Set Default Proof Using "Type".

(** Everything of the development is about 64-bit host arithmetic. *)
#[global] Open Scope Z_scope.

(** ** Results

    Rust's [Result<T, i64>], whose error side carries a negative errno. *)
Inductive result (A : Type) : Type :=
  | Ok (a : A)
  | Err (e : Z).
Arguments Ok {A} a.
Arguments Err {A} e.

Definition result_bind {A B} (r : result A) (f : A → result B) : result B :=
  match r with Ok a => f a | Err e => Err e end.

Definition result_of_option {A} (e : Z) (o : option A) : result A :=
  match o with Some a => Ok a | None => Err e end.

(** What running a handler comes to: it returns, it loops forever, or it
    panics. *)
Inductive outcome (A : Type) : Type :=
  | Return (a : A)
  | Hang
  | Panic.
Arguments Return {A} a.
Arguments Hang {A}.
Arguments Panic {A}.

Declare Scope libos_scope.
Delimit Scope libos_scope with libos.

(** [x <-? r; k] is Rust's [let x = r?; k] inside a [Result] function. *)
Notation "x <-? r ; k" := (result_bind r (λ x, k))
  (at level 100, r at next level, k at level 200, right associativity)
  : libos_scope.

(** [let! x := r on s; k] is the pattern
    [let x = match r { Ok v => v, Err e => return e }; k] of a handler that
    threads the state [s] and returns a pair of [i64] and state. *)
Notation "'let!' x := r 'on' s ; k" :=
  (match r with Ok x => k | Err e => (e, s) end)
  (at level 10, x pattern, r at level 100, s at level 100, k at level 200)
  : libos_scope.

Notation "'let?' x := o 'else' d ; k" :=
  (match o with Some x => k | None => d end)
  (at level 10, x pattern, o at level 100, d at level 100, k at level 200)
  : libos_scope.

#[global] Open Scope libos_scope.

Lemma result_bind_Ok {A B} (r : result A) (f : A → result B) b :
  (x <-? r; f x) = Ok b ↔ ∃ a, r = Ok a ∧ f a = Ok b.
Proof. destruct r; simpl; naive_solver. Qed.

Lemma Return_inj {A} (x y : A) : Return x = Return y → x = y.
Proof. by intros [= ->]. Qed.

Lemma surjective_pairing_eq {A B} (p : A * B) a : p.1 = a → p = (a, p.2).
Proof. destruct p. by intros <-. Qed.

(** ** Tactics *)

(** Turn boolean tests in the context into propositions. *)
Ltac to_prop :=
  repeat match goal with
  | H : _ && _ = true |- _ => apply andb_prop in H as [? ?]
  | H : _ && _ = false |- _ => apply andb_false_iff in H
  | H : _ || _ = true |- _ => apply orb_prop in H
  | H : _ || _ = false |- _ => apply orb_false_elim in H as [? ?]
  | H : negb _ = true |- _ => apply negb_true_iff in H
  | H : negb _ = false |- _ => apply negb_false_iff in H
  | H : (_ =? _) = true |- _ => apply Z.eqb_eq in H
  | H : (_ =? _) = false |- _ => apply Z.eqb_neq in H
  | H : (_ <? _) = true |- _ => apply Z.ltb_lt in H
  | H : (_ <? _) = false |- _ => apply Z.ltb_ge in H
  | H : (_ <=? _) = true |- _ => apply Z.leb_le in H
  | H : (_ <=? _) = false |- _ => apply Z.leb_gt in H
  | H : bool_decide _ = true |- _ => apply bool_decide_eq_true in H
  | H : bool_decide _ = false |- _ => apply bool_decide_eq_false in H
  end.

(** Case analysis on the first conditional or match of the goal or of a
    hypothesis. *)
Ltac case_if :=
  match goal with
  | |- context [if ?b then _ else _] => destruct b eqn:?; to_prop
  | H : context [if ?b then _ else _] |- _ => destruct b eqn:?; to_prop
  end.

(** Follow one path of a handler: split every test, close impossible
    branches, substitute the resulting equations. *)
Ltac run_handler :=
  repeat (first [ progress simplify_eq/= | case_match; to_prop | case_if ]).

(** ** Lists *)

(** Index of the first element satisfying [p]; Rust's [iter().position]. *)
Fixpoint position {A} (p : A → bool) (l : list A) : option nat :=
  match l with
  | [] => None
  | x :: l => if p x then Some 0%nat else S <$> position p l
  end.

Lemma position_Some {A} (p : A → bool) l n :
  position p l = Some n →
  (n < length l)%nat ∧ Forall (λ x, p x = false) (take n l) ∧
  ∃ x, l !! n = Some x ∧ p x = true.
Proof.
  revert n; induction l as [|x l IH]; intros n; simpl; [done|].
  destruct (p x) eqn:Hp.
  - intros [= <-]. simpl. split; [lia|]. split; [constructor|by exists x].
  - intros (m & Hm & ->)%fmap_Some. destruct (IH m Hm) as (? & ? & ?).
    simpl. split; [lia|]. split; [by constructor|done].
Qed.

Lemma position_None {A} (p : A → bool) l :
  position p l = None → Forall (λ x, p x = false) l.
Proof.
  induction l as [|x l IH]; simpl; [constructor|].
  destruct (p x) eqn:?; [done|]. intros ?%fmap_None. constructor; auto.
Qed.

(** A list encoded in records of a fixed size: record [i] is the encoding of
    element [i]. *)
Lemma concat_record {A B} (f : A → list B) (n : nat) (l : list A) i x :
  (∀ y, length (f y) = n) → l !! i = Some x → take n (drop (i * n) (concat (f <$> l))) = f x.
Proof.
  intros Hf. revert i. induction l as [|y l IH]; intros [|i] Hi; try done; simpl in *.
  - injection Hi as ->. rewrite drop_0, take_app_le by (rewrite Hf; lia). apply take_ge. by rewrite Hf.
  - rewrite <- drop_drop, drop_app_ge by (rewrite Hf; lia). rewrite Hf, Nat.sub_diag, drop_0. by apply IH.
Qed.

Lemma length_concat_records {A B} (f : A → list B) (n : nat) (l : list A) :
  (∀ y, length (f y) = n) → length (concat (f <$> l)) = (length l * n)%nat.
Proof. intros Hf. induction l as [|x l IH]; simpl; [done|]. rewrite length_app, Hf. by f_equal. Qed.

(** Sum of a list of integers. *)
Definition zsum (l : list Z) : Z := foldr Z.add 0 l.

Lemma zsum_app l1 l2 : zsum (l1 ++ l2) = zsum l1 + zsum l2.
Proof. induction l1; simpl; lia. Qed.

Lemma zsum_Permutation l1 l2 : l1 ≡ₚ l2 → zsum l1 = zsum l2.
Proof. induction 1; simpl; lia. Qed.

Lemma zsum_nil : zsum [] = 0.
Proof. done. Qed.

Lemma zsum_cons x l : zsum (x :: l) = x + zsum l.
Proof. done. Qed.

Lemma zsum_nonneg l : Forall (λ x, 0 ≤ x) l → 0 ≤ zsum l.
Proof. induction 1; simpl; lia. Qed.

#[global] Arguments zsum : simpl never.

(** ** Ranges and pairwise properties *)

(** Ranges [p, p+n) and [q, q+k) do not meet. *)
Definition disjoint_ranges (p n q k : Z) : Prop := p + n ≤ q ∨ q + k ≤ p.
#[global] Instance disjoint_ranges_dec p n q k : Decision (disjoint_ranges p n q k).
Proof. unfold disjoint_ranges. apply _. Defined.

(** [R] holds between any two elements at different positions. *)
Fixpoint pairwise {A} (R : A → A → Prop) (l : list A) : Prop :=
  match l with
  | [] => True
  | x :: l => Forall (R x) l ∧ pairwise R l
  end.

Section pairwise.
Context {A : Type} (R : A → A → Prop) `{!Symmetric R}.

Lemma pairwise_app l1 l2 :
  pairwise R (l1 ++ l2) ↔
  pairwise R l1 ∧ pairwise R l2 ∧ Forall (λ x, Forall (R x) l2) l1.
Proof.
  induction l1 as [|x l1 IH]; simpl.
  - rewrite Forall_nil. tauto.
  - rewrite IH, Forall_app, Forall_cons. tauto.
Qed.

Lemma pairwise_perm l1 l2 : l1 ≡ₚ l2 → pairwise R l1 → pairwise R l2.
Proof using All.
  induction 1 as [|x l1 l2 Hp IH|x y l|l1 l2 l3 ? IH1 ? IH2]; simpl; auto.
  - intros [HF ?]. split; [by rewrite <- Hp|auto].
  - intros [Hy [Hx ?]]. rewrite Forall_cons in Hy. destruct Hy as [? ?].
    rewrite Forall_cons. auto.
Qed.
End pairwise.

(** Rust's [Vec::swap_remove]: the last element takes the place of element
    [i]. Out of range it panics; every caller passes an index in range. *)
Definition swap_remove {A} (i : nat) (l : list A) : list A :=
  match last l with
  | None => l
  | Some x => take (length l - 1) (<[i:=x]> l)
  end.

Lemma swap_remove_perm {A} (i : nat) (l : list A) x :
  l !! i = Some x → l ≡ₚ x :: swap_remove i l.
Proof.
  intros Hi. unfold swap_remove.
  destruct l as [|y l' _] using rev_ind; [done|].
  rewrite last_snoc, length_app. simpl.
  replace (length l' + 1 - 1)%nat with (length l') by lia.
  destruct (decide (i < length l')%nat) as [Hlt|Hge].
  - rewrite lookup_app_l in Hi by done. rewrite insert_app_l by done.
    rewrite take_app_le by (rewrite length_insert; lia).
    rewrite take_ge by (rewrite length_insert; lia).
    rewrite Permutation_app_comm. simpl.
    rewrite <- (take_drop_middle l' i x Hi) at 1.
    rewrite insert_take_drop by done.
    rewrite <- !Permutation_middle. by rewrite Permutation_swap.
  - assert (i = length l') as -> by (apply lookup_lt_Some in Hi; rewrite length_app in Hi; simpl in Hi; lia).
    rewrite lookup_app_r in Hi by done. rewrite Nat.sub_diag in Hi. simplify_eq/=.
    rewrite insert_app_r_alt by done. rewrite Nat.sub_diag. simpl.
    rewrite take_app_length. by rewrite Permutation_app_comm.
Qed.

(** ** Sorting

    Rust's [sort_by] and [sort_by_key]: a stable sort, here by insertion. *)
Section sort_by.
Context {A : Type} (le : A → A → bool).

Fixpoint insert_by (x : A) (l : list A) : list A :=
  match l with
  | [] => [x]
  | y :: l' => if le x y then x :: l else y :: insert_by x l'
  end.

Definition sort_by (l : list A) : list A := foldr insert_by [] l.

Lemma insert_by_perm x l : insert_by x l ≡ₚ x :: l.
Proof.
  induction l as [|y l IH]; simpl; [done|]. destruct (le x y); [done|].
  rewrite IH. apply Permutation_swap.
Qed.

Lemma sort_by_perm l : sort_by l ≡ₚ l.
Proof. induction l as [|x l IH]; simpl; [done|]. by rewrite insert_by_perm, IH. Qed.

Context (le_total : ∀ x y, le x y = true ∨ le y x = true).
Context (le_trans : ∀ x y z, le x y = true → le y z = true → le x z = true).

Lemma insert_by_sorted x l :
  StronglySorted (λ a b, le a b = true) l →
  StronglySorted (λ a b, le a b = true) (insert_by x l).
Proof using le_total le_trans.
  induction 1 as [|y l Hl IH Hy]; simpl; [by repeat constructor|].
  destruct (le x y) eqn:Hxy.
  - constructor; [by constructor|]. constructor; [done|].
    eapply Forall_impl; [exact Hy|]. simpl. eauto.
  - constructor; [done|]. rewrite insert_by_perm. constructor; [|done].
    destruct (le_total x y); [congruence|done].
Qed.

Lemma sort_by_sorted l : StronglySorted (λ a b, le a b = true) (sort_by l).
Proof using le_total le_trans. induction l; simpl; [constructor|by apply insert_by_sorted]. Qed.
End sort_by.

(** Sorting by a key on which the elements are told apart gives one answer,
    whatever the order they come in. *)
Lemma sort_by_key_unique {A} (key : A → Z) (l1 l2 : list A) :
  l1 ≡ₚ l2 → NoDup (key <$> l1) →
  sort_by (λ x y, key x <=? key y) l1 = sort_by (λ x y, key x <=? key y) l2.
Proof.
  intros Hp Hnd.
  assert (∀ x y, (key x <=? key y) = true ∨ (key y <=? key x) = true) by lia.
  assert (∀ x y z, (key x <=? key y) = true → (key y <=? key z) = true →
    (key x <=? key z) = true) by lia.
  pose proof (sort_by_sorted (λ x y, key x <=? key y) ltac:(done) ltac:(done) l1) as S1.
  pose proof (sort_by_sorted (λ x y, key x <=? key y) ltac:(done) ltac:(done) l2) as S2.
  pose proof (sort_by_perm (λ x y, key x <=? key y) l1) as P1.
  pose proof (sort_by_perm (λ x y, key x <=? key y) l2) as P2.
  assert (sort_by (λ x y, key x <=? key y) l1 ≡ₚ sort_by (λ x y, key x <=? key y) l2) as P
    by by rewrite P1, P2.
  assert (NoDup (key <$> sort_by (λ x y, key x <=? key y) l1)) as Hs by by rewrite P1.
  clear P1 P2 Hnd Hp. revert P Hs S2.
  generalize (sort_by (λ x y, key x <=? key y) l2). revert S1.
  generalize (sort_by (λ x y, key x <=? key y) l1). clear l1 l2.
  induction 1 as [|x l Hl IH Hx]; intros l' P Hs S2.
  { by apply Permutation_nil in P as ->. }
  destruct S2 as [|y l' Hl' Hy]; [by apply Permutation_sym, Permutation_nil in P|].
  assert (x = y) as ->.
  { assert (x ∈ y :: l') as Hin by (rewrite <- P; left).
    assert (y ∈ x :: l) as Hin' by (rewrite P; left).
    apply elem_of_cons in Hin as [?|Hin]; [done|].
    apply elem_of_cons in Hin' as [?|Hin']; [done|].
    rewrite Forall_forall in Hx, Hy. specialize (Hx _ Hin'). specialize (Hy _ Hin).
    simpl in Hx, Hy. assert (key x = key y) as Hk by lia.
    apply NoDup_cons in Hs as [Hnin _]. destruct Hnin. rewrite Hk.
    by apply list_elem_of_fmap_2. }
  f_equal. apply IH; [by apply Permutation_cons_inv in P| |done].
  by apply NoDup_cons in Hs as [_ ?].
Qed.

(** Sorting commutes with a map that keeps the order. *)
Lemma sort_by_fmap {A B} (f : A → B) (leA : A → A → bool) (leB : B → B → bool) (l : list A) :
  (∀ x y, leB (f x) (f y) = leA x y) → f <$> sort_by leA l = sort_by leB (f <$> l).
Proof.
  intros Hle. assert (∀ x l, f <$> insert_by leA x l = insert_by leB (f x) (f <$> l)) as Hi.
  { intros x l'. induction l' as [|y l' IH]; [done|]. cbn. rewrite Hle. destruct (leA x y); [done|].
    cbn. by rewrite <- IH. }
  induction l as [|x l IH]; [done|]. simpl. by rewrite Hi, IH.
Qed.

#[global] Instance result_eq_dec `{EqDecision A} : EqDecision (result A).
Proof. solve_decision. Defined.

Create HintDb libos.
