(* ===== verification/Word.v ===== *)
(** * Machine integers and little-endian bytes

    Rust's fixed-width integers as [Z] with the wrap-around written out:
    the [as] casts, the [try_from] conversions, the checked and saturating
    operations the kernel uses, and [to_le_bytes] / [from_le_bytes].
    [usize] and [isize] are those of the 64-bit hosts the program targets.
    A byte is a [Z] in [0, 256). *)

From S2P Require Import Prelude.

Definition U16_MAX : Z := 2 ^ 16 - 1.
Definition U32_MAX : Z := 2 ^ 32 - 1.
Definition U64_MAX : Z := 2 ^ 64 - 1.
Definition I64_MAX : Z := 2 ^ 63 - 1.
Definition I64_MIN : Z := - 2 ^ 63.

(** ** Casts *)

Definition wrapu (w x : Z) : Z := x mod 2 ^ w.

Definition wraps (w x : Z) : Z :=
  let y := x mod 2 ^ w in if y <? 2 ^ (w - 1) then y else y - 2 ^ w.

Definition as_u8 : Z → Z := wrapu 8.
Definition as_u16 : Z → Z := wrapu 16.
Definition as_u32 : Z → Z := wrapu 32.
Definition as_u64 : Z → Z := wrapu 64.
Definition as_usize : Z → Z := wrapu 64.
Definition as_i16 : Z → Z := wraps 16.
Definition as_i32 : Z → Z := wraps 32.
Definition as_i64 : Z → Z := wraps 64.

Definition is_u (w x : Z) : Prop := 0 ≤ x < 2 ^ w.
Definition is_i (w x : Z) : Prop := - 2 ^ (w - 1) ≤ x < 2 ^ (w - 1).
#[global] Instance is_u_dec w x : Decision (is_u w x).
Proof. unfold is_u. apply _. Defined.
#[global] Instance is_i_dec w x : Decision (is_i w x).
Proof. unfold is_i. apply _. Defined.

(** ** Conversions from [i64] *)

Definition u32_try_from (x : Z) : option Z :=
  if (0 <=? x) && (x <=? U32_MAX) then Some x else None.
Definition usize_try_from (x : Z) : option Z :=
  if (0 <=? x) && (x <=? U64_MAX) then Some x else None.
Definition i32_try_from (x : Z) : option Z :=
  if (- 2 ^ 31 <=? x) && (x <? 2 ^ 31) then Some x else None.

(** ** Arithmetic *)

Definition checked_add_u32 (x y : Z) : option Z :=
  if x + y <=? U32_MAX then Some (x + y) else None.
Definition checked_sub_u32 (x y : Z) : option Z :=
  if y <=? x then Some (x - y) else None.
Definition checked_add_usize (x y : Z) : option Z :=
  if x + y <=? U64_MAX then Some (x + y) else None.
Definition checked_mul_usize (x y : Z) : option Z :=
  if x * y <=? U64_MAX then Some (x * y) else None.
Definition checked_add_u64 (x y : Z) : option Z :=
  if x + y <=? U64_MAX then Some (x + y) else None.
Definition saturating_mul_u64 (x y : Z) : Z := Z.min (x * y) U64_MAX.
Definition saturating_add_u32 (x y : Z) : Z := Z.min (x + y) U32_MAX.
Definition saturating_sub_usize (x y : Z) : Z := Z.max (x - y) 0.
Definition saturating_mul_i64 (x y : Z) : Z :=
  Z.max I64_MIN (Z.min (x * y) I64_MAX).

(** [!x] on [usize]. *)
Definition not_usize (x : Z) : Z := U64_MAX - x.

(** ** Facts about casts *)

Lemma wrapu_range w x : 0 ≤ w → is_u w (wrapu w x).
Proof. intros. unfold is_u, wrapu. apply Z.mod_pos_bound. lia. Qed.

Lemma wrapu_id w x : is_u w x → wrapu w x = x.
Proof. intros. by apply Z.mod_small. Qed.

Lemma wraps_range w x : 0 < w → is_i w (wraps w x).
Proof.
  intros Hw. unfold is_i, wraps.
  pose proof (Z.mod_pos_bound x (2 ^ w) ltac:(lia)).
  assert (2 ^ w = 2 * 2 ^ (w - 1)) as Heq
    by (rewrite <- Z.pow_succ_r by lia; f_equal; lia).
  simpl. case_if; lia.
Qed.

Lemma wraps_id w x : 0 < w → is_i w x → wraps w x = x.
Proof.
  intros Hw [Hl Hu]. unfold wraps.
  assert (2 ^ w = 2 * 2 ^ (w - 1)) as Heq
    by (rewrite <- Z.pow_succ_r by lia; f_equal; lia).
  destruct (Z_lt_le_dec x 0).
  - assert (x mod 2 ^ w = x + 2 ^ w) as ->.
    { symmetry. apply Z.mod_unique with (-1); lia. }
    simpl. case_if; lia.
  - rewrite Z.mod_small by lia. simpl. case_if; lia.
Qed.

Lemma u32_try_from_Some x y : u32_try_from x = Some y ↔ x = y ∧ is_u 32 x.
Proof. unfold u32_try_from, is_u, U32_MAX. split; [case_if; [intros [= ->]; lia|done]|intros [-> ?]; case_if; [done|lia]]. Qed.

Lemma u32_try_from_id x : is_u 32 x → u32_try_from x = Some x.
Proof. intros. by apply u32_try_from_Some. Qed.

Lemma usize_try_from_Some x y : usize_try_from x = Some y ↔ x = y ∧ is_u 64 x.
Proof. unfold usize_try_from, is_u, U64_MAX. split; [case_if; [intros [= ->]; lia|done]|intros [-> ?]; case_if; [done|lia]]. Qed.

Lemma usize_try_from_id x : is_u 64 x → usize_try_from x = Some x.
Proof. intros. by apply usize_try_from_Some. Qed.

(** ** Little-endian encoding *)

Definition byte_ok (b : Z) : Prop := 0 ≤ b < 256.
#[global] Instance byte_ok_dec b : Decision (byte_ok b).
Proof. unfold byte_ok. apply _. Defined.
Abbreviation bytes_ok bs := (Forall byte_ok bs).

Fixpoint to_le_bytes (n : nat) (x : Z) : list Z :=
  match n with
  | O => []
  | S n => x mod 256 :: to_le_bytes n (x / 256)
  end.

Fixpoint from_le_bytes (bs : list Z) : Z :=
  match bs with
  | [] => 0
  | b :: bs => b + 256 * from_le_bytes bs
  end.

(** Signed reading: [i32::from_le_bytes] and friends. *)
Definition from_le_bytes_i (w : Z) (bs : list Z) : Z := wraps w (from_le_bytes bs).

Lemma length_to_le_bytes n x : length (to_le_bytes n x) = n.
Proof. revert x; induction n; intros; simpl; auto. Qed.

Lemma to_le_bytes_ok n x : bytes_ok (to_le_bytes n x).
Proof.
  revert x; induction n; intros; simpl; constructor; auto.
  unfold byte_ok. apply Z.mod_pos_bound. lia.
Qed.

Lemma pow256_S n : 2 ^ (8 * Z.of_nat (S n)) = 256 * 2 ^ (8 * Z.of_nat n).
Proof.
  replace (8 * Z.of_nat (S n)) with (8 + 8 * Z.of_nat n) by lia.
  by rewrite Z.pow_add_r by lia.
Qed.

Lemma from_to_le_bytes n x :
  from_le_bytes (to_le_bytes n x) = x mod 2 ^ (8 * Z.of_nat n).
Proof.
  revert x; induction n as [|n IH]; intros x.
  { simpl. by rewrite Z.mod_1_r. }
  cbn [to_le_bytes from_le_bytes]. rewrite IH, pow256_S.
  rewrite Z.rem_mul_r by lia. lia.
Qed.

Lemma from_le_bytes_range bs :
  bytes_ok bs → 0 ≤ from_le_bytes bs < 2 ^ (8 * Z.of_nat (length bs)).
Proof.
  induction 1 as [|b bs Hb _ IH]; [simpl; lia|].
  cbn [length from_le_bytes]. rewrite pow256_S. unfold byte_ok in Hb. lia.
Qed.

Lemma to_from_le_bytes bs :
  bytes_ok bs → to_le_bytes (length bs) (from_le_bytes bs) = bs.
Proof.
  induction 1 as [|b bs Hb _ IH]; [done|]. cbn [length to_le_bytes from_le_bytes].
  unfold byte_ok in Hb.
  replace ((b + 256 * from_le_bytes bs) mod 256) with b
    by (apply Z.mod_unique with (from_le_bytes bs); lia).
  replace ((b + 256 * from_le_bytes bs) / 256) with (from_le_bytes bs)
    by (apply Z.div_unique with b; lia).
  by rewrite IH.
Qed.

Lemma to_from_le_bytes_n n bs :
  bytes_ok bs → length bs = n → to_le_bytes n (from_le_bytes bs) = bs.
Proof. intros ? <-. by apply to_from_le_bytes. Qed.

(** An unsigned [w = 8 n]-bit value survives the trip through its bytes. *)
Lemma from_to_le_bytes_u n x :
  is_u (8 * Z.of_nat n) x → from_le_bytes (to_le_bytes n x) = x.
Proof. intros. rewrite from_to_le_bytes. by apply Z.mod_small. Qed.

Lemma wraps_mod w x : wraps w (x mod 2 ^ w) = wraps w x.
Proof. unfold wraps. by rewrite Zmod_mod. Qed.

(** A signed one too, with the two's complement reading. *)
Lemma from_to_le_bytes_s n x :
  (0 < n)%nat → is_i (8 * Z.of_nat n) x →
  from_le_bytes_i (8 * Z.of_nat n) (to_le_bytes n x) = x.
Proof.
  intros Hn Hx. unfold from_le_bytes_i. rewrite from_to_le_bytes, wraps_mod.
  apply wraps_id; [lia|done].
Qed.

(** ** Rounding up to a power-of-two boundary *)

(** [(off + mask) & !mask] with [mask = align - 1]. *)
Definition align_up (off align_mask : Z) : Z :=
  Z.land (off + align_mask) (not_usize align_mask).

Lemma land_not_usize x k :
  is_u 64 x → 0 ≤ k ≤ 64 → Z.land x (not_usize (2 ^ k - 1)) = x - x mod 2 ^ k.
Proof.
  intros [Hl Hu] Hk.
  assert (x - x mod 2 ^ k = Z.shiftl (Z.shiftr x k) k) as ->.
  { rewrite Z.shiftl_mul_pow2, Z.shiftr_div_pow2 by lia.
    pose proof (Z_div_mod_eq_full x (2 ^ k)). lia. }
  unfold not_usize, U64_MAX.
  replace (2 ^ 64 - 1 - (2 ^ k - 1)) with (Z.shiftl (Z.ones (64 - k)) k).
  2:{ rewrite Z.shiftl_mul_pow2, Z.ones_equiv by lia. unfold Z.pred.
      rewrite Z.mul_add_distr_r, <- Z.pow_add_r by lia.
      replace (64 - k + k) with 64 by lia. lia. }
  apply Z.bits_inj'. intros i Hi.
  rewrite Z.land_spec, !Z.shiftl_spec by lia.
  destruct (Z_lt_le_dec i k).
  - rewrite !(Z.testbit_neg_r _ (i - k)) by lia. by rewrite andb_false_r.
  - rewrite Z.shiftr_spec by lia. replace (i - k + k) with i by lia.
    destruct (Z_lt_le_dec (i - k) (64 - k)).
    + rewrite Z.ones_spec_low by lia. by rewrite andb_true_r.
    + rewrite Z.ones_spec_high by lia.
      rewrite (Z.bits_above_log2 x i); [done|lia|].
      destruct (Z.eq_dec x 0) as [->|]; [simpl; lia|].
      apply Z.log2_lt_pow2; [lia|]. apply Z.lt_le_trans with (2 ^ 64); [lia|].
      apply Z.pow_le_mono_r; lia.
Qed.

Lemma align_up_spec off k :
  0 ≤ off → 0 ≤ k ≤ 32 → off + 2 ^ k < 2 ^ 64 →
  off ≤ align_up off (2 ^ k - 1) < off + 2 ^ k ∧
  align_up off (2 ^ k - 1) mod 2 ^ k = 0.
Proof.
  intros Hoff Hk Hb. assert (0 < 2 ^ k) by lia. unfold align_up.
  rewrite land_not_usize by (unfold is_u; lia).
  set (x := off + (2 ^ k - 1)).
  pose proof (Z.mod_pos_bound x (2 ^ k) ltac:(lia)).
  split; [lia|]. rewrite Zminus_mod_idemp_r, Z.sub_diag. by apply Z.mod_0_l; lia.
Qed.
