(* ===== verification/Errno.v ===== *)
(** * Linux errno constants (src/errno.rs) *)

From S2P Require Import Prelude.

Definition EPERM : Z := 1.
Definition ENOENT : Z := 2.
Definition ESRCH : Z := 3.
Definition EINTR : Z := 4.
Definition EIO : Z := 5.
Definition EBADF : Z := 9.
Definition ECHILD : Z := 10.
Definition EAGAIN : Z := 11.
Definition ENOMEM : Z := 12.
Definition EACCES : Z := 13.
Definition EFAULT : Z := 14.
Definition EBUSY : Z := 16.
Definition EEXIST : Z := 17.
Definition ENOTDIR : Z := 20.
Definition EISDIR : Z := 21.
Definition EINVAL : Z := 22.
Definition EMFILE : Z := 24.
Definition ENOTTY : Z := 25.
Definition EFBIG : Z := 27.
Definition ENOSPC : Z := 28.
Definition ESPIPE : Z := 29.
Definition EROFS : Z := 30.
Definition EPIPE : Z := 32.
Definition ELOOP : Z := 40.
Definition ERANGE : Z := 34.
Definition ENOSYS : Z := 38.
Definition EDESTADDRREQ : Z := 89.
Definition EOPNOTSUPP : Z := 95.
Definition EAFNOSUPPORT : Z := 97.
Definition EPROTONOSUPPORT : Z := 93.
Definition EADDRINUSE : Z := 98.
Definition EADDRNOTAVAIL : Z := 99.
Definition ENOTCONN : Z := 107.
Definition ETIMEDOUT : Z := 110.
Definition ECONNREFUSED : Z := 111.
Definition EISCONN : Z := 106.
Definition ENOTEMPTY : Z := 39.
Definition ENAMETOOLONG : Z := 36.

(** What a failing call may answer: the C library of the guest takes the
    values from -4095 to -1, and only these, for errors. *)
Definition errno_ok (e : Z) : Prop := -4095 ≤ e < 0.

(** Return a host-style negative errno from a positive errno value. *)
Definition to_ret (e : Z) : Z := - e.
