(* ===== verification/GuestMem.v ===== *)
(** * Linear memory contents

    The byte buffer behind a [wasmtime::Memory]: a size in bytes and the
    bytes themselves. The buffer is stored sparsely (a byte that was never
    written reads as zero, as in a fresh Wasm memory), so two memories with
    the same contents may differ as maps: [mem_equiv] is the equality the
    program can observe, and every operation respects it. *)

From S2P Require Import Prelude Word.

Record gmem := GMem {
  gm_size : Z;
  gm_bytes : gmap Z Z;
}.

(** A freshly instantiated memory of [n] bytes. *)
Definition zero_mem (n : Z) : gmem := GMem n ∅.

Definition read_byte (m : gmem) (i : Z) : Z := default 0 (gm_bytes m !! i).

(** The slice [data[p .. p + n]]. *)
Fixpoint read_from (m : gmem) (p : Z) (n : nat) : list Z :=
  match n with
  | O => []
  | S n => read_byte m p :: read_from m (p + 1) n
  end.
Definition read_bytes (m : gmem) (p n : Z) : list Z := read_from m p (Z.to_nat n).

Fixpoint insert_bytes (p : Z) (bs : list Z) (d : gmap Z Z) : gmap Z Z :=
  match bs with
  | [] => d
  | b :: bs => <[p:=b]> (insert_bytes (p + 1) bs d)
  end.

(** [data[p .. p + bs.len()].copy_from_slice(bs)]. *)
Definition write_bytes (m : gmem) (p : Z) (bs : list Z) : gmem :=
  GMem (gm_size m) (insert_bytes p bs (gm_bytes m)).

(** [data[p .. p + n].fill(0)]. *)
Definition zero_range (m : gmem) (p n : Z) : gmem :=
  write_bytes m p (replicate (Z.to_nat n) 0).

(** [memory.grow]: new pages are zero. *)
Definition grow_bytes (m : gmem) (n : Z) : gmem :=
  GMem (gm_size m + n) (gm_bytes m).

(** Bytes are bytes, and nothing is stored past the end. *)
Definition gmem_wf (m : gmem) : Prop :=
  0 ≤ gm_size m ∧
  ∀ i b, gm_bytes m !! i = Some b → byte_ok b ∧ 0 ≤ i < gm_size m.

Lemma read_bytes_seqZ m p n : read_bytes m p n = read_byte m <$> seqZ p n.
Proof.
  unfold read_bytes, seqZ. generalize (Z.to_nat n) as c. intros c. revert p.
  induction c as [|c IH]; intros p; simpl; [done|]. rewrite IH. do 2 f_equal.
  rewrite <- fmap_S_seq, <- !list_fmap_compose. apply list_fmap_ext. intros i x _. unfold compose. lia.
Qed.

(** ** Reading back what was written *)

Lemma lookup_insert_bytes p bs d i :
  insert_bytes p bs d !! i =
    if bool_decide (p ≤ i < p + Z.of_nat (length bs))
    then bs !! Z.to_nat (i - p) else d !! i.
Proof.
  revert p; induction bs as [|b bs IH]; intros p; simpl.
  { case_bool_decide; [lia|done]. }
  destruct (decide (i = p)) as [->|Hne].
  { rewrite lookup_insert_eq, bool_decide_true by lia.
    by replace (Z.to_nat (p - p)) with 0%nat by lia. }
  rewrite lookup_insert_ne by done. rewrite IH.
  repeat case_bool_decide; try lia; [|done].
  by replace (Z.to_nat (i - p)) with (S (Z.to_nat (i - (p + 1)))) by lia.
Qed.

Lemma read_byte_write_in m p bs i :
  p ≤ i < p + Z.of_nat (length bs) →
  read_byte (write_bytes m p bs) i = default 0 (bs !! Z.to_nat (i - p)).
Proof.
  intros. unfold read_byte. simpl. by rewrite lookup_insert_bytes, bool_decide_true.
Qed.

Lemma read_byte_write_out m p bs i :
  ¬ (p ≤ i < p + Z.of_nat (length bs)) →
  read_byte (write_bytes m p bs) i = read_byte m i.
Proof.
  intros. unfold read_byte. simpl. by rewrite lookup_insert_bytes, bool_decide_false.
Qed.

Lemma length_read_bytes m p n : 0 ≤ n → Z.of_nat (length (read_bytes m p n)) = n.
Proof. intros. rewrite !read_bytes_seqZ. rewrite length_fmap, length_seqZ. lia. Qed.

Lemma read_bytes_lookup m p n i :
  0 ≤ i < n → read_bytes m p n !! Z.to_nat i = Some (read_byte m (p + i)).
Proof.
  intros. rewrite !read_bytes_seqZ. rewrite list_lookup_fmap, lookup_seqZ_lt by lia.
  simpl. do 2 f_equal. lia.
Qed.

Lemma read_write_same m p bs :
  read_bytes (write_bytes m p bs) p (Z.of_nat (length bs)) = bs.
Proof.
  apply list_eq. intros i. destruct (decide (i < length bs)%nat) as [Hi|Hi].
  - replace i with (Z.to_nat (Z.of_nat i)) at 1 by lia.
    rewrite read_bytes_lookup by lia. rewrite read_byte_write_in by lia.
    replace (Z.to_nat (p + Z.of_nat i - p)) with i by lia.
    destruct (lookup_lt_is_Some_2 bs i Hi) as [x ->]. done.
  - rewrite !lookup_ge_None_2; [done|lia|].
    pose proof (length_read_bytes (write_bytes m p bs) p (Z.of_nat (length bs))). lia.
Qed.

Lemma read_write_disjoint m p bs q n :
  disjoint_ranges p (Z.of_nat (length bs)) q n →
  read_bytes (write_bytes m p bs) q n = read_bytes m q n.
Proof.
  intros Hd. rewrite !read_bytes_seqZ. apply list_fmap_ext. intros i x Hx.
  apply lookup_seqZ in Hx as [-> ?]. apply read_byte_write_out.
  unfold disjoint_ranges in Hd. lia.
Qed.

Lemma write_bytes_wf m p bs :
  gmem_wf m → bytes_ok bs → 0 ≤ p → p + Z.of_nat (length bs) ≤ gm_size m →
  gmem_wf (write_bytes m p bs).
Proof.
  intros [Hs Hm] Hbs Hp Hb. split; [done|]. simpl. intros i b.
  rewrite lookup_insert_bytes. case_bool_decide; [|eauto].
  intros Hl. rewrite Forall_lookup in Hbs. split; [by eapply Hbs|lia].
Qed.

Lemma grow_bytes_wf m n : 0 ≤ n → gmem_wf m → gmem_wf (grow_bytes m n).
Proof.
  intros ? [? Hm]. split; simpl; [lia|]. intros i b Hi.
  destruct (Hm i b Hi). split; [done|lia].
Qed.

Lemma read_bytes_ok m p n : gmem_wf m → bytes_ok (read_bytes m p n).
Proof.
  intros [_ Hm]. rewrite !read_bytes_seqZ. apply Forall_fmap, Forall_true. intros i.
  simpl. unfold read_byte. destruct (gm_bytes m !! i) eqn:E; simpl.
  - by apply Hm in E as [? _].
  - unfold byte_ok. lia.
Qed.

Lemma read_bytes_sub m p n q l :
  p ≤ q → 0 ≤ l → q + l ≤ p + n →
  read_bytes m q l = take (Z.to_nat l) (drop (Z.to_nat (q - p)) (read_bytes m p n)).
Proof.
  intros ???. apply list_eq. intros i. rewrite !read_bytes_seqZ.
  destruct (decide (Z.of_nat i < l)) as [Hi|Hi].
  - rewrite lookup_take_lt, lookup_drop, !list_lookup_fmap by lia.
    rewrite !lookup_seqZ_lt by lia. simpl. do 2 f_equal. lia.
  - rewrite !lookup_ge_None_2; [done| |].
    + rewrite length_take. lia.
    + rewrite length_fmap, length_seqZ. lia.
Qed.

Lemma read_zero_range m p n i :
  0 ≤ n → read_byte (zero_range m p n) i =
    if bool_decide (p ≤ i < p + n) then 0 else read_byte m i.
Proof.
  intros. unfold zero_range. case_bool_decide.
  - rewrite read_byte_write_in by (rewrite length_replicate; lia).
    by rewrite lookup_replicate_2 by lia.
  - apply read_byte_write_out. rewrite length_replicate. lia.
Qed.

(** ** Observational equality *)

Definition mem_equiv (m1 m2 : gmem) : Prop :=
  gm_size m1 = gm_size m2 ∧ ∀ i, read_byte m1 i = read_byte m2 i.

#[global] Instance gmem_equiv : Equiv gmem := mem_equiv.

#[global] Instance mem_equiv_equivalence : Equivalence (≡@{gmem}).
Proof.
  split.
  - intros m. by split.
  - intros m1 m2 [? ?]. by split.
  - intros m1 m2 m3 [? H1] [? H2]. split; [congruence|]. intros. by rewrite H1.
Qed.

#[global] Instance gm_size_proper : Proper ((≡) ==> (=)) gm_size.
Proof. by intros m1 m2 [? _]. Qed.

#[global] Instance read_byte_proper : Proper ((≡) ==> (=) ==> (=)) read_byte.
Proof. intros m1 m2 [_ H] i ? <-. apply H. Qed.

#[global] Instance read_bytes_proper : Proper ((≡) ==> (=) ==> (=) ==> (=)) read_bytes.
Proof.
  intros m1 m2 H p ? <- n ? <-. rewrite !read_bytes_seqZ. apply list_fmap_ext.
  intros. by rewrite H.
Qed.

#[global] Instance write_bytes_proper : Proper ((≡) ==> (=) ==> (=) ==> (≡)) write_bytes.
Proof.
  intros m1 m2 H p ? <- bs ? <-. split; [apply H|]. intros i.
  destruct (decide (p ≤ i < p + Z.of_nat (length bs))).
  - by rewrite !read_byte_write_in.
  - rewrite !read_byte_write_out by done. by rewrite H.
Qed.
