(* ===== verification/Text.v ===== *)
(** * UTF-8 text

    The two operations of Rust's standard library the kernel applies to guest
    strings and to host paths: [str::from_utf8] (is this byte string valid
    UTF-8?) and [String::from_utf8_lossy] (replace every maximal invalid
    prefix by U+FFFD). Both walk the bytes with the same one-character
    decoder, [utf8_next]. *)

From S2P Require Import Prelude Word.

Abbreviation bytes := (list Z).

Definition between (lo hi b : Z) : bool := (lo <=? b) && (b <=? hi).
Definition is_cont : Z → bool := between 128 191.

(** [utf8_tail (tests) bs]: how many of the expected continuation bytes are
    there, and whether all of them are. *)
Fixpoint utf8_tail (tests : list (Z → bool)) (bs : bytes) : nat * bool :=
  match tests, bs with
  | [], _ => (0%nat, true)
  | t :: ts, b :: bs =>
    if t b then let '(n, ok) := utf8_tail ts bs in (S n, ok) else (0%nat, false)
  | _ :: _, [] => (0%nat, false)
  end.

(** The continuation bytes a leading byte asks for; [None] for a byte that
    leads no character. *)
Definition utf8_expect (b : Z) : option (list (Z → bool)) :=
  if between 0 127 b then Some []
  else if between 194 223 b then Some [is_cont]
  else if b =? 224 then Some [between 160 191; is_cont]
  else if between 225 236 b then Some [is_cont; is_cont]
  else if b =? 237 then Some [between 128 159; is_cont]
  else if between 238 239 b then Some [is_cont; is_cont]
  else if b =? 240 then Some [between 144 191; is_cont; is_cont]
  else if between 241 243 b then Some [is_cont; is_cont; is_cont]
  else if b =? 244 then Some [between 128 143; is_cont; is_cont]
  else None.

(** Length of the next chunk of a non-empty string and whether it is a valid
    character. *)
Definition utf8_next (b : Z) (bs : bytes) : nat * bool :=
  match utf8_expect b with
  | None => (1%nat, false)
  | Some ts => let '(n, ok) := utf8_tail ts bs in (S n, ok)
  end.

Fixpoint utf8_valid_aux (fuel : nat) (bs : bytes) : bool :=
  match fuel, bs with
  | _, [] => true
  | O, _ :: _ => false
  | S fuel, b :: bs' =>
    let '(n, ok) := utf8_next b bs' in ok && utf8_valid_aux fuel (drop n bs)
  end.

(** [std::str::from_utf8(bs).is_ok()]. Each step consumes at least one byte,
    so the length is enough fuel. *)
Definition utf8_valid (bs : bytes) : bool := utf8_valid_aux (length bs) bs.

Definition REPLACEMENT : bytes := [239; 191; 189].

Fixpoint lossy_aux (fuel : nat) (bs : bytes) : bytes :=
  match fuel, bs with
  | _, [] => []
  | O, _ :: _ => []
  | S fuel, b :: bs' =>
    let '(n, ok) := utf8_next b bs' in
    (if ok then take n bs else REPLACEMENT) ++ lossy_aux fuel (drop n bs)
  end.

(** [String::from_utf8_lossy]. *)
Definition to_string_lossy (bs : bytes) : bytes := lossy_aux (length bs) bs.

(** ** Facts *)

Lemma utf8_next_pos b bs : (0 < (utf8_next b bs).1)%nat.
Proof. unfold utf8_next. destruct (utf8_expect b); [destruct (utf8_tail _ _)|]; simpl; lia. Qed.

Lemma lossy_aux_valid fuel bs :
  utf8_valid_aux fuel bs = true → lossy_aux fuel bs = bs.
Proof.
  revert bs. induction fuel as [|fuel IH]; intros [|b bs]; simpl; try done.
  destruct (utf8_next b bs) as [n ok]. intros [-> Hv]%andb_prop.
  rewrite IH by done. by rewrite take_drop.
Qed.

(** Lossy conversion leaves valid text alone. *)
Lemma to_string_lossy_valid bs : utf8_valid bs = true → to_string_lossy bs = bs.
Proof. apply lossy_aux_valid. Qed.

Lemma utf8_valid_aux_fuel fuel fuel' bs :
  (length bs ≤ fuel)%nat → (length bs ≤ fuel')%nat →
  utf8_valid_aux fuel bs = utf8_valid_aux fuel' bs.
Proof.
  revert fuel' bs. induction fuel as [|fuel IH]; intros fuel' [|b bs] H1 H2; simpl in *.
  - by destruct fuel'.
  - lia.
  - by destruct fuel'.
  - destruct fuel' as [|fuel']; [lia|]. simpl.
    pose proof (utf8_next_pos b bs). destruct (utf8_next b bs) as [n ok]. simpl in *.
    f_equal. apply IH; rewrite length_drop; simpl; lia.
Qed.

(** ASCII text is valid, whatever it is followed by. *)
Lemma utf8_valid_cons_ascii b bs :
  between 0 127 b = true → utf8_valid (b :: bs) = utf8_valid bs.
Proof.
  intros Hb. unfold utf8_valid. simpl. unfold utf8_next, utf8_expect. by rewrite Hb.
Qed.

Lemma utf8_valid_ascii bs : Forall (λ b, 0 ≤ b < 128) bs → utf8_valid bs = true.
Proof.
  induction 1 as [|b bs Hb _ IH]; [done|]. rewrite utf8_valid_cons_ascii; [done|].
  unfold between. lia.
Qed.

Lemma utf8_tail_app ts bs bs' n :
  utf8_tail ts bs = (n, true) → utf8_tail ts (bs ++ bs') = (n, true).
Proof.
  revert bs n. induction ts as [|t ts IH]; intros [|b bs] n; simpl; try done.
  destruct (t b); [|done]. destruct (utf8_tail ts bs) as [m ok] eqn:E.
  intros [= <- ->]. by rewrite (IH _ _ E).
Qed.

Lemma utf8_tail_len ts bs n ok : utf8_tail ts bs = (n, ok) → (n ≤ length bs)%nat.
Proof.
  revert bs n ok. induction ts as [|t ts IH]; intros [|b bs] n ok; simpl;
    try (intros; simplify_eq; lia).
  destruct (t b); [|intros; simplify_eq; lia].
  destruct (utf8_tail ts bs) as [m ok'] eqn:E. intros [= <- ->]. apply IH in E. lia.
Qed.

Lemma utf8_next_app b bs bs' n :
  utf8_next b bs = (n, true) → utf8_next b (bs ++ bs') = (n, true) ∧ (n ≤ S (length bs))%nat.
Proof.
  unfold utf8_next. destruct (utf8_expect b) as [ts|]; [|done].
  destruct (utf8_tail ts bs) as [m ok] eqn:E. intros [= <- ->].
  rewrite (utf8_tail_app _ _ _ _ E). apply utf8_tail_len in E. split; [done|lia].
Qed.

(** Validity is compositional. *)
Lemma utf8_valid_app bs bs' :
  utf8_valid bs = true → utf8_valid (bs ++ bs') = utf8_valid bs'.
Proof.
  remember (length bs) as len eqn:Hlen. revert bs Hlen.
  induction len as [len IH] using lt_wf_ind. intros [|b bs] Hlen; [done|].
  unfold utf8_valid. simpl. pose proof (utf8_next_pos b bs) as Hpos.
  destruct (utf8_next b bs) as [n ok] eqn:E. intros [-> Hv]%andb_prop. simpl in Hpos.
  destruct (utf8_next_app _ _ bs' _ E) as [-> Hle]. simpl.
  destruct n as [|n]; [lia|]. simpl in *. rewrite drop_app_le by lia.
  rewrite (utf8_valid_aux_fuel _ (length (drop n bs ++ bs')))
    by (rewrite ?length_app, ?length_drop; lia).
  apply (IH (length (drop n bs))); [rewrite length_drop; lia|done|].
  unfold utf8_valid. rewrite (utf8_valid_aux_fuel _ (length bs)); [done|lia|].
  rewrite length_drop. lia.
Qed.

(** ** Splitting

    [str::split] at a one-byte separator. *)

Fixpoint split_on (sep : Z) (s : bytes) : list bytes :=
  match s with
  | [] => [[]]
  | c :: s =>
    if c =? sep then [] :: split_on sep s
    else match split_on sep s with
    | [] => [[c]]
    | w :: ws => (c :: w) :: ws
    end
  end.

Section split.
Context (sep : Z).

Lemma split_on_no_sep w : sep ∉ w → split_on sep w = [w].
Proof.
  induction w as [|c w IH]; [done|]. intros Hn. apply not_elem_of_cons in Hn as [Hc Hw].
  simpl. rewrite (proj2 (Z.eqb_neq c sep)) by done. by rewrite IH.
Qed.

Lemma split_on_app w s : sep ∉ w → split_on sep (w ++ sep :: s) = w :: split_on sep s.
Proof.
  induction w as [|c w IH]; simpl; [by rewrite Z.eqb_refl|].
  intros Hn. apply not_elem_of_cons in Hn as [Hc Hw].
  rewrite (proj2 (Z.eqb_neq c sep)) by done. by rewrite IH.
Qed.

Lemma split_on_Forall s : Forall (λ w, sep ∉ w) (split_on sep s).
Proof.
  induction s as [|c s IH]; simpl.
  - constructor; [set_solver|constructor].
  - destruct (c =? sep) eqn:Hc.
    + constructor; [set_solver|done].
    + to_prop. destruct (split_on sep s) as [|w ws].
      * constructor; [|constructor]. set_solver.
      * apply Forall_cons in IH as [? ?]. constructor; [|done]. set_solver.
Qed.

End split.
