(* ===== verification/Parse.v ===== *)
(** * Numbers and addresses as text

    The conversions of Rust's standard library that the command line, the
    environment variables and the resolver go through: [str::parse] for
    integers and for [IpAddr], [Display] for integers, [str::trim] and
    [str::lines]. Strings are their UTF-8 bytes. *)

From S2P Require Import Prelude Word Text.

(** An ASCII literal as bytes. *)
Definition str (s : string) : bytes := (λ a, Z.of_N (Ascii.N_of_ascii a)) <$> String.list_ascii_of_string s.

(** ** Integers *)

Definition is_digit : Z → bool := between 48 57.

(** The value of a string of decimal digits that continues [acc]; [None] for a
    character that is no digit and for a value above [max]. *)
Fixpoint dec_value (max acc : Z) (s : bytes) : option Z :=
  match s with
  | [] => Some acc
  | c :: s =>
    if is_digit c then
      let acc := acc * 10 + (c - 48) in
      if acc <=? max then dec_value max acc s else None
    else None
  end.

(** [str::parse] at an unsigned type: digits after an optional plus sign. *)
Definition parse_unsigned (max : Z) (s : bytes) : option Z :=
  match s with
  | [] => None
  | c :: s' => if (c =? 43) && negb (bool_decide (s' = [])) then dec_value max 0 s' else dec_value max 0 s
  end.

Definition parse_u16 : bytes → option Z := parse_unsigned U16_MAX.
Definition parse_u32 : bytes → option Z := parse_unsigned U32_MAX.
Definition parse_u64 : bytes → option Z := parse_unsigned U64_MAX.
Definition parse_usize : bytes → option Z := parse_unsigned U64_MAX.

(** The same at [i32]: a minus sign is allowed. *)
Definition parse_i32 (s : bytes) : option Z :=
  match s with
  | [] => None
  | c :: s' =>
    if negb (bool_decide (s' = [])) && (c =? 45) then Z.opp <$> dec_value (2 ^ 31) 0 s'
    else parse_unsigned (2 ^ 31 - 1) s
  end.

(** The digits of [n], before the text [s]. *)
Fixpoint dec_digits (fuel : nat) (n : Z) (s : bytes) : bytes :=
  match fuel with
  | O => s
  | S fuel =>
    let s := 48 + n mod 10 :: s in
    if n <? 10 then s else dec_digits fuel (n / 10) s
  end.

(** [Display] of an unsigned integer; there are no more decimal digits than
    binary ones. *)
Definition display_u (n : Z) : bytes := dec_digits (S (Z.to_nat (Z.log2 n))) n [].

Definition display (n : Z) : bytes := if n <? 0 then 45 :: display_u (- n) else display_u n.

(** ** Lines and white space *)

(** The encodings of the characters with the property White_Space. *)
Definition white_space : list bytes :=
  ((λ c, [c]) <$> [9; 10; 11; 12; 13; 32]) ++
  [[194; 133]; [194; 160]; [225; 154; 128]] ++
  ((λ c, [226; 128; c]) <$> [128; 129; 130; 131; 132; 133; 134; 135; 136; 137; 138; 168; 169; 175]) ++
  [[226; 129; 159]; [227; 128; 128]].

(** Drop leading members of [ws]. *)
Fixpoint trim_with (ws : list bytes) (fuel : nat) (s : bytes) : bytes :=
  match fuel with
  | O => s
  | S fuel =>
    match List.find (λ w, bool_decide (w `prefix_of` s)) ws with
    | Some w => trim_with ws fuel (drop (length w) s)
    | None => s
    end
  end.

Definition trim_start (s : bytes) : bytes := trim_with white_space (length s) s.
Definition trim_end (s : bytes) : bytes :=
  reverse (trim_with (reverse <$> white_space) (length s) (reverse s)).
Definition trim (s : bytes) : bytes := trim_end (trim_start s).

(** One line, without a carriage return at its end. *)
Definition strip_cr (s : bytes) : bytes :=
  match reverse s with 13 :: s' => reverse s' | _ => s end.

(** [str::lines]: the text after the last newline is a line unless empty. *)
Definition lines (s : bytes) : list bytes :=
  let ls := split_on 10 s in
  let ls := if bool_decide (last ls = Some []) then removelast ls else ls in
  strip_cr <$> ls.

(** [str::strip_prefix]. *)
Definition strip_prefix (p s : bytes) : option bytes :=
  if bool_decide (p `prefix_of` s) then Some (drop (length p) s) else None.

(** [str::contains] of a string. *)
Fixpoint str_contains (p s : bytes) : bool :=
  bool_decide (p `prefix_of` s) || match s with [] => false | _ :: s => str_contains p s end.

(** ** Facts *)

Lemma dec_value_range max s : ∀ acc n, 0 ≤ acc ≤ max → dec_value max acc s = Some n → 0 ≤ n ≤ max.
Proof.
  induction s as [|c s IH]; intros acc n Ha; cbn [dec_value]; [by intros [= <-]|].
  unfold is_digit, between. destruct (_ && _) eqn:E; [|done]. to_prop.
  case_if; [|done]. apply IH. lia.
Qed.

Lemma parse_unsigned_range max s n : 0 ≤ max → parse_unsigned max s = Some n → 0 ≤ n ≤ max.
Proof.
  intros Hm. destruct s as [|c s]; [done|]. unfold parse_unsigned.
  case_if; intros Hv; by apply dec_value_range in Hv.
Qed.

Lemma parse_u16_range s n : parse_u16 s = Some n → is_u 16 n.
Proof. intros H%parse_unsigned_range; [|done]. unfold U16_MAX in H. unfold is_u. lia. Qed.

Lemma parse_u32_range s n : parse_u32 s = Some n → is_u 32 n.
Proof. intros H%parse_unsigned_range; [|done]. unfold U32_MAX in H. unfold is_u. lia. Qed.

Lemma parse_u64_range s n : parse_u64 s = Some n → is_u 64 n.
Proof. intros H%parse_unsigned_range; [|done]. unfold U64_MAX in H. unfold is_u. lia. Qed.

Lemma parse_i32_range s n : parse_i32 s = Some n → is_i 32 n.
Proof.
  unfold parse_i32, is_i. destruct s as [|c s]; [done|]. case_if.
  - intros (m & Hm & ->)%fmap_Some. apply dec_value_range in Hm; lia.
  - intros Hp%parse_unsigned_range; lia.
Qed.

(** The digits of [n], read after [0], give [n]. *)
Lemma dec_value_digits max fuel : ∀ n s,
  0 ≤ n ≤ max → n < 2 ^ Z.of_nat fuel → (0 < fuel)%nat →
  dec_value max 0 (dec_digits fuel n s) = dec_value max n s.
Proof.
  induction fuel as [|fuel IH]; intros n s Hn Hf Hp; [lia|]. cbn [dec_digits].
  pose proof (Z.mod_pos_bound n 10 ltac:(lia)) as Hd.
  assert (is_digit (48 + n mod 10) = true) as Hdig.
  { unfold is_digit, between. apply andb_true_intro. split; apply Z.leb_le; lia. }
  destruct (n <? 10) eqn:E; to_prop.
  - cbn [dec_value]. rewrite Hdig. rewrite Z.mod_small by lia.
    rewrite (proj2 (Z.leb_le _ _)) by lia. f_equal. lia.
  - pose proof (Z.div_mod n 10 ltac:(lia)) as Hdm. rewrite IH.
    + cbn [dec_value]. rewrite Hdig. rewrite (proj2 (Z.leb_le _ _)) by lia. f_equal. lia.
    + split; [apply Z.div_pos; lia|lia].
    + rewrite Nat2Z.inj_succ, Z.pow_succ_r in Hf by lia. lia.
    + destruct fuel; [|lia]. change (2 ^ Z.of_nat 1) with 2 in Hf. lia.
Qed.

Lemma dec_digits_digits fuel : ∀ n s, 0 ≤ n → Forall (λ c, is_digit c = true) s →
  Forall (λ c, is_digit c = true) (dec_digits fuel n s).
Proof.
  induction fuel as [|fuel IH]; intros n s Hn Hs; [done|]. cbn [dec_digits].
  pose proof (Z.mod_pos_bound n 10 ltac:(lia)).
  assert (Forall (λ c, is_digit c = true) (48 + n mod 10 :: s)).
  { constructor; [|done]. unfold is_digit, between. apply andb_true_intro. split; apply Z.leb_le; lia. }
  case_if; [done|]. apply IH; [apply Z.div_pos; lia|done].
Qed.

Lemma dec_digits_cons fuel : ∀ n s, (0 < fuel)%nat ∨ s ≠ [] → dec_digits fuel n s ≠ [].
Proof.
  induction fuel as [|fuel IH]; intros n s [H|H]; cbn [dec_digits]; try done; try lia;
    (case_if; [done|]); apply IH; by right.
Qed.

Lemma display_u_digits n : 0 ≤ n → Forall (λ c, is_digit c = true) (display_u n).
Proof. intros. apply dec_digits_digits; [done|constructor]. Qed.

Lemma display_u_cons n : display_u n ≠ [].
Proof. apply dec_digits_cons. left. lia. Qed.

(** A printed number parses to itself. *)
Lemma parse_display_u max n : 0 ≤ n ≤ max → parse_unsigned max (display_u n) = Some n.
Proof.
  intros Hn. assert (dec_value max 0 (display_u n) = Some n) as Hv.
  { unfold display_u. rewrite dec_value_digits; [done|done| |lia].
    rewrite Nat2Z.inj_succ, Z2Nat.id by apply Z.log2_nonneg.
    destruct (decide (n = 0)) as [->|]; [done|]. apply Z.log2_spec. lia. }
  pose proof (display_u_digits n ltac:(lia)) as Hd. pose proof (display_u_cons n) as Hc.
  destruct (display_u n) as [|c s]; [done|]. apply Forall_cons in Hd as [Hd _].
  unfold parse_unsigned. destruct (c =? 43) eqn:E; [|done]. to_prop. by subst.
Qed.

Lemma parse_display_i32 n : 0 ≤ n < 2 ^ 31 → parse_i32 (display_u n) = Some n.
Proof.
  intros Hn. pose proof (parse_display_u (2 ^ 31 - 1) n ltac:(lia)) as Hp. revert Hp.
  pose proof (display_u_digits n ltac:(lia)) as Hd. pose proof (display_u_cons n) as Hc.
  destruct (display_u n) as [|c s]; [done|]. apply Forall_cons in Hd as [Hd _].
  unfold parse_i32. destruct (c =? 45) eqn:E; to_prop; [by subst|]. by rewrite andb_false_r.
Qed.

Lemma strip_prefix_Some p s t : strip_prefix p s = Some t ↔ s = p ++ t.
Proof.
  unfold strip_prefix. case_bool_decide as Hp.
  - destruct Hp as [u ->]. rewrite drop_app_length. naive_solver.
  - split; [done|]. intros ->. destruct Hp. by exists t.
Qed.

Lemma strip_prefix_None p s : strip_prefix p s = None ↔ ∀ t, s ≠ p ++ t.
Proof.
  split.
  - intros Hn t Ht. apply strip_prefix_Some in Ht. congruence.
  - intros Hs. destruct (strip_prefix p s) eqn:E; [|done]. apply strip_prefix_Some in E. naive_solver.
Qed.

(** ** Addresses

    The parser behind [str::parse::<IpAddr>] (core::net::parser): every reader
    takes the rest of the text and gives back a value with what it leaves, or
    [None] and consumes nothing. *)

(** [std::net::IpAddr], by its octets. *)
Inductive IpAddr :=
  | IpV4 (octets : bytes)
  | IpV6 (octets : bytes).

#[global] Instance IpAddr_eq_dec : EqDecision IpAddr.
Proof. solve_decision. Defined.

(** The octets are 4 or 16 bytes. *)
Definition ip_ok (ip : IpAddr) : Prop :=
  match ip with IpV4 o => length o = 4%nat | IpV6 o => length o = 16%nat end.

Definition reader (A : Type) := bytes → option (A * bytes).

Definition to_digit (radix c : Z) : option Z :=
  let d := if is_digit c then c - 48 else if between 97 122 c then c - 87
           else if between 65 90 c then c - 55 else radix in
  if d <? radix then Some d else None.

(** All the digits there are: their value and how many they are. *)
Fixpoint read_digits (radix acc : Z) (n : nat) (s : bytes) : Z * nat * bytes :=
  match s with
  | [] => (acc, n, [])
  | c :: s' =>
    match to_digit radix c with
    | Some d => read_digits radix (acc * radix + d) (S n) s'
    | None => (acc, n, s)
    end
  end.

Definition read_number (radix : Z) (max_digits : nat) (zero_prefix : bool) (max : Z) : reader Z := λ s,
  let '(v, n, rest) := read_digits radix 0 0 s in
  if bool_decide (n = 0%nat) || bool_decide (max_digits < n)%nat then None
  else if negb zero_prefix && bool_decide (head s = Some 48) && bool_decide (1 < n)%nat then None
  else if v <=? max then Some (v, rest) else None.

Definition read_char (c : Z) (s : bytes) : option bytes :=
  match s with c' :: s' => if c' =? c then Some s' else None | [] => None end.

(** A separator before every element but the first. *)
Definition read_separator {A} (sep : Z) (i : nat) (inner : reader A) : reader A := λ s,
  match i with
  | O => inner s
  | S _ => match read_char sep s with Some s => inner s | None => None end
  end.

Fixpoint read_octets (n i : nat) : reader bytes := λ s,
  match n with
  | O => Some ([], s)
  | S n =>
    let? (v, s) := read_separator 46 i (read_number 10 3 false 255) s else None;
    let? (o, s) := read_octets n (S i) s else None;
    Some (v :: o, s)
  end.

Definition read_ipv4_addr : reader bytes := read_octets 4 0.

(** At most [n] groups; true when the last two were an IPv4 address. *)
Fixpoint read_groups (n i : nat) (s : bytes) : list Z * bool * bytes :=
  match n with
  | O => ([], false, s)
  | S n =>
    let v4 := match n with O => None | S _ => read_separator 58 i read_ipv4_addr s end in
    match v4 with
    | Some (o, s) =>
      ([from_le_bytes (reverse (take 2 o)); from_le_bytes (reverse (drop 2 o))], true, s)
    | None =>
      match read_separator 58 i (read_number 16 4 true 65535) s with
      | None => ([], false, s)
      | Some (g, s) => let '(gs, v4, s) := read_groups n (S i) s in (g :: gs, v4, s)
      end
    end
  end.

Definition read_ipv6_addr : reader (list Z) := λ s,
  let '(hd, v4, s) := read_groups 8 0 s in
  if bool_decide (length hd = 8%nat) then Some (hd, s)
  else if v4 then None
  else
    let? s := read_char 58 s else None;
    let? s := read_char 58 s else None;
    let '(tl, _, s) := read_groups (7 - length hd) 0 s in
    Some (hd ++ replicate (8 - length hd - length tl) 0 ++ tl, s).

(** The whole text has to be the address. *)
Definition parse_ip (s : bytes) : option IpAddr :=
  match read_ipv4_addr s with
  | Some (o, rest) => if bool_decide (rest = []) then Some (IpV4 o) else None
  | None =>
    match read_ipv6_addr s with
    | Some (gs, rest) =>
      if bool_decide (rest = []) then Some (IpV6 (concat ((λ g, [g / 256; g mod 256]) <$> gs))) else None
    | None => None
    end
  end.

(** [Display] of an IPv4 address. *)
Definition join_with (sep : bytes) (ws : list bytes) : bytes :=
  match ws with
  | [] => []
  | w :: ws => w ++ concat ((λ w, sep ++ w) <$> ws)
  end.

Definition display_ipv4 (o : bytes) : bytes := join_with [46] (display_u <$> o).

(** Text that no decimal digit continues. *)
Definition stops (s : bytes) : Prop := match s with c :: _ => is_digit c = false | [] => True end.

Lemma to_digit_10 c : to_digit 10 c = if is_digit c then Some (c - 48) else None.
Proof.
  unfold to_digit, is_digit, between. repeat case_if; to_prop; try done; lia.
Qed.

Lemma read_digits_app ds rest : Forall (λ c, is_digit c = true) ds → stops rest → ∀ acc n,
  read_digits 10 acc n (ds ++ rest) = ((read_digits 10 acc n ds).1.1, (read_digits 10 acc n ds).1.2, rest).
Proof.
  intros Hds Hr. induction Hds as [|c ds Hc _ IH]; intros acc n.
  - destruct rest as [|c rest]; [done|]. cbn in Hr |- *. by rewrite to_digit_10, Hr.
  - cbn. rewrite to_digit_10, Hc. apply IH.
Qed.

Lemma read_number_display v rest : byte_ok v → stops rest →
  read_number 10 3 false 255 (display_u v ++ rest) = Some (v, rest).
Proof.
  intros Hv Hr. unfold read_number.
  rewrite read_digits_app by (try apply display_u_digits; first [done|unfold byte_ok in Hv; lia]).
  assert (head (display_u v ++ rest) = head (display_u v)) as ->.
  { pose proof (display_u_cons v). by destruct (display_u v). }
  assert (∀ n, (n < 256)%nat →
    read_number 10 3 false 255 (display_u (Z.of_nat n)) = Some (Z.of_nat n, [])) as Hall.
  { intros n Hn. assert (n ∈ seq 0 256) as Hin by (apply elem_of_seq; lia). clear Hn. revert n Hin.
    apply Forall_forall, (bool_decide_unpack _). vm_compute. exact I. }
  specialize (Hall (Z.to_nat v) ltac:(unfold byte_ok in Hv; lia)).
  rewrite Z2Nat.id in Hall by (unfold byte_ok in Hv; lia). unfold read_number in Hall.
  destruct (read_digits 10 0 0 (display_u v)) as [[x n] r]. cbn [fst snd].
  repeat case_if; try done. by injection Hall as -> _.
Qed.

(** A printed IPv4 address parses to itself. *)
Lemma parse_display_ipv4 o : length o = 4%nat → bytes_ok o → parse_ip (display_ipv4 o) = Some (IpV4 o).
Proof.
  intros Hl Ho. destruct o as [|a [|b [|c [|d []]]]]; try done.
  repeat (apply Forall_cons in Ho as [? Ho]).
  unfold parse_ip, read_ipv4_addr, display_ipv4. cbn [fmap list_fmap join_with concat app].
  rewrite app_nil_r. cbn [read_octets read_separator].
  repeat (rewrite read_number_display by done; cbn [read_octets read_separator read_char app Z.eqb Pos.eqb]).
  rewrite <- (app_nil_r (display_u d)), read_number_display by done.
  cbn [read_octets]. by rewrite bool_decide_true.
Qed.

Lemma read_octets_length n : ∀ i s o rest, read_octets n i s = Some (o, rest) → length o = n.
Proof.
  induction n as [|n IH]; intros i s o rest; cbn [read_octets]; [by intros [= <- _]|].
  destruct (read_separator _ _ _ _) as [[v s']|]; [|done].
  destruct (read_octets n (S i) s') as [[o' s'']|] eqn:E; [|done]. intros [= <- _]. simpl.
  f_equal. by eapply IH.
Qed.

Lemma read_groups_length n : ∀ i s gs v4 rest, read_groups n i s = (gs, v4, rest) → (length gs ≤ n)%nat.
Proof.
  induction n as [|n IH]; intros i s gs v4 rest; cbn [read_groups]; [by intros [= <- _ _]|].
  destruct (match n with O => None | S _ => _ end) as [[o s']|] eqn:E.
  - intros [= <- _ _]. destruct n; [done|]. simpl. lia.
  - destruct (read_separator 58 i (read_number 16 4 true 65535) s) as [[g s']|]; [|intros Hg; simplify_eq; simpl; lia].
    destruct (read_groups n (S i) s') as [[gs' v4'] s''] eqn:E'. intros Hg. simplify_eq. apply IH in E'. simpl. lia.
Qed.

(** What parses has the right number of octets. *)
Lemma parse_ip_ok s ip : parse_ip s = Some ip → ip_ok ip.
Proof.
  unfold parse_ip. destruct (read_ipv4_addr s) as [[o rest]|] eqn:E4.
  { case_if; [|done]. intros [= <-]. by eapply read_octets_length. }
  destruct (read_ipv6_addr s) as [[gs rest]|] eqn:E6; [|done]. case_if; [|done]. intros [= <-].
  assert (length gs = 8%nat) as Hl.
  { revert E6. unfold read_ipv6_addr. destruct (read_groups 8 0 s) as [[hd v4] s1] eqn:E1.
    case_if; [by intros [= <- _]|]. case_if; [done|].
    destruct (read_char 58 s1) as [s2|]; [|done]. destruct (read_char 58 s2) as [s3|]; [|done].
    destruct (read_groups (7 - length hd) 0 s3) as [[tl v4'] s4] eqn:E2. intros [= <- _].
    apply read_groups_length in E1, E2. rewrite !length_app, length_replicate. lia. }
  simpl. rewrite length_concat, <- list_fmap_compose.
  do 8 (destruct gs as [|? gs]; [done|]). by destruct gs.
Qed.

(** Text without white space around it is left alone. *)
Lemma trim_with_id ws fuel s :
  Forall (λ w, ∀ c, head w = Some c → head s ≠ Some c) ws → Forall (λ w, w ≠ []) ws → trim_with ws fuel s = s.
Proof.
  intros Hw Hne. destruct fuel; [done|]. cbn [trim_with].
  destruct (List.find _ ws) as [w|] eqn:E; [|done]. apply List.find_some in E as [Hin Hp].
  to_prop. apply list_elem_of_In in Hin. rewrite Forall_forall in Hw, Hne.
  destruct w as [|c w]; [by destruct (Hne _ Hin)|]. destruct Hp as [t ->].
  by destruct (Hw _ Hin c eq_refl).
Qed.

Lemma trim_id s : Forall (λ c, 33 ≤ c < 128) s → trim s = s.
Proof.
  assert (∀ s c, Forall (λ c, 33 ≤ c < 128) s → head s = Some c → 33 ≤ c < 128) as Hhd.
  { intros [|c' s'] c Hs; [done|]. intros [= ->]. by apply Forall_cons in Hs as [? _]. }
  assert (∀ ws fuel s,
    forallb (λ w, match w with c :: _ => (c <? 33) || (128 <=? c) | [] => false end) ws = true →
    Forall (λ c, 33 ≤ c < 128) s → trim_with ws fuel s = s) as Ht.
  { intros ws fuel s' Hws Hs. apply Is_true_true, forallb_True in Hws.
    apply trim_with_id; (eapply Forall_impl; [exact Hws|]); intros [|c' w] Hc; try done.
    intros c [= <-] Hh. apply (Hhd _ _ Hs) in Hh. apply Is_true_true, orb_prop in Hc as [Hc|Hc]; to_prop; lia. }
  intros Hs. unfold trim, trim_start, trim_end.
  rewrite (Ht white_space) by done. rewrite Ht by (done || by apply Forall_reverse).
  apply reverse_involutive.
Qed.

(** ** Lists as text *)

Lemma display_ipv4_chars o : bytes_ok o → Forall (λ c, is_digit c = true ∨ c = 46) (display_ipv4 o).
Proof.
  assert (∀ v, byte_ok v → Forall (λ c, is_digit c = true ∨ c = 46) (display_u v)) as Hd.
  { intros v Hv. eapply Forall_impl; [apply display_u_digits; unfold byte_ok in Hv; lia|]. by left. }
  intros Ho. destruct Ho as [|v o Hv Ho]; [constructor|]. unfold display_ipv4. cbn [fmap list_fmap join_with].
  apply Forall_app. split; [by apply Hd|]. induction Ho as [|v' o Hv' Ho IH]; cbn; [constructor|].
  constructor; [by right|]. apply Forall_app. split; [by apply Hd|done].
Qed.

Lemma display_ipv4_no_comma o : bytes_ok o → 44 ∉ display_ipv4 o.
Proof.
  intros Ho Hin. apply display_ipv4_chars in Ho. rewrite Forall_forall in Ho. by destruct (Ho _ Hin).
Qed.

Lemma trim_display_ipv4 o : bytes_ok o → trim (display_ipv4 o) = display_ipv4 o.
Proof.
  intros Ho. apply trim_id. eapply Forall_impl; [exact (display_ipv4_chars _ Ho)|].
  intros c [Hc | ->]; [|lia]. unfold is_digit, between in Hc. to_prop. lia.
Qed.

Lemma display_ipv4_cons o : o ≠ [] → display_ipv4 o ≠ [].
Proof.
  destruct o as [|v o]; [done|]. intros _. unfold display_ipv4. cbn [fmap list_fmap join_with].
  pose proof (display_u_cons v). by destruct (display_u v).
Qed.

(** Splitting undoes joining. *)
Lemma split_join_with sep ws :
  ws ≠ [] → Forall (λ w, sep ∉ w) ws → split_on sep (join_with [sep] ws) = ws.
Proof.
  intros Hne Hws. destruct Hws as [|w ws Hw Hws]; [done|]. clear Hne. cbn [join_with]. revert w Hw.
  induction Hws as [|w' ws Hw' Hws IH]; intros w Hw; cbn.
  - rewrite app_nil_r. by apply split_on_no_sep.
  - rewrite split_on_app by done. f_equal. by apply IH.
Qed.
