(* ===== verification/Meter.v ===== *)
(** * The CPU budget (src/meter.rs)

    A guest's budget is given in milliseconds and metered by wasmtime as fuel.
    This file has the two conversions, with [u64::MAX] as the mark of an
    unlimited budget, and the test that recognises the trap of a guest that
    ran out. *)

From S2P Require Import Prelude Word Text Parse.

Definition FUEL_PER_MS : Z := 1000000.
Definition YIELD_INTERVAL_FUEL : Z := U64_MAX.

Definition ms_to_fuel (ms : Z) : Z :=
  if ms =? U64_MAX then U64_MAX else saturating_mul_u64 ms FUEL_PER_MS.

Definition fuel_to_ms (fuel : Z) : Z :=
  if fuel =? U64_MAX then U64_MAX else fuel / FUEL_PER_MS.

(** A [wasmtime::Error]: the trap it can be downcast to, its text and the
    texts of the chain of its sources. *)
Inductive Trap := OutOfFuel | OtherTrap.

#[global] Instance Trap_eq_dec : EqDecision Trap.
Proof. solve_decision. Defined.

Record wasm_error := MkWasmError {
  we_trap : option Trap;
  we_display : bytes;
  we_sources : list bytes;
}.

Definition FUEL_TEXT : bytes := str "all fuel consumed by WebAssembly".

Definition is_out_of_fuel (e : wasm_error) : bool :=
  if bool_decide (we_trap e = Some OutOfFuel) then true
  else if str_contains FUEL_TEXT (we_display e) then true
  else existsb (str_contains FUEL_TEXT) (we_sources e).

(** ** Theorems *)

(** C40: the two conversions fit together at every 64-bit value, saturation and
    the mark of an unlimited budget included: a fuel amount is worth [ms]
    milliseconds exactly when it covers the budget of [ms] milliseconds; both
    stay within 64 bits, and converting a budget back gives it unless the
    fuel saturated, when it reads as unlimited. *)
Theorem meter_galois ms fuel :
  is_u 64 ms → is_u 64 fuel →
  (ms_to_fuel ms ≤ fuel ↔ ms ≤ fuel_to_ms fuel) ∧
  is_u 64 (ms_to_fuel ms) ∧ is_u 64 (fuel_to_ms fuel) ∧
  (fuel_to_ms (ms_to_fuel ms) = ms ∨ ms_to_fuel ms = U64_MAX ∧ fuel_to_ms (ms_to_fuel ms) = U64_MAX).
Proof.
  unfold is_u, ms_to_fuel, fuel_to_ms, saturating_mul_u64, FUEL_PER_MS.
  change (2 ^ 64) with (U64_MAX + 1). intros Hms Hf.
  assert (0 < U64_MAX) as Hm by done.
  pose proof (Z.div_mod fuel 1000000 ltac:(lia)). pose proof (Z.mod_pos_bound fuel 1000000 ltac:(lia)).
  destruct (ms =? U64_MAX) eqn:E1; destruct (fuel =? U64_MAX) eqn:E2; to_prop; subst.
  - rewrite Z.eqb_refl. split_and!; lia.
  - rewrite Z.eqb_refl. split_and!; lia.
  - destruct (_ =? _) eqn:E; to_prop; split_and!; try lia.
    left. rewrite Z.min_l by lia. by rewrite Z.div_mul.
  - destruct (Z.min (ms * 1000000) U64_MAX =? U64_MAX) eqn:E; to_prop; split_and!; try lia.
    left. rewrite Z.min_l by lia. by rewrite Z.div_mul.
Qed.

Lemma meter_galois_witness :
  ms_to_fuel 50 = 50000000 ∧ (ms_to_fuel 50 ≤ 50999999 ↔ 50 ≤ fuel_to_ms 50999999) ∧
  fuel_to_ms (ms_to_fuel (2 ^ 60)) = U64_MAX.
Proof.
  split; [done|]. split; [|done]. apply (meter_galois 50 50999999); by split.
Defined.

(** The trap is recognised however wasmtime wraps it. *)
Example out_of_fuel_forms :
  is_out_of_fuel (MkWasmError (Some OutOfFuel) [] []) = true ∧
  is_out_of_fuel (MkWasmError None (str "error") [str "wasm trap: all fuel consumed by WebAssembly"]) = true ∧
  is_out_of_fuel (MkWasmError (Some OtherTrap) (str "unreachable") []) = false.
Proof. by vm_compute. Qed.
