(* ===== verification/Percentile.v ===== *)
(** * The percentiles of [bench] (src/cli/bench.rs)

    [bench] picks its figures out of the sorted samples with an index computed
    in [f64]: the fraction [p / 100.0] times [len - 1], rounded. The arithmetic
    is the one of IEEE 754 binary64, as the Standard Library specifies it
    ([SpecFloat]). The fractions are not exact in binary, so that the index is
    in range, and that the percentiles are in order, is a fact about rounding;
    it is proved for up to 2^40 samples. *)

From Stdlib Require Import SpecFloat.
From S2P Require Import Prelude Word.

(** ** Binary64 *)

Notation f64 := spec_float.
Definition f64_div : f64 → f64 → f64 := SFdiv 53 1024.
Definition f64_mul : f64 → f64 → f64 := SFmul 53 1024.
Definition f64_sub : f64 → f64 → f64 := SFsub 53 1024.

(** [n as f64], and the literals [50.0], [100.0] and so on. *)
Definition f64_of (n : Z) : f64 := binary_normalize 53 1024 n 0 false.

(** [x.round() as usize]: half away from zero, then a cast that saturates. *)
Definition round_usize (x : f64) : Z :=
  match x with
  | S754_finite false m e =>
    Z.min U64_MAX
      (if 0 <=? e then Zpos m * 2 ^ e else (Zpos m + 2 ^ (- e - 1)) / 2 ^ (- e))
  | S754_infinity false => U64_MAX
  | _ => 0
  end.

(** ** The closure [pct] *)

Definition pct_index (p n : Z) : Z :=
  round_usize (f64_mul (f64_div (f64_of p) (f64_of 100)) (f64_sub (f64_of n) (f64_of 1))).

(** The samples are sorted; an index out of range would panic. *)
Definition pct (p : Z) (samples : list Z) : option Z :=
  samples !! Z.to_nat (pct_index p (Z.of_nat (length samples))).

(** ** Rounding *)

Lemma Zdigits2_log2 m : Zdigits2 (Zpos m) = Z.log2 (Zpos m) + 1.
Proof.
  assert (digits2_pos m = Pos.size m) as Hs by (induction m; simpl; congruence).
  simpl. rewrite Hs. destruct m; simpl; lia.
Qed.

(** [m] shifted right by [p] bits: the quotient, with the first bit shifted out
    and whether any of the others is set. *)
Definition shr_ok (m p : Z) (r : shr_record) : Prop :=
  0 ≤ p ∧ 0 ≤ shr_m r ∧
  ∃ low, 2 * m = 2 * shr_m r * 2 ^ p + Z.b2z (shr_r r) * 2 ^ p + low ∧
    0 ≤ low < 2 ^ p ∧ shr_s r = negb (low =? 0).

Lemma shr_1_ok m p r : shr_ok m p r → shr_ok m (p + 1) (shr_1 r).
Proof.
  intros (Hp & Hm & low & He & Hl & Hs). destruct r as [x b s]. simpl in *.
  assert (2 ^ (p + 1) = 2 * 2 ^ p) as H2 by (rewrite Z.pow_add_r; lia).
  assert (0 < 2 ^ p) by lia.
  assert (b || s = negb (Z.b2z b * 2 ^ p + low =? 0)) as Hbs.
  { subst s. destruct b; simpl; [|done]. symmetry. apply negb_true_iff, Z.eqb_neq. nia. }
  destruct x as [|[y|y|]|y]; simpl in *; [| | | |done].
  all: split_and!; [lia|simpl; lia|].
  all: exists (Z.b2z b * 2 ^ p + low); simpl; rewrite H2, Hbs; clear Hbs Hs; split_and!; try done; destruct b; simpl in *; lia.
Qed.

Lemma iter_pos_ok m n p r : shr_ok m n r → shr_ok m (n + Zpos p) (SpecFloat.iter_pos shr_1 p r).
Proof.
  revert n r. induction p as [p IH|p IH|]; intros n r Hr; simpl.
  - replace (n + Zpos p~1) with (n + 1 + Zpos p + Zpos p) by lia. by apply IH, IH, shr_1_ok.
  - replace (n + Zpos p~0) with (n + Zpos p + Zpos p) by lia. by apply IH, IH.
  - by apply shr_1_ok.
Qed.

Lemma shr_ok_div m p r : shr_ok m p r → shr_m r = m / 2 ^ p.
Proof.
  intros (Hp & Hm & low & He & Hl & Hs).
  apply (Z.div_unique_pos m (2 ^ p) _ (m - shr_m r * 2 ^ p)); [|lia]. destruct r as [x [] s]; simpl in *; lia.
Qed.

(** Rounding to nearest: at most half a unit of the last place off, and exact
    when nothing was shifted out. *)
Lemma round_nearest_ok m p r :
  shr_ok m p r →
  let q := round_nearest_even (shr_m r) (loc_of_shr_record r) in
  2 * Z.abs (q * 2 ^ p - m) ≤ 2 ^ p ∧ (m mod 2 ^ p = 0 → q * 2 ^ p = m) ∧ m / 2 ^ p ≤ q ≤ m / 2 ^ p + 1.
Proof.
  intros Hr. pose proof (shr_ok_div _ _ _ Hr) as Hd. symmetry in Hd.
  destruct Hr as (Hp & Hm & low & He & Hl & Hs). assert (0 < 2 ^ p) as H2 by lia. simpl.
  assert (m mod 2 ^ p = 0 → Z.b2z (shr_r r) * 2 ^ p + low = 0) as Hz.
  { intros Hmod. pose proof (Z.div_mod m (2 ^ p)) as Hdm. rewrite Hmod, Hd in Hdm.
    rewrite Hdm in He by lia. lia. }
  rewrite Hd. destruct r as [x [] s]; simpl in *; subst s; destruct (Z.eqb_spec low 0); simpl in *.
  all: try destruct (Z.even x).
  all: split_and!; try lia; nia.
Qed.

(** *** Results in the normal range *)

Lemma shr_fexp_ok m e :
  2 ^ 52 ≤ Zpos m → -1074 ≤ e →
  let p := Z.log2 (Zpos m) - 52 in
  ∃ r, shr_fexp 53 1024 (Zpos m) e loc_Exact = (r, e + p) ∧ 0 ≤ p ∧ shr_ok (Zpos m) p r.
Proof.
  intros Hm He p. assert (0 ≤ p) as Hp.
  { pose proof (Z.log2_le_mono (2 ^ 52) (Zpos m) Hm) as Hl. rewrite Z.log2_pow2 in Hl; lia. }
  assert (shr_ok (Zpos m) 0 {| shr_m := Zpos m; shr_r := false; shr_s := false |}) as Hr.
  { split_and!; [done|done|]. exists 0. simpl. lia. }
  unfold shr_fexp. rewrite Zdigits2_log2.
  replace (fexp 53 1024 (Z.log2 (Zpos m) + 1 + e) - e) with p by (unfold fexp, SpecFloat.emin; lia).
  clearbody p. simpl. destruct p as [|p|p]; simpl; [|by eexists; split_and!; [done..|exact (iter_pos_ok _ 0 p _ Hr)]|lia].
  eexists. by rewrite Z.add_0_r.
Qed.

Lemma div_pow2_log2 m n : 0 ≤ n → 2 ^ n ≤ m → 2 ^ n ≤ m / 2 ^ (Z.log2 m - n) < 2 ^ (n + 1).
Proof.
  intros Hn Hm. assert (0 < 2 ^ n) by lia. destruct (Z.log2_spec m) as [Hl Hu]; [lia|].
  assert (n ≤ Z.log2 m) as Hle by (rewrite <- (Z.log2_pow2 n) by done; by apply Z.log2_le_mono).
  set (p := Z.log2 m - n). replace (Z.log2 m) with (n + p) in Hl, Hu by lia.
  rewrite Z.pow_add_r in Hl by lia.
  replace (2 ^ Z.succ (n + p)) with (2 ^ (n + 1) * 2 ^ p) in Hu by (rewrite <- Z.pow_add_r by lia; f_equal; lia).
  assert (0 < 2 ^ p) by lia. split; [apply Z.div_le_lower_bound; lia|apply Z.div_lt_upper_bound; lia].
Qed.

(** A mantissa of at least 53 bits is rounded to one of 53: at most half a
    unit of the last place off, and exact when the bits dropped are zero. *)
Lemma round_aux_ok m e :
  2 ^ 52 ≤ Zpos m → -1074 ≤ e → Z.log2 (Zpos m) + e ≤ 1000 →
  let p := Z.log2 (Zpos m) - 52 in
  ∃ m' e', binary_round_aux 53 1024 false (Zpos m) e loc_Exact = S754_finite false m' e' ∧
    e ≤ e' ≤ e + p + 1 ∧ 2 ^ 52 ≤ Zpos m' < 2 ^ 53 ∧
    2 * Z.abs (Zpos m' * 2 ^ (e' - e) - Zpos m) ≤ 2 ^ p ∧
    (Zpos m mod 2 ^ p = 0 → Zpos m' * 2 ^ (e' - e) = Zpos m).
Proof.
  intros Hm He Hx p. unfold binary_round_aux. destruct (shr_fexp_ok m e Hm He) as (r & -> & Hp & Hr).
  fold p in Hp, Hr |- *. destruct (round_nearest_ok _ _ _ Hr) as (Habs & Hex & Hq).
  destruct (div_pow2_log2 (Zpos m) 52) as [Hlo Hhi]; [done|done|]. fold p in Hlo, Hhi.
  set (q := round_nearest_even _ _) in *. clearbody q.
  destruct q as [|q|q]; [lia| |lia]. destruct (shr_fexp_ok q (e + p)) as (r2 & -> & Hp2 & Hr2); [lia|lia|].
  set (p2 := Z.log2 (Zpos q) - 52) in *. destruct (div_pow2_log2 (Zpos q) 52) as [Hlo2 Hhi2]; [done|lia|]. fold p2 in Hlo2, Hhi2.
  assert (Zpos q / 2 ^ p2 * 2 ^ p2 = Zpos q ∧ p2 ≤ 1) as (Hq2 & Hp21).
  { destruct (decide (Zpos q < 2 ^ 53)) as [Hlt|Hge].
    - assert (p2 < 1) as Hp0 by (pose proof (proj1 (Z.log2_lt_pow2 (Zpos q) 53 ltac:(lia)) Hlt); lia).
      replace p2 with 0 by lia. rewrite Z.pow_0_r, Z.div_1_r. lia.
    - assert (Zpos q = 2 ^ 53) as Hqe by lia. assert (p2 = 1) as -> by (unfold p2; by rewrite Hqe).
      by rewrite Hqe. }
  rewrite (shr_ok_div _ _ _ Hr2). destruct (Zpos q / 2 ^ p2) as [|m'|] eqn:Em; [lia| |lia].
  destruct (Z.leb_spec (e + p + p2) (1024 - 53)); [|lia]. exists m', (e + p + p2).
  replace (e + p + p2 - e) with (p2 + p) by lia. rewrite Z.pow_add_r by lia. rewrite Z.mul_assoc, Hq2.
  split_and!; try done; lia.
Qed.

(** *** Integers *)

(** A positive integer below 2^53, shifted so that it has 53 bits. *)
Definition norm (n : Z) : Z := n * 2 ^ (52 - Z.log2 n).

Lemma norm_bounds n : 0 < n → Z.log2 n ≤ 52 → 2 ^ 52 ≤ norm n < 2 ^ 53.
Proof.
  intros Hn Hl. destruct (Z.log2_spec n Hn) as [H1 H2]. pose proof (Z.log2_nonneg n). unfold norm.
  assert (2 ^ 52 = 2 ^ Z.log2 n * 2 ^ (52 - Z.log2 n)) as -> by (rewrite <- Z.pow_add_r by lia; f_equal; lia).
  assert (2 ^ 53 = 2 ^ Z.succ (Z.log2 n) * 2 ^ (52 - Z.log2 n)) as -> by (rewrite <- Z.pow_add_r by lia; f_equal; lia).
  assert (0 < 2 ^ (52 - Z.log2 n)) by (apply Z.pow_pos_nonneg; lia). nia.
Qed.

Lemma log2_shift n k : 0 < n → 0 ≤ k → Z.log2 (n * 2 ^ k) = Z.log2 n + k.
Proof. intros. rewrite Z.log2_mul_pow2; lia. Qed.

(** Two normal numbers of the same value are the same. *)
Lemma normal_unique a b x y :
  2 ^ 52 ≤ a < 2 ^ 53 → 2 ^ 52 ≤ b < 2 ^ 53 → 0 ≤ x → 0 ≤ y → a * 2 ^ x = b * 2 ^ y → a = b ∧ x = y.
Proof.
  intros Ha Hb Hx Hy He. assert (Z.log2 a = 52 ∧ Z.log2 b = 52) as [La Lb] by (split; apply Z.log2_unique; lia).
  assert (x = y) as ->.
  { apply (f_equal Z.log2) in He. rewrite !log2_shift in He by lia. lia. }
  split; [|done]. assert (0 < 2 ^ y) by lia. nia.
Qed.

(** An exact rounding: the mantissa is [n] shifted left. *)
Lemma round_aux_exact m n k :
  0 < n → Z.log2 n ≤ 52 → 0 ≤ k ≤ 52 → 52 ≤ Z.log2 n + k → Zpos m = n * 2 ^ k →
  binary_round_aux 53 1024 false (Zpos m) (- k) loc_Exact =
  S754_finite false (Z.to_pos (norm n)) (Z.log2 n - 52).
Proof.
  intros Hn Hl Hk Hs Hm. pose proof (norm_bounds n Hn Hl) as Hb.
  assert (Zpos m = norm n * 2 ^ (Z.log2 n + k - 52)) as Hmn.
  { rewrite Hm. unfold norm. rewrite <- Z.mul_assoc, <- Z.pow_add_r by lia. do 2 f_equal. lia. }
  assert (Z.log2 (Zpos m) = Z.log2 n + k) as Hlm by (rewrite Hm; apply log2_shift; lia).
  assert (0 < 2 ^ (Z.log2 n + k - 52)) as H2 by (apply Z.pow_pos_nonneg; lia).
  destruct (round_aux_ok m (- k)) as (m' & e' & -> & He & Hm' & _ & Hex); [nia|lia|lia|].
  rewrite Hlm in Hex, He. rewrite Hmn, Z.mod_mul in Hex by lia. specialize (Hex eq_refl).
  apply normal_unique in Hex as [<- Hee]; [|done|done|lia|lia]. simpl. f_equal. lia.
Qed.

(** *** The operations of [pct] *)

Lemma shl_align_left m e e' : e' ≤ e → Zpos (shl_align m e e').1 = Zpos m * 2 ^ (e - e') ∧ (shl_align m e e').2 = e'.
Proof.
  intros He. unfold shl_align. destruct (e' - e) as [|d|d] eqn:Hd; [|lia|].
  - replace (e - e') with 0 by lia. simpl. lia.
  - replace (e - e') with (Zpos d) by lia. simpl. split; [|done].
    rewrite (Pos.iter_swap_gen _ _ Zpos xO (Z.mul 2)) by done. by apply (Z.shiftl_mul_pow2 (Zpos m) (Zpos d)).
Qed.

Lemma f64_of_exact n :
  0 < n → Z.log2 n ≤ 52 → f64_of n = S754_finite false (Z.to_pos (norm n)) (Z.log2 n - 52).
Proof.
  intros Hn Hl. destruct n as [|n|n]; [lia| |lia]. unfold f64_of, binary_normalize, binary_round.
  change (Zpos (digits2_pos n)) with (Zdigits2 (Zpos n)). rewrite Zdigits2_log2.
  pose proof (Z.log2_nonneg (Zpos n)).
  replace (fexp 53 1024 (Z.log2 (Zpos n) + 1 + 0)) with (- (52 - Z.log2 (Zpos n))) by (unfold fexp, SpecFloat.emin; lia).
  pose proof (shl_align_left n 0 (- (52 - Z.log2 (Zpos n)))) as Ha. destruct (shl_align _ _ _) as [m e].
  destruct Ha as [Hm He]; [lia|]. cbn [fst snd] in Hm, He. subst e.
  apply round_aux_exact; try lia. rewrite Hm. do 2 f_equal. lia.
Qed.

(** [len as f64 - 1.0] is exact. *)
Lemma f64_sub_one n : 1 < n → Z.log2 n ≤ 51 → f64_sub (f64_of n) (f64_of 1) = f64_of (n - 1).
Proof.
  intros Hn Hl. rewrite (f64_of_exact n), (f64_of_exact 1) by (done || lia). pose proof (Z.log2_nonneg n).
  unfold f64_sub, SFsub. replace (Z.min (Z.log2 n - 52) (Z.log2 1 - 52)) with (-52) by (simpl; lia).
  pose proof (norm_bounds n ltac:(lia) ltac:(lia)) as Hb.
  destruct (shl_align_left (Z.to_pos (norm n)) (Z.log2 n - 52) (-52)) as [-> _]; [lia|].
  destruct (shl_align_left (Z.to_pos (norm 1)) (Z.log2 1 - 52) (-52)) as [-> _]; [done|].
  unfold cond_Zopp. rewrite !Z2Pos.id by (lia || done).
  replace (norm n * 2 ^ (Z.log2 n - 52 - -52) - norm 1 * 2 ^ (Z.log2 1 - 52 - -52)) with ((n - 1) * 2 ^ 52).
  2: { unfold norm. rewrite <- Z.mul_assoc, <- Z.pow_add_r by lia.
       replace (52 - Z.log2 n + (Z.log2 n - 52 - -52)) with 52 by lia. change (Z.log2 1) with 0. lia. }
  assert (0 < (n - 1) * 2 ^ 52) as Hpos by lia.
  destruct ((n - 1) * 2 ^ 52) as [|m|] eqn:Em; [lia| |lia].
  assert (Z.log2 (n - 1) ≤ 51) as Hl1 by (etrans; [apply Z.log2_le_mono|exact Hl]; lia).
  unfold binary_normalize, binary_round. change (Zpos (digits2_pos m)) with (Zdigits2 (Zpos m)).
  rewrite Zdigits2_log2, <- Em, log2_shift by lia. pose proof (Z.log2_nonneg (n - 1)).
  replace (fexp 53 1024 (Z.log2 (n - 1) + 52 + 1 + -52)) with (Z.log2 (n - 1) - 52) by (unfold fexp, SpecFloat.emin; lia).
  unfold shl_align. rewrite f64_of_exact by lia.
  destruct (Z.log2 (n - 1) - 52 - -52) as [| |] eqn:Ed; [| |lia].
  all: apply (round_aux_exact m (n - 1) 52); lia.
Qed.

(** The fractions, with their error. *)
Lemma fraction_ok p :
  p ∈ [50; 95; 99] →
  ∃ m, f64_div (f64_of p) (f64_of 100) = S754_finite false m (-53) ∧
    2 ^ 52 ≤ Zpos m < 2 ^ 53 ∧ Z.abs (100 * Zpos m - p * 2 ^ 53) ≤ 100.
Proof.
  intros Hp. repeat (apply elem_of_cons in Hp as [->|Hp]); [..|by apply elem_of_nil in Hp].
  all: eexists; split; [vm_compute; reflexivity|lia].
Qed.

Lemma log2_le_40 n : 0 < n ≤ 2 ^ 40 → 0 ≤ Z.log2 n ≤ 40.
Proof.
  intros Hn. split; [apply Z.log2_nonneg|]. apply (Z.log2_le_mono n (2 ^ 40)). lia.
Qed.

(** Half away from zero is at most a half off. *)
Lemma round_usize_near m e :
  e < 0 → Zpos m < 2 ^ 53 →
  let i := round_usize (S754_finite false m e) in 0 ≤ i ∧ 2 * Z.abs (i * 2 ^ (- e) - Zpos m) ≤ 2 ^ (- e).
Proof.
  intros He Hm. cbv zeta. unfold round_usize. rewrite (proj2 (Z.leb_gt 0 e)) by done.
  assert (2 ^ (- e) = 2 * 2 ^ (- e - 1)) as H2 by (rewrite <- Z.pow_succ_r by lia; f_equal; lia).
  assert (0 < 2 ^ (- e - 1)) as Hpos by (apply Z.pow_pos_nonneg; lia).
  pose proof (Z.div_mod (Zpos m + 2 ^ (- e - 1)) (2 ^ (- e)) ltac:(lia)) as Hd.
  pose proof (Z.mod_pos_bound (Zpos m + 2 ^ (- e - 1)) (2 ^ (- e)) ltac:(lia)) as Hr.
  assert (0 ≤ (Zpos m + 2 ^ (- e - 1)) / 2 ^ (- e) ≤ Zpos m) as Hq.
  { split; [apply Z.div_pos; lia|]. apply Z.div_le_upper_bound; nia. }
  rewrite Z.min_r by (unfold U64_MAX; lia). split; [lia|]. nia.
Qed.

(** The errors of the fraction, of the product and of the rounding add up to
    less than one hundredth more than a half. *)
Lemma errors_add_up i m m' N G A B c p :
  A * B = 2 ^ 53 * G → 2 ^ 12 ≤ G → 0 < B → c ≤ 2 ^ 53 → 0 ≤ N ≤ 2 ^ 40 →
  2 * Z.abs (m' * B - m * (N * G)) ≤ c → 2 * Z.abs (i * A - m') ≤ A →
  Z.abs (100 * m - p * 2 ^ 53) ≤ 100 → Z.abs (100 * i - p * N) ≤ 50.
Proof.
  intros HAB HG HB Hc HN Hprod Hround Hfrac.
  assert (2 * Z.abs (i * (A * B) - m' * B) ≤ A * B) as H1.
  { replace (i * (A * B) - m' * B) with ((i * A - m') * B) by ring. rewrite Z.abs_mul, (Z.abs_eq B) by lia. nia. }
  rewrite HAB in H1.
  assert (2 * Z.abs ((i * 2 ^ 53 - m * N) * G) ≤ 2 ^ 53 * G + 2 ^ 53) as H2 by lia.
  rewrite Z.abs_mul, (Z.abs_eq G) in H2 by lia.
  assert (2 * Z.abs (i * 2 ^ 53 - m * N) ≤ 2 ^ 53 + 2 ^ 41) as H3 by nia.
  assert (Z.abs ((100 * m - p * 2 ^ 53) * N) ≤ 100 * 2 ^ 40) as H4.
  { rewrite Z.abs_mul, (Z.abs_eq N) by lia. nia. }
  lia.
Qed.

(** The index is a nearest integer to the [p]-th hundredth of [n - 1]. *)
Lemma pct_index_near p n :
  p ∈ [50; 95; 99] → 1 ≤ n ≤ 2 ^ 40 → 0 ≤ pct_index p n ∧ Z.abs (100 * pct_index p n - p * (n - 1)) ≤ 50.
Proof.
  intros Hp Hn. destruct (decide (n = 1)) as [->|Hn1].
  { repeat (apply elem_of_cons in Hp as [->|Hp]); [..|by apply elem_of_nil in Hp]; vm_compute; by split. }
  pose proof (log2_le_40 n ltac:(lia)). pose proof (log2_le_40 (n - 1) ltac:(lia)) as Hl. unfold pct_index.
  rewrite f64_sub_one by lia. destruct (fraction_ok p Hp) as (m & -> & Hm & Hf). rewrite f64_of_exact by lia.
  pose proof (norm_bounds (n - 1) ltac:(lia) ltac:(lia)) as Hb.
  unfold f64_mul, SFmul. change (xorb false false) with false. set (x := Z.to_pos (norm (n - 1))).
  assert (Zpos x = norm (n - 1)) as Hx by (apply Z2Pos.id; lia).
  assert (Zpos (m * x) = Zpos m * norm (n - 1)) as Hmx by (rewrite <- Hx; lia).
  assert (104 ≤ Z.log2 (Zpos (m * x)) ≤ 105) as Hlm.
  { split; [apply (Z.log2_le_mono (2 ^ 104)); nia|].
    apply Z.lt_succ_r, Z.log2_lt_pow2; [done|]. change (2 ^ Z.succ 105) with (2 ^ 53 * 2 ^ 53). nia. }
  destruct (round_aux_ok (m * x) (-53 + (Z.log2 (n - 1) - 52))) as (m' & e' & -> & He & Hm' & Habs & _); [nia|lia|lia|].
  destruct (round_usize_near m' e') as [Hi Hri]; [lia|lia|]. split; [done|].
  set (i := round_usize _) in *. clearbody i. set (d := Z.log2 (n - 1)) in *.
  rewrite Hmx in Habs. refine (errors_add_up i (Zpos m) (Zpos m') (n - 1) (2 ^ (52 - d)) _ _ _ p _ _ _ _ _ Habs Hri Hf).
  - rewrite <- !Z.pow_add_r by lia. f_equal. lia.
  - apply Z.pow_le_mono_r; lia.
  - apply Z.pow_pos_nonneg; lia.
  - rewrite <- Hmx. apply Z.pow_le_mono_r; lia.
  - lia.
Qed.

(** ** Percentiles of sorted samples *)

Lemma pct_index_range p n : p ∈ [50; 95; 99] → 1 ≤ n ≤ 2 ^ 40 → 0 ≤ pct_index p n < n.
Proof.
  intros Hp Hn. destruct (pct_index_near p n Hp Hn) as [H0 Hi]. split; [done|].
  assert (p ≤ 99) by (repeat (apply elem_of_cons in Hp as [->|Hp]; [done|]); by apply elem_of_nil in Hp). nia.
Qed.

Lemma pct_index_mono n :
  1 ≤ n ≤ 2 ^ 40 → pct_index 50 n ≤ pct_index 95 n ≤ pct_index 99 n ∧ pct_index 99 n ≤ n - 1.
Proof.
  intros Hn. destruct (pct_index_near 50 n) as [_ ?]; [set_solver|done|].
  destruct (pct_index_near 95 n) as [_ ?]; [set_solver|done|].
  destruct (pct_index_near 99 n) as [_ ?]; [set_solver|done|]. lia.
Qed.

(** The figures of a list of samples: [sort_unstable], three percentiles and
    the last. *)
Record figures := MkFigures { f_p50 : Z; f_p95 : Z; f_p99 : Z; f_max : Z }.

Definition figures_of (samples : list Z) : option figures :=
  let sorted := sort_by Z.leb samples in
  p50 ← pct 50 sorted;
  p95 ← pct 95 sorted;
  p99 ← pct 99 sorted;
  max ← last sorted;
  Some (MkFigures p50 p95 p99 max).

(** [v] is a [p]-th percentile of the samples: enough of them are at most, and
    enough at least, [v]. *)
Definition percentile (p : Z) (samples : list Z) (v : Z) : Prop :=
  let n := Z.of_nat (length samples) in
  v ∈ samples ∧
  p * (n - 1) + 50 ≤ 100 * Z.of_nat (length (filter (λ x, x ≤ v) samples)) ∧
  (100 - p) * (n - 1) + 50 ≤ 100 * Z.of_nat (length (filter (λ x, v ≤ x) samples)).

Lemma filter_all (P : Z → Prop) `{∀ x, Decision (P x)} (l : list Z) : Forall P l → filter P l = l.
Proof. induction 1 as [|x l Hx _ IH]; [done|]. by rewrite filter_cons_True, IH. Qed.

Section sorted.
Context (l : list Z) (Hsorted : StronglySorted (λ a b, (a <=? b) = true) l).

Lemma sorted_lookup i j x y : (i ≤ j)%nat → l !! i = Some x → l !! j = Some y → x ≤ y.
Proof using Hsorted.
  revert i j. induction Hsorted as [|a l' Hs IH Ha]; intros i j Hij Hi Hj; [done|].
  destruct i as [|i], j as [|j]; simpl in *; [naive_solver lia| |lia|apply (IH Hs i j); [lia|done..]].
  injection Hi as ->. rewrite Forall_forall in Ha. apply Z.leb_le, Ha. by eapply list_elem_of_lookup_2.
Qed.

Lemma sorted_below i (v : Z) : l !! i = Some v → (S i ≤ length (filter (λ x, (x ≤ v)%Z) l))%nat.
Proof using Hsorted.
  intros Hi. pose proof (lookup_lt_Some _ _ _ Hi) as Hlt.
  assert (filter (λ x, x ≤ v) (take (S i) l) = take (S i) l) as He.
  { apply filter_all. apply Forall_lookup. intros j x Hj. apply lookup_take_Some in Hj as [Hj ?].
    apply (sorted_lookup j i); [lia|done..]. }
  rewrite <- (take_drop (S i) l) at 1. rewrite filter_app, He, length_app, length_take. lia.
Qed.

Lemma sorted_above i (v : Z) : l !! i = Some v → (length l - i ≤ length (filter (λ x, (v ≤ x)%Z) l))%nat.
Proof using Hsorted.
  intros Hi. assert (filter (λ x, v ≤ x) (drop i l) = drop i l) as He.
  { apply filter_all. apply Forall_lookup. intros j x Hj. rewrite lookup_drop in Hj.
    apply (sorted_lookup i (i + j)); [lia|done..]. }
  rewrite <- (take_drop i l) at 2. rewrite filter_app, He, length_app, length_drop. lia.
Qed.

Lemma pct_percentile p :
  p ∈ [50; 95; 99] → 1 ≤ Z.of_nat (length l) ≤ 2 ^ 40 → ∃ v, pct p l = Some v ∧ percentile p l v.
Proof using Hsorted.
  intros Hp Hn. pose proof (pct_index_range p _ Hp Hn) as Hr. pose proof (pct_index_near p _ Hp Hn) as [_ Hi].
  unfold pct. set (i := pct_index p _) in *. destruct (lookup_lt_is_Some_2 l (Z.to_nat i)) as [v Hv]; [lia|].
  exists v. split; [done|]. pose proof (sorted_below _ _ Hv). pose proof (sorted_above _ _ Hv).
  split_and!; [by eapply list_elem_of_lookup_2|lia|lia].
Qed.
End sorted.

#[global] Instance percentile_perm p : Proper ((≡ₚ) ==> (=) ==> iff) (percentile p).
Proof. intros l l' Hl v ? <-. unfold percentile. by rewrite Hl. Qed.

Lemma sort_leb_sorted l : StronglySorted (λ a b, (a <=? b) = true) (sort_by Z.leb l).
Proof. apply sort_by_sorted; lia. Qed.

Lemma last_lookup_length (l : list Z) x : last l = Some x → l !! pred (length l) = Some x.
Proof. by rewrite last_lookup. Qed.

(** ** Theorems *)

(** What the report says of the samples: their percentiles in order, and their
    maximum. *)
Definition summary (samples : list Z) (f : figures) : Prop :=
  percentile 50 samples (f_p50 f) ∧ percentile 95 samples (f_p95 f) ∧ percentile 99 samples (f_p99 f) ∧
  f_p50 f ≤ f_p95 f ≤ f_p99 f ∧ f_p99 f ≤ f_max f ∧
  f_max f ∈ samples ∧ Forall (λ x, x ≤ f_max f) samples.

(** For up to 2^40 samples: there the rounding errors of the index stay below
    the distance of the exact product to the next half. *)
Lemma figures_of_summary samples :
  samples ≠ [] → Z.of_nat (length samples) ≤ 2 ^ 40 → ∃ f, figures_of samples = Some f ∧ summary samples f.
Proof.
  intros Hne Hlen. unfold figures_of. pose proof (sort_by_perm Z.leb samples) as Hp.
  pose proof (sort_leb_sorted samples) as Hs. set (l := sort_by Z.leb samples) in *. clearbody l.
  assert (1 ≤ Z.of_nat (length l) ≤ 2 ^ 40) as Hl.
  { rewrite Hp. destruct samples; [done|]. simpl in *. lia. }
  destruct (pct_percentile l Hs 50) as (a & Ha & Pa); [set_solver|done|].
  destruct (pct_percentile l Hs 95) as (b & Hb & Pb); [set_solver|done|].
  destruct (pct_percentile l Hs 99) as (c & Hc & Pc); [set_solver|done|].
  destruct (last l) as [m|] eqn:Hm; [|apply last_None in Hm; subst; simpl in Hl; lia].
  rewrite Ha, Hb, Hc. simpl. eexists. split; [done|]. unfold summary. simpl. rewrite <- Hp. apply last_lookup_length in Hm.
  destruct (pct_index_mono _ Hl) as [[H1 H2] H3]. pose proof (pct_index_range 50 _ ltac:(set_solver) Hl).
  split_and!; try done.
  - eapply (sorted_lookup l Hs); [|exact Ha|exact Hb]. lia.
  - eapply (sorted_lookup l Hs); [|exact Hb|exact Hc]. lia.
  - eapply (sorted_lookup l Hs); [|exact Hc|exact Hm]. lia.
  - by eapply list_elem_of_lookup_2.
  - apply Forall_lookup. intros i x Hi. eapply (sorted_lookup l Hs); [|exact Hi|exact Hm].
    apply lookup_lt_Some in Hi. lia.
Qed.
