(* ===== verification/Path.v ===== *)
(** * Paths

    The part of Rust's [std::path] the VFS relies on, for Unix paths. A
    [PathBuf] is modelled by its components; [components] parses a byte
    string (repeated slashes and inner [.] are dropped, a leading [.] is kept
    as [CurDir]) and [render] is the byte string of a path built with
    [push]. *)

From S2P Require Import Prelude Word Text.

Inductive Component :=
  | RootDir
  | CurDir
  | ParentDir
  | Normal (name : bytes).

#[global] Instance Component_eq_dec : EqDecision Component.
Proof. solve_decision. Defined.

Abbreviation path := (list Component).

Definition SLASH : Z := 47.
Definition DOT : Z := 46.

Abbreviation split_slash := (split_on SLASH).

Definition parse_comp (w : bytes) : option Component :=
  if bool_decide (w = []) then None
  else if bool_decide (w = [DOT]) then None
  else if bool_decide (w = [DOT; DOT]) then Some ParentDir
  else Some (Normal w).

Definition is_absolute (s : bytes) : bool :=
  match s with c :: _ => c =? SLASH | [] => false end.

(** [Path::new(s).components()]. *)
Definition components (s : bytes) : path :=
  if is_absolute s then RootDir :: omap parse_comp (split_slash s)
  else match split_slash s with
  | w :: ws => (if bool_decide (w = [DOT]) then [CurDir] else []) ++ omap parse_comp (w :: ws)
  | [] => []
  end.

Definition comp_bytes (c : Component) : bytes :=
  match c with
  | RootDir => [SLASH]
  | CurDir => [DOT]
  | ParentDir => [DOT; DOT]
  | Normal w => w
  end.

Fixpoint join_comps (p : path) : bytes :=
  match p with
  | [] => []
  | [c] => comp_bytes c
  | c :: p => comp_bytes c ++ SLASH :: join_comps p
  end.

(** The bytes of a path made by pushing its components one by one. *)
Definition render (p : path) : bytes :=
  match p with
  | RootDir :: p => SLASH :: join_comps p
  | _ => join_comps p
  end.

(** [PathBuf::push(comp)] for a component taken from another path. *)
Definition push (p : path) (c : Component) : path :=
  match c with
  | RootDir => [RootDir]
  | _ => p ++ [c]
  end.

(** [PathBuf::pop]: [None] when there is no parent ([false] in Rust). *)
Definition pop (p : path) : option path :=
  match last p with
  | None | Some RootDir => None
  | Some _ => Some (take (length p - 1) p)
  end.

(** [base.join(s)] as raw bytes, for the string [s] of a path. *)
Definition raw_join (base s : bytes) : bytes :=
  if is_absolute s then s
  else match last base with
  | None => s
  | Some c => if c =? SLASH then base ++ s else base ++ SLASH :: s
  end.

Definition join (base : path) (s : bytes) : path := components (raw_join (render base) s).

(** [p.starts_with(base)]: whole components. *)
Definition starts_with (p base : path) : bool := bool_decide (base `prefix_of` p).

(** [s.trim_start_matches('/')]. *)
Fixpoint trim_start_slash (s : bytes) : bytes :=
  match s with
  | c :: s' => if c =? SLASH then trim_start_slash s' else s
  | [] => []
  end.

(** ** Plain paths *)

(** A directory-entry name: not empty, no slash, neither [.] nor [..]. *)
Definition name_ok (w : bytes) : Prop :=
  w ≠ [] ∧ SLASH ∉ w ∧ w ≠ [DOT] ∧ w ≠ [DOT; DOT].
#[global] Instance name_ok_dec w : Decision (name_ok w).
Proof. unfold name_ok. apply _. Defined.

Definition normal_ok (c : Component) : Prop :=
  match c with Normal w => name_ok w | _ => False end.
#[global] Instance normal_ok_dec c : Decision (normal_ok c).
Proof. destruct c; simpl; apply _. Defined.

(** Absolute, and nothing but names after the root. *)
Definition plain (p : path) : Prop :=
  match p with RootDir :: l => Forall normal_ok l | _ => False end.
#[global] Instance plain_dec p : Decision (plain p).
Proof. destruct p as [|[]]; simpl; apply _. Defined.

(** ** Parsing what was rendered *)

Lemma parse_comp_name w : name_ok w → parse_comp w = Some (Normal w).
Proof. intros (? & ? & ? & ?). unfold parse_comp. by rewrite !bool_decide_false. Qed.

Lemma parse_comp_ok w c :
  SLASH ∉ w → parse_comp w = Some c → c = ParentDir ∨ normal_ok c.
Proof.
  unfold parse_comp. intros Hw. repeat case_bool_decide; try done.
  - intros [= <-]. by left.
  - intros [= <-]. by right.
Qed.

Lemma join_comps_cons c p :
  p ≠ [] → join_comps (c :: p) = comp_bytes c ++ SLASH :: join_comps p.
Proof. by destruct p. Qed.

Lemma split_join_comps p :
  Forall normal_ok p → p ≠ [] →
  split_slash (join_comps p) = comp_bytes <$> p.
Proof.
  induction 1 as [|c p Hc Hp IH]; [done|]. intros _.
  destruct c as [| | |w]; try done. destruct Hc as (? & ? & ? & ?).
  destruct p as [|c' p].
  - simpl. by rewrite split_on_no_sep.
  - rewrite join_comps_cons by done. simpl comp_bytes.
    rewrite split_on_app by done. by rewrite IH.
Qed.

Lemma omap_parse_names p :
  Forall normal_ok p → omap parse_comp (comp_bytes <$> p) = p.
Proof.
  induction 1 as [|c p Hc Hp IH]; [done|]. destruct c as [| | |w]; try done.
  cbn. rewrite parse_comp_name by done. f_equal. apply IH.
Qed.

Lemma omap_parse_join p :
  Forall normal_ok p → omap parse_comp (split_slash (join_comps p)) = p.
Proof.
  intros Hp. destruct p as [|c p]; [done|].
  rewrite split_join_comps by done. by apply omap_parse_names.
Qed.

(** The components of a rendered plain path are the path. *)
Lemma components_render p : plain p → components (render p) = p.
Proof.
  destruct p as [|[| | |] p]; try done. simpl. intros Hp. unfold components.
  cbn [is_absolute]. rewrite Z.eqb_refl. f_equal. cbn [split_on].
  rewrite Z.eqb_refl. cbn. by apply omap_parse_join.
Qed.

(** What [components] produces: names and [..] after an optional leading root
    or [.]. *)
Lemma omap_parse_ok ws :
  Forall (λ w, SLASH ∉ w) ws →
  Forall (λ c, c = ParentDir ∨ normal_ok c) (omap parse_comp ws).
Proof.
  induction 1 as [|w ws Hw _ IH]; [constructor|]. cbn.
  destruct (parse_comp w) as [c|] eqn:E; [|done].
  constructor; [by eapply parse_comp_ok|done].
Qed.

(** Splitting a rendered prefix followed by a slash. *)
Lemma split_join_app p s :
  Forall normal_ok p → p ≠ [] →
  split_slash (join_comps p ++ SLASH :: s) = (comp_bytes <$> p) ++ split_slash s.
Proof.
  induction 1 as [|c p Hc Hp IH]; [done|]. intros _.
  destruct c as [| | |w]; try done. destruct Hc as (? & ? & ? & ?).
  destruct p as [|c' p].
  - simpl. by rewrite split_on_app.
  - rewrite join_comps_cons by done. rewrite <- app_assoc. simpl comp_bytes.
    rewrite <- app_comm_cons. rewrite split_on_app by done. rewrite IH by done. done.
Qed.

Lemma last_join_comps p :
  Forall normal_ok p → p ≠ [] → ∃ c, last (join_comps p) = Some c ∧ c ≠ SLASH.
Proof.
  induction 1 as [|c p Hc Hp IH]; [done|]. intros _.
  destruct c as [| | |w]; try done. destruct Hc as (Hne & Hns & _).
  destruct p as [|c' p].
  - simpl. destruct (last w) as [b|] eqn:E; [|by apply last_None in E].
    exists b. split; [done|]. intros ->. apply Hns, list_elem_of_lookup.
    exists (pred (length w)). by rewrite <- last_lookup.
  - destruct IH as (b & Hb & ?); [done|]. exists b. split; [|done].
    rewrite join_comps_cons by done. rewrite last_app, last_cons, Hb. done.
Qed.

(** Joining a relative string to a plain path appends its components; inner
    and leading [.] disappear. *)
Lemma join_plain p s :
  plain p → is_absolute s = false →
  join p s = p ++ omap parse_comp (split_slash s).
Proof.
  destruct p as [|[| | |] l]; try done. simpl. intros Hl Hs.
  unfold join, raw_join. rewrite Hs. destruct l as [|c l].
  - simpl. unfold components. cbn [is_absolute]. rewrite Z.eqb_refl.
    cbn [split_on]. rewrite Z.eqb_refl. done.
  - destruct (last_join_comps (c :: l)) as (b & Hb & Hbs); [done|done|].
    cbn [render]. rewrite last_cons, Hb. rewrite (proj2 (Z.eqb_neq _ _) Hbs).
    unfold components. cbn [app is_absolute split_on].
    rewrite Z.eqb_refl. rewrite split_join_app by done.
    change (omap parse_comp ([] :: ?x)) with (omap parse_comp x).
    rewrite omap_app, omap_parse_names by done. done.
Qed.

Lemma trim_start_slash_relative s : is_absolute (trim_start_slash s) = false.
Proof. induction s as [|c s IH]; [done|]. simpl. destruct (c =? SLASH) eqn:E; [done|]. simpl. done. Qed.

Lemma split_trim s :
  omap parse_comp (split_slash (trim_start_slash s)) = omap parse_comp (split_slash s).
Proof.
  induction s as [|c s IH]; [done|]. simpl. destruct (c =? SLASH) eqn:E; [done|].
  cbn [split_on]. by rewrite E.
Qed.
