(* ===== verification/Host.v ===== *)
(** * The host

    What the kernel asks of the machine it runs on: the file system behind
    [std::fs], the clock and the random generator. The host is not part of
    the program, so it is an interface: a type [W] of host states and one
    operation per call the sources make. A call that can change the host
    returns the new state.

    Laws are stated apart, in the classes a theorem needs; [NullHost] at the
    end is the smallest host that obeys them (an empty, read-only file
    system, memory growth below 4 GiB) and serves the examples that need no files. *)

From S2P Require Import Prelude Word Text Path.

(** The [std::io::ErrorKind]s the sources tell apart; [OtherKind] is any
    other. *)
Inductive ErrorKind :=
  | NotFound | PermissionDenied | AlreadyExists | InvalidInput | NotADirectory
  | IsADirectory | DirectoryNotEmpty | TooManyLinks | OtherKind.

#[global] Instance ErrorKind_eq_dec : EqDecision ErrorKind.
Proof. solve_decision. Defined.

(** [std::io::Result]. *)
Inductive io (A : Type) : Type :=
  | IoOk (a : A)
  | IoErr (k : ErrorKind).
Arguments IoOk {A} a.
Arguments IoErr {A} k.

(** [r.map_err(f)] into a [Result<_, i64>]. *)
Definition map_err {A} (f : ErrorKind → Z) (r : io A) : result A :=
  match r with IoOk a => Ok a | IoErr k => Err (f k) end.

Inductive FileType :=
  | FtDir | FtFile | FtSymlink | FtCharDevice | FtBlockDevice | FtFifo | FtSocket | FtUnknown.

#[global] Instance FileType_eq_dec : EqDecision FileType.
Proof. solve_decision. Defined.

(** A [SystemTime] as nanoseconds from the epoch. *)
Abbreviation system_time := Z (only parsing).

(** [std::fs::Metadata], with what the sources read of it. A timestamp is
    [None] where the platform call fails. *)
Record Metadata := MkMetadata {
  md_type : FileType;
  md_mode : Z;
  md_ino : Z;
  md_nlink : Z;
  md_len : Z;
  md_accessed : option system_time;
  md_modified : option system_time;
  md_created : option system_time;
}.

Record OpenOptions := MkOpenOptions {
  oo_read : bool;
  oo_write : bool;
  oo_create : bool;
  oo_create_new : bool;
  oo_truncate : bool;
  oo_append : bool;
}.

Definition OpenOptions_new : OpenOptions := MkOpenOptions false false false false false false.

Inductive SeekFrom :=
  | SeekStart (n : Z)
  | SeekCurrent (d : Z).

(** A directory entry: file name, file type and inode where they can be
    read. *)
Record DirEntry := MkDirEntry {
  de_name : bytes;
  de_type : option FileType;
  de_ino : option Z;
}.

(** An open [std::fs::File] is a handle into the host. *)
Abbreviation handle := Z (only parsing).

Class Host (W : Type) := {
  fs_canonicalize : W → path → io path;
  fs_metadata : W → path → io Metadata;
  fs_symlink_metadata : W → path → io Metadata;
  fs_read_dir : W → path → io (list DirEntry);
  fs_open : W → OpenOptions → path → io handle * W;
  fs_create_dir : W → path → io unit * W;
  fs_remove_dir : W → path → io unit * W;
  fs_remove_file : W → path → io unit * W;
  fs_rename : W → path → path → io unit * W;
  fs_read_link : W → path → io bytes;
  fs_symlink : W → bytes → path → io unit * W;
  fs_hard_link : W → path → path → io unit * W;
  fs_set_permissions : W → path → Z → io unit * W;
  file_metadata : W → handle → io Metadata;
  file_seek : W → handle → SeekFrom → io Z * W;
  file_read : W → handle → Z → io bytes * W;
  file_write : W → handle → bytes → io Z * W;
  file_try_clone : W → handle → io handle * W;
  file_set_len : W → handle → Z → io unit * W;
  file_set_permissions : W → handle → Z → io unit * W;
  file_set_modified : W → handle → system_time → io unit * W;
  now : W → system_time;
  (** [started_at.elapsed()], in nanoseconds. *)
  elapsed : W → Z;
  rng_fill : W → nat → bytes * W;
  (** [wasmtime::Memory::grow] from this size by this many pages: does it
      succeed? *)
  memory_grow : W → Z → Z → bool * W;
}.

(** What [Read::read] and [Write::write] promise of their counts, and
    [RngCore::fill_bytes] of its output. *)
Class HostLaws (W : Type) `{Host W} : Prop := {
  file_read_le w h n bs w' :
    file_read w h n = (IoOk bs, w') → (length bs ≤ Z.to_nat n)%nat ∧ bytes_ok bs;
  file_write_le w h bs n w' :
    file_write w h bs = (IoOk n, w') → 0 ≤ n ≤ Z.of_nat (length bs);
  rng_fill_length w n bs w' :
    rng_fill w n = (bs, w') → length bs = n ∧ bytes_ok bs;
}.

(** Regular files: a readable handle has bytes and a cursor. A read returns
    some of the bytes at the cursor, possibly fewer than asked for, and none
    only at the end. *)
Class FileHost (W : Type) `{Host W} := {
  content : W → handle → bytes;
  cursor : W → handle → Z;
  readable : W → handle → Prop;
  file_seek_law w f p :
    readable w f → 0 ≤ p →
    ∃ w', file_seek w f (SeekStart p) = (IoOk p, w') ∧ readable w' f ∧
      content w' f = content w f ∧ cursor w' f = p;
  file_read_law w f n :
    readable w f → 0 < n →
    ∃ bs w', file_read w f n = (IoOk bs, w') ∧ readable w' f ∧ content w' f = content w f ∧
      cursor w' f = cursor w f + Z.of_nat (length bs) ∧
      bs `prefix_of` drop (Z.to_nat (cursor w f)) (content w f) ∧
      Z.of_nat (length bs) ≤ n ∧ (bs = [] → Z.of_nat (length (content w f)) ≤ cursor w f);
}.

(** Bytes stored over a file from offset [p] on; a gap is filled with zeros. *)
Definition overwrite (c : bytes) (p : Z) (bs : bytes) : bytes :=
  take (Z.to_nat p) (c ++ replicate (Z.to_nat p - length c) 0) ++ bs ++ drop (Z.to_nat p + length bs) c.

(** Files that are not in append mode: what a write stored, if it stored
    anything, is at the cursor. A handle stays readable and writable. *)
Class FileWriteHost (W : Type) `{FileHost W} := {
  writable : W → handle → Prop;
  file_seek_writable w f s p w' : writable w f → file_seek w f s = (IoOk p, w') → writable w' f;
  file_seek_current_law w f d :
    readable w f → 0 ≤ cursor w f + d →
    ∃ w', file_seek w f (SeekCurrent d) = (IoOk (cursor w f + d), w') ∧ readable w' f ∧
      content w' f = content w f ∧ cursor w' f = cursor w f + d;
  file_write_law w f bs n w' :
    readable w f → writable w f → file_write w f bs = (IoOk n, w') →
    0 ≤ n ≤ Z.of_nat (length bs) ∧ readable w' f ∧ writable w' f ∧
    content w' f = overwrite (content w f) (cursor w f) (take (Z.to_nat n) bs) ∧
    cursor w' f = cursor w f + n;
}.

Lemma length_overwrite_head (c : bytes) p :
  0 ≤ p → length (take (Z.to_nat p) (c ++ replicate (Z.to_nat p - length c) 0)) = Z.to_nat p.
Proof. intros Hp. rewrite length_take, length_app, length_replicate. lia. Qed.

(** What was stored is there. *)
Lemma overwrite_read c p bs :
  0 ≤ p → take (length bs) (drop (Z.to_nat p) (overwrite c p bs)) = bs.
Proof.
  intros Hp. unfold overwrite. rewrite drop_app_length'.
  - by rewrite take_app_length.
  - symmetry. by apply length_overwrite_head.
Qed.

(** ** The host with no files *)

Definition NullHost := unit.

#[global] Instance null_host : Host NullHost := {
  fs_canonicalize _ p := IoOk p;
  fs_metadata _ _ := IoErr NotFound;
  fs_symlink_metadata _ _ := IoErr NotFound;
  fs_read_dir _ _ := IoErr NotFound;
  fs_open w _ _ := (IoErr NotFound, w);
  fs_create_dir w _ := (IoErr PermissionDenied, w);
  fs_remove_dir w _ := (IoErr NotFound, w);
  fs_remove_file w _ := (IoErr NotFound, w);
  fs_rename w _ _ := (IoErr NotFound, w);
  fs_read_link _ _ := IoErr NotFound;
  fs_symlink w _ _ := (IoErr PermissionDenied, w);
  fs_hard_link w _ _ := (IoErr NotFound, w);
  fs_set_permissions w _ _ := (IoErr NotFound, w);
  file_metadata _ _ := IoErr OtherKind;
  file_seek w _ _ := (IoErr OtherKind, w);
  file_read w _ _ := (IoOk [], w);
  file_write w _ _ := (IoOk 0, w);
  file_try_clone w h := (IoOk h, w);
  file_set_len w _ _ := (IoErr OtherKind, w);
  file_set_permissions w _ _ := (IoErr OtherKind, w);
  file_set_modified w _ _ := (IoErr OtherKind, w);
  now _ := 0;
  elapsed _ := 0;
  rng_fill w n := (replicate n 0, w);
  memory_grow w size pages := (size + pages * 65536 <? 2 ^ 32, w);
}.

#[global] Instance null_host_laws : HostLaws NullHost.
Proof.
  split.
  - intros w h n bs w' [= <- <-]. simpl. split; [lia|constructor].
  - intros w h bs n w' [= <- <-]. lia.
  - intros w n bs w' [= <- <-]. rewrite length_replicate. split; [done|].
    apply Forall_replicate. unfold byte_ok. lia.
Qed.

(** ** The host with one file

    Bytes and a cursor; every path is that file. Reads are short: at most
    three bytes each. *)

Record OneFile := MkOneFile { of_data : bytes; of_cursor : Z }.

Definition of_set_cursor (w : OneFile) (c : Z) : OneFile := MkOneFile (of_data w) c.

Definition of_chunk (w : OneFile) (n : Z) : bytes :=
  take (Z.to_nat (Z.min n 3)) (drop (Z.to_nat (of_cursor w)) (of_data w)).

Definition of_meta (w : OneFile) : Metadata :=
  MkMetadata FtFile 33188 1 1 (Z.of_nat (length (of_data w))) (Some 0) (Some 0) (Some 0).

#[global] Instance one_file_host : Host OneFile := {
  fs_canonicalize _ p := IoOk p;
  fs_metadata w _ := IoOk (of_meta w);
  fs_symlink_metadata w _ := IoOk (of_meta w);
  fs_read_dir _ _ := IoErr NotADirectory;
  fs_open w _ _ := (IoOk 0, of_set_cursor w 0);
  fs_create_dir w _ := (IoErr AlreadyExists, w);
  fs_remove_dir w _ := (IoErr NotADirectory, w);
  fs_remove_file w _ := (IoErr PermissionDenied, w);
  fs_rename w _ _ := (IoErr PermissionDenied, w);
  fs_read_link _ _ := IoErr InvalidInput;
  fs_symlink w _ _ := (IoErr AlreadyExists, w);
  fs_hard_link w _ _ := (IoErr AlreadyExists, w);
  fs_set_permissions w _ _ := (IoErr PermissionDenied, w);
  file_metadata w _ := IoOk (of_meta w);
  file_seek w _ s := let c := match s with SeekStart p => p | SeekCurrent d => of_cursor w + d end in
                     (IoOk c, of_set_cursor w c);
  file_read w _ n := let bs := of_chunk w n in
                     (IoOk bs, of_set_cursor w (of_cursor w + Z.of_nat (length bs)));
  file_write w _ bs := (IoOk (Z.of_nat (length bs)),
    MkOneFile (overwrite (of_data w) (of_cursor w) bs) (of_cursor w + Z.of_nat (length bs)));
  file_try_clone w h := (IoOk h, w);
  file_set_len w _ n := (IoOk tt, MkOneFile (take (Z.to_nat n) (of_data w)) (of_cursor w));
  file_set_permissions w _ _ := (IoErr PermissionDenied, w);
  file_set_modified w _ _ := (IoOk tt, w);
  now _ := 0;
  elapsed _ := 0;
  rng_fill w n := (replicate n 0, w);
  memory_grow w size pages := (size + pages * 65536 <? 2 ^ 32, w);
}.

#[global] Program Instance one_file_files : FileHost OneFile := {
  content w _ := of_data w;
  cursor w _ := of_cursor w;
  readable w _ := 0 ≤ of_cursor w;
}.
Next Obligation. intros w f p _ Hp. by eexists. Qed.
Next Obligation.
  intros w f n Hc Hn. simpl in *. eexists _, _. split; [done|]. simpl. unfold of_chunk.
  split_and!; [lia|done|done|apply prefix_take|rewrite length_take; lia|].
  intros He. apply (f_equal length) in He. rewrite length_take, length_drop in He. simpl in He. lia.
Qed.

#[global] Program Instance one_file_writes : FileWriteHost OneFile := { writable _ _ := True }.
Next Obligation. done. Qed.
Next Obligation. intros w f d _ Hp. by eexists. Qed.
Next Obligation.
  intros w f bs n w' Hc _ [= <- <-]. simpl in *. rewrite Nat2Z.id, firstn_all. split_and!; lia || done.
Qed.
