(* ===== verification/Arena.v ===== *)
(** * The 256 KiB arena (src/mm/arena.rs)

    [Arena] tracks which byte ranges of one 256 KiB region of linear memory
    are in use: a bump pointer and a free list of holes left by [munmap].
    The [usize] quantities of this file stay below [2 * ARENA_SIZE], so they
    are plain integers; the [u32] additions that form addresses wrap.

    The allocator never stores which ranges it has handed out. The
    specification does: [arena_inv a live] says that the holes of [a] and
    the blocks of the ghost list [live] are pairwise disjoint ranges below
    the bump pointer. *)

From Stdlib Require Import Sorted.
From S2P Require Import Prelude Word.

Definition ARENA_SIZE : Z := 256 * 1024.

(** A block or a hole: offset (from the arena's base) and length. *)
Abbreviation block := (Z * Z)%type.

Record Arena := MkArena {
  base : Z;
  used : Z;
  free_list : list block;
}.

Definition new (b : Z) : Arena := MkArena b 0 [].

(** ** alloc *)

(** The candidate the search keeps: index, aligned offset, waste. *)
Abbreviation candidate := (nat * Z * Z)%type.

Definition best_step (len align_mask : Z) (best : option candidate)
    (i : nat) (h : block) : option candidate :=
  let '(off, hlen) := h in
  let aligned_off := align_up off align_mask in
  let slack := aligned_off - off in
  if hlen <? slack + len then best
  else
    let waste := hlen - len - slack in
    match best with
    | None => Some (i, aligned_off, waste)
    | Some (_, _, bw) => if waste <? bw then Some (i, aligned_off, waste) else best
    end.

Fixpoint best_search (len align_mask : Z) (best : option candidate)
    (i : nat) (fl : list block) : option candidate :=
  match fl with
  | [] => best
  | h :: fl => best_search len align_mask (best_step len align_mask best i h) (S i) fl
  end.

(** Carve [alloc_off .. alloc_off + len] out of hole [i]. *)
Definition carve (fl : list block) (i : nat) (alloc_off len : Z) : list block :=
  match fl !! i with
  | None => fl
  | Some (hole_off, hole_len) =>
    let alloc_end := alloc_off + len in
    let hole_end := hole_off + hole_len in
    if (alloc_off =? hole_off) && (alloc_end =? hole_end) then swap_remove i fl
    else if alloc_off =? hole_off then <[i := (alloc_end, hole_end - alloc_end)]> fl
    else if alloc_end =? hole_end then <[i := (hole_off, alloc_off - hole_off)]> fl
    else <[i := (hole_off, alloc_off - hole_off)]> fl ++ [(alloc_end, hole_end - alloc_end)]
  end.

Definition alloc (a : Arena) (len align : Z) : option Z * Arena :=
  let align_mask := align - 1 in
  match best_search len align_mask None 0 (free_list a) with
  | Some (i, alloc_off, _) =>
    (Some (as_u32 (base a + as_u32 alloc_off)),
     MkArena (base a) (used a) (carve (free_list a) i alloc_off len))
  | None =>
    let bump_aligned := align_up (used a) align_mask in
    let new_used := bump_aligned + len in
    if ARENA_SIZE <? new_used then (None, a)
    else (Some (as_u32 (base a + as_u32 bump_aligned)),
          MkArena (base a) new_used (free_list a))
  end.

(** ** free *)

(** [sort_by_key(|&(off, _)| off)]: the standard library's stable sort. *)
Fixpoint insert_by_off (h : block) (l : list block) : list block :=
  match l with
  | [] => [h]
  | h' :: l' => if h.1 <=? h'.1 then h :: l else h' :: insert_by_off h l'
  end.
Definition sort_by_off (l : list block) : list block := foldr insert_by_off [] l.

(** The in-place merge loop. Every iteration either moves [i] up or shortens
    the list, so [length fl] iterations are enough. *)
Fixpoint coalesce_loop (fuel i : nat) (fl : list block) : list block :=
  match fuel with
  | O => fl
  | S fuel =>
    match fl !! i, fl !! S i with
    | Some (a_off, a_len), Some (b_off, b_len) =>
      if a_off + a_len =? b_off
      then coalesce_loop fuel i (delete (S i) (<[i := (a_off, a_len + b_len)]> fl))
      else coalesce_loop fuel (S i) fl
    | _, _ => fl
    end
  end.
Definition coalesce (fl : list block) : list block := coalesce_loop (length fl) 0 fl.

Definition free (a : Arena) (off len : Z) : bool * Arena :=
  if len =? 0 then (false, a)
  else match checked_sub_u32 off (base a) with
  | None => (false, a)
  | Some o =>
    match checked_add_usize o len with
    | None => (false, a)
    | Some e =>
      if ARENA_SIZE <? e then (false, a)
      else (true, MkArena (base a) (used a)
                    (coalesce (sort_by_off (free_list a ++ [(o, len)]))))
    end
  end.

Definition contains (a : Arena) (off len : Z) : bool :=
  match checked_add_u32 off (as_u32 len) with
  | None => false
  | Some e => (base a <=? off) && (e <=? as_u32 (base a + ARENA_SIZE))
  end.

Definition available (a : Arena) : Z :=
  ARENA_SIZE - used a + zsum (snd <$> free_list a).

(** ** The invariant *)

Definition bdisj (x y : block) : Prop := disjoint_ranges x.1 x.2 y.1 y.2.
#[global] Instance bdisj_sym : Symmetric bdisj.
Proof. intros x y [?|?]; unfold bdisj, disjoint_ranges; lia. Qed.

(** A non-empty range below [u]. *)
Definition below (u : Z) (x : block) : Prop := 0 ≤ x.1 ∧ 0 < x.2 ∧ x.1 + x.2 ≤ u.

Record arena_inv (a : Arena) (live : list block) : Prop := {
  ai_base : 0 ≤ base a ∧ base a + ARENA_SIZE < 2 ^ 32;
  ai_used : 0 ≤ used a ≤ ARENA_SIZE;
  ai_below : Forall (below (used a)) (free_list a ++ live);
  ai_disj : pairwise bdisj (free_list a ++ live);
}.

Lemma new_inv b : 0 ≤ b → b + ARENA_SIZE < 2 ^ 32 → arena_inv (new b) [].
Proof. intros. by split. Qed.

(** The invariant only looks at holes and blocks as a collection. *)
Lemma arena_inv_perm a u fl fl' live live' :
  fl ++ live ≡ₚ fl' ++ live' →
  arena_inv (MkArena a u fl) live → arena_inv (MkArena a u fl') live'.
Proof.
  intros Hp [Hb Hu Hf Hd]. split; simpl in *; auto.
  - by rewrite <- Hp.
  - by apply (pairwise_perm bdisj _ _ Hp).
Qed.

(** ** The best-fit search *)

Definition slack_of (mask : Z) (h : block) : Z := align_up h.1 mask - h.1.
Definition fits (len mask : Z) (h : block) : Prop := slack_of mask h + len ≤ h.2.
Definition waste_of (len mask : Z) (h : block) : Z := h.2 - len - slack_of mask h.

(** [best] is a hole of [fl] of least waste, or no hole of [fl] fits. *)
Definition best_ok (len mask : Z) (fl : list block) (best : option candidate) : Prop :=
  match best with
  | None => Forall (λ h, ¬ fits len mask h) fl
  | Some (i, o, w) => ∃ h, fl !! i = Some h ∧ fits len mask h ∧
      o = align_up h.1 mask ∧ w = waste_of len mask h ∧
      Forall (λ h', fits len mask h' → w ≤ waste_of len mask h') fl
  end.

Lemma best_step_ok len mask pre best h :
  best_ok len mask pre best →
  best_ok len mask (pre ++ [h]) (best_step len mask best (length pre) h).
Proof.
  destruct h as [off hlen]. intros Hb. unfold best_step.
  destruct (hlen <? _) eqn:Hfit; to_prop.
  - assert (¬ fits len mask (off, hlen)) as Hnf by (unfold fits, slack_of; simpl; lia).
    destruct best as [[[i o] w]|]; simpl in *.
    + destruct Hb as (h & ? & ? & ? & ? & ?). exists h. rewrite Forall_app, Forall_singleton.
      split_and!; auto using lookup_app_l_Some. tauto.
    + by rewrite Forall_app, Forall_singleton.
  - assert (fits len mask (off, hlen)) as Hf by (unfold fits, slack_of; simpl; lia).
    assert (best_ok len mask (pre ++ [(off, hlen)]) (Some (length pre, align_up off mask,
              hlen - len - (align_up off mask - off))) ↔
            Forall (λ h', fits len mask h' →
              waste_of len mask (off, hlen) ≤ waste_of len mask h') pre) as Hnew.
    { simpl. split.
      - intros (h & Hl & _ & _ & Hw & HF). rewrite lookup_app_r, Nat.sub_diag in Hl by lia.
        simplify_eq/=. rewrite Forall_app in HF. destruct HF as [HF _].
        unfold waste_of at 1, slack_of. simpl. exact HF.
      - intros HF. exists (off, hlen). rewrite lookup_app_r, Nat.sub_diag by lia.
        rewrite Forall_app, Forall_singleton. split_and!; auto. unfold waste_of, slack_of. simpl. lia. }
    destruct best as [[[i o] w]|].
    + destruct Hb as (h & Hl & ? & ? & Hw & HF).
      destruct (_ <? w) eqn:Hlt; to_prop.
      * apply Hnew. eapply Forall_impl; [exact HF|]. simpl. intros h' Hh' Hfit'.
        specialize (Hh' Hfit'). unfold waste_of at 1, slack_of. simpl. lia.
      * exists h. rewrite Forall_app, Forall_singleton.
        split_and!; auto using lookup_app_l_Some.
    + apply Hnew. simpl in Hb. eapply Forall_impl; [exact Hb|]. simpl. tauto.
Qed.

Lemma best_search_ok len mask fl : ∀ pre best,
  best_ok len mask pre best →
  best_ok len mask (pre ++ fl) (best_search len mask best (length pre) fl).
Proof.
  induction fl as [|h fl IH]; intros pre best Hb; simpl.
  { by rewrite app_nil_r. }
  rewrite cons_middle, app_assoc.
  replace (S (length pre)) with (length (pre ++ [h])) by (rewrite length_app; simpl; lia).
  apply IH, best_step_ok, Hb.
Qed.

Lemma best_search_start len mask fl : best_ok len mask fl (best_search len mask None 0 fl).
Proof. apply (best_search_ok len mask fl []). simpl. constructor. Qed.

(** ** Splitting a hole *)

(** [x] is a non-empty part of [h]. *)
Definition part_of (h x : block) : Prop :=
  h.1 ≤ x.1 ∧ 0 < x.2 ∧ x.1 + x.2 ≤ h.1 + h.2.

Lemma replace_block u h ps l :
  Forall (part_of h) ps → pairwise bdisj ps →
  Forall (below u) (h :: l) → pairwise bdisj (h :: l) →
  Forall (below u) (ps ++ l) ∧ pairwise bdisj (ps ++ l).
Proof.
  intros Hps Hpd Hb [Hd ?]. apply Forall_cons in Hb as [[? [? ?]] ?].
  rewrite Forall_app, pairwise_app. repeat split; try done.
  - eapply Forall_impl; [exact Hps|]. intros x (? & ? & ?). unfold below. lia.
  - eapply Forall_impl; [exact Hps|]. intros x (? & ? & ?). simpl.
    eapply Forall_impl; [exact Hd|]. intros y Hy.
    unfold bdisj, disjoint_ranges in *. lia.
Qed.

Lemma insert_perm {A} (l : list A) i x y :
  l !! i = Some x → <[i:=y]> l ≡ₚ y :: delete i l.
Proof.
  intros Hi. pose proof (lookup_lt_Some _ _ _ Hi).
  rewrite insert_take_drop by done. rewrite delete_take_drop.
  by rewrite <- Permutation_middle.
Qed.

(** What is left of the hole after carving, as blocks. *)
Lemma carve_perm fl i h o len :
  fl !! i = Some h → h.1 ≤ o → 0 < len → o + len ≤ h.1 + h.2 →
  ∃ ps, carve fl i o len ≡ₚ ps ++ delete i fl ∧
    Forall (part_of h) ((o, len) :: ps) ∧ pairwise bdisj ((o, len) :: ps).
Proof.
  intros Hi Ho Hlen Hend. unfold carve. rewrite Hi. destruct h as [ho hl]. simpl in *.
  repeat case_if; to_prop.
  - exists []. simpl. split.
    + apply (Permutation_cons_inv (a := (ho, hl))).
      by rewrite <- swap_remove_perm, <- delete_Permutation by done.
    + repeat constructor; simpl; lia.
  - exists [(o + len, ho + hl - (o + len))]. simpl. split; [by eapply insert_perm|].
    unfold part_of, bdisj, disjoint_ranges. repeat constructor; simpl; lia.
  - exists [(ho, o - ho)]. simpl. split; [by eapply insert_perm|].
    unfold part_of, bdisj, disjoint_ranges. repeat constructor; simpl; lia.
  - exists [(ho, o - ho); (o + len, ho + hl - (o + len))]. split.
    + rewrite (insert_perm _ _ _ _ Hi). simpl. constructor.
      by rewrite <- Permutation_cons_append.
    + unfold part_of, bdisj, disjoint_ranges. repeat constructor; simpl; lia.
Qed.

(** ** alloc preserves the invariant *)

(** The address of a block at offset [o] does not wrap. *)
Lemma address_exact b o :
  0 ≤ b → b + ARENA_SIZE < 2 ^ 32 → 0 ≤ o ≤ ARENA_SIZE → as_u32 (b + as_u32 o) = b + o.
Proof.
  intros. unfold as_u32. assert (0 < ARENA_SIZE) by done.
  rewrite (wrapu_id 32 o) by (unfold is_u; lia). apply wrapu_id. unfold is_u. lia.
Qed.

Lemma hole_fits u len k h :
  below u h → u ≤ ARENA_SIZE → 0 ≤ k ≤ 16 → fits len (2 ^ k - 1) h →
  h.1 ≤ align_up h.1 (2 ^ k - 1) ∧ align_up h.1 (2 ^ k - 1) + len ≤ h.1 + h.2 ∧
  align_up h.1 (2 ^ k - 1) mod 2 ^ k = 0.
Proof.
  intros (? & ? & ?) ? ? Hfit. assert (2 ^ k ≤ 2 ^ 16) by (apply Z.pow_le_mono_r; lia).
  unfold ARENA_SIZE in *. destruct (align_up_spec h.1 k) as [[? ?] ?]; [lia..|].
  unfold fits, slack_of in Hfit. split_and!; [lia..|done].
Qed.

Lemma alloc_inv a live len k addr a' :
  arena_inv a live → 0 < len → 0 ≤ k ≤ 16 →
  alloc a len (2 ^ k) = (Some addr, a') →
  ∃ o, addr = base a + o ∧ o mod 2 ^ k = 0 ∧ 0 ≤ o ∧ o + len ≤ ARENA_SIZE ∧
    base a' = base a ∧ arena_inv a' ((o, len) :: live).
Proof.
  intros [Hb Hu Hf Hd] Hlen Hk. unfold alloc.
  pose proof (best_search_start len (2 ^ k - 1) (free_list a)) as Hbest.
  destruct (best_search _ _ _ _ _) as [[[i o] w]|].
  - destruct Hbest as (h & Hi & Hfit & -> & _ & _). intros [= <- <-].
    set (o := align_up h.1 (2 ^ k - 1)).
    assert (below (used a) h) as Hh.
    { apply Forall_app in Hf as [Hf _]. rewrite Forall_lookup in Hf. eauto. }
    destruct (hole_fits (used a) len k h Hh) as (? & ? & ?); [lia..|done|].
    destruct Hh as (? & ? & ?).
    destruct (carve_perm _ _ _ o len Hi) as (ps & Hperm & Hpart & Hpd); [subst o; lia..|].
    exists o. subst o. rewrite address_exact by lia.
    split_and!; try done; [lia..|].
    assert (free_list a ++ live ≡ₚ h :: delete i (free_list a) ++ live) as Hsplit
      by (by rewrite (delete_Permutation _ _ _ Hi) at 1).
    rewrite Hsplit in Hf. apply (pairwise_perm _ _ _ Hsplit) in Hd.
    destruct (replace_block _ _ _ _ Hpart Hpd Hf Hd) as [Hf' Hd'].
    assert ((align_up h.1 (2 ^ k - 1), len) :: ps ++ delete i (free_list a) ++ live ≡ₚ
            carve (free_list a) i (align_up h.1 (2 ^ k - 1)) len ++
              (align_up h.1 (2 ^ k - 1), len) :: live) as Hfin.
    { rewrite Hperm, <- Permutation_middle. by rewrite app_assoc. }
    split; simpl; auto.
    + by rewrite <- Hfin.
    + by apply (pairwise_perm _ _ _ Hfin).
  - clear Hbest. case_if; [done|]. intros [= <- <-].
    assert (2 ^ k ≤ 2 ^ 16) by (apply Z.pow_le_mono_r; lia).
    unfold ARENA_SIZE in Hb, Hu.
    destruct (align_up_spec (used a) k) as [[? ?] ?]; [lia..|].
    exists (align_up (used a) (2 ^ k - 1)).
    rewrite address_exact by (unfold ARENA_SIZE in *; lia).
    split_and!; try done; [lia..|]. split; simpl; [done|lia|..].
    + rewrite <- Permutation_middle. constructor; [unfold below; simpl; lia|].
      eapply Forall_impl; [exact Hf|]. unfold below. lia.
    + apply (pairwise_perm _ ((align_up (used a) (2 ^ k - 1), len) :: free_list a ++ live));
        [by rewrite <- Permutation_middle|].
      split; [|done]. eapply Forall_impl; [exact Hf|].
      unfold below, bdisj, disjoint_ranges. simpl. lia.
Qed.

(** ** free: sorting and coalescing *)

Lemma insert_by_off_perm h l : insert_by_off h l ≡ₚ h :: l.
Proof.
  induction l as [|h' l IH]; simpl; [done|]. case_if; [done|].
  rewrite IH. apply Permutation_swap.
Qed.

Lemma sort_by_off_perm l : sort_by_off l ≡ₚ l.
Proof. induction l as [|h l IH]; simpl; [done|]. by rewrite insert_by_off_perm, IH. Qed.

Abbreviation sorted_by_off := (StronglySorted (λ x y : block, x.1 ≤ y.1)).

Lemma insert_by_off_sorted h l : sorted_by_off l → sorted_by_off (insert_by_off h l).
Proof.
  induction 1 as [|h' l Hs IH Hf]; simpl; [by repeat constructor|].
  case_if.
  - constructor; [by constructor|]. constructor; [done|].
    eapply Forall_impl; [exact Hf|]. simpl. lia.
  - constructor; [done|]. rewrite insert_by_off_perm. constructor; [lia|done].
Qed.

Lemma sort_by_off_sorted l : sorted_by_off (sort_by_off l).
Proof. induction l; simpl; [constructor|]. by apply insert_by_off_sorted. Qed.

(** The reference definition of coalescing: one pass that merges a block with
    its successor whenever they touch. *)
Fixpoint merge_adj (a : block) (l : list block) : list block :=
  match l with
  | [] => [a]
  | b :: l => if a.1 + a.2 =? b.1 then merge_adj (a.1, a.2 + b.2) l
              else a :: merge_adj b l
  end.
Definition merge_all (l : list block) : list block :=
  match l with [] => [] | a :: l => merge_adj a l end.

Lemma coalesce_loop_merge fuel pre a l :
  (length l ≤ fuel)%nat →
  coalesce_loop fuel (length pre) (pre ++ a :: l) = pre ++ merge_adj a l.
Proof.
  revert fuel pre a; induction l as [|b l IH]; intros fuel pre [ao al] Hfuel.
  - destruct fuel; simpl; [done|]. rewrite list_lookup_middle by done.
    by rewrite lookup_app_r, Nat.sub_succ_l, Nat.sub_diag by lia.
  - destruct fuel as [|fuel]; simpl in Hfuel; [lia|]. destruct b as [bo bl].
    cbn [coalesce_loop]. rewrite list_lookup_middle by done.
    rewrite lookup_app_r by lia. rewrite Nat.sub_succ_l, Nat.sub_diag by lia. simpl.
    case_if.
    + rewrite insert_app_r_alt by lia. rewrite Nat.sub_diag. simpl.
      replace (delete (S (length pre)) (pre ++ (ao, al + bl) :: (bo, bl) :: l))
        with (pre ++ (ao, al + bl) :: l).
      { apply IH. lia. }
      rewrite delete_take_drop. rewrite take_app_ge, drop_app_ge by lia.
      rewrite Nat.sub_succ_l, Nat.sub_diag by lia.
      replace (S (S (length pre)) - length pre)%nat with 2%nat by lia.
      simpl. by rewrite <- app_assoc.
    + replace (S (length pre)) with (length (pre ++ [(ao, al)]))
        by (rewrite length_app; simpl; lia).
      replace (pre ++ (ao, al) :: (bo, bl) :: l) with ((pre ++ [(ao, al)]) ++ (bo, bl) :: l)
        by (by rewrite <- app_assoc).
      rewrite IH by lia. by rewrite <- app_assoc.
Qed.

Lemma coalesce_merge_all fl : coalesce fl = merge_all fl.
Proof.
  unfold coalesce. destruct fl as [|a l]; [done|].
  change (a :: l) with ([] ++ a :: l) at 2. apply (coalesce_loop_merge _ []). simpl. lia.
Qed.

Lemma merge_adj_sum a l : zsum (snd <$> merge_adj a l) = a.2 + zsum (snd <$> l).
Proof.
  revert a; induction l as [|b l IH]; intros a; [done|].
  cbn [merge_adj]. rewrite fmap_cons, zsum_cons.
  case_if; [rewrite IH; simpl; lia|]. rewrite fmap_cons, zsum_cons, IH. lia.
Qed.

Lemma merge_adj_inv u a l live :
  Forall (below u) (a :: l ++ live) → pairwise bdisj (a :: l ++ live) →
  Forall (below u) (merge_adj a l ++ live) ∧ pairwise bdisj (merge_adj a l ++ live).
Proof.
  revert a live; induction l as [|b l IH]; intros a live Hf Hd; [done|].
  cbn [merge_adj]. case_if.
  - apply IH; rewrite <- app_comm_cons in *; destruct Hd as [Hda [Hdb Hd]];
      apply Forall_cons in Hf as [(? & ? & ?) [(? & ? & ?) Hf]%Forall_cons].
    + constructor; [unfold below in *; simpl; lia|done].
    + split; [|done]. apply Forall_cons in Hda as [_ Hda].
      rewrite Forall_forall in Hda, Hdb, Hf |- *. intros y Hy.
      specialize (Hda y Hy); specialize (Hdb y Hy); specialize (Hf y Hy).
      unfold bdisj, disjoint_ranges, below in *. simpl. lia.
  - assert (a :: (b :: l) ++ live ≡ₚ b :: l ++ a :: live) as Hp
      by (simpl; rewrite Permutation_swap; constructor; by rewrite Permutation_middle).
    rewrite Hp in Hf. apply (pairwise_perm _ _ _ Hp) in Hd.
    destruct (IH b (a :: live) Hf Hd) as [Hf' Hd'].
    assert (merge_adj b l ++ a :: live ≡ₚ (a :: merge_adj b l) ++ live) as Hp'
      by (by rewrite <- Permutation_middle).
    rewrite Hp' in Hf'. by apply (pairwise_perm _ _ _ Hp') in Hd'.
Qed.

(** Holes in increasing order, no two of them touching. *)
Abbreviation canonical := (StronglySorted (λ x y : block, x.1 + x.2 < y.1)).

Lemma merge_adj_start c a l :
  Forall (λ y : block, c ≤ y.1) (a :: l) → Forall (λ y, c ≤ y.1) (merge_adj a l).
Proof.
  revert a; induction l as [|b l IH]; intros a Hf; simpl; [done|].
  apply Forall_cons in Hf as [? Hf]. case_if.
  - apply IH. apply Forall_cons in Hf as [? ?]. by constructor.
  - constructor; [done|]. by apply IH.
Qed.

Lemma merge_adj_canonical a l :
  Forall (λ x : block, 0 < x.2) (a :: l) →
  StronglySorted (λ x y : block, x.1 + x.2 ≤ y.1) (a :: l) →
  canonical (merge_adj a l).
Proof.
  revert a; induction l as [|b l IH]; intros a Hp Hs; simpl; [by repeat constructor|].
  apply StronglySorted_inv in Hs as [Hs Ha].
  pose proof Hs as Hs0. apply StronglySorted_inv in Hs0 as [Hsl Hb].
  apply Forall_cons in Ha as [Hab Ha].
  apply Forall_cons in Hp as [? Hp]. pose proof Hp as Hp0. apply Forall_cons in Hp0 as [? Hpl].
  case_if.
  - apply IH; [constructor; [simpl; lia|done]|].
    constructor; [done|]. simpl. eapply Forall_impl; [exact Hb|]. simpl. lia.
  - constructor; [by apply IH|].
    assert (Forall (λ y : block, b.1 ≤ y.1) (merge_adj b l)) as HF.
    { apply merge_adj_start. constructor; [done|].
      eapply Forall_impl; [exact Hb|]. simpl. lia. }
    eapply Forall_impl; [exact HF|]. simpl. lia.
Qed.

Lemma sorted_disjoint_ends u l :
  Forall (below u) l → pairwise bdisj l → sorted_by_off l →
  StronglySorted (λ x y : block, x.1 + x.2 ≤ y.1) l.
Proof.
  intros Hf Hd Hs. induction Hs as [|a l Hs IH Ha]; [constructor|].
  apply Forall_cons in Hf as [(? & ? & ?) Hf]. destruct Hd as [Hda Hd].
  constructor; [auto|]. rewrite Forall_forall in Ha, Hf, Hda |- *. intros y Hy.
  specialize (Ha y Hy); specialize (Hf y Hy); specialize (Hda y Hy).
  unfold below, bdisj, disjoint_ranges in *. lia.
Qed.

(** ** Freeing a live block *)

Lemma free_eq a o len :
  0 ≤ base a → 0 < len → 0 ≤ o → o + len ≤ ARENA_SIZE →
  free a (base a + o) len =
    (true, MkArena (base a) (used a) (merge_all (sort_by_off (free_list a ++ [(o, len)])))).
Proof.
  intros. unfold free, checked_sub_u32, checked_add_usize, ARENA_SIZE, U64_MAX in *.
  replace (len =? 0) with false by (symmetry; apply Z.eqb_neq; lia).
  replace (base a <=? base a + o) with true by (symmetry; apply Z.leb_le; lia).
  replace (base a + o - base a) with o by lia.
  replace (o + len <=? 2 ^ 64 - 1) with true by (symmetry; apply Z.leb_le; lia).
  replace (_ <? o + len) with false by (symmetry; apply Z.ltb_ge; lia).
  by rewrite coalesce_merge_all.
Qed.

Lemma merge_all_inv u l live :
  Forall (below u) (l ++ live) → pairwise bdisj (l ++ live) →
  Forall (below u) (merge_all l ++ live) ∧ pairwise bdisj (merge_all l ++ live).
Proof. destruct l; [done|]. apply merge_adj_inv. Qed.

Lemma merge_all_canonical u l :
  Forall (below u) l → pairwise bdisj l → sorted_by_off l → canonical (merge_all l).
Proof.
  intros Hf Hd Hs. destruct l as [|a l]; [constructor|]. apply merge_adj_canonical.
  - eapply Forall_impl; [exact Hf|]. unfold below. lia.
  - by eapply sorted_disjoint_ends.
Qed.

Lemma merge_all_sum l : zsum (snd <$> merge_all l) = zsum (snd <$> l).
Proof. destruct l; [done|]. simpl. by rewrite merge_adj_sum. Qed.

Definition covers (h x : block) : Prop := h.1 ≤ x.1 ∧ x.1 + x.2 ≤ h.1 + h.2.

Lemma merge_adj_covers u a l x :
  Forall (below u) (a :: l) → x ∈ a :: l → Exists (λ h, covers h x) (merge_adj a l).
Proof.
  intros Hf Hx.
  assert (∀ c, covers c x → 0 ≤ c.2 → ∀ l, Forall (below u) l →
            Exists (λ h, covers h x) (merge_adj c l)) as Hhead.
  { clear. intros c Hc Hp l. revert c Hc Hp.
    induction l as [|b l IH]; intros c Hc Hp Hf; simpl; [by constructor|].
    apply Forall_cons in Hf as [(? & ? & ?) Hf]. case_if; [|by constructor].
    apply IH; simpl; [unfold covers in *; simpl; lia|lia|done]. }
  revert a Hf Hx; induction l as [|b l IH]; intros a Hf Hx.
  { apply list_elem_of_singleton in Hx as ->. constructor. unfold covers. lia. }
  apply Forall_cons in Hf as [(? & ? & ?) Hf].
  pose proof Hf as Hf0. apply Forall_cons in Hf0 as [(? & ? & ?) Hfl].
  apply elem_of_cons in Hx as [->|Hx].
  - apply Hhead; [unfold covers; lia|lia|done].
  - cbn [merge_adj]. case_if; [|by right; apply IH].
    apply elem_of_cons in Hx as [->|Hx].
    + apply Hhead; [unfold covers; simpl; lia|simpl; lia|done].
    + apply IH; [|by right]. constructor; [unfold below in *; simpl; lia|done].
Qed.

(** A power-of-two boundary above the hole's start and inside a covered,
    aligned block is found by the search. *)
Lemma covers_fits len k h x :
  0 ≤ h.1 → 0 ≤ k ≤ 16 → h.1 < 2 ^ 32 → covers h x → x.1 mod 2 ^ k = 0 → len ≤ x.2 →
  fits len (2 ^ k - 1) h.
Proof.
  intros ? ? ? [? ?] Hal ?.
  assert (0 < 2 ^ k ≤ 2 ^ 16) by (split; [lia|apply Z.pow_le_mono_r; lia]).
  destruct (align_up_spec h.1 k) as [[? ?] Hm]; [lia..|].
  unfold fits, slack_of.
  enough (align_up h.1 (2 ^ k - 1) ≤ x.1) by lia.
  apply Z.mod_divide in Hal as [q Hq]; [|lia]. apply Z.mod_divide in Hm as [r Hr]; [|lia].
  destruct (Z_le_gt_dec (align_up h.1 (2 ^ k - 1)) x.1) as [|Hgt]; [done|].
  assert (q < r) by (apply (Zmult_lt_reg_r _ _ (2 ^ k)); lia).
  assert ((q + 1) * 2 ^ k ≤ r * 2 ^ k) by (apply Z.mul_le_mono_nonneg_r; lia). lia.
Qed.

Lemma free_live_ok a live o len :
  arena_inv a ((o, len) :: live) →
  ∃ a', free a (base a + o) len = (true, a') ∧ arena_inv a' live ∧
    canonical (free_list a') ∧ used a' = used a ∧ available a' = available a + len.
Proof.
  intros [Hb Hu Hf Hd].
  assert (below (used a) (o, len)) as (? & ? & ?).
  { rewrite Forall_app, Forall_cons in Hf. tauto. }
  simpl in *. eexists. split; [apply free_eq; lia|].
  set (s := sort_by_off (free_list a ++ [(o, len)])).
  assert (s ++ live ≡ₚ free_list a ++ (o, len) :: live) as Hp.
  { subst s. rewrite sort_by_off_perm. by rewrite <- app_assoc. }
  rewrite <- Hp in Hf. symmetry in Hp. apply (pairwise_perm _ _ _ Hp) in Hd.
  destruct (merge_all_inv _ _ _ Hf Hd) as [Hf' Hd'].
  apply Forall_app in Hf as [Hf _]. apply pairwise_app in Hd as [Hd _].
  split; [by split|]. split; [|split; [done|]].
  - eapply merge_all_canonical; [done..|apply sort_by_off_sorted].
  - unfold available. simpl. rewrite merge_all_sum. subst s.
    rewrite (zsum_Permutation _ (snd <$> (free_list a ++ [(o, len)]))).
    + rewrite fmap_app, zsum_app. simpl. unfold zsum at 2. simpl. lia.
    + by rewrite sort_by_off_perm.
Qed.

Lemma alloc_fails_iff a len k :
  (alloc a len (2 ^ k)).1 = None ↔
  Forall (λ h, ¬ fits len (2 ^ k - 1) h) (free_list a) ∧
  ARENA_SIZE < align_up (used a) (2 ^ k - 1) + len.
Proof.
  unfold alloc. pose proof (best_search_start len (2 ^ k - 1) (free_list a)) as Hbest.
  destruct (best_search _ _ _ _ _) as [[[i o] w]|]; simpl in *.
  - destruct Hbest as (h & Hi & Hfit & _). split; [done|]. intros [Hno _].
    rewrite Forall_lookup in Hno. by destruct (Hno _ _ Hi).
  - case_if; simpl; split; try done. intros [_ ?]. lia.
Qed.

Lemma free_reusable a live o len k len' :
  arena_inv a ((o, len) :: live) → 0 ≤ k ≤ 16 → o mod 2 ^ k = 0 → 0 < len' ≤ len →
  ∃ addr, (alloc (free a (base a + o) len).2 len' (2 ^ k)).1 = Some addr.
Proof.
  intros [Hb Hu Hf Hd] Hk Hal Hlen.
  assert (below (used a) (o, len)) as (? & ? & ?).
  { rewrite Forall_app, Forall_cons in Hf. tauto. }
  simpl in *. rewrite free_eq by lia. simpl.
  destruct (alloc _ _ _).1 as [addr|] eqn:E; [by eexists|exfalso].
  apply alloc_fails_iff in E as [Hno _]. simpl in Hno.
  rewrite Forall_app, Forall_cons in Hf. destruct Hf as (Hf & Ho & _).
  assert (Forall (below (used a)) (sort_by_off (free_list a ++ [(o, len)]))) as Hs.
  { rewrite sort_by_off_perm, Forall_app, Forall_singleton. done. }
  assert ((o, len) ∈ sort_by_off (free_list a ++ [(o, len)])) as Hin.
  { rewrite sort_by_off_perm. set_solver. }
  destruct (sort_by_off _) as [|c l]; [by apply not_elem_of_nil in Hin|].
  pose proof (merge_adj_covers _ _ _ _ Hs Hin) as Hex.
  assert (Forall (λ y : block, 0 ≤ y.1) (merge_adj c l)) as Hst.
  { apply merge_adj_start. eapply Forall_impl; [exact Hs|]. unfold below. lia. }
  apply Exists_exists in Hex as (h & Hh & Hc). simpl in Hno.
  rewrite Forall_forall in Hno, Hst. apply (Hno h Hh).
  apply (covers_fits _ _ _ (o, len)); simpl; auto; [|lia].
  destruct Hc. simpl in *. unfold ARENA_SIZE in *. lia.
Qed.

(** ** Theorems *)

(** Under the invariant, [alloc] returns a block inside the arena, at the
    requested alignment from the base, disjoint from every live block, and the
    invariant holds again with the block added. *)
Theorem alloc_sound a live len k addr a' :
  arena_inv a live → 0 < len → 0 ≤ k ≤ 16 →
  alloc a len (2 ^ k) = (Some addr, a') →
  ∃ o, addr = base a + o ∧ o mod 2 ^ k = 0 ∧ 0 ≤ o ∧ o + len ≤ ARENA_SIZE ∧
    Forall (bdisj (o, len)) live ∧ arena_inv a' ((o, len) :: live).
Proof.
  intros Hinv Hlen Hk Ha.
  destruct (alloc_inv a live len k addr a') as (o & ? & ? & ? & ? & _ & Hinv'); auto.
  exists o. split_and!; auto. destruct Hinv' as [_ _ _ Hd].
  apply pairwise_app in Hd as (_ & [Hd _] & _). done.
Qed.

(** [alloc] fails exactly when no hole of the free list fits the request at
    its alignment and the bump region is too small for it. *)
Theorem alloc_None_iff a len k :
  (alloc a len (2 ^ k)).1 = None ↔
  Forall (λ h, ¬ fits len (2 ^ k - 1) h) (free_list a) ∧
  ARENA_SIZE < align_up (used a) (2 ^ k - 1) + len.
Proof. apply alloc_fails_iff. Qed.

(** When some hole fits, [alloc] takes its block from a hole of least
    waste among all that fit (best fit) and leaves the bump pointer alone. *)
Theorem alloc_best_fit a live len k addr a' h :
  arena_inv a live → 0 < len → 0 ≤ k ≤ 16 →
  h ∈ free_list a → fits len (2 ^ k - 1) h →
  alloc a len (2 ^ k) = (Some addr, a') →
  used a' = used a ∧ ∃ hb, hb ∈ free_list a ∧
    addr = base a + align_up hb.1 (2 ^ k - 1) ∧ covers hb (addr - base a, len) ∧
    ∀ h', h' ∈ free_list a → fits len (2 ^ k - 1) h' →
      waste_of len (2 ^ k - 1) hb ≤ waste_of len (2 ^ k - 1) h'.
Proof.
  intros [Hb Hu Hf _] Hlen Hk Hh Hfit. unfold alloc.
  pose proof (best_search_start len (2 ^ k - 1) (free_list a)) as Hbest.
  destruct (best_search _ _ _ _ _) as [[[i o] w]|]; simpl in Hbest.
  - destruct Hbest as (hb & Hi & Hfb & -> & -> & Hmin). intros [= <- <-].
    split; [done|]. exists hb. split; [by apply list_elem_of_lookup_2 with i|].
    apply Forall_app in Hf as [Hf _].
    assert (below (used a) hb) as Hbel by (rewrite Forall_lookup in Hf; eauto).
    destruct (hole_fits (used a) len k hb Hbel) as (? & ? & _); [lia..|done|].
    destruct Hbel as (? & ? & ?).
    rewrite address_exact by lia. split; [done|]. split; [unfold covers; simpl; lia|].
    rewrite Forall_forall in Hmin. auto.
  - rewrite Forall_forall in Hbest. by destruct (Hbest h Hh).
Qed.

(** The index-based merge loop of [free] terminates within [length fl]
    iterations with the result of the one-pass reference definition. *)
Theorem coalesce_correct fl : coalesce fl = merge_all fl.
Proof. apply coalesce_merge_all. Qed.

(** Freeing a live block succeeds, returns its bytes to the arena
    ([available] grows by exactly its length), keeps every other live block
    and leaves the free list sorted with no two holes touching. *)
Theorem free_sound a live o len :
  arena_inv a ((o, len) :: live) →
  ∃ a', free a (base a + o) len = (true, a') ∧ arena_inv a' live ∧
    canonical (free_list a') ∧ used a' = used a ∧ available a' = available a + len.
Proof. apply free_live_ok. Qed.

(** Freed space is reusable: after freeing a live block at an aligned
    offset, a request of at most that size and alignment always succeeds. *)
Theorem free_then_alloc a live o len k len' :
  arena_inv a ((o, len) :: live) → 0 ≤ k ≤ 16 → o mod 2 ^ k = 0 → 0 < len' ≤ len →
  ∃ addr, (alloc (free a (base a + o) len).2 len' (2 ^ k)).1 = Some addr.
Proof. apply free_reusable. Qed.

(** ** Witnesses *)

(** An arena with one 64-byte hole between two live blocks. *)
Definition sample : Arena := MkArena 1048576 192 [(64, 64)].

Ltac solve_arena_inv :=
  split; simpl; unfold below, bdisj, disjoint_ranges, ARENA_SIZE;
  repeat constructor; simpl; lia.

Lemma alloc_sound_witness :
  alloc sample 32 8 = (Some 1048640, MkArena 1048576 192 [(96, 32)]) ∧
  ∃ o, 1048640 = base sample + o ∧ o mod 2 ^ 3 = 0 ∧ 0 ≤ o ∧ o + 32 ≤ ARENA_SIZE ∧
    Forall (bdisj (o, 32)) [(0, 64); (128, 64)] ∧
    arena_inv (MkArena 1048576 192 [(96, 32)]) [(o, 32); (0, 64); (128, 64)].
Proof.
  split; [vm_compute; reflexivity|].
  apply (alloc_sound sample [(0, 64); (128, 64)] 32 3 1048640).
  - unfold sample. solve_arena_inv.
  - lia.
  - lia.
  - vm_compute. reflexivity.
Defined.

Lemma alloc_best_fit_witness :
  used (MkArena 1048576 192 [(96, 32)]) = used sample ∧ ∃ hb, hb ∈ free_list sample ∧
    1048640 = base sample + align_up hb.1 (2 ^ 3 - 1) ∧ covers hb (1048640 - base sample, 32) ∧
    ∀ h', h' ∈ free_list sample → fits 32 (2 ^ 3 - 1) h' →
      waste_of 32 (2 ^ 3 - 1) hb ≤ waste_of 32 (2 ^ 3 - 1) h'.
Proof.
  apply (alloc_best_fit sample [(0, 64); (128, 64)] 32 3 1048640
           (MkArena 1048576 192 [(96, 32)]) (64, 64)).
  - unfold sample. solve_arena_inv.
  - lia.
  - lia.
  - by constructor.
  - vm_compute. discriminate.
  - vm_compute. reflexivity.
Defined.

Lemma free_sound_witness :
  ∃ a', free sample (base sample + 0) 64 = (true, a') ∧ arena_inv a' [(128, 64)] ∧
    canonical (free_list a') ∧ used a' = used sample ∧
    available a' = available sample + 64.
Proof.
  apply (free_sound sample [(128, 64)] 0 64). unfold sample. solve_arena_inv.
Defined.

Lemma free_then_alloc_witness :
  ∃ addr, (alloc (free sample (base sample + 0) 64).2 48 (2 ^ 3)).1 = Some addr.
Proof.
  apply (free_then_alloc sample [(128, 64)] 0 64 3 48).
  - unfold sample. solve_arena_inv.
  - lia.
  - reflexivity.
  - lia.
Defined.
