(* ===== verification/LinearAllocator.v ===== *)
(** * The anonymous-mmap allocator over linear memory (src/mm/mod.rs)

    [LinearAllocator] owns a list of arenas placed one after the other from
    [FIRST_ARENA_BASE] up, and the high-water mark where the next one goes.
    [mmap] is a pure decision: it places a block, or asks the caller to grow
    linear memory first.

    The specification keeps the ghost list [live] of blocks (absolute address,
    length) handed out and not yet freed; [la_inv] ties it to the arenas. *)

From S2P Require Import Prelude Word Errno Arena.

Definition PAGE_SIZE : Z := 64 * 1024.
Definition MAP_ANONYMOUS : Z := 32.
Definition MAP_PRIVATE : Z := 2.
Definition FIRST_ARENA_BASE : Z := 1048576.

Record LinearAllocator := MkLA {
  arenas : list Arena;
  high_water : Z;
}.

Inductive MmapResult :=
  | MOk (addr : Z)
  | NeedGrow (pages : Z)
  | MErr (e : Z).

Definition new : LinearAllocator := MkLA [] FIRST_ARENA_BASE.

Definition div_ceil (x y : Z) : Z := (x + y - 1) / y.

(** [for arena in self.arenas.iter_mut() { if let Some(addr) = arena.alloc(len, 8) ... }] *)
Fixpoint try_arenas (len : Z) (l : list Arena) : option Z * list Arena :=
  match l with
  | [] => (None, [])
  | a :: l =>
    match alloc a len 8 with
    | (Some addr, a') => (Some addr, a' :: l)
    | (None, a') => let '(r, l') := try_arenas len l in (r, a' :: l')
    end
  end.

Definition mmap (la : LinearAllocator) (cur_mem_size len prot flags fd off : Z)
    : MmapResult * LinearAllocator :=
  if len =? 0 then (MErr (- EINVAL), la)
  else if negb (fd =? -1) then (MErr (- ENOSYS), la)
  else if Z.land flags MAP_ANONYMOUS =? 0 then (MErr (- ENOSYS), la)
  else if Z.land flags MAP_PRIVATE =? 0 then (MErr (- ENOSYS), la)
  else if negb (off =? 0) then (MErr (- ENOSYS), la)
  else if ARENA_SIZE <? len then (MErr (- ENOSYS), la)
  else
    match try_arenas len (arenas la) with
    | (Some addr, l') => (MOk addr, MkLA l' (high_water la))
    | (None, l') =>
      let needed := high_water la + ARENA_SIZE in
      if cur_mem_size <? needed
      then (NeedGrow (div_ceil (needed - cur_mem_size) PAGE_SIZE), MkLA l' (high_water la))
      else
        let b := high_water la in
        let hw := as_u32 (high_water la + ARENA_SIZE) in
        match alloc (Arena.new b) len 8 with
        | (None, _) => (MErr (- ENOMEM), MkLA l' hw)
        | (Some a, arena) => (MOk a, MkLA (l' ++ [arena]) hw)
        end
    end.

Fixpoint munmap_arenas (addr len : Z) (l : list Arena) : option (list Arena) :=
  match l with
  | [] => None
  | a :: l => if contains a addr len then Some ((free a addr len).2 :: l)
              else (a ::.) <$> munmap_arenas addr len l
  end.

Definition munmap (la : LinearAllocator) (addr len : Z) : Z * LinearAllocator :=
  if len =? 0 then (0, la)
  else match munmap_arenas addr len (arenas la) with
  | Some l => (0, MkLA l (high_water la))
  | None => (- EINVAL, la)
  end.

Fixpoint grow_arenas (old old_len extra : Z) (l : list Arena) : option (list Arena) :=
  match l with
  | [] => None
  | a :: l =>
    match checked_sub_u32 old (base a) with
    | None => (a ::.) <$> grow_arenas old old_len extra l
    | Some rel =>
      if (rel + old_len =? used a) && (used a + extra <=? ARENA_SIZE)
      then Some (MkArena (base a) (used a + extra) (free_list a) :: l)
      else (a ::.) <$> grow_arenas old old_len extra l
    end
  end.

Definition grow_in_place (la : LinearAllocator) (old old_len new_len : Z)
    : result Z * LinearAllocator :=
  if new_len <=? old_len then (Ok old, la)
  else match grow_arenas old old_len (new_len - old_len) (arenas la) with
  | Some l => (Ok old, MkLA l (high_water la))
  | None => (Err (- ENOMEM), la)
  end.

Definition mprotect (la : LinearAllocator) (addr len prot : Z) : Z := 0.

Definition brk (la : LinearAllocator) : Z := high_water la.

(** ** The invariant *)

Definition in_arena (b : Z) (x : block) : Prop := b ≤ x.1 < b + ARENA_SIZE.
#[global] Instance in_arena_dec b x : Decision (in_arena b x).
Proof. unfold in_arena. apply _. Defined.

(** The live blocks of the arena at [b], relative to its base. *)
Definition local (b : Z) (live : list block) : list block :=
  (λ x, (x.1 - b, x.2)) <$> filter (in_arena b) live.

Definition arena_base (i : nat) : Z := FIRST_ARENA_BASE + ARENA_SIZE * Z.of_nat i.

Record la_inv (la : LinearAllocator) (live : list block) : Prop := {
  li_high : high_water la = arena_base (length (arenas la));
  li_bound : high_water la < 2 ^ 32;
  li_arena i a : arenas la !! i = Some a →
    base a = arena_base i ∧ arena_inv a (local (base a) live);
  li_live : Forall (λ x, FIRST_ARENA_BASE ≤ x.1 ∧ 0 < x.2 ∧ x.1 + x.2 ≤ high_water la) live;
  li_disj : pairwise bdisj live;
}.

Lemma new_la_inv : la_inv new [].
Proof. by split. Qed.

(** Two distinct arenas occupy disjoint regions. *)
Lemma arena_base_disjoint i j :
  i ≠ j → arena_base i + ARENA_SIZE ≤ arena_base j ∨ arena_base j + ARENA_SIZE ≤ arena_base i.
Proof. unfold arena_base. assert (0 < ARENA_SIZE) by done. nia. Qed.

(** Every live address belongs to the arena its index computes to. *)
Lemma arena_index hw n p :
  hw = arena_base n → FIRST_ARENA_BASE ≤ p < hw →
  ∃ i, (i < n)%nat ∧ arena_base i ≤ p < arena_base i + ARENA_SIZE.
Proof.
  intros -> Hp. unfold arena_base in *. assert (0 < ARENA_SIZE) by done.
  exists (Z.to_nat ((p - FIRST_ARENA_BASE) / ARENA_SIZE)).
  assert (0 ≤ (p - FIRST_ARENA_BASE) / ARENA_SIZE) by (apply Z.div_pos; lia).
  pose proof (Z.mul_div_le (p - FIRST_ARENA_BASE) ARENA_SIZE ltac:(lia)).
  pose proof (Z.mul_succ_div_gt (p - FIRST_ARENA_BASE) ARENA_SIZE ltac:(lia)).
  rewrite Z2Nat.id by done. split; [|lia]. nia.
Qed.

(** ** Changing one arena *)

Lemma local_cons_in b p len live :
  b ≤ p < b + ARENA_SIZE → local b ((p, len) :: live) = (p - b, len) :: local b live.
Proof. intros. unfold local. by rewrite filter_cons_True. Qed.

Lemma local_cons_out b p len live :
  ¬ (b ≤ p < b + ARENA_SIZE) → local b ((p, len) :: live) = local b live.
Proof. intros. unfold local. by rewrite filter_cons_False. Qed.

Lemma local_none b live : Forall (λ x, ¬ in_arena b x) live → local b live = [].
Proof.
  induction 1 as [|x l Hx _ IH]; [done|]. unfold local in *.
  by rewrite filter_cons_False.
Qed.

Lemma local_perm b live live' : live ≡ₚ live' → local b live ≡ₚ local b live'.
Proof. intros Hp. unfold local. by rewrite Hp. Qed.

Lemma arena_inv_live_perm a live live' :
  live ≡ₚ live' → arena_inv a live → arena_inv a live'.
Proof. destruct a as [b u fl]. intros Hp. apply arena_inv_perm. by rewrite Hp. Qed.

Lemma la_inv_perm la live live' : live ≡ₚ live' → la_inv la live → la_inv la live'.
Proof.
  intros Hp [H1 H2 H3 H4 H5]. split; try done.
  - intros i a Hi. destruct (H3 i a Hi) as [? Ha]. split; [done|].
    by apply (arena_inv_live_perm a _ _ (local_perm _ _ _ Hp)).
  - by rewrite <- Hp.
  - by apply (pairwise_perm _ _ _ Hp).
Qed.

Lemma elem_of_local b live p n :
  (p, n) ∈ live → b ≤ p < b + ARENA_SIZE → (p - b, n) ∈ local b live.
Proof.
  intros. unfold local. apply list_elem_of_fmap. exists (p, n). split; [done|].
  by apply list_elem_of_filter.
Qed.

(** The arena a live block belongs to; the block ends inside it. *)
Lemma live_block_arena la live p n :
  la_inv la live → (p, n) ∈ live →
  ∃ j c, arenas la !! j = Some c ∧ base c = arena_base j ∧ 0 < n ∧
    arena_base j ≤ p ∧ p + n ≤ arena_base j + ARENA_SIZE ∧
    (p - base c, n) ∈ local (base c) live.
Proof.
  intros [Hh Hb Ha Hl Hd] Hp. rewrite Forall_forall in Hl.
  destruct (Hl _ Hp) as (? & ? & ?). simpl in *.
  destruct (arena_index _ _ p Hh) as (j & Hj & Hpj); [lia|].
  destruct (lookup_lt_is_Some_2 _ j Hj) as [c Hc]. destruct (Ha j c Hc) as [Hbc Hci].
  assert ((p - base c, n) ∈ local (base c) live) as Hloc by (apply elem_of_local; [done|lia]).
  exists j, c. destruct Hci as [_ ? Hbel _]. apply Forall_app in Hbel as [_ Hbel].
  rewrite Forall_forall in Hbel. destruct (Hbel _ Hloc) as (? & ? & ?). simpl in *.
  split_and!; auto; lia.
Qed.

Lemma arena_top la live i :
  la_inv la live → (i < length (arenas la))%nat →
  FIRST_ARENA_BASE ≤ arena_base i ∧ arena_base i + ARENA_SIZE ≤ high_water la.
Proof.
  intros [-> _ _ _ _] Hi. unfold arena_base. assert (0 < ARENA_SIZE) by done. nia.
Qed.

(** Replacing arena [i] by one that owns one more block. *)
Lemma la_add l hw live i a a' o len :
  la_inv (MkLA l hw) live → l !! i = Some a → base a' = base a →
  0 ≤ o → 0 < len → o + len ≤ ARENA_SIZE →
  arena_inv a' ((o, len) :: local (base a) live) →
  la_inv (MkLA (<[i:=a']> l) hw) ((base a + o, len) :: live).
Proof.
  intros Hla Hi Hbase Ho Hlen Hend Hinv. pose proof (lookup_lt_Some _ _ _ Hi) as Hlt.
  destruct (arena_top _ _ _ Hla Hlt) as [? Htop].
  pose proof Hla as [Hh Hb Ha Hl Hd]. simpl in *. destruct (Ha i a Hi) as [Hba _].
  split; simpl; [by rewrite length_insert|done|..].
  - intros j c Hj. destruct (decide (i = j)) as [<-|Hne].
    + rewrite list_lookup_insert_eq in Hj by done. simplify_eq.
      rewrite Hbase, local_cons_in by lia.
      replace (base a + o - base a) with o by lia. by rewrite <- Hbase, Hbase.
    + rewrite list_lookup_insert_ne in Hj by done. destruct (Ha j c Hj) as [Hbc Hc].
      split; [done|]. rewrite local_cons_out; [done|].
      pose proof (arena_base_disjoint i j Hne). lia.
  - constructor; [simpl; lia|done].
  - split; [|done]. destruct Hinv as [_ _ _ Hpd].
    apply pairwise_app in Hpd as (_ & [Hnew _] & _).
    rewrite Forall_forall in Hnew |- *. intros [p n] Hp.
    destruct (live_block_arena _ _ _ _ Hla Hp) as (j & c & Hc & Hbc & ? & ? & ? & Hloc).
    unfold bdisj, disjoint_ranges. simpl in *. destruct (decide (i = j)) as [<-|Hij].
    + simplify_eq. specialize (Hnew _ Hloc).
      unfold bdisj, disjoint_ranges in Hnew. simpl in Hnew. lia.
    + pose proof (arena_base_disjoint i j Hij). lia.
Qed.

(** Replacing arena [i] by one that owns one block less. *)
Lemma la_remove l hw live i a a' p len :
  la_inv (MkLA l hw) ((p, len) :: live) → l !! i = Some a → base a' = base a →
  base a ≤ p < base a + ARENA_SIZE → arena_inv a' (local (base a) live) →
  la_inv (MkLA (<[i:=a']> l) hw) live.
Proof.
  intros Hla Hi Hbase Hp Hinv. pose proof (lookup_lt_Some _ _ _ Hi) as Hlt.
  destruct Hla as [Hh Hb Ha Hl [_ Hd]]. simpl in *. apply Forall_cons in Hl as [_ Hl].
  destruct (Ha i a Hi) as [Hba _].
  split; simpl; [by rewrite length_insert|done|..|done|done].
  intros j c Hj. destruct (decide (i = j)) as [<-|Hne].
  - rewrite list_lookup_insert_eq in Hj by done. simplify_eq. by rewrite Hbase.
  - rewrite list_lookup_insert_ne in Hj by done. destruct (Ha j c Hj) as [Hbc Hc].
    split; [done|]. rewrite local_cons_out in Hc; [done|].
    pose proof (arena_base_disjoint i j Hne). lia.
Qed.

(** A fresh arena at the high-water mark. *)
Lemma la_push l hw live :
  la_inv (MkLA l hw) live → hw + ARENA_SIZE < 2 ^ 32 →
  la_inv (MkLA (l ++ [Arena.new hw]) (hw + ARENA_SIZE)) live.
Proof.
  intros [Hh Hb Ha Hl Hd] Hnext. simpl in *. assert (0 < ARENA_SIZE) by done.
  split; simpl; [rewrite length_app; simpl; unfold arena_base in *; lia|done|..|done].
  - intros i a Hi. apply lookup_app_Some in Hi as [Hi|[Hge Hi]]; [by apply Ha|].
    apply list_lookup_singleton_Some in Hi as [? <-].
    assert (i = length l) as -> by lia. simpl. split; [done|].
    rewrite local_none.
    { apply new_inv; [unfold arena_base, FIRST_ARENA_BASE in *; lia|done]. }
    eapply Forall_impl; [exact Hl|]. unfold in_arena. simpl. lia.
  - eapply Forall_impl; [exact Hl|]. simpl. lia.
Qed.

(** ** The operations preserve the invariant *)

Lemma alloc_None_same a len align a' : alloc a len align = (None, a') → a' = a.
Proof. unfold alloc. repeat case_match; congruence. Qed.

Lemma try_arenas_Some len l addr l' :
  try_arenas len l = (Some addr, l') →
  ∃ i a a', l !! i = Some a ∧ alloc a len 8 = (Some addr, a') ∧ l' = <[i:=a']> l.
Proof.
  revert l'; induction l as [|a l IH]; intros l'; simpl; [done|].
  destruct (alloc a len 8) as [[addr'|] a'] eqn:Ha.
  - intros [= -> <-]. by exists 0%nat, a, a'.
  - destruct (try_arenas len l) as [r l0]. intros [= -> <-].
    destruct (IH l0 eq_refl) as (i & c & c' & ? & ? & ->).
    exists (S i), c, c'. apply alloc_None_same in Ha as ->. done.
Qed.

Lemma try_arenas_None len l l' :
  try_arenas len l = (None, l') → l' = l ∧ Forall (λ a, (alloc a len 8).1 = None) l.
Proof.
  revert l'; induction l as [|a l IH]; intros l'; simpl; [by intros [= <-]|].
  destruct (alloc a len 8) as [[addr'|] a'] eqn:Ha; [done|].
  destruct (try_arenas len l) as [r l0]. intros [= -> <-].
  destruct (IH l0 eq_refl) as [-> ?]. pose proof (alloc_None_same _ _ _ _ Ha) as ->.
  split; [done|]. constructor; [by rewrite Ha|done].
Qed.

(** The arguments [mmap] serves. *)
Definition mmap_args_ok (len flags fd off : Z) : bool :=
  negb (len =? 0) && (fd =? -1) && negb (Z.land flags MAP_ANONYMOUS =? 0) &&
  negb (Z.land flags MAP_PRIVATE =? 0) && (off =? 0) && (len <=? ARENA_SIZE).

Lemma mmap_args_bad la cur len prot flags fd off :
  mmap_args_ok len flags fd off = false →
  mmap la cur len prot flags fd off = (MErr (if len =? 0 then - EINVAL else - ENOSYS), la).
Proof.
  unfold mmap, mmap_args_ok. destruct (len =? 0); [done|].
  destruct (fd =? -1), (Z.land flags MAP_ANONYMOUS =? 0), (Z.land flags MAP_PRIVATE =? 0),
    (off =? 0); simpl; try done.
  intros Hlen. apply Z.leb_gt in Hlen. by rewrite (proj2 (Z.ltb_lt _ _) Hlen).
Qed.

Lemma fresh_alloc b len :
  0 < len ≤ ARENA_SIZE →
  alloc (Arena.new b) len 8 = (Some (as_u32 (b + 0)), MkArena b len []).
Proof.
  intros. unfold alloc. simpl. change (align_up 0 (8 - 1)) with 0.
  replace (_ <? 0 + len) with false by (symmetry; apply Z.ltb_ge; lia).
  by change (as_u32 0) with 0.
Qed.

Lemma mmap_args_good la cur len prot flags fd off :
  mmap_args_ok len flags fd off = true → 0 ≤ len →
  mmap la cur len prot flags fd off =
    match try_arenas len (arenas la) with
    | (Some addr, l') => (MOk addr, MkLA l' (high_water la))
    | (None, _) =>
      if cur <? high_water la + ARENA_SIZE
      then (NeedGrow (div_ceil (high_water la + ARENA_SIZE - cur) PAGE_SIZE), la)
      else (MOk (as_u32 (high_water la + 0)),
            MkLA (arenas la ++ [MkArena (high_water la) len []])
                 (as_u32 (high_water la + ARENA_SIZE)))
    end.
Proof.
  unfold mmap, mmap_args_ok. intros H ?. to_prop.
  rewrite (proj2 (Z.eqb_neq _ _)) by done. rewrite (proj2 (Z.eqb_eq fd _)) by done.
  rewrite (proj2 (Z.eqb_neq (Z.land flags MAP_ANONYMOUS) _)) by done.
  rewrite (proj2 (Z.eqb_neq (Z.land flags MAP_PRIVATE) _)) by done.
  rewrite (proj2 (Z.eqb_eq off _)) by done. rewrite (proj2 (Z.ltb_ge ARENA_SIZE _)) by done.
  simpl. destruct (try_arenas _ _) as [[addr|] l'] eqn:Ht; [done|].
  apply try_arenas_None in Ht as [-> _]. destruct la as [l hw]. simpl.
  rewrite fresh_alloc by lia. done.
Qed.

Lemma mmap_inv la live cur len prot flags fd off addr la' :
  la_inv la live → 0 ≤ len → cur < 2 ^ 32 →
  mmap la cur len prot flags fd off = (MOk addr, la') →
  addr mod 8 = 0 ∧ 0 < len ∧ la_inv la' ((addr, len) :: live).
Proof.
  intros Hla Hlen Hcur Hm.
  destruct (mmap_args_ok len flags fd off) eqn:Hok.
  2:{ rewrite mmap_args_bad in Hm by done. done. }
  rewrite mmap_args_good in Hm by done. unfold mmap_args_ok in Hok. to_prop.
  destruct la as [l hw]. simpl in *.
  assert (∀ i, arena_base i mod 8 = 0) as Hal.
  { intros i. unfold arena_base. replace (FIRST_ARENA_BASE + ARENA_SIZE * Z.of_nat i)
      with ((131072 + 32768 * Z.of_nat i) * 8)
      by (unfold FIRST_ARENA_BASE, ARENA_SIZE; lia). apply Z.mod_mul. done. }
  destruct (try_arenas len l) as [[addr'|] l'] eqn:Ht.
  - simplify_eq. apply try_arenas_Some in Ht as (i & a & a' & Hi & Ha & ->).
    destruct (li_arena _ _ Hla i a Hi) as [Hba Hai].
    destruct (alloc_inv a _ len 3 addr a' Hai) as (o & -> & Ho & ? & ? & ? & ?); [lia..|done|].
    change (2 ^ 3) with 8 in Ho. rewrite Hba at 1.
    rewrite Z.add_mod, Hal, Ho by done. split_and!; [done|lia|]. apply la_add; auto; lia.
  - case_if; [done|]. simplify_eq. assert (0 < ARENA_SIZE) by done.
    pose proof (li_high _ _ Hla) as Hh. simpl in Hh.
    assert (0 ≤ hw) by (unfold arena_base, FIRST_ARENA_BASE in Hh; lia).
    unfold as_u32. rewrite Z.add_0_r, !wrapu_id by (unfold is_u; lia).
    split_and!; [by rewrite Hh, Hal|lia|].
    pose proof (la_push l hw live Hla ltac:(lia)) as Hp.
    destruct (li_arena _ _ Hp (length l) (Arena.new hw)) as [_ Hnew]; [by simpl; apply list_lookup_middle|].
    pose proof (fresh_alloc hw len ltac:(lia)) as Hfa.
    destruct (alloc_inv (Arena.new hw) _ len 3 _ _ Hnew ltac:(lia) ltac:(lia) Hfa)
      as (o & Ho & _ & ? & ? & _ & ?). simpl in Ho.
    unfold as_u32 in Ho. rewrite Z.add_0_r, wrapu_id in Ho by (unfold is_u; lia).
    assert (o = 0) as -> by lia.
    replace hw with (base (Arena.new hw) + 0) at 3 by (simpl; lia).
    replace (l ++ [MkArena hw len []]) with (<[length l := MkArena hw len []]> (l ++ [Arena.new hw])).
    { apply la_add; auto; [by apply list_lookup_middle|lia]. }
    by rewrite insert_app_r_alt, Nat.sub_diag by lia.
Qed.

Lemma contains_exact a o len :
  0 ≤ base a → base a + ARENA_SIZE < 2 ^ 32 → 0 ≤ len ≤ ARENA_SIZE → 0 ≤ o →
  contains a o len = bool_decide (base a ≤ o ∧ o + len ≤ base a + ARENA_SIZE).
Proof.
  intros. unfold contains, checked_add_u32, as_u32, U32_MAX.
  assert (0 < ARENA_SIZE) by done. rewrite !wrapu_id by (unfold is_u; lia).
  case_bool_decide; repeat case_if; to_prop; try done; try lia.
Qed.

(** [munmap] frees in the arena the block belongs to. *)
Lemma munmap_arenas_find la live addr len j c :
  la_inv la live → arenas la !! j = Some c → 0 < len →
  arena_base j ≤ addr → addr + len ≤ arena_base j + ARENA_SIZE →
  munmap_arenas addr len (arenas la) = Some (<[j:=(free c addr len).2]> (arenas la)).
Proof.
  intros Hla Hc Hlen Hlo Hhi.
  assert (∀ k l pre, arenas la = pre ++ l → l !! k = Some c → length pre = (j - k)%nat →
            (k ≤ j)%nat →
            munmap_arenas addr len l = Some (<[k:=(free c addr len).2]> l)) as Hfind.
  { intros k l. revert k. induction l as [|a l IH]; intros k pre Hl Hk Hlp Hkj; [done|]. simpl.
    assert (arenas la !! (j - k)%nat = Some a) as Ha.
    { rewrite Hl. rewrite <- Hlp. by apply list_lookup_middle. }
    destruct (li_arena _ _ Hla _ _ Ha) as [Hba [? _ _ _]].
    rewrite contains_exact by (unfold arena_base, FIRST_ARENA_BASE, ARENA_SIZE in *; lia).
    destruct k as [|k]; simpl in Hk.
    - simplify_eq. rewrite Nat.sub_0_r in Hba. rewrite bool_decide_true by lia. done.
    - rewrite bool_decide_false.
      + rewrite (IH k (pre ++ [a])); [done|by rewrite Hl, <- app_assoc|done| |lia].
        rewrite length_app. simpl. lia.
      + pose proof (arena_base_disjoint (j - S k) j ltac:(lia)). lia. }
  apply (Hfind j (arenas la) []); simpl; auto; lia.
Qed.

Lemma munmap_eq la live addr len j c :
  la_inv la live → arenas la !! j = Some c → 0 < len →
  arena_base j ≤ addr → addr + len ≤ arena_base j + ARENA_SIZE →
  munmap la addr len =
    (0, MkLA (<[j:=(free c addr len).2]> (arenas la)) (high_water la)).
Proof.
  intros. unfold munmap. rewrite (proj2 (Z.eqb_neq _ _)) by lia.
  by erewrite munmap_arenas_find.
Qed.

Lemma munmap_inv la live addr len :
  la_inv la ((addr, len) :: live) →
  ∃ la', munmap la addr len = (0, la') ∧ la_inv la' live ∧ high_water la' = high_water la.
Proof.
  intros Hla. destruct (live_block_arena _ _ addr len Hla) as
    (j & c & Hc & Hbc & ? & ? & ? & _); [by constructor|].
  eexists. split; [by eapply munmap_eq|]. split; [|done].
  destruct (li_arena _ _ Hla _ _ Hc) as [_ Hci]. rewrite local_cons_in in Hci by lia.
  destruct (free_live_ok _ _ _ _ Hci) as (c' & Hfree & Hc' & _).
  replace (base c + (addr - base c)) with addr in Hfree by lia. rewrite Hfree. simpl.
  destruct la as [l hw]. simpl in *.
  eapply (la_remove l hw live j c); [done|done| |lia|done].
  unfold free in Hfree. repeat case_match; by simplify_eq.
Qed.

Lemma grow_arenas_Some old old_len extra l l' :
  grow_arenas old old_len extra l = Some l' →
  ∃ i a, l !! i = Some a ∧ base a ≤ old ∧ old - base a + old_len = used a ∧
    used a + extra ≤ ARENA_SIZE ∧
    l' = <[i := MkArena (base a) (used a + extra) (free_list a)]> l.
Proof.
  revert l'; induction l as [|a l IH]; intros l'; simpl; [done|].
  unfold checked_sub_u32. destruct (base a <=? old) eqn:Hb; to_prop.
  - case_if; to_prop.
    + intros [= <-]. exists 0%nat, a. split_and!; done.
    + intros (l0 & Hl0 & ->)%fmap_Some. destruct (IH l0 Hl0) as (i & c & ? & ? & ? & ? & ->).
      by exists (S i), c.
  - intros (l0 & Hl0 & ->)%fmap_Some. destruct (IH l0 Hl0) as (i & c & ? & ? & ? & ? & ->).
    by exists (S i), c.
Qed.

(** The topmost block of an arena may grow up to the arena's end. *)
Lemma arena_extend a o n extra live :
  arena_inv a ((o, n) :: live) → o + n = used a → 0 ≤ extra → used a + extra ≤ ARENA_SIZE →
  arena_inv (MkArena (base a) (used a + extra) (free_list a)) ((o, n + extra) :: live).
Proof.
  intros [Hb Hu Hf Hd] Htop He Hfit.
  assert (free_list a ++ (o, n) :: live ≡ₚ (o, n) :: free_list a ++ live) as Hp
    by (by rewrite <- Permutation_middle).
  rewrite Hp in Hf. apply (pairwise_perm _ _ _ Hp) in Hd as [Hon Hd].
  apply Forall_cons in Hf as [(? & ? & ?) Hf]. simpl in *.
  split; simpl; [done|lia|..].
  - rewrite <- Permutation_middle. constructor; [unfold below; simpl; lia|].
    eapply Forall_impl; [exact Hf|]. unfold below. lia.
  - apply (pairwise_perm _ ((o, n + extra) :: free_list a ++ live));
      [by rewrite <- Permutation_middle|].
    split; [|done]. rewrite Forall_forall in Hon, Hf |- *. intros y Hy.
    specialize (Hon y Hy); specialize (Hf y Hy).
    unfold below, bdisj, disjoint_ranges in *. simpl in *. lia.
Qed.

Lemma arena_inv_tail a x live : arena_inv a (x :: live) → arena_inv a live.
Proof.
  intros [? ? Hf Hd]. split; auto.
  - rewrite Forall_app, Forall_cons in *. tauto.
  - apply (pairwise_perm bdisj _ (x :: free_list a ++ live)) in Hd as [_ ?]; [done|].
    by rewrite <- Permutation_middle.
Qed.

Lemma grow_in_place_inv la live old old_len new_len r la' :
  la_inv la ((old, old_len) :: live) → old_len < new_len →
  grow_in_place la old old_len new_len = (Ok r, la') →
  r = old ∧ la_inv la' ((old, new_len) :: live).
Proof.
  intros Hla Hlt. unfold grow_in_place. rewrite (proj2 (Z.leb_gt _ _)) by done.
  destruct (grow_arenas _ _ _ _) as [l'|] eqn:Hg; [|done]. intros [= <- <-]. split; [done|].
  apply grow_arenas_Some in Hg as (i & a & Hi & ? & Htop & Hfit & ->).
  destruct (live_block_arena _ _ old old_len Hla) as
    (j & c & Hc & Hbc & ? & ? & ? & _); [by constructor|].
  destruct (li_arena _ _ Hla _ _ Hi) as [Hba Hai]. pose proof (ai_used _ _ Hai).
  destruct (decide (i = j)) as [<-|Hij].
  2:{ pose proof (arena_base_disjoint i j Hij). lia. }
  simplify_eq. rewrite local_cons_in in Hai by lia.
  apply (arena_extend a (old - base a) old_len (new_len - old_len)) in Hai; [|lia..].
  set (a' := MkArena _ _ _) in *. destruct la as [l hw]. simpl in *.
  pose proof (lookup_lt_Some _ _ _ Hi).
  rewrite <- (list_insert_insert_eq l i a' a').
  replace old with (base a' + (old - base a)) by (subst a'; simpl; lia).
  apply (la_add (<[i:=a']> l) hw live i a' a'); auto.
  - eapply (la_remove l hw live i a a'); [done|done|done|lia|]. by eapply arena_inv_tail.
  - by apply list_lookup_insert_eq.
  - lia.
  - lia.
  - subst a'. simpl in *. lia.
  - subst a'. simpl in *. by replace (old_len + (new_len - old_len)) with new_len in Hai by lia.
Qed.

(** ** The allocator as a state machine *)

(** One guest request against the allocator, with the ghost list of live
    blocks. [munmap] and [mremap] act on blocks the guest owns; the memory is
    below 4 GiB. *)
Inductive step : LinearAllocator * list block → LinearAllocator * list block → Prop :=
  | step_mmap la live cur len prot flags fd off addr la' :
      0 ≤ len → cur < 2 ^ 32 →
      mmap la cur len prot flags fd off = (MOk addr, la') →
      step (la, live) (la', (addr, len) :: live)
  | step_mmap_refused la live cur len prot flags fd off r la' :
      0 ≤ len → mmap la cur len prot flags fd off = (r, la') → (∀ addr, r ≠ MOk addr) →
      step (la, live) (la', live)
  | step_munmap la live addr len rest r la' :
      live ≡ₚ (addr, len) :: rest → munmap la addr len = (r, la') →
      step (la, live) (la', rest)
  | step_grow la live old old_len new_len rest r la' :
      live ≡ₚ (old, old_len) :: rest → old_len < new_len →
      grow_in_place la old old_len new_len = (Ok r, la') →
      step (la, live) (la', (r, new_len) :: rest).

(** A refused request changes nothing. *)
Lemma mmap_refused_same la cur len prot flags fd off r la' :
  0 ≤ len → mmap la cur len prot flags fd off = (r, la') → (∀ addr, r ≠ MOk addr) → la' = la.
Proof.
  intros Hlen Hm Hr. destruct (mmap_args_ok len flags fd off) eqn:Hok.
  - rewrite mmap_args_good in Hm by done. repeat case_match; simplify_eq; try done.
    all: by destruct (Hr _ eq_refl).
  - rewrite mmap_args_bad in Hm by done. by simplify_eq.
Qed.

Lemma step_inv s s' : step s s' → la_inv s.1 s.2 → la_inv s'.1 s'.2.
Proof.
  destruct 1 as [la live cur len prot flags fd off addr la' ? ? Hm
    |la live cur len prot flags fd off r la' ? Hm Hr
    |la live addr len rest r la' Hp Hm|la live old ol nl rest r la' Hp Hlt Hg]; simpl; intros Hla.
  - by eapply mmap_inv.
  - by apply mmap_refused_same in Hm as ->.
  - apply (la_inv_perm _ _ _ Hp) in Hla.
    destruct (munmap_inv _ _ _ _ Hla) as (la0 & Heq & ? & _).
    rewrite Hm in Heq. by simplify_eq.
  - apply (la_inv_perm _ _ _ Hp) in Hla.
    by destruct (grow_in_place_inv _ _ _ _ _ _ _ Hla Hlt Hg) as [-> ?].
Qed.

Lemma reachable_inv s : rtc step (new, []) s → la_inv s.1 s.2.
Proof.
  intros Hs. assert (la_inv (new, @nil block).1 (new, @nil block).2) as H0 by apply new_la_inv.
  revert H0. induction Hs; eauto using step_inv.
Qed.

(** ** Theorems *)

(** C3: whatever requests the guest makes, the blocks it holds never overlap
    and lie between the first arena and the high-water mark, provided it only
    unmaps and remaps blocks it holds and memory stays below 4 GiB. *)
Theorem reachable_blocks_disjoint la live :
  rtc step (new, []) (la, live) →
  pairwise bdisj live ∧
  Forall (λ x, FIRST_ARENA_BASE ≤ x.1 ∧ 0 < x.2 ∧ x.1 + x.2 ≤ brk la) live ∧
  high_water la < 2 ^ 32.
Proof. intros Hs. apply reachable_inv in Hs as [? ? ? ? ?]. by split_and!. Qed.

(** A successful [mmap] returns an 8-aligned block disjoint from every live
    block and below the new high-water mark. *)
Theorem mmap_sound la live cur len prot flags fd off addr la' :
  la_inv la live → 0 ≤ len → cur < 2 ^ 32 →
  mmap la cur len prot flags fd off = (MOk addr, la') →
  addr mod 8 = 0 ∧ 0 < len ∧ Forall (bdisj (addr, len)) live ∧
  addr + len ≤ brk la' ∧ la_inv la' ((addr, len) :: live).
Proof.
  intros Hla Hlen Hcur Hm.
  destruct (mmap_inv _ _ _ _ _ _ _ _ _ _ Hla Hlen Hcur Hm) as (? & ? & Hla').
  pose proof Hla' as [_ _ _ Hl [Hd _]]. apply Forall_cons in Hl as [(? & ? & ?) _].
  by split_and!.
Qed.

(** An argument combination outside anonymous private mappings of 1 to
    256 KiB is refused with [-EINVAL] (zero length) or [-ENOSYS], and neither
    a refusal nor a [NeedGrow] answer changes the allocator. *)
Theorem mmap_refuses la cur len prot flags fd off :
  0 ≤ len →
  (mmap_args_ok len flags fd off = false →
     (mmap la cur len prot flags fd off).1 = MErr (if len =? 0 then - EINVAL else - ENOSYS)) ∧
  ((∀ addr, (mmap la cur len prot flags fd off).1 ≠ MOk addr) →
     (mmap la cur len prot flags fd off).2 = la).
Proof.
  intros Hlen. split.
  - intros Hbad. by rewrite mmap_args_bad.
  - destruct (mmap la cur len prot flags fd off) as [r la'] eqn:Hm. simpl.
    intros Hr. by eapply mmap_refused_same.
Qed.

(** The page count of [NeedGrow] is exact: growing linear memory by that
    many pages makes the same request succeed at the high-water mark, and one
    page fewer is not enough. *)
Theorem need_grow_exact la live cur len prot flags fd off n :
  la_inv la live → 0 ≤ len → 0 ≤ cur → cur + n * PAGE_SIZE < 2 ^ 32 →
  (mmap la cur len prot flags fd off).1 = NeedGrow n →
  0 < n ∧
  (mmap la (cur + n * PAGE_SIZE) len prot flags fd off).1 = MOk (high_water la) ∧
  (mmap la (cur + (n - 1) * PAGE_SIZE) len prot flags fd off).1 = NeedGrow 1.
Proof.
  intros Hla Hlen Hcur Hbound Hm.
  destruct (mmap_args_ok len flags fd off) eqn:Hok.
  2:{ rewrite mmap_args_bad in Hm by done. done. }
  rewrite !mmap_args_good in * by done.
  destruct (try_arenas len (arenas la)) as [[addr|] l']; [done|].
  destruct (cur <? high_water la + ARENA_SIZE) eqn:Hlt; [|done]. to_prop.
  simpl in Hm. injection Hm as Hn.
  set (d := high_water la + ARENA_SIZE - cur) in *.
  assert (0 < d) by (subst d; lia). unfold div_ceil in *.
  assert (0 < PAGE_SIZE) by done.
  pose proof (Z.mul_div_le (d + PAGE_SIZE - 1) PAGE_SIZE ltac:(lia)).
  pose proof (Z.mul_succ_div_gt (d + PAGE_SIZE - 1) PAGE_SIZE ltac:(lia)).
  assert (0 < n) by (subst n; apply Z.div_str_pos; lia). split; [done|]. split.
  - rewrite (proj2 (Z.ltb_ge _ _)) by nia. simpl. f_equal.
    pose proof (li_high _ _ Hla) as Hh. pose proof (li_bound _ _ Hla).
    unfold as_u32. rewrite Z.add_0_r. apply wrapu_id.
    unfold is_u, arena_base, FIRST_ARENA_BASE, ARENA_SIZE in *. lia.
  - rewrite (proj2 (Z.ltb_lt _ _)) by nia. simpl. f_equal.
    symmetry. apply Z.div_unique with (d - (n - 1) * PAGE_SIZE - 1); nia.
Qed.

(** Unmapping a live block returns 0, forgets exactly that block, and its
    space serves a later request of the same size without growing memory. *)
Theorem munmap_sound la live addr len cur :
  la_inv la ((addr, len) :: live) →
  ∃ la', munmap la addr len = (0, la') ∧ la_inv la' live ∧ brk la' = brk la ∧
    (addr mod 8 = 0 → len ≤ ARENA_SIZE →
     ∃ addr' la'', mmap la' cur len 3 34 (-1) 0 = (MOk addr', la'') ∧ brk la'' = brk la).
Proof.
  intros Hla. destruct (munmap_inv _ _ _ _ Hla) as (la' & Hm & Hla' & Hhw).
  exists la'. split_and!; try done. intros Hal Hlen.
  assert (0 < len) as Hpos.
  { destruct Hla as [_ _ _ Hl _]. apply Forall_cons in Hl as [(_ & ? & _) _]. done. }
  assert (mmap_args_ok len 34 (-1) 0 = true) as Hok.
  { unfold mmap_args_ok. rewrite (proj2 (Z.eqb_neq len 0)) by lia.
    by rewrite (proj2 (Z.leb_le _ _) Hlen). }
  rewrite mmap_args_good by (done || lia).
  destruct (try_arenas len (arenas la')) as [[a|] l'] eqn:Ht.
  { eexists _, _. split; [done|]. unfold brk. simpl. done. }
  exfalso. apply try_arenas_None in Ht as [_ Hno].
  destruct (live_block_arena _ _ addr len Hla) as (j & c & Hc & Hbc & ? & ? & ? & _);
    [by constructor|].
  destruct (li_arena _ _ Hla _ _ Hc) as [_ Hci]. rewrite local_cons_in in Hci by lia.
  rewrite (munmap_eq _ _ _ _ j c Hla Hc) in Hm by lia. simplify_eq/=.
  assert (<[j:=(free c addr len).2]> (arenas la) !! j = Some (free c addr len).2) as Hj
    by (apply list_lookup_insert_eq; by eapply lookup_lt_Some).
  rewrite Forall_lookup in Hno. specialize (Hno _ _ Hj). simpl in Hno.
  destruct (free_reusable c _ (addr - base c) len 3 len Hci) as [x Hx]; [lia| |lia|].
  - change (2 ^ 3) with 8. rewrite Hbc. unfold arena_base, FIRST_ARENA_BASE, ARENA_SIZE.
    replace (addr - _) with (addr + (- (131072 + 32768 * Z.of_nat j)) * 8) by lia.
    by rewrite Z_mod_plus_full.
  - replace (base c + (addr - base c)) with addr in Hx by lia.
    change (2 ^ 3) with 8 in Hx. congruence.
Qed.

(** ** Witnesses *)

(** One arena, of which the guest holds the first 64 bytes. *)
Definition one_block : LinearAllocator := (mmap new 1310720 64 3 34 (-1) 0).2.

Lemma one_block_reachable : rtc step (new, []) (one_block, [(1048576, 64)]).
Proof.
  apply rtc_once. apply (step_mmap _ _ 1310720 64 3 34 (-1) 0); [lia|lia|].
  vm_compute. reflexivity.
Qed.

Lemma one_block_inv : la_inv one_block [(1048576, 64)].
Proof. apply (reachable_inv _ one_block_reachable). Qed.

Lemma reachable_blocks_disjoint_witness :
  pairwise bdisj [(1048576, 64)] ∧
  Forall (λ x, FIRST_ARENA_BASE ≤ x.1 ∧ 0 < x.2 ∧ x.1 + x.2 ≤ brk one_block) [(1048576, 64)] ∧
  high_water one_block < 2 ^ 32.
Proof. apply (reachable_blocks_disjoint one_block), one_block_reachable. Defined.

Lemma mmap_sound_witness :
  1048640 mod 8 = 0 ∧ 0 < 100 ∧ Forall (bdisj (1048640, 100)) [(1048576, 64)] ∧
  1048640 + 100 ≤ brk (mmap one_block 1310720 100 3 34 (-1) 0).2 ∧
  la_inv (mmap one_block 1310720 100 3 34 (-1) 0).2 [(1048640, 100); (1048576, 64)].
Proof.
  apply (mmap_sound one_block [(1048576, 64)] 1310720 100 3 34 (-1) 0 1048640).
  - apply one_block_inv.
  - lia.
  - lia.
  - vm_compute. reflexivity.
Defined.

Lemma mmap_refuses_witness :
  (mmap one_block 1310720 262145 3 34 (-1) 0).1 = MErr (- ENOSYS) ∧
  (mmap one_block 1310720 262145 3 34 (-1) 0).2 = one_block.
Proof.
  destruct (mmap_refuses one_block 1310720 262145 3 34 (-1) 0) as [H1 H2]; [lia|].
  split; [apply H1; reflexivity|apply H2; intros addr; vm_compute; discriminate].
Defined.

Lemma need_grow_exact_witness :
  0 < 4 ∧ (mmap new (1048576 + 4 * PAGE_SIZE) 64 3 34 (-1) 0).1 = MOk 1048576 ∧
  (mmap new (1048576 + (4 - 1) * PAGE_SIZE) 64 3 34 (-1) 0).1 = NeedGrow 1.
Proof.
  apply (need_grow_exact new [] 1048576 64 3 34 (-1) 0 4).
  - apply new_la_inv.
  - lia.
  - lia.
  - vm_compute. reflexivity.
  - vm_compute. reflexivity.
Defined.

Lemma munmap_sound_witness :
  ∃ la', munmap one_block 1048576 64 = (0, la') ∧ la_inv la' [] ∧ brk la' = brk one_block ∧
    (1048576 mod 8 = 0 → 64 ≤ ARENA_SIZE →
     ∃ addr' la'', mmap la' 1310720 64 3 34 (-1) 0 = (MOk addr', la'') ∧
                   brk la'' = brk one_block).
Proof. apply (munmap_sound one_block [] 1048576 64 1310720), one_block_inv. Defined.

(** [munmap] does not know which ranges were handed out. Unmapping the 64
    bytes above the only live block succeeds, plants a hole above the bump
    pointer, and the next two requests are given the same address. *)
Lemma munmap_unallocated_aliases :
  let '(r, la1) := munmap one_block (1048576 + 64) 64 in
  let '(x, la2) := mmap la1 1310720 64 3 34 (-1) 0 in
  let '(y, _) := mmap la2 1310720 64 3 34 (-1) 0 in
  r = 0 ∧ x = MOk 1048640 ∧ y = MOk 1048640.
Proof. vm_compute. done. Qed.

(** A length of [2^32] truncates to zero in [contains], so the request is
    accepted and releases nothing. *)
Lemma munmap_len_truncated :
  munmap one_block 1048576 (2 ^ 32) = (0, one_block).
Proof. vm_compute. reflexivity. Qed.

(** The mark is a [u32] and an arena may end at 4 GiB: with all of a 4 GiB
    memory given out it wraps to 0 in a release build, and the next arena lies
    on the guest's own data at address 0 (a debug build panics). *)
Lemma high_water_wraps :
  let la := MkLA [] (2 ^ 32 - ARENA_SIZE) in
  let '(r1, la1) := mmap la (2 ^ 32) ARENA_SIZE 3 34 (-1) 0 in
  let '(r2, _) := mmap la1 (2 ^ 32) ARENA_SIZE 3 34 (-1) 0 in
  r1 = MOk (2 ^ 32 - ARENA_SIZE) ∧ r2 = MOk 0.
Proof. vm_compute. done. Qed.
