(* ===== verification/Vfs.v ===== *)
(** * The virtual file system (src/vfs.rs)

    [Vfs] holds the preopened root directory and the working directory.
    Path resolution is lexical: [resolve_path] turns a guest string into a
    path and [normalize] collapses [.] and [..] and refuses whatever ends up
    outside the root. [Stat] and [Dirent64Record] are the two records the
    guest's libc decodes. *)

From S2P Require Import Prelude Word Errno Text Path Host.

Definition AT_FDCWD : Z := -100.

Definition O_ACCMODE : Z := 3.
Definition O_RDONLY : Z := 0.
Definition O_WRONLY : Z := 1.
Definition O_RDWR : Z := 2.
Definition O_CREAT : Z := 64.
Definition O_EXCL : Z := 128.
Definition O_TRUNC : Z := 512.
Definition O_APPEND : Z := 1024.
Definition O_NONBLOCK : Z := 2048.
Definition O_DIRECTORY : Z := 65536.
Definition O_CLOEXEC : Z := 524288.

Record Vfs := MkVfs {
  root : path;
  cwd : path;
}.

(** [flags & bit != 0]. *)
Definition has (flags bit : Z) : bool := negb (Z.land flags bit =? 0).

Definition io_to_errno (k : ErrorKind) : Z :=
  - match k with
    | NotFound => ENOENT
    | PermissionDenied => EACCES
    | InvalidInput => EFAULT
    | TooManyLinks => ELOOP
    | _ => EIO
    end.

(** ** Path resolution *)

(** One step of the [components()] loop over the stack [normalized]. *)
Definition normalize_step (acc : result path) (c : Component) : result path :=
  normalized <-? acc;
  match c with
  | ParentDir => match pop normalized with Some p => Ok p | None => Err (- EACCES) end
  | CurDir => Ok normalized
  | other => Ok (push normalized other)
  end.

Definition normalize (v : Vfs) (joined : path) : result path :=
  normalized <-? foldl normalize_step (Ok []) joined;
  if starts_with normalized (root v) then Ok normalized else Err (- EACCES).

Definition resolve_path (v : Vfs) (dirfd : Z) (s : bytes) : result path :=
  let candidate := components s in
  if is_absolute s && starts_with candidate (root v) then normalize v candidate
  else
    base <-? (if is_absolute s then Ok (root v)
              else if dirfd =? AT_FDCWD then Ok (cwd v)
              else Err (- ENOSYS));
    let trimmed := trim_start_slash s in
    normalize v (if bool_decide (trimmed = []) then base else join base trimmed).

(** ** struct stat *)

Record Stat := MkStat {
  st_dev : Z; st_ino : Z; st_nlink : Z;
  st_mode : Z; st_uid : Z; st_gid : Z;
  st_rdev : Z; st_size : Z; st_blksize : Z; st_blocks : Z;
  st_atime : Z; st_atime_nsec : Z;
  st_mtime : Z; st_mtime_nsec : Z;
  st_ctime : Z; st_ctime_nsec : Z;
}.

Definition STAT_SIZE : Z := 120.

(** Seconds and nanoseconds since the epoch; before the epoch the seconds are
    dropped and the nanoseconds are those of the distance. *)
Definition time_split (t : system_time) : Z * Z :=
  if 0 <=? t then (t / 1000000000, t mod 1000000000) else (0, (- t) mod 1000000000).

Definition mode_from (ft : FileType) (perm : Z) : Z :=
  let m := Z.land perm 4095 in
  match ft with
  | FtDir => Z.lor m 16384
  | FtSymlink => Z.lor m 40960
  | _ => Z.lor m 32768
  end.

Definition from_metadata (meta : Metadata) : Stat :=
  let mode := mode_from (md_type meta) (md_mode meta) in
  let a := time_split (default 0 (md_accessed meta)) in
  let m := time_split (default 0 (md_modified meta)) in
  let c := time_split (default (default 0 (md_modified meta)) (md_created meta)) in
  {| st_dev := 0; st_ino := md_ino meta; st_nlink := md_nlink meta;
     st_mode := mode; st_uid := 1000; st_gid := 1000;
     st_rdev := 0; st_size := as_i64 (md_len meta); st_blksize := 4096;
     st_blocks := as_i64 ((md_len meta + 511) / 512);
     st_atime := as_i64 a.1; st_atime_nsec := a.2;
     st_mtime := as_i64 m.1; st_mtime_nsec := m.2;
     st_ctime := as_i64 c.1; st_ctime_nsec := c.2 |}.

(** [Stat::encode]: the fields one after the other, with four bytes of
    padding between [st_gid] and [st_rdev]. *)
Definition stat_encode (s : Stat) : bytes :=
  to_le_bytes 8 (st_dev s) ++ to_le_bytes 8 (st_ino s) ++ to_le_bytes 8 (st_nlink s) ++
  to_le_bytes 4 (st_mode s) ++ to_le_bytes 4 (st_uid s) ++ to_le_bytes 4 (st_gid s) ++
  [0; 0; 0; 0] ++
  to_le_bytes 8 (st_rdev s) ++ to_le_bytes 8 (st_size s) ++ to_le_bytes 8 (st_blksize s) ++
  to_le_bytes 8 (st_blocks s) ++
  to_le_bytes 8 (st_atime s) ++ to_le_bytes 8 (st_atime_nsec s) ++
  to_le_bytes 8 (st_mtime s) ++ to_le_bytes 8 (st_mtime_nsec s) ++
  to_le_bytes 8 (st_ctime s) ++ to_le_bytes 8 (st_ctime_nsec s).

(** ** linux_dirent64 *)

Record Dirent64Record := MkDirent {
  d_ino : Z;
  d_off : Z;
  d_type : Z;
  d_name : bytes;
}.

(** [Vec::resize(n, 0)]. *)
Definition resize (n : nat) (l : bytes) : bytes := take n l ++ replicate (n - length l) 0.

Definition dirent_reclen (name : bytes) : Z :=
  let name_len := Z.of_nat (length name) + 1 in
  let pad := (8 - name_len mod 8) mod 8 in
  as_u16 (19 + name_len + pad).

Definition dirent_encode (r : Dirent64Record) : bytes :=
  let reclen := dirent_reclen (d_name r) in
  resize (Z.to_nat reclen)
    (to_le_bytes 8 (d_ino r) ++ to_le_bytes 8 (d_off r) ++ to_le_bytes 2 reclen ++
     [d_type r] ++ d_name r ++ [0]).

Definition dirent_type (ft : option FileType) : Z :=
  match ft with
  | Some FtDir => 4
  | Some FtFile => 8
  | Some FtSymlink => 10
  | Some FtCharDevice => 2
  | Some FtBlockDevice => 6
  | Some FtFifo => 1
  | Some FtSocket => 12
  | _ => 0
  end.

(** Byte-wise order of strings. *)
Fixpoint bytes_le (a b : bytes) : bool :=
  match a, b with
  | [], _ => true
  | _ :: _, [] => false
  | x :: a, y :: b => if x =? y then bytes_le a b else x <? y
  end.

(** The records of a directory listing, in the order of the names. *)
Definition dirent_step (out : bytes) (e : bytes * option FileType * Z) : bytes :=
  let '(name, ftype, ino) := e in
  out ++ dirent_encode {|
    d_ino := ino;
    d_off := Z.of_nat (length out) + Z.of_nat (length name) + 24;
    d_type := dirent_type ftype;
    d_name := name |}.

Definition dirents_of (entries : list DirEntry) : bytes :=
  let names := (λ e, (to_string_lossy (de_name e), de_type e, default 0 (de_ino e))) <$> entries in
  foldl dirent_step [] (sort_by (λ a b, bytes_le a.1.1 b.1.1) names).

Section operations.
Context {W : Type} `{Host W}.

Definition Vfs_new (w : W) (preopen : path) : result Vfs :=
  r <-? map_err io_to_errno (fs_canonicalize w preopen);
  Ok (MkVfs r r).

(** The access mode and the creation flags as [OpenOptions]. *)
Definition open_options (flags : Z) : result OpenOptions :=
  rw <-? (match Z.land flags O_ACCMODE with
          | 0 => Ok (true, false)
          | 1 => Ok (false, true)
          | 2 => Ok (true, true)
          | _ => Err (- EINVAL)
          end);
  Ok (MkOpenOptions rw.1 rw.2
        (has flags O_CREAT) (has flags O_CREAT && has flags O_EXCL)
        (has flags O_TRUNC) (has flags O_APPEND)).

Definition Vfs_open (w : W) (abs : path) (flags mode : Z) : result handle * W :=
  match open_options flags with
  | Err e => (Err e, w)
  | Ok opt =>
    match fs_open w opt abs with
    | (IoErr k, w) => (Err (io_to_errno k), w)
    | (IoOk f, w) =>
      if has flags O_DIRECTORY then
        match file_metadata w f with
        | IoErr k => (Err (io_to_errno k), w)
        | IoOk meta => if bool_decide (md_type meta = FtDir) then (Ok f, w)
                       else (Err (- ENOTDIR), w)
        end
      else (Ok f, w)
    end
  end.

Definition Vfs_stat (w : W) (abs : path) : result Stat :=
  meta <-? map_err io_to_errno (fs_symlink_metadata w abs);
  Ok (from_metadata meta).

Definition readdir_all (w : W) (abs : path) : result bytes :=
  entries <-? map_err io_to_errno (fs_read_dir w abs);
  Ok (dirents_of entries).

Definition getdents_at (w : W) (abs : path) (start len : Z) : result (bytes * Z) :=
  if len =? 0 then Err (- EINVAL)
  else
    all <-? readdir_all w abs;
    let total := Z.of_nat (length all) in
    if total <=? start then Ok ([], total)
    else
      let e := Z.min (start + len) total in
      Ok (take (Z.to_nat (e - start)) (drop (Z.to_nat start) all), total).

Definition getdents (w : W) (abs : path) (len : Z) : result bytes :=
  r <-? getdents_at w abs 0 len;
  Ok (take (Z.to_nat len) r.1).

Definition Vfs_chdir (w : W) (v : Vfs) (abs : path) : result Vfs :=
  if negb (starts_with abs (root v)) then Err (- EACCES)
  else
    meta <-? map_err io_to_errno (fs_metadata w abs);
    if bool_decide (md_type meta = FtDir) then Ok (MkVfs (root v) abs) else Err (- ENOTDIR).

Definition Vfs_chroot (w : W) (v : Vfs) (abs : path) : result Vfs :=
  meta <-? map_err io_to_errno (fs_metadata w abs);
  if bool_decide (md_type meta = FtDir) then Ok (MkVfs abs abs) else Err (- ENOTDIR).

End operations.

(** ** Well-formed state *)

Record vfs_wf (v : Vfs) : Prop := {
  vw_root : plain (root v);
  vw_cwd : plain (cwd v);
  vw_under : root v `prefix_of` cwd v;
}.

#[global] Instance vfs_wf_dec v : Decision (vfs_wf v).
Proof.
  refine (cast_if (decide (plain (root v) ∧ plain (cwd v) ∧ root v `prefix_of` cwd v)));
    [abstract (split; naive_solver)|abstract (intros [? ? ?]; naive_solver)].
Defined.

(** Everything [components] yields is a marker or a proper name. *)
Definition comp_ok (c : Component) : Prop :=
  match c with Normal w => name_ok w | _ => True end.

Lemma components_ok s : Forall comp_ok (components s).
Proof.
  assert (∀ ws, Forall (λ w, SLASH ∉ w) ws → Forall comp_ok (omap parse_comp ws)) as Hws.
  { intros ws Hws. eapply Forall_impl; [by apply omap_parse_ok|].
    intros [] [?|?]; simpl in *; done. }
  pose proof (split_on_Forall SLASH s) as Hs. unfold components.
  destruct (is_absolute s); [constructor; [done|auto]|].
  destruct (split_slash s) as [|w ws]; [constructor|].
  apply Forall_app. split; [|auto]. case_bool_decide; by repeat constructor.
Qed.

Lemma plain_comp_ok p : plain p → Forall comp_ok p.
Proof.
  destruct p as [|[] p]; try done. simpl. constructor; [done|].
  eapply Forall_impl; [done|]. by intros [].
Qed.

Lemma plain_split p : plain p → ∃ l, p = RootDir :: l ∧ Forall normal_ok l.
Proof. destruct p as [|[] p]; try done. simpl. eauto. Qed.

Lemma plain_prefix_app r l : plain r → plain (r ++ l) ↔ Forall normal_ok l.
Proof.
  intros (l' & -> & Hl')%plain_split. simpl. rewrite Forall_app. tauto.
Qed.

(** ** The collapse loop *)

(** The stack of [normalize] holds names, possibly after a root. *)
Definition stack_ok (p : path) : Prop := Forall normal_ok p ∨ plain p.

Lemma pop_snoc p w : pop (p ++ [Normal w]) = Some p.
Proof.
  unfold pop. rewrite last_snoc, length_app. simpl.
  rewrite Nat.add_sub. by rewrite take_app_length.
Qed.

Lemma pop_stack_ok p p' : stack_ok p → pop p = Some p' → stack_ok p'.
Proof.
  intros Hp. destruct p as [|c p _] using rev_ind; [done|].
  unfold pop. rewrite last_snoc, length_app. simpl. rewrite Nat.add_sub, take_app_length.
  destruct c; try done; intros [= <-]; destruct Hp as [Hp|Hp].
  all: try (apply Forall_app in Hp as [? ?]; by left).
  all: destruct p as [|[] p]; simpl in Hp; try done;
    apply Forall_app in Hp as [? ?]; by right.
Qed.

Lemma push_stack_ok p c :
  stack_ok p → comp_ok c → c ≠ CurDir → c ≠ ParentDir → stack_ok (push p c).
Proof.
  intros Hp Hc H1 H2. destruct c as [| | |w]; try done; simpl.
  - right. constructor.
  - destruct Hp as [Hp|Hp].
    + left. apply Forall_app. split; [done|]. by apply Forall_singleton.
    + right. destruct p as [|[] p]; try done. simpl in *. apply Forall_app.
      split; [done|]. by apply Forall_singleton.
Qed.

Lemma normalize_step_ok p c q :
  stack_ok p → comp_ok c → normalize_step (Ok p) c = Ok q → stack_ok q.
Proof.
  intros Hp Hc. unfold normalize_step, result_bind. destruct c as [| | |w].
  - intros [= <-]. by apply (push_stack_ok p RootDir).
  - by intros [= <-].
  - destruct (pop p) eqn:E; [|done]. intros [= <-]. by eapply pop_stack_ok.
  - intros [= <-]. by apply (push_stack_ok p (Normal w)).
Qed.

Lemma normalize_fold_Err e l : foldl normalize_step (Err e) l = Err e.
Proof. induction l; simpl; auto. Qed.

Lemma normalize_fold_ok l p q :
  stack_ok p → Forall comp_ok l → foldl normalize_step (Ok p) l = Ok q → stack_ok q.
Proof.
  intros Hp Hl. revert p Hp. induction Hl as [|c l Hc Hl IH]; intros p Hp; cbn [foldl].
  - intros [= <-]. done.
  - destruct (normalize_step (Ok p) c) as [p'|e] eqn:E.
    + apply IH. by eapply normalize_step_ok.
    + by rewrite normalize_fold_Err.
Qed.

Lemma normalize_sound v l p :
  plain (root v) → Forall comp_ok l → normalize v l = Ok p →
  plain p ∧ root v `prefix_of` p.
Proof.
  intros Hr Hl Hn. apply result_bind_Ok in Hn as (q & Hq & Hn).
  assert (stack_ok q) as Hs.
  { eapply (normalize_fold_ok l []); [by left; constructor|done|done]. }
  destruct (starts_with q (root v)) eqn:Hsw; [|done]. injection Hn as <-.
  unfold starts_with in Hsw. apply bool_decide_eq_true in Hsw. split; [|done].
  destruct Hs as [Hs|?]; [|done]. destruct Hsw as [k ->].
  apply plain_split in Hr as (l' & Hr & _). rewrite Hr in Hs.
  apply Forall_cons in Hs as [[] _].
Qed.

Lemma resolve_path_sound v dirfd s p :
  vfs_wf v → resolve_path v dirfd s = Ok p → plain p ∧ root v `prefix_of` p.
Proof.
  intros [Hr Hc _]. unfold resolve_path.
  destruct (is_absolute s && _); [apply normalize_sound; [done|apply components_ok]|].
  intros (base & Hb & Hn)%result_bind_Ok.
  assert (plain base) as Hbase by (repeat case_match; by simplify_eq).
  eapply normalize_sound; [done| |done].
  case_bool_decide; [by apply plain_comp_ok|apply components_ok].
Qed.

(** Pushing names one by one. *)
Lemma normalize_fold_names p l :
  Forall normal_ok l → foldl normalize_step (Ok p) l = Ok (p ++ l).
Proof.
  intros Hl. revert p. induction Hl as [|c l Hc Hl IH]; intros p; simpl.
  - by rewrite app_nil_r.
  - destruct c as [| | |w]; try done. simpl. rewrite IH. by rewrite <- app_assoc.
Qed.

Lemma normalize_fold_plain p :
  plain p → foldl normalize_step (Ok []) p = Ok p.
Proof.
  intros (l & -> & Hl)%plain_split. simpl. by rewrite normalize_fold_names.
Qed.

(** A plain path inside the root is already normal. *)
Lemma normalize_id v p :
  plain p → root v `prefix_of` p → normalize v p = Ok p.
Proof.
  intros Hp Hpre. unfold normalize. rewrite normalize_fold_plain by done. simpl.
  unfold starts_with. by rewrite bool_decide_true.
Qed.

(** A relative string of names only resolves to the working directory
    followed by them. *)
Lemma resolve_path_names v s l :
  vfs_wf v → is_absolute s = false → Forall normal_ok l →
  omap parse_comp (split_slash s) = l →
  resolve_path v AT_FDCWD s = Ok (cwd v ++ l).
Proof.
  intros [Hr Hc Hpre] Hs Hl Heq. unfold resolve_path. rewrite Hs. simpl.
  assert (trim_start_slash s = s) as -> by (destruct s as [|b s]; [done|]; cbn in Hs |- *; by rewrite Hs).
  assert (normalize v (cwd v ++ l) = Ok (cwd v ++ l)) as Hn.
  { apply normalize_id; [by apply plain_prefix_app|by apply prefix_app_r]. }
  case_bool_decide as Hnil.
  - assert (l = []) as -> by (subst; reflexivity). by rewrite app_nil_r in Hn |- *.
  - rewrite join_plain by done. by rewrite Heq.
Qed.

(** ** Reading the records back *)

(** The integer stored at an offset of a record. *)
Definition field (bs : bytes) (off n : nat) : Z := from_le_bytes (take n (drop off bs)).

Lemma field_app_skip (a b : bytes) off n k :
  length a = k → (k ≤ off)%nat → field (a ++ b) off n = field b (off - k) n.
Proof. intros <- Hle. unfold field. by rewrite drop_app_ge. Qed.

Lemma field_here n x rest : field (to_le_bytes n x ++ rest) 0 n = x mod 2 ^ (8 * Z.of_nat n).
Proof.
  unfold field. rewrite drop_0, take_app_le by (rewrite length_to_le_bytes; lia).
  rewrite take_ge by (rewrite length_to_le_bytes; lia). apply from_to_le_bytes.
Qed.

Lemma field_last n x : field (to_le_bytes n x) 0 n = x mod 2 ^ (8 * Z.of_nat n).
Proof. rewrite <- (app_nil_r (to_le_bytes n x)). apply field_here. Qed.

(** Move to the field at a constant offset and read it. *)
Ltac skip_field :=
  first [erewrite field_app_skip by (apply length_to_le_bytes || lia)
        |rewrite (field_app_skip [0; 0; 0; 0] _ _ _ 4) by (reflexivity || lia)];
  simpl Nat.sub.
Ltac read_field :=
  repeat skip_field; first [rewrite field_here | rewrite field_last].

Lemma length_stat_encode s : length (stat_encode s) = 120%nat.
Proof. unfold stat_encode. rewrite !length_app, !length_to_le_bytes. reflexivity. Qed.

(** The guest's view of a listing: read one record, skip [d_reclen] bytes,
    repeat. *)
Fixpoint until_nul (bs : bytes) : bytes :=
  match bs with
  | [] => []
  | b :: bs => if b =? 0 then [] else b :: until_nul bs
  end.

Fixpoint parse_dirents (fuel : nat) (bs : bytes) : option (list (bytes * Z * Z)) :=
  match bs with
  | [] => Some []
  | _ :: _ =>
    match fuel with
    | O => None
    | S fuel =>
      let reclen := Z.to_nat (field bs 16 2) in
      if (reclen <=? 19)%nat then None
      else if (length bs <? reclen)%nat then None
      else
        rest ← parse_dirents fuel (drop reclen bs);
        Some ((until_nul (drop 19 (take reclen bs)), field bs 18 1, field bs 0 8) :: rest)
    end
  end.

Lemma until_nul_name name rest : Forall (λ b, b ≠ 0) name → until_nul (name ++ 0 :: rest) = name.
Proof.
  induction 1 as [|b name Hb _ IH]; [done|]. simpl.
  rewrite (proj2 (Z.eqb_neq _ _) Hb). by rewrite IH.
Qed.

Lemma dirent_reclen_spec name :
  Z.of_nat (length name) ≤ 65000 →
  let r := dirent_reclen name in
  19 + Z.of_nat (length name) + 1 ≤ r < 65536 ∧ r mod 8 = 3.
Proof.
  intros Hn r. subst r. unfold dirent_reclen.
  remember (Z.of_nat (length name) + 1) as m eqn:Hm.
  pose proof (Z.mod_pos_bound m 8 ltac:(lia)).
  pose proof (Z.mod_pos_bound (8 - m mod 8) 8 ltac:(lia)).
  assert (as_u16 (19 + m + (8 - m mod 8) mod 8) = 19 + m + (8 - m mod 8) mod 8) as ->.
  { apply wrapu_id. unfold is_u. lia. }
  split; [lia|].
  pose proof (Z_div_mod_eq_full m 8). pose proof (Z_div_mod_eq_full (8 - m mod 8) 8).
  symmetry. apply Z.mod_unique with (3 + m / 8 - (8 - m mod 8) / 8); lia.
Qed.

(** A record is as long as it says, and starts with its four fields. *)
Lemma dirent_encode_eq r :
  Z.of_nat (length (d_name r)) ≤ 65000 →
  ∃ pad, dirent_encode r =
    to_le_bytes 8 (d_ino r) ++ to_le_bytes 8 (d_off r) ++
    to_le_bytes 2 (dirent_reclen (d_name r)) ++ [d_type r] ++ d_name r ++ 0 :: replicate pad 0 ∧
  Z.of_nat (length (dirent_encode r)) = dirent_reclen (d_name r).
Proof.
  intros Hn. destruct (dirent_reclen_spec (d_name r) Hn) as [Hr _].
  unfold dirent_encode, resize. set (n := dirent_reclen (d_name r)) in *.
  rewrite take_ge by (rewrite !length_app, !length_to_le_bytes; simpl; lia).
  eexists. split.
  - rewrite <- !app_assoc. simpl. reflexivity.
  - rewrite !length_app, !length_to_le_bytes, length_replicate. simpl. lia.
Qed.

Lemma parse_dirents_cons fuel r rest :
  Z.of_nat (length (d_name r)) ≤ 65000 → Forall (λ b, b ≠ 0) (d_name r) →
  is_u 64 (d_ino r) → byte_ok (d_type r) →
  parse_dirents (S fuel) (dirent_encode r ++ rest) =
    (((d_name r, d_type r, d_ino r) ::.) <$> parse_dirents fuel rest).
Proof.
  intros Hn Hnz Hino Hty. destruct (dirent_reclen_spec (d_name r) Hn) as [Hr _].
  destruct (dirent_encode_eq r Hn) as (pad & Henc & Hlen).
  assert (field (dirent_encode r ++ rest) 16 2 = dirent_reclen (d_name r)) as Hf.
  { rewrite Henc, <- !app_assoc. read_field. apply Z.mod_small. lia. }
  destruct (dirent_encode r ++ rest) as [|b l] eqn:Hbs.
  { apply (f_equal length) in Hbs. rewrite length_app in Hbs. simpl in Hbs. lia. }
  cbn [parse_dirents]. rewrite Hf.
  rewrite (proj2 (Nat.leb_gt _ _)) by lia.
  rewrite <- Hbs. rewrite (proj2 (Nat.ltb_ge _ _)) by (rewrite length_app; lia).
  replace (Z.to_nat (dirent_reclen (d_name r))) with (length (dirent_encode r)) by lia.
  rewrite drop_app_length, take_app_length.
  assert (until_nul (drop 19 (dirent_encode r)) = d_name r) as ->.
  { rewrite Henc. repeat (rewrite drop_app_ge by (rewrite ?length_to_le_bytes; simpl; lia)).
    rewrite !length_to_le_bytes. simpl. by apply until_nul_name. }
  assert (field (dirent_encode r ++ rest) 18 1 = d_type r) as ->.
  { rewrite Henc, <- !app_assoc.
    repeat (erewrite field_app_skip by (apply length_to_le_bytes || lia); simpl Nat.sub).
    unfold field. simpl. lia. }
  assert (field (dirent_encode r ++ rest) 0 8 = d_ino r) as ->.
  { rewrite Henc, <- !app_assoc. read_field. by apply Z.mod_small. }
  by destruct (parse_dirents fuel rest).
Qed.

Definition entry_ok (e : bytes * option FileType * Z) : Prop :=
  Z.of_nat (length e.1.1) ≤ 65000 ∧ Forall (λ b, b ≠ 0) e.1.1 ∧ is_u 64 e.2.

Lemma dirent_type_byte ft : byte_ok (dirent_type ft).
Proof. unfold byte_ok. destruct ft as [[]|]; simpl; lia. Qed.

(** The records after any prefix [out] parse to the entries. *)
Lemma parse_dirent_fold es out :
  Forall entry_ok es →
  ∃ bs, foldl dirent_step out es = out ++ bs ∧ (length es ≤ length bs)%nat ∧
    ∀ fuel, (length es ≤ fuel)%nat →
      parse_dirents fuel bs = Some ((λ e, (e.1.1, dirent_type e.1.2, e.2)) <$> es).
Proof.
  intros Hes. revert out. induction Hes as [|[[name ft] ino] es He Hes IH]; intros out.
  { exists []. rewrite app_nil_r. split_and!; [done|done|]. intros [] _; done. }
  destruct He as (Hn & Hnz & Hino). simpl in Hn, Hnz, Hino. cbn [foldl dirent_step].
  set (r := MkDirent ino _ _ name).
  destruct (IH (out ++ dirent_encode r)) as (bs & Heq & Hle & Hp).
  exists (dirent_encode r ++ bs). rewrite Heq, <- app_assoc. split; [done|].
  destruct (dirent_encode_eq r Hn) as (? & _ & Hlen).
  destruct (dirent_reclen_spec name Hn) as [Hr _]. split.
  { rewrite length_app. simpl in *. lia. }
  intros [|fuel] Hfuel; simpl in Hfuel; [lia|].
  rewrite parse_dirents_cons; [|done|done|done|apply dirent_type_byte].
  rewrite Hp by lia. done.
Qed.

Lemma lossy_aux_props fuel bs :
  (length (lossy_aux fuel bs) ≤ 3 * length bs)%nat ∧
  (Forall (λ b, b ≠ 0) bs → Forall (λ b, b ≠ 0) (lossy_aux fuel bs)).
Proof.
  revert bs. induction fuel as [|fuel IH]; intros [|b bs]; cbn [lossy_aux length];
    try (split; [lia|by constructor]).
  pose proof (utf8_next_pos b bs). destruct (utf8_next b bs) as [n ok] eqn:E. simpl in *.
  destruct (IH (drop n (b :: bs))) as [Hl Hz]. rewrite length_drop in Hl. simpl in Hl. split.
  - rewrite length_app. destruct ok.
    + rewrite length_take. simpl. lia.
    + simpl. lia.
  - intros Hnz. apply Forall_app. split; [|apply Hz; by apply Forall_drop].
    destruct ok; [by apply Forall_take|repeat constructor; lia].
Qed.

(** ** Theorems *)

(** Whatever string the guest passes, a path that resolves is the root
    followed by ordinary names: no [.] or [..] is left in it and it cannot
    name anything lexically outside the preopened directory. *)
Theorem resolve_path_contained v dirfd s p :
  vfs_wf v → resolve_path v dirfd s = Ok p →
  ∃ rest, p = root v ++ rest ∧ Forall normal_ok rest.
Proof.
  intros Hv Hp. destruct (resolve_path_sound _ _ _ _ Hv Hp) as [Hpl [k ->]].
  exists k. split; [done|]. by apply (plain_prefix_app (root v)), Hpl; apply Hv.
Qed.

(** Resolution is the lexical one: [.] vanishes, [name/..] cancels, [..]
    at the very top is refused with [-EACCES], and a path without them that
    lies under the root resolves to itself. *)
Theorem normalize_lexical v p q w :
  normalize v (p ++ CurDir :: q) = normalize v (p ++ q) ∧
  normalize v (p ++ Normal w :: ParentDir :: q) = normalize v (p ++ q) ∧
  normalize v (RootDir :: ParentDir :: q) = Err (- EACCES) ∧
  (plain p → root v `prefix_of` p → normalize v p = Ok p).
Proof.
  split_and!.
  - unfold normalize. rewrite !foldl_app. simpl.
    by destruct (foldl normalize_step (Ok []) p).
  - unfold normalize. rewrite !foldl_app. simpl.
    destruct (foldl normalize_step (Ok []) p) as [x|e]; [|done].
    simpl. by rewrite pop_snoc.
  - unfold normalize. simpl. by rewrite normalize_fold_Err.
  - apply normalize_id.
Qed.

(** The 120-byte [struct stat] has each field, little endian, at the
    offset the guest's libc reads it from. *)
Theorem stat_encode_layout s :
  let b := stat_encode s in
  length b = Z.to_nat STAT_SIZE ∧
  field b 0 8 = st_dev s mod 2 ^ 64 ∧ field b 8 8 = st_ino s mod 2 ^ 64 ∧
  field b 16 8 = st_nlink s mod 2 ^ 64 ∧ field b 24 4 = st_mode s mod 2 ^ 32 ∧
  field b 28 4 = st_uid s mod 2 ^ 32 ∧ field b 32 4 = st_gid s mod 2 ^ 32 ∧
  field b 40 8 = st_rdev s mod 2 ^ 64 ∧ field b 48 8 = st_size s mod 2 ^ 64 ∧
  field b 56 8 = st_blksize s mod 2 ^ 64 ∧ field b 64 8 = st_blocks s mod 2 ^ 64 ∧
  field b 72 8 = st_atime s mod 2 ^ 64 ∧ field b 80 8 = st_atime_nsec s mod 2 ^ 64 ∧
  field b 88 8 = st_mtime s mod 2 ^ 64 ∧ field b 96 8 = st_mtime_nsec s mod 2 ^ 64 ∧
  field b 104 8 = st_ctime s mod 2 ^ 64 ∧ field b 112 8 = st_ctime_nsec s mod 2 ^ 64.
Proof.
  intros b. split; [apply length_stat_encode|]. subst b. unfold stat_encode.
  split_and!; read_field; reflexivity.
Qed.

(** C38: a directory listing survives the trip through its [linux_dirent64]
    records: walking them by [d_reclen] yields the name, type and inode of
    every entry, in the order of the names. *)
Theorem dirents_roundtrip entries :
  Forall (λ e, (length (de_name e) ≤ 255)%nat ∧ Forall (λ b, b ≠ 0) (de_name e) ∧
               is_u 64 (default 0 (de_ino e))) entries →
  parse_dirents (length (dirents_of entries)) (dirents_of entries) =
  Some ((λ e, (e.1.1, dirent_type e.1.2, e.2)) <$>
    sort_by (λ a b, bytes_le a.1.1 b.1.1)
      ((λ e, (to_string_lossy (de_name e), de_type e, default 0 (de_ino e))) <$> entries)).
Proof.
  intros He. unfold dirents_of.
  set (es := sort_by _ _).
  assert (Forall entry_ok es) as Hes.
  { unfold es. rewrite sort_by_perm. apply Forall_fmap. eapply Forall_impl; [exact He|].
    intros e (Hn & Hz & Hi). simpl. unfold entry_ok, to_string_lossy. simpl.
    destruct (lossy_aux_props (length (de_name e)) (de_name e)) as [Hl Hz'].
    split_and!; [lia|auto|done]. }
  destruct (parse_dirent_fold es [] Hes) as (bs & Heq & Hle & Hp).
  rewrite Heq. simpl. by apply Hp.
Qed.

(** ** Witnesses *)

(** [/srv/www] with working directory [/srv/www/a]. *)
Definition sample_vfs : Vfs :=
  MkVfs [RootDir; Normal [115; 114; 118]; Normal [119; 119; 119]]
        [RootDir; Normal [115; 114; 118]; Normal [119; 119; 119]; Normal [97]].

Lemma sample_vfs_wf : vfs_wf sample_vfs.
Proof. apply (bool_decide_unpack _). vm_compute. exact I. Qed.

(** [./../b] resolves to [/srv/www/b]. *)
Lemma resolve_path_contained_witness :
  resolve_path sample_vfs AT_FDCWD [46; 47; 46; 46; 47; 98] = Ok (root sample_vfs ++ [Normal [98]]) ∧
  ∃ rest, root sample_vfs ++ [Normal [98]] = root sample_vfs ++ rest ∧ Forall normal_ok rest.
Proof.
  split; [vm_compute; reflexivity|].
  apply (resolve_path_contained sample_vfs AT_FDCWD [46; 47; 46; 46; 47; 98]).
  - apply sample_vfs_wf.
  - vm_compute. reflexivity.
Defined.

Lemma normalize_lexical_witness :
  normalize sample_vfs (cwd sample_vfs) = Ok (cwd sample_vfs).
Proof.
  apply (normalize_lexical sample_vfs (cwd sample_vfs) [] []).
  - apply sample_vfs_wf.
  - apply sample_vfs_wf.
Defined.

Lemma dirents_roundtrip_witness :
  let es := [MkDirEntry [98; 99] (Some FtFile) (Some 7); MkDirEntry [97] (Some FtDir) None] in
  parse_dirents (length (dirents_of es)) (dirents_of es) = Some [([97], 4, 0); ([98; 99], 8, 7)].
Proof.
  intros es. etrans.
  - apply (dirents_roundtrip es). repeat constructor; simpl; lia.
  - vm_compute. reflexivity.
Defined.
