(* ===== verification/Udp.v ===== *)
(** * The UDP socket state (src/sys/udp.rs)

    The per-socket receive queue between the pump task and [recvfrom]: a
    bounded first-in first-out queue that drops its oldest datagram when it
    is full. The host socket, the pump's join handle and the two [Notify]
    objects are handles; [ensure_bound], which talks to the host's socket
    layer, is in [Sock]. *)

From S2P Require Import Prelude Word Text.

(** [std::net::SocketAddr]. *)
Inductive SocketAddr :=
  | SAv4 (port : Z) (addr : bytes)
  | SAv6 (port : Z) (addr : bytes).

#[global] Instance SocketAddr_eq_dec : EqDecision SocketAddr.
Proof. solve_decision. Defined.

Record Datagram := MkDatagram {
  dg_bytes : bytes;
  dg_addr : SocketAddr;
}.

Definition RECV_QUEUE_CAP : Z := 4096.

Inductive Family := V4 | V6.

Record UdpSocketState := MkUdp {
  u_socket : option Z;
  recv_queue : list Datagram;
  u_notify_read : Z;
  u_notify_write : Z;
  u_bound_addr : option SocketAddr;
  u_peer_addr : option SocketAddr;
  u_family : Family;
  u_ipv6_v6only : bool;
  u_so_reuseaddr : bool;
  u_shutdown_flags : Z;
  pump_handle : option Z;
  pump_cancel : bool;
}.

(** [UdpSocketState::new], given the two fresh [Notify] handles. *)
Definition new (nr nw : Z) (family : Family) (ipv6_v6only so_reuseaddr : bool) : UdpSocketState :=
  {| u_socket := None; recv_queue := []; u_notify_read := nr; u_notify_write := nw;
     u_bound_addr := None; u_peer_addr := None; u_family := family;
     u_ipv6_v6only := ipv6_v6only; u_so_reuseaddr := so_reuseaddr;
     u_shutdown_flags := 0; pump_handle := None; pump_cancel := false |}.

Definition set_queue (u : UdpSocketState) (q : list Datagram) : UdpSocketState :=
  {| u_socket := u_socket u; recv_queue := q; u_notify_read := u_notify_read u;
     u_notify_write := u_notify_write u; u_bound_addr := u_bound_addr u;
     u_peer_addr := u_peer_addr u; u_family := u_family u;
     u_ipv6_v6only := u_ipv6_v6only u; u_so_reuseaddr := u_so_reuseaddr u;
     u_shutdown_flags := u_shutdown_flags u; pump_handle := pump_handle u;
     pump_cancel := pump_cancel u |}.

Definition set_pump_cancel (u : UdpSocketState) : UdpSocketState :=
  {| u_socket := u_socket u; recv_queue := recv_queue u; u_notify_read := u_notify_read u;
     u_notify_write := u_notify_write u; u_bound_addr := u_bound_addr u;
     u_peer_addr := u_peer_addr u; u_family := u_family u;
     u_ipv6_v6only := u_ipv6_v6only u; u_so_reuseaddr := u_so_reuseaddr u;
     u_shutdown_flags := u_shutdown_flags u; pump_handle := pump_handle u;
     pump_cancel := true |}.

Definition has_pending (u : UdpSocketState) : bool := negb (bool_decide (length (recv_queue u) = 0%nat)).

Definition try_dequeue (u : UdpSocketState) : option Datagram * UdpSocketState :=
  match recv_queue u with
  | [] => (None, u)
  | d :: q => (Some d, set_queue u q)
  end.

(** Returns whether the queue was empty before. *)
Definition enqueue (u : UdpSocketState) (bs : bytes) (addr : SocketAddr) : bool * UdpSocketState :=
  let q := recv_queue u in
  let was_empty := bool_decide (length q = 0%nat) in
  let q := if RECV_QUEUE_CAP <=? Z.of_nat (length q) then tail q else q in
  (was_empty, set_queue u (q ++ [MkDatagram bs addr])).

(** ** The window the queue keeps *)

(** The last [n] elements of a list. *)
Definition lastn {A} (n : nat) (l : list A) : list A := drop (length l - n) l.

Lemma lastn_all {A} n (l : list A) : (length l ≤ n)%nat → lastn n l = l.
Proof. intros. unfold lastn. by replace (length l - n)%nat with 0%nat by lia. Qed.

Lemma tail_drop {A} (l : list A) : tail l = drop 1 l.
Proof. by destruct l. Qed.

Definition cap : nat := Z.to_nat RECV_QUEUE_CAP.

Lemma enqueue_window u bs addr l :
  recv_queue u = lastn cap l →
  recv_queue (enqueue u bs addr).2 = lastn cap (l ++ [MkDatagram bs addr]).
Proof.
  intros Hq. unfold enqueue. simpl. rewrite Hq.
  assert (0 < cap)%nat as Hc by (unfold cap, RECV_QUEUE_CAP; lia).
  assert (RECV_QUEUE_CAP = Z.of_nat cap) as -> by (unfold cap, RECV_QUEUE_CAP; lia).
  generalize dependent cap. intros n Hq Hc. unfold lastn in *.
  rewrite length_drop, length_app. simpl.
  destruct (Z.of_nat n <=? _) eqn:E; to_prop.
  - rewrite tail_drop, drop_drop, drop_app_le by lia. f_equal. f_equal. lia.
  - replace (length l - n)%nat with 0%nat by lia.
    replace (length l + 1 - n)%nat with 0%nat by lia. done.
Qed.

(** Run a sequence of arrivals. *)
Definition enqueue_all (u : UdpSocketState) (ds : list Datagram) : UdpSocketState :=
  foldl (λ u d, (enqueue u (dg_bytes d) (dg_addr d)).2) u ds.

Lemma enqueue_all_window u l ds :
  recv_queue u = lastn cap l → recv_queue (enqueue_all u ds) = lastn cap (l ++ ds).
Proof.
  revert u l. induction ds as [|d ds IH]; intros u l Hu; simpl.
  { by rewrite app_nil_r. }
  rewrite (IH _ (l ++ [d])); [by rewrite <- app_assoc|].
  destruct d. by apply enqueue_window.
Qed.

(** Whatever arrives, the receive queue holds exactly the most recent
    datagrams, at most [RECV_QUEUE_CAP] of them, in arrival order; the oldest
    is the next one delivered, and the "was empty" flag that triggers the
    reader's wake-up is right. *)
Theorem udp_queue_keeps_latest nr nw f v6 re ds bs addr :
  let u := enqueue_all (new nr nw f v6 re) ds in
  recv_queue u = lastn cap ds ∧
  Z.of_nat (length (recv_queue u)) ≤ RECV_QUEUE_CAP ∧
  (try_dequeue u).1 = head (lastn cap ds) ∧
  ((enqueue u bs addr).1 = true ↔ has_pending u = false).
Proof.
  intros u. assert (recv_queue u = lastn cap ds) as Hq by by apply (enqueue_all_window _ []).
  split_and!; [done| | |].
  - rewrite Hq. unfold lastn. rewrite length_drop.
    assert (Z.of_nat cap = RECV_QUEUE_CAP) by (unfold cap, RECV_QUEUE_CAP; lia). lia.
  - unfold try_dequeue. rewrite <- Hq. by destruct (recv_queue u).
  - unfold enqueue, has_pending. simpl. by destruct (bool_decide _).
Qed.
