(* ===== verification/Net.v ===== *)
(** * The network below

    The sockets of the machine: what src/sys/socket.rs and src/sys/udp.rs ask
    of [tokio::net], [socket2] and [std::os::unix::net]. As with [Host], the
    network is an interface over a type of host states and an open socket is
    a handle. An operation the source awaits is the operation at the moment
    the await completes. The conversions between [tokio] and [std] sockets
    that the source [expect]s to succeed are part of [unix_listener_clone]. *)

From S2P Require Import Prelude Word Text Path Host Udp.

(** The [std::io::ErrorKind]s the socket code tells apart. *)
Inductive NetErrorKind :=
  | NetAddrInUse | NetAddrNotAvailable | NetConnectionRefused | NetTimedOut
  | NetNotFound | NetPermissionDenied | NetOther.

Inductive net (A : Type) : Type :=
  | NetOk (a : A)
  | NetErr (k : NetErrorKind).
Arguments NetOk {A} a.
Arguments NetErr {A} k.

Class Net (W : Type) := {
  (** [UnixListener], [UnixStream]; a peer is known by its path name. *)
  unix_bind : W → bytes → net handle * W;
  unix_listener_clone : W → handle → net handle * W;
  unix_accept : W → handle → net (handle * option bytes) * W;
  unix_connect : W → bytes → net handle * W;
  unix_pair : W → net (handle * handle) * W;
  (** [TcpListener], [TcpStream]. *)
  tcp_bind : W → SocketAddr → net handle * W;
  tcp_accept : W → handle → net (handle * SocketAddr) * W;
  tcp_connect : W → SocketAddr → net handle * W;
  (** One [write], one [read] of at most so many bytes, [shutdown]. *)
  stream_write : W → handle → bytes → net Z * W;
  stream_read : W → handle → Z → net bytes * W;
  stream_shutdown : W → handle → W;
  (** [socket2::Socket] and [UdpSocket]. *)
  udp_socket : W → Family → net handle * W;
  udp_set_reuse_address : W → handle → bool → W;
  udp_set_only_v6 : W → handle → bool → W;
  udp_bind : W → handle → SocketAddr → net unit * W;
  udp_set_nonblocking : W → handle → net unit * W;
  udp_from_std : W → handle → net handle * W;
  udp_local_addr : W → handle → net SocketAddr;
}.

(** What [read] and [write] promise of their counts, and [accept] and
    [local_addr] of the addresses they report. The paths of the UNIX calls fit
    [sun_path] with its terminator: the library refuses longer ones. *)
Definition inet_ok (a : SocketAddr) : Prop :=
  match a with
  | SAv4 port addr => is_u 16 port ∧ length addr = 4%nat ∧ bytes_ok addr
  | SAv6 port addr => is_u 16 port ∧ length addr = 16%nat ∧ bytes_ok addr
  end.

Class NetLaws (W : Type) `{Net W} : Prop := {
  stream_read_le w h n bs w' :
    stream_read w h n = (NetOk bs, w') → (length bs ≤ Z.to_nat n)%nat ∧ bytes_ok bs;
  stream_write_le w h bs n w' :
    stream_write w h bs = (NetOk n, w') → 0 ≤ n ≤ Z.of_nat (length bs);
  tcp_accept_addr w h s a w' : tcp_accept w h = (NetOk (s, a), w') → inet_ok a;
  udp_local_addr_ok w h a : udp_local_addr w h = NetOk a → inet_ok a;
  unix_bind_path w p h w' : unix_bind w p = (NetOk h, w') → (length p < 108)%nat;
  unix_connect_path w p h w' : unix_connect w p = (NetOk h, w') → (length p < 108)%nat;
  unix_accept_path w l h p w' : unix_accept w l = (NetOk (h, Some p), w') → (length p < 108)%nat;
}.

(** A connected stream delivers the bytes sent to it in order: [pending] are
    those not yet read. A read takes some of them, and none only when there
    are none. *)
Class StreamNet (W : Type) `{Net W} := {
  pending : W → handle → bytes;
  open_stream : W → handle → Prop;
  stream_read_law w h n :
    open_stream w h → 0 < n →
    ∃ bs w', stream_read w h n = (NetOk bs, w') ∧ open_stream w' h ∧
      pending w h = bs ++ pending w' h ∧ Z.of_nat (length bs) ≤ n ∧
      (bs = [] → pending w h = []);
}.

(** ** No network *)

#[global] Instance null_net : Net NullHost := {
  unix_bind w _ := (NetErr NetPermissionDenied, w);
  unix_listener_clone w h := (NetOk h, w);
  unix_accept w _ := (NetErr NetOther, w);
  unix_connect w _ := (NetErr NetNotFound, w);
  unix_pair w := (NetOk (1, 2), w);
  tcp_bind w _ := (NetErr NetAddrInUse, w);
  tcp_accept w _ := (NetErr NetOther, w);
  tcp_connect w _ := (NetErr NetConnectionRefused, w);
  stream_write w _ bs := (NetOk (Z.of_nat (length bs)), w);
  stream_read w _ _ := (NetOk [], w);
  stream_shutdown w _ := w;
  udp_socket w _ := (NetErr NetPermissionDenied, w);
  udp_set_reuse_address w _ _ := w;
  udp_set_only_v6 w _ _ := w;
  udp_bind w _ _ := (NetErr NetAddrInUse, w);
  udp_set_nonblocking w _ := (NetOk tt, w);
  udp_from_std w h := (NetOk h, w);
  udp_local_addr _ _ := NetErr NetOther;
}.

#[global] Instance null_net_laws : NetLaws NullHost.
Proof.
  split; try done.
  - intros w h n bs w' [= <- <-]. simpl. split; [lia|constructor].
  - intros w h bs n w' [= <- <-]. lia.
Qed.

(** ** One incoming stream

    Every handle reads from one queue of bytes; reads are short: at most
    three bytes each. Writes are appended to the log. *)

Record Inbox := MkInbox { in_queue : bytes; out_log : bytes }.

Definition in_chunk (w : Inbox) (n : Z) : bytes := take (Z.to_nat (Z.min n 3)) (in_queue w).

#[global] Instance inbox_net : Net Inbox := {
  unix_bind w _ := (NetOk 1, w);
  unix_listener_clone w h := (NetOk h, w);
  unix_accept w _ := (NetOk (2, None), w);
  unix_connect w _ := (NetOk 3, w);
  unix_pair w := (NetOk (4, 5), w);
  tcp_bind w _ := (NetOk 6, w);
  tcp_accept w _ := (NetOk (7, SAv4 4000 [10; 0; 0; 1]), w);
  tcp_connect w _ := (NetOk 8, w);
  stream_write w _ bs := (NetOk (Z.of_nat (length bs)), MkInbox (in_queue w) (out_log w ++ bs));
  stream_read w _ n := (NetOk (in_chunk w n), MkInbox (drop (length (in_chunk w n)) (in_queue w)) (out_log w));
  stream_shutdown w _ := w;
  udp_socket w _ := (NetOk 9, w);
  udp_set_reuse_address w _ _ := w;
  udp_set_only_v6 w _ _ := w;
  udp_bind w _ _ := (NetOk tt, w);
  udp_set_nonblocking w _ := (NetOk tt, w);
  udp_from_std w h := (NetOk h, w);
  udp_local_addr _ _ := NetOk (SAv4 40000 [127; 0; 0; 1]);
}.

#[global] Program Instance inbox_stream : StreamNet Inbox := {
  pending w _ := in_queue w;
  open_stream _ _ := True;
}.
Next Obligation.
  intros w h n _ Hn. eexists _, _. split; [done|]. simpl. unfold in_chunk.
  rewrite length_take. split_and!; [done| |lia|].
  - rewrite <- (take_drop (Z.to_nat (Z.min n 3)) (in_queue w)) at 1. f_equal.
    destruct (decide (Z.to_nat (Z.min n 3) ≤ length (in_queue w))%nat).
    + f_equal. lia.
    + rewrite !drop_ge by lia. done.
  - intros He. apply (f_equal length) in He. rewrite length_take in He. simpl in He.
    destruct (in_queue w); [done|]. simpl in He. lia.
Qed.
