(* ===== verification/Fd.v ===== *)
(** * File descriptors (src/fd.rs)

    The resources a descriptor can stand for and the table that maps
    descriptors to them.

    What the code shares through an [Arc] is an object in the [heap] and the
    resource holds its location: the two ends of a pipe and all their
    duplicates share one [pipe], duplicated file and socket descriptors share
    one [FilePos] or [SocketInner]. The [buf], [closed] and [nonblock] cells of
    a pipe are always cloned together, so they are one object. A
    [tokio::sync::Notify] is a location too; the notifications sent to it are
    recorded in [wakes]. *)

From S2P Require Import Prelude Word Errno Text Path Host Udp.

Definition STDIN : Z := 0.
Definition STDOUT : Z := 1.
Definition STDERR : Z := 2.

(** ** Pipes *)

(** The shared state of a pipe. *)
Record pipe := MkPipe {
  buf : bytes;
  closed : bool;
  p_nonblock : bool;
}.

Record PipeRead := MkPipeRead { pr_pipe : Z; pr_notify : Z }.
Record PipeWrite := MkPipeWrite { pw_pipe : Z; pw_notify : Z }.

(** [std::task::Poll]. *)
Inductive poll (A : Type) := Ready (a : A) | Pending.
Arguments Ready {A} a.
Arguments Pending {A}.

(** [AsyncRead::poll_read] into a buffer with room for [remaining] bytes: the
    bytes delivered. The end of file is an empty read. *)
Definition poll_read (p : pipe) (remaining : nat) : poll bytes * pipe :=
  if closed p && bool_decide (buf p = []) then (Ready [], p)
  else if bool_decide (buf p = []) then (Pending, p)
  else
    let n := Nat.min remaining (length (buf p)) in
    (Ready (take n (buf p)), MkPipe (drop n (buf p)) (closed p) (p_nonblock p)).

Definition poll_write (p : pipe) (src : bytes) : poll nat * pipe :=
  (Ready (length src), MkPipe (buf p ++ src) (closed p) (p_nonblock p)).

Definition poll_flush (p : pipe) : poll unit * pipe := (Ready tt, p).

Definition poll_shutdown (p : pipe) : poll unit * pipe :=
  (Ready tt, MkPipe (buf p) true (p_nonblock p)).

(** ** Sockets *)

Inductive SocketKind := SkStream | SkDatagram.

Inductive SockAddr :=
  | SockV4 (port : Z) (addr : bytes)
  | SockV6 (port : Z) (addr : bytes)
  | SockUnix (p : bytes).

#[global] Instance SocketKind_eq_dec : EqDecision SocketKind.
Proof. solve_decision. Defined.
#[global] Instance SockAddr_eq_dec : EqDecision SockAddr.
Proof. solve_decision. Defined.

Definition as_v4 (a : SockAddr) : option SocketAddr :=
  match a with SockV4 port addr => Some (SAv4 port addr) | _ => None end.
Definition as_v6 (a : SockAddr) : option SocketAddr :=
  match a with SockV6 port addr => Some (SAv6 port addr) | _ => None end.
Definition as_std (a : SockAddr) : option SocketAddr :=
  match a with
  | SockV4 port addr => Some (SAv4 port addr)
  | SockV6 port addr => Some (SAv6 port addr)
  | SockUnix _ => None
  end.

(** Host sockets (tokio listeners, streams, datagram sockets) are handles. *)
Record UnixSockInner := MkUnix {
  ux_path : option bytes;
  ux_listener : option handle;
  ux_stream : option handle;
  ux_dgram : option handle;
  ux_peer_addr : option bytes;
}.

Definition UnixSockInner_new : UnixSockInner := MkUnix None None None None None.

Record SocketInner := MkSocket {
  kind : SocketKind;
  s_nonblock : bool;
  bound : option SockAddr;
  listen_backlog : option Z;
  so_reuseaddr : bool;
  so_keepalive : bool;
  tcp_nodelay : bool;
  listener : option handle;
  stream : option handle;
  peer_addr : option SocketAddr;
  last_error : Z;
  shutdown_flags : Z;
  is_acceptor : bool;
  notify_read : Z;
  notify_write : Z;
  peek_buf : bytes;
  unix : option UnixSockInner;
  family_unix : bool;
  stream_unix : option handle;
  peer_addr_unix : option bytes;
  dgram_unix : option handle;
  inherited : bool;
  udp : option UdpSocketState;
  family_v6 : bool;
  ipv6_v6only : bool;
}.

(** [SocketInner::new], given its two fresh [Notify] locations. *)
Definition SocketInner_new (nr nw : Z) (k : SocketKind) (nonblock : bool) : SocketInner :=
  {| kind := k; s_nonblock := nonblock; bound := None; listen_backlog := None;
     so_reuseaddr := false; so_keepalive := false; tcp_nodelay := false;
     listener := None; stream := None; peer_addr := None; last_error := 0;
     shutdown_flags := 0; is_acceptor := false; notify_read := nr; notify_write := nw;
     peek_buf := []; unix := None; family_unix := false; stream_unix := None;
     peer_addr_unix := None; dgram_unix := None; inherited := false; udp := None;
     family_v6 := false; ipv6_v6only := false |}.

Definition is_listening (s : SocketInner) : bool :=
  bool_decide (is_Some (bound s)) && bool_decide (is_Some (listen_backlog s)).

Definition family (s : SocketInner) : Z :=
  if family_unix s then 1
  else match bound s with
  | Some (SockV4 _ _) => 2
  | Some (SockV6 _ _) => 10
  | Some (SockUnix _) => 1
  | None => 2
  end.

(** [nonblock.store(on)]. *)
Definition sock_set_nonblock (s : SocketInner) (want : bool) : SocketInner :=
  {| kind := kind s; s_nonblock := want; bound := bound s; listen_backlog := listen_backlog s;
     so_reuseaddr := so_reuseaddr s; so_keepalive := so_keepalive s; tcp_nodelay := tcp_nodelay s;
     listener := listener s; stream := stream s; peer_addr := peer_addr s;
     last_error := last_error s; shutdown_flags := shutdown_flags s;
     is_acceptor := is_acceptor s; notify_read := notify_read s; notify_write := notify_write s;
     peek_buf := peek_buf s; unix := unix s; family_unix := family_unix s;
     stream_unix := stream_unix s; peer_addr_unix := peer_addr_unix s;
     dgram_unix := dgram_unix s; inherited := inherited s; udp := udp s;
     family_v6 := family_v6 s; ipv6_v6only := ipv6_v6only s |}.

(** ** Event counters and epoll instances *)

Record EpollEntry := MkEpollEntry {
  ee_fd : Z;
  ee_events : Z;
  ee_data : Z;
  ee_wake : Z;
}.

Record EpollInner := MkEpoll {
  entries : gmap Z EpollEntry;
  cancel : Z;
  self_event_fd : option Z;
}.

Record EventFdInner := MkEventFd {
  counter : Z;
  e_notify : Z;
  e_nonblock : bool;
}.

(** ** Open files (src/sys/file.rs, [FilePos]) *)

Record FilePos := MkFilePos {
  inner : handle;
  pos : Z;
  fpath : option path;
  is_dir : bool;
  dir_cache : option bytes;
}.

Definition FilePos_with_path (f : handle) (p : path) : FilePos :=
  MkFilePos f 0 (Some p) false None.

(** ** Resources *)

Inductive Resource :=
  | RStdin (r : PipeRead)
  | RStdout (w : PipeWrite)
  | RStderr (w : PipeWrite)
  | RFile (l : Z)
  | RPipeRead (r : PipeRead)
  | RPipeWrite (w : PipeWrite)
  | RSocket (l : Z)
  | REpoll (e : EpollInner)
  | REventFd (e : EventFdInner).

(** ** The shared objects *)

Inductive notification :=
  | NotifyWaiters (n : Z)
  | NotifyOne (n : Z).

#[export] Instance notification_eq_dec : EqDecision notification.
Proof. solve_decision. Defined.

Record heap := MkHeap {
  next_loc : Z;
  pipes : gmap Z pipe;
  files : gmap Z FilePos;
  socks : gmap Z SocketInner;
  wakes : list notification;
}.

Definition heap_empty : heap := MkHeap 0 ∅ ∅ ∅ [].

(** [Arc::new(Notify::new())]. *)
Definition new_notify (h : heap) : Z * heap :=
  (next_loc h, MkHeap (next_loc h + 1) (pipes h) (files h) (socks h) (wakes h)).

Definition new_pipe_cell (h : heap) (p : pipe) : Z * heap :=
  (next_loc h, MkHeap (next_loc h + 1) (<[next_loc h := p]> (pipes h)) (files h) (socks h) (wakes h)).

Definition new_file (h : heap) (f : FilePos) : Z * heap :=
  (next_loc h, MkHeap (next_loc h + 1) (pipes h) (<[next_loc h := f]> (files h)) (socks h) (wakes h)).

Definition new_sock (h : heap) (s : SocketInner) : Z * heap :=
  (next_loc h, MkHeap (next_loc h + 1) (pipes h) (files h) (<[next_loc h := s]> (socks h)) (wakes h)).

Definition set_pipe (h : heap) (l : Z) (p : pipe) : heap :=
  MkHeap (next_loc h) (<[l := p]> (pipes h)) (files h) (socks h) (wakes h).

Definition set_file (h : heap) (l : Z) (f : FilePos) : heap :=
  MkHeap (next_loc h) (pipes h) (<[l := f]> (files h)) (socks h) (wakes h).

Definition set_sock (h : heap) (l : Z) (s : SocketInner) : heap :=
  MkHeap (next_loc h) (pipes h) (files h) (<[l := s]> (socks h)) (wakes h).

(** [notify.notify_waiters()]. *)
Definition notify_waiters (h : heap) (n : Z) : heap :=
  MkHeap (next_loc h) (pipes h) (files h) (socks h) (wakes h ++ [NotifyWaiters n]).

(** [notify.notify_one()]. *)
Definition notify_one (h : heap) (n : Z) : heap :=
  MkHeap (next_loc h) (pipes h) (files h) (socks h) (wakes h ++ [NotifyOne n]).

(** Was one of the [Notify]s [ns] fired ([notify_waiters]) on the way from [h]
    to [h']? A task parked on [ns] is resumed exactly then. *)
Definition fired (ns : list Z) (h h' : heap) : bool :=
  existsb (λ n, bool_decide (NotifyWaiters n ∈ drop (length (wakes h)) (wakes h'))) ns.

(** The object behind a location. A resource of the table always refers to
    an object that exists; the default is never read. *)
Definition pipe_at (h : heap) (l : Z) : pipe := default (MkPipe [] false false) (pipes h !! l).
Definition file_at (h : heap) (l : Z) : FilePos := default (MkFilePos 0 0 None false None) (files h !! l).
Definition sock_at (h : heap) (l : Z) : SocketInner :=
  default (SocketInner_new 0 0 SkStream false) (socks h !! l).

Definition make_pipe (h : heap) : PipeRead * PipeWrite * heap :=
  let '(l, h) := new_pipe_cell h (MkPipe [] false false) in
  let '(notify_rd, h) := new_notify h in
  let '(notify_wr, h) := new_notify h in
  (MkPipeRead l notify_rd, MkPipeWrite l notify_wr, h).

(** ** The table *)

Record FdTable := MkFdTable {
  table : gmap Z Resource;
  next_fd : Z;
  cloexec : gset Z;
}.

Definition empty : FdTable := MkFdTable ∅ 3 ∅.

Definition with_buffered_stdio (h : heap) : FdTable * heap :=
  let '(rd, wr_out, h) := make_pipe h in
  let '(_, wr_err, h) := make_pipe h in
  (MkFdTable (<[STDIN := RStdin rd]> (<[STDOUT := RStdout wr_out]> {[STDERR := RStderr wr_err]}))
     3 ∅, h).

Definition insert (t : FdTable) (r : Resource) : Z * FdTable :=
  let fd := next_fd t in
  (fd, MkFdTable (<[fd := r]> (table t)) (as_u32 (next_fd t + 1)) (cloexec t)).

Definition insert_at (t : FdTable) (fd : Z) (r : Resource) : result Z * FdTable :=
  if bool_decide (is_Some (table t !! fd)) then (Err (- EBADF), t)
  else
    let n := if next_fd t <=? fd then as_u32 (fd + 1) else next_fd t in
    (Ok fd, MkFdTable (<[fd := r]> (table t)) n (cloexec t)).

(** The loop [while self.table.contains_key(&fd) { fd = fd.saturating_add(1) }];
    [None] when [fuel] iterations do not end it. *)
Fixpoint probe (fuel : nat) (m : gmap Z Resource) (fd : Z) : option Z :=
  if bool_decide (is_Some (m !! fd)) then
    match fuel with
    | O => None
    | S fuel => probe fuel m (saturating_add_u32 fd 1)
    end
  else Some fd.

(** [None] stands for a call that never returns: [size] iterations are enough
    for every loop that ends ([probe_complete]). *)
Definition insert_at_least (t : FdTable) (min : Z) (r : Resource) : option (Z * FdTable) :=
  fd ← probe (size (table t)) (table t) min;
  let n := if next_fd t <=? fd then as_u32 (fd + 1) else next_fd t in
  Some (fd, MkFdTable (<[fd := r]> (table t)) n (cloexec t)).

Definition set_cloexec (t : FdTable) (fd : Z) (want : bool) : FdTable :=
  MkFdTable (table t) (next_fd t)
    (if want then {[fd]} ∪ cloexec t else cloexec t ∖ {[fd]}).

Definition get_cloexec (t : FdTable) (fd : Z) : bool := bool_decide (fd ∈ cloexec t).

Definition get (t : FdTable) (fd : Z) : result Resource :=
  result_of_option (- EBADF) (table t !! fd).

(** Write through [get_mut]. *)
Definition put (t : FdTable) (fd : Z) (r : Resource) : FdTable :=
  MkFdTable (<[fd := r]> (table t)) (next_fd t) (cloexec t).

Definition close (t : FdTable) (fd : Z) : result unit * FdTable :=
  if bool_decide (is_Some (table t !! fd))
  then (Ok tt, MkFdTable (delete fd (table t)) (next_fd t) (cloexec t ∖ {[fd]}))
  else (Err (- EBADF), t).

Definition contains (t : FdTable) (fd : Z) : bool := bool_decide (is_Some (table t !! fd)).

(** ** The search for a free descriptor *)

Lemma probe_sound fuel m fd x :
  fd ≤ U32_MAX → probe fuel m fd = Some x →
  m !! x = None ∧ fd ≤ x ≤ U32_MAX ∧ ∀ y, fd ≤ y < x → is_Some (m !! y).
Proof.
  revert fd. induction fuel as [|fuel IH]; intros fd Hfd; simpl; case_bool_decide as Hb.
  1: done.
  2: { intros Hp. destruct (IH (saturating_add_u32 fd 1)) as (? & ? & Hall);
         [unfold saturating_add_u32; lia|done|].
       destruct (decide (fd = U32_MAX)) as [->|Hne].
       - unfold saturating_add_u32 in *. replace (Z.min (U32_MAX + 1) U32_MAX) with U32_MAX in * by lia.
         split_and!; try done; try lia.
       - unfold saturating_add_u32 in *. replace (Z.min (fd + 1) U32_MAX) with (fd + 1) in * by lia.
         split_and!; try done; try lia. intros y Hy.
         destruct (decide (y = fd)) as [->|]; [done|]. apply Hall. lia. }
  all: intros [= <-]; split_and!; [by apply eq_None_not_Some|lia|lia|intros; lia].
Qed.

Lemma probe_None fuel m fd :
  fd ≤ U32_MAX → probe fuel m fd = None →
  ∀ y, fd ≤ y ≤ Z.min (fd + Z.of_nat fuel) U32_MAX → is_Some (m !! y).
Proof.
  revert fd. induction fuel as [|fuel IH]; intros fd Hfd; simpl; case_bool_decide as Hb; try done.
  - intros _ y Hy. replace y with fd by lia. done.
  - intros Hp y Hy. destruct (decide (y = fd)) as [->|]; [done|].
    apply (IH (saturating_add_u32 fd 1)); [unfold saturating_add_u32; lia|done|].
    unfold saturating_add_u32. lia.
Qed.

(** [n + 1] consecutive bound descriptors need a table of that size. *)
Lemma consecutive_size (m : gmap Z Resource) fd (n : nat) :
  (∀ y, fd ≤ y ≤ fd + Z.of_nat n → is_Some (m !! y)) → (n < size m)%nat.
Proof.
  intros Hall. rewrite <- size_dom.
  assert (list_to_set (seqZ fd (Z.of_nat n + 1)) ⊆ dom m) as Hsub.
  { intros y Hy. apply elem_of_list_to_set, elem_of_seqZ in Hy.
    apply elem_of_dom, Hall. lia. }
  apply subseteq_size in Hsub. rewrite size_list_to_set in Hsub by apply NoDup_seqZ.
  rewrite length_seqZ in Hsub. lia.
Qed.

(** The loop ends, within [size m] steps, exactly when a descriptor is free. *)
Lemma probe_complete m fd x :
  fd ≤ x ≤ U32_MAX → m !! x = None → ∃ y, probe (size m) m fd = Some y.
Proof.
  intros Hx Hnone. destruct (probe (size m) m fd) as [y|] eqn:E; [by exists y|].
  exfalso. assert (fd ≤ U32_MAX) as Hfd by lia. pose proof (probe_None _ _ _ Hfd E) as Hall.
  destruct (decide (x ≤ fd + Z.of_nat (size m))).
  - destruct (Hall x) as [? ?]; [lia|]. congruence.
  - assert (size m < size m)%nat; [|lia]. apply (consecutive_size _ fd). intros y Hy.
    apply Hall. lia.
Qed.

Lemma probe_diverges m fd fuel :
  fd ≤ U32_MAX → (∀ y, fd ≤ y ≤ U32_MAX → is_Some (m !! y)) → probe fuel m fd = None.
Proof.
  intros Hfd Hall. destruct (probe fuel m fd) as [x|] eqn:E; [|done].
  apply probe_sound in E as (Hn & Hx & _); [|done].
  destruct (Hall x); [lia|congruence].
Qed.

(** ** The invariant: every bound descriptor is below [next_fd] *)

Definition fdt_wf (t : FdTable) : Prop :=
  3 ≤ next_fd t ≤ U32_MAX ∧ ∀ fd, is_Some (table t !! fd) → 0 ≤ fd < next_fd t.

Lemma empty_wf : fdt_wf empty.
Proof. split; [unfold U32_MAX; simpl; lia|]. intros fd [? Hfd]. simpl in Hfd. by rewrite lookup_empty in Hfd. Qed.

Lemma stdio_wf h : fdt_wf (with_buffered_stdio h).1.
Proof.
  split; [unfold U32_MAX; simpl; lia|]. intros fd [? Hfd]. simpl in *.
  unfold STDIN, STDOUT, STDERR in Hfd.
  rewrite !lookup_insert_Some, lookup_singleton_Some in Hfd.
  destruct Hfd as [[<- _]|[_ [[<- _]|[_ [<- _]]]]]; lia.
Qed.

Lemma as_u32_small x : 0 ≤ x ≤ U32_MAX → as_u32 x = x.
Proof. intros. apply wrapu_id. unfold is_u, U32_MAX in *. lia. Qed.

Lemma insert_wf t r : fdt_wf t → next_fd t < U32_MAX → fdt_wf (insert t r).2.
Proof.
  intros [Hn Ht] Hlt. simpl. unfold fdt_wf. simpl. rewrite as_u32_small by lia.
  split; [lia|]. intros fd. rewrite lookup_insert_is_Some'.
  intros [<-|Hfd%Ht]; lia.
Qed.

Lemma bind_at_wf t fd r :
  fdt_wf t → 0 ≤ fd < U32_MAX →
  fdt_wf (MkFdTable (<[fd := r]> (table t))
            (if next_fd t <=? fd then as_u32 (fd + 1) else next_fd t) (cloexec t)).
Proof.
  intros [Hn Ht] Hfd. unfold fdt_wf. simpl.
  destruct (next_fd t <=? fd) eqn:E; to_prop; rewrite ?as_u32_small by lia.
  all: split; [lia|]; intros fd'; rewrite lookup_insert_is_Some'; intros [<-|Hfd'%Ht]; lia.
Qed.

Lemma insert_at_wf t fd r x t' :
  fdt_wf t → 0 ≤ fd < U32_MAX → insert_at t fd r = (x, t') → fdt_wf t'.
Proof.
  intros Ht Hfd. unfold insert_at. case_bool_decide; intros [= <- <-]; [done|].
  by apply bind_at_wf.
Qed.

Lemma insert_at_least_wf t min r fd t' :
  fdt_wf t → 0 ≤ min ≤ U32_MAX → insert_at_least t min r = Some (fd, t') → fd < U32_MAX →
  fdt_wf t'.
Proof.
  intros Ht Hmin. unfold insert_at_least. intros (fd' & Hp & [= -> <-])%bind_Some Hlt.
  apply probe_sound in Hp as (_ & ? & _); [|lia]. apply bind_at_wf; [done|lia].
Qed.

Lemma close_wf t fd x t' : fdt_wf t → close t fd = (x, t') → fdt_wf t'.
Proof.
  intros [Hn Ht]. unfold close. case_bool_decide; intros [= <- <-]; [|done].
  split; [done|]. simpl. intros fd' [r Hr]. apply lookup_delete_Some in Hr as [_ Hr]. eauto.
Qed.

Lemma put_wf t fd r : fdt_wf t → is_Some (table t !! fd) → fdt_wf (put t fd r).
Proof.
  intros [Hn Ht] Hfd. split; [done|]. simpl. intros fd'. rewrite lookup_insert_is_Some'.
  intros [<-|?]; eauto.
Qed.

Lemma set_cloexec_wf t fd b : fdt_wf t → fdt_wf (set_cloexec t fd b).
Proof. done. Qed.

Lemma insert_unbound t r : fdt_wf t → table t !! (insert t r).1 = None.
Proof.
  intros [_ Ht]. simpl. destruct (table t !! next_fd t) eqn:E; [|done].
  destruct (Ht (next_fd t)); [by eexists|lia].
Qed.

#[export] Hint Resolve empty_wf stdio_wf insert_wf insert_at_wf insert_at_least_wf close_wf
  put_wf set_cloexec_wf : libos.

(** The operations on a table, below the last descriptor number. *)
Inductive fdt_step : FdTable → FdTable → Prop :=
  | fs_insert t r : next_fd t < U32_MAX → fdt_step t (insert t r).2
  | fs_insert_at t fd r x t' :
      0 ≤ fd < U32_MAX → insert_at t fd r = (x, t') → fdt_step t t'
  | fs_insert_at_least t min r fd t' :
      0 ≤ min ≤ U32_MAX → insert_at_least t min r = Some (fd, t') → fd < U32_MAX →
      fdt_step t t'
  | fs_close t fd x t' : close t fd = (x, t') → fdt_step t t'
  | fs_put t fd r : is_Some (table t !! fd) → fdt_step t (put t fd r)
  | fs_cloexec t fd b : fdt_step t (set_cloexec t fd b).

Lemma fdt_step_wf t t' : fdt_step t t' → fdt_wf t → fdt_wf t'.
Proof. destruct 1; eauto with libos. Qed.

Lemma fdt_reachable_wf h t : rtc fdt_step (with_buffered_stdio h).1 t → fdt_wf t.
Proof.
  intros Hs. pose proof (stdio_wf h) as Hw. revert Hw.
  induction Hs; eauto using fdt_step_wf.
Qed.

(** Nothing but [close] (and a write through [get_mut]) changes what a bound
    descriptor stands for. *)
Lemma insert_frame t r fd' :
  fdt_wf t → is_Some (table t !! fd') → table (insert t r).2 !! fd' = table t !! fd'.
Proof.
  intros Hw Hfd'. simpl. apply lookup_insert_ne. intros <-.
  pose proof (insert_unbound t r Hw) as Hn. simpl in Hn. rewrite Hn in Hfd'. by destruct Hfd'.
Qed.

(** ** Pipes as queues *)

Inductive pipe_op := OpRead (n : nat) | OpWrite (bs : bytes) | OpShutdown.

(** The bytes an operation delivers, the bytes it accepts, the pipe after. *)
Definition pipe_do (p : pipe) (op : pipe_op) : bytes * bytes * pipe :=
  match op with
  | OpRead n => match poll_read p n with (Ready bs, p') => (bs, [], p') | (Pending, p') => ([], [], p') end
  | OpWrite bs => match poll_write p bs with (_, p') => ([], bs, p') end
  | OpShutdown => match poll_shutdown p with (_, p') => ([], [], p') end
  end.

Fixpoint pipe_run (p : pipe) (ops : list pipe_op) : bytes * bytes * pipe :=
  match ops with
  | [] => ([], [], p)
  | op :: ops =>
    let '(r, w, p) := pipe_do p op in
    let '(rs, ws, p) := pipe_run p ops in (r ++ rs, w ++ ws, p)
  end.

Lemma pipe_do_fifo p op r w p' :
  pipe_do p op = (r, w, p') → r ++ buf p' = buf p ++ w.
Proof.
  destruct op as [n|bs|]; simpl.
  - unfold poll_read. destruct (closed p && _); [intros; simplify_eq/=; by rewrite app_nil_r|].
    case_bool_decide; intros; simplify_eq/=; rewrite app_nil_r; [done|apply take_drop].
  - intros. simplify_eq/=. done.
  - intros. simplify_eq/=. by rewrite app_nil_r.
Qed.

Lemma pipe_run_fifo ops p r w p' :
  pipe_run p ops = (r, w, p') → r ++ buf p' = buf p ++ w.
Proof.
  revert p r w. induction ops as [|op ops IH]; intros p r w; cbn [pipe_run].
  { intros [= <- <- <-]. by rewrite app_nil_r. }
  destruct (pipe_do p op) as [[r1 w1] p1] eqn:E1. destruct (pipe_run p1 ops) as [[r2 w2] p2] eqn:E2.
  intros [= <- <- <-]. apply pipe_do_fifo in E1. apply IH in E2.
  rewrite <- app_assoc, E2, !app_assoc. by rewrite E1.
Qed.

Lemma poll_read_cases p n :
  ((poll_read p n).1 = Pending ↔ buf p = [] ∧ closed p = false) ∧
  ((0 < n)%nat → (poll_read p n).1 = Ready [] ↔ buf p = [] ∧ closed p = true).
Proof.
  unfold poll_read. destruct (buf p) as [|b bs] eqn:Eb, (closed p) eqn:Ec; simpl; split;
    try (intros; split; [intros ?; simplify_eq|intros [? ?]; simplify_eq]; done).
  all: destruct n; [lia|]; simpl; intros _; split; [done|by intros [? ?]].
Qed.

(** ** Theorems *)

(** C9: whatever sequence of operations built the table, as long as none of
    them used the last number [u32::MAX] (after which the counter wraps,
    [insert_after_max_replaces_stdin]), [insert] hands out a descriptor that is
    not in use, never below 3, and disturbs no other descriptor. *)
Theorem insert_fresh h t r :
  rtc fdt_step (with_buffered_stdio h).1 t →
  table t !! (insert t r).1 = None ∧ 3 ≤ (insert t r).1 ∧
  get (insert t r).2 (insert t r).1 = Ok r ∧
  ∀ fd, is_Some (table t !! fd) → get (insert t r).2 fd = get t fd.
Proof.
  intros Hs. pose proof (fdt_reachable_wf _ _ Hs) as Hw. split_and!.
  - by apply insert_unbound.
  - apply Hw.
  - unfold get. simpl. by rewrite lookup_insert_eq.
  - intros fd Hfd. unfold get. by rewrite insert_frame.
Qed.

(** C29: [insert_at_least] returns, with the lowest unused descriptor from
    [min] up, exactly when there is one; with none left its loop never ends. *)
Theorem insert_at_least_lowest t min r :
  0 ≤ min ≤ U32_MAX →
  ((∃ x, min ≤ x ≤ U32_MAX ∧ table t !! x = None) →
    ∃ fd t', insert_at_least t min r = Some (fd, t') ∧
      min ≤ fd ∧ table t !! fd = None ∧ (∀ y, min ≤ y < fd → is_Some (table t !! y)) ∧
      table t' = <[fd := r]> (table t) ∧ cloexec t' = cloexec t) ∧
  ((∀ x, min ≤ x ≤ U32_MAX → is_Some (table t !! x)) →
    ∀ fuel, probe fuel (table t) min = None).
Proof.
  intros Hmin. split.
  - intros (x & Hx & Hn). destruct (probe_complete _ _ _ Hx Hn) as [fd Hp].
    unfold insert_at_least. rewrite Hp. simpl. eexists _, _. split; [done|].
    apply probe_sound in Hp as (? & ? & ?); [|lia]. split_and!; try done. lia.
  - intros Hall fuel. apply probe_diverges; [lia|done].
Qed.

(** A pipe is a first-in first-out byte queue: over any interleaving of
    reads, writes and a shutdown, the bytes delivered followed by the bytes
    still buffered are the bytes that were buffered followed by the bytes
    written. A reader waits exactly on an empty open pipe and sees the end of
    file exactly on an empty closed one. *)
Theorem pipe_fifo p ops r w p' :
  pipe_run p ops = (r, w, p') →
  r ++ buf p' = buf p ++ w ∧
  (∀ n, (poll_read p' n).1 = Pending ↔ buf p' = [] ∧ closed p' = false) ∧
  (∀ n, (0 < n)%nat → (poll_read p' n).1 = Ready [] ↔ buf p' = [] ∧ closed p' = true).
Proof.
  intros Hr. split; [by eapply pipe_run_fifo|]. split; intros n; apply poll_read_cases.
Qed.

(** ** Witnesses *)

Lemma insert_fresh_witness :
  let t := (with_buffered_stdio heap_empty).1 in
  table t !! (insert t (RFile 9)).1 = None ∧ 3 ≤ (insert t (RFile 9)).1 ∧
  get (insert t (RFile 9)).2 (insert t (RFile 9)).1 = Ok (RFile 9) ∧
  ∀ fd, is_Some (table t !! fd) → get (insert t (RFile 9)).2 fd = get t fd.
Proof. intros t. apply (insert_fresh heap_empty t (RFile 9)). apply rtc_refl. Defined.

Lemma insert_at_least_lowest_witness :
  ∃ fd t', insert_at_least (with_buffered_stdio heap_empty).1 1 (RFile 9) = Some (fd, t') ∧ fd = 3.
Proof.
  destruct (insert_at_least_lowest (with_buffered_stdio heap_empty).1 1 (RFile 9))
    as [[fd [t' (H1 & H2 & H3 & H4 & _)]] _]; [vm_compute; split; discriminate| |].
  - exists 3. split; [vm_compute; split; discriminate|vm_compute; reflexivity].
  - exists fd, t'. split; [exact H1|]. revert H1. vm_compute. intros [= <- _]. reflexivity.
Defined.

Lemma pipe_fifo_witness :
  let ops := [OpWrite [1; 2; 3]; OpRead 2; OpWrite [4]; OpRead 5; OpShutdown] in
  [1; 2; 3; 4] ++ [] = [] ++ [1; 2; 3; 4] ∧
  (poll_read (MkPipe [] true false) 1).1 = Ready [].
Proof.
  intros ops. destruct (pipe_fifo (MkPipe [] false false) ops [1; 2; 3; 4] [1; 2; 3; 4]
    (MkPipe [] true false)) as (H1 & _ & H3); [vm_compute; reflexivity|].
  split; [exact H1|]. apply H3; [lia|done].
Defined.

(** Binding the very last descriptor wraps [next_fd] to zero, and the next
    [insert] replaces standard input. *)
Lemma insert_after_max_replaces_stdin :
  let t := (with_buffered_stdio heap_empty).1 in
  let t' := (insert_at t U32_MAX (RFile 9)).2 in
  (insert_at t U32_MAX (RFile 9)).1 = Ok U32_MAX ∧ (insert t' (RFile 8)).1 = STDIN ∧
  is_Some (table t' !! STDIN).
Proof. vm_compute. split_and!; [done|done|by eexists]. Qed.

(** The two ends of a pipe have different [Notify] objects. *)
Lemma make_pipe_notify_differ h rd wr h' :
  make_pipe h = (rd, wr, h') → pr_pipe rd = pw_pipe wr ∧ pr_notify rd ≠ pw_notify wr.
Proof. unfold make_pipe. simpl. intros [= <- <- <-]. simpl. split; [done|lia]. Qed.
