(* ===== verification/Sock.v ===== *)
(** * Socket objects (src/fd.rs, [SocketInner]; src/sys/udp.rs, binding)

    Field updates of [SocketInner], its constructors, and the creation of the
    host socket behind a UDP descriptor. *)

From S2P Require Import Prelude Word Errno Text Host Udp Net Fd.

(** ** Updates *)

Definition sock_set_bound (s : SocketInner) (x : option SockAddr) : SocketInner :=
  {| kind := kind s; s_nonblock := s_nonblock s; bound := x; listen_backlog := listen_backlog s;
     so_reuseaddr := so_reuseaddr s; so_keepalive := so_keepalive s; tcp_nodelay := tcp_nodelay s;
     listener := listener s; stream := stream s; peer_addr := peer_addr s;
     last_error := last_error s; shutdown_flags := shutdown_flags s; is_acceptor := is_acceptor s;
     notify_read := notify_read s; notify_write := notify_write s; peek_buf := peek_buf s;
     unix := unix s; family_unix := family_unix s; stream_unix := stream_unix s;
     peer_addr_unix := peer_addr_unix s; dgram_unix := dgram_unix s; inherited := inherited s;
     udp := udp s; family_v6 := family_v6 s; ipv6_v6only := ipv6_v6only s |}.

Definition sock_set_listen_backlog (s : SocketInner) (x : option Z) : SocketInner :=
  {| kind := kind s; s_nonblock := s_nonblock s; bound := bound s; listen_backlog := x;
     so_reuseaddr := so_reuseaddr s; so_keepalive := so_keepalive s; tcp_nodelay := tcp_nodelay s;
     listener := listener s; stream := stream s; peer_addr := peer_addr s;
     last_error := last_error s; shutdown_flags := shutdown_flags s; is_acceptor := is_acceptor s;
     notify_read := notify_read s; notify_write := notify_write s; peek_buf := peek_buf s;
     unix := unix s; family_unix := family_unix s; stream_unix := stream_unix s;
     peer_addr_unix := peer_addr_unix s; dgram_unix := dgram_unix s; inherited := inherited s;
     udp := udp s; family_v6 := family_v6 s; ipv6_v6only := ipv6_v6only s |}.

Definition sock_set_so_reuseaddr (s : SocketInner) (x : bool) : SocketInner :=
  {| kind := kind s; s_nonblock := s_nonblock s; bound := bound s;
     listen_backlog := listen_backlog s; so_reuseaddr := x; so_keepalive := so_keepalive s;
     tcp_nodelay := tcp_nodelay s; listener := listener s; stream := stream s;
     peer_addr := peer_addr s; last_error := last_error s; shutdown_flags := shutdown_flags s;
     is_acceptor := is_acceptor s; notify_read := notify_read s; notify_write := notify_write s;
     peek_buf := peek_buf s; unix := unix s; family_unix := family_unix s;
     stream_unix := stream_unix s; peer_addr_unix := peer_addr_unix s; dgram_unix := dgram_unix s;
     inherited := inherited s; udp := udp s; family_v6 := family_v6 s;
     ipv6_v6only := ipv6_v6only s |}.

Definition sock_set_so_keepalive (s : SocketInner) (x : bool) : SocketInner :=
  {| kind := kind s; s_nonblock := s_nonblock s; bound := bound s;
     listen_backlog := listen_backlog s; so_reuseaddr := so_reuseaddr s; so_keepalive := x;
     tcp_nodelay := tcp_nodelay s; listener := listener s; stream := stream s;
     peer_addr := peer_addr s; last_error := last_error s; shutdown_flags := shutdown_flags s;
     is_acceptor := is_acceptor s; notify_read := notify_read s; notify_write := notify_write s;
     peek_buf := peek_buf s; unix := unix s; family_unix := family_unix s;
     stream_unix := stream_unix s; peer_addr_unix := peer_addr_unix s; dgram_unix := dgram_unix s;
     inherited := inherited s; udp := udp s; family_v6 := family_v6 s;
     ipv6_v6only := ipv6_v6only s |}.

Definition sock_set_tcp_nodelay (s : SocketInner) (x : bool) : SocketInner :=
  {| kind := kind s; s_nonblock := s_nonblock s; bound := bound s;
     listen_backlog := listen_backlog s; so_reuseaddr := so_reuseaddr s;
     so_keepalive := so_keepalive s; tcp_nodelay := x; listener := listener s; stream := stream s;
     peer_addr := peer_addr s; last_error := last_error s; shutdown_flags := shutdown_flags s;
     is_acceptor := is_acceptor s; notify_read := notify_read s; notify_write := notify_write s;
     peek_buf := peek_buf s; unix := unix s; family_unix := family_unix s;
     stream_unix := stream_unix s; peer_addr_unix := peer_addr_unix s; dgram_unix := dgram_unix s;
     inherited := inherited s; udp := udp s; family_v6 := family_v6 s;
     ipv6_v6only := ipv6_v6only s |}.

Definition sock_set_listener (s : SocketInner) (x : option handle) : SocketInner :=
  {| kind := kind s; s_nonblock := s_nonblock s; bound := bound s;
     listen_backlog := listen_backlog s; so_reuseaddr := so_reuseaddr s;
     so_keepalive := so_keepalive s; tcp_nodelay := tcp_nodelay s; listener := x;
     stream := stream s; peer_addr := peer_addr s; last_error := last_error s;
     shutdown_flags := shutdown_flags s; is_acceptor := is_acceptor s;
     notify_read := notify_read s; notify_write := notify_write s; peek_buf := peek_buf s;
     unix := unix s; family_unix := family_unix s; stream_unix := stream_unix s;
     peer_addr_unix := peer_addr_unix s; dgram_unix := dgram_unix s; inherited := inherited s;
     udp := udp s; family_v6 := family_v6 s; ipv6_v6only := ipv6_v6only s |}.

Definition sock_set_stream (s : SocketInner) (x : option handle) : SocketInner :=
  {| kind := kind s; s_nonblock := s_nonblock s; bound := bound s;
     listen_backlog := listen_backlog s; so_reuseaddr := so_reuseaddr s;
     so_keepalive := so_keepalive s; tcp_nodelay := tcp_nodelay s; listener := listener s;
     stream := x; peer_addr := peer_addr s; last_error := last_error s;
     shutdown_flags := shutdown_flags s; is_acceptor := is_acceptor s;
     notify_read := notify_read s; notify_write := notify_write s; peek_buf := peek_buf s;
     unix := unix s; family_unix := family_unix s; stream_unix := stream_unix s;
     peer_addr_unix := peer_addr_unix s; dgram_unix := dgram_unix s; inherited := inherited s;
     udp := udp s; family_v6 := family_v6 s; ipv6_v6only := ipv6_v6only s |}.

Definition sock_set_peer_addr (s : SocketInner) (x : option SocketAddr) : SocketInner :=
  {| kind := kind s; s_nonblock := s_nonblock s; bound := bound s;
     listen_backlog := listen_backlog s; so_reuseaddr := so_reuseaddr s;
     so_keepalive := so_keepalive s; tcp_nodelay := tcp_nodelay s; listener := listener s;
     stream := stream s; peer_addr := x; last_error := last_error s;
     shutdown_flags := shutdown_flags s; is_acceptor := is_acceptor s;
     notify_read := notify_read s; notify_write := notify_write s; peek_buf := peek_buf s;
     unix := unix s; family_unix := family_unix s; stream_unix := stream_unix s;
     peer_addr_unix := peer_addr_unix s; dgram_unix := dgram_unix s; inherited := inherited s;
     udp := udp s; family_v6 := family_v6 s; ipv6_v6only := ipv6_v6only s |}.

Definition sock_set_last_error (s : SocketInner) (x : Z) : SocketInner :=
  {| kind := kind s; s_nonblock := s_nonblock s; bound := bound s;
     listen_backlog := listen_backlog s; so_reuseaddr := so_reuseaddr s;
     so_keepalive := so_keepalive s; tcp_nodelay := tcp_nodelay s; listener := listener s;
     stream := stream s; peer_addr := peer_addr s; last_error := x;
     shutdown_flags := shutdown_flags s; is_acceptor := is_acceptor s;
     notify_read := notify_read s; notify_write := notify_write s; peek_buf := peek_buf s;
     unix := unix s; family_unix := family_unix s; stream_unix := stream_unix s;
     peer_addr_unix := peer_addr_unix s; dgram_unix := dgram_unix s; inherited := inherited s;
     udp := udp s; family_v6 := family_v6 s; ipv6_v6only := ipv6_v6only s |}.

Definition sock_set_shutdown_flags (s : SocketInner) (x : Z) : SocketInner :=
  {| kind := kind s; s_nonblock := s_nonblock s; bound := bound s;
     listen_backlog := listen_backlog s; so_reuseaddr := so_reuseaddr s;
     so_keepalive := so_keepalive s; tcp_nodelay := tcp_nodelay s; listener := listener s;
     stream := stream s; peer_addr := peer_addr s; last_error := last_error s; shutdown_flags := x;
     is_acceptor := is_acceptor s; notify_read := notify_read s; notify_write := notify_write s;
     peek_buf := peek_buf s; unix := unix s; family_unix := family_unix s;
     stream_unix := stream_unix s; peer_addr_unix := peer_addr_unix s; dgram_unix := dgram_unix s;
     inherited := inherited s; udp := udp s; family_v6 := family_v6 s;
     ipv6_v6only := ipv6_v6only s |}.

Definition sock_set_is_acceptor (s : SocketInner) (x : bool) : SocketInner :=
  {| kind := kind s; s_nonblock := s_nonblock s; bound := bound s;
     listen_backlog := listen_backlog s; so_reuseaddr := so_reuseaddr s;
     so_keepalive := so_keepalive s; tcp_nodelay := tcp_nodelay s; listener := listener s;
     stream := stream s; peer_addr := peer_addr s; last_error := last_error s;
     shutdown_flags := shutdown_flags s; is_acceptor := x; notify_read := notify_read s;
     notify_write := notify_write s; peek_buf := peek_buf s; unix := unix s;
     family_unix := family_unix s; stream_unix := stream_unix s;
     peer_addr_unix := peer_addr_unix s; dgram_unix := dgram_unix s; inherited := inherited s;
     udp := udp s; family_v6 := family_v6 s; ipv6_v6only := ipv6_v6only s |}.

Definition sock_set_peek_buf (s : SocketInner) (x : bytes) : SocketInner :=
  {| kind := kind s; s_nonblock := s_nonblock s; bound := bound s;
     listen_backlog := listen_backlog s; so_reuseaddr := so_reuseaddr s;
     so_keepalive := so_keepalive s; tcp_nodelay := tcp_nodelay s; listener := listener s;
     stream := stream s; peer_addr := peer_addr s; last_error := last_error s;
     shutdown_flags := shutdown_flags s; is_acceptor := is_acceptor s;
     notify_read := notify_read s; notify_write := notify_write s; peek_buf := x; unix := unix s;
     family_unix := family_unix s; stream_unix := stream_unix s;
     peer_addr_unix := peer_addr_unix s; dgram_unix := dgram_unix s; inherited := inherited s;
     udp := udp s; family_v6 := family_v6 s; ipv6_v6only := ipv6_v6only s |}.

Definition sock_set_unix (s : SocketInner) (x : option UnixSockInner) : SocketInner :=
  {| kind := kind s; s_nonblock := s_nonblock s; bound := bound s;
     listen_backlog := listen_backlog s; so_reuseaddr := so_reuseaddr s;
     so_keepalive := so_keepalive s; tcp_nodelay := tcp_nodelay s; listener := listener s;
     stream := stream s; peer_addr := peer_addr s; last_error := last_error s;
     shutdown_flags := shutdown_flags s; is_acceptor := is_acceptor s;
     notify_read := notify_read s; notify_write := notify_write s; peek_buf := peek_buf s;
     unix := x; family_unix := family_unix s; stream_unix := stream_unix s;
     peer_addr_unix := peer_addr_unix s; dgram_unix := dgram_unix s; inherited := inherited s;
     udp := udp s; family_v6 := family_v6 s; ipv6_v6only := ipv6_v6only s |}.

Definition sock_set_stream_unix (s : SocketInner) (x : option handle) : SocketInner :=
  {| kind := kind s; s_nonblock := s_nonblock s; bound := bound s;
     listen_backlog := listen_backlog s; so_reuseaddr := so_reuseaddr s;
     so_keepalive := so_keepalive s; tcp_nodelay := tcp_nodelay s; listener := listener s;
     stream := stream s; peer_addr := peer_addr s; last_error := last_error s;
     shutdown_flags := shutdown_flags s; is_acceptor := is_acceptor s;
     notify_read := notify_read s; notify_write := notify_write s; peek_buf := peek_buf s;
     unix := unix s; family_unix := family_unix s; stream_unix := x;
     peer_addr_unix := peer_addr_unix s; dgram_unix := dgram_unix s; inherited := inherited s;
     udp := udp s; family_v6 := family_v6 s; ipv6_v6only := ipv6_v6only s |}.

Definition sock_set_peer_addr_unix (s : SocketInner) (x : option bytes) : SocketInner :=
  {| kind := kind s; s_nonblock := s_nonblock s; bound := bound s;
     listen_backlog := listen_backlog s; so_reuseaddr := so_reuseaddr s;
     so_keepalive := so_keepalive s; tcp_nodelay := tcp_nodelay s; listener := listener s;
     stream := stream s; peer_addr := peer_addr s; last_error := last_error s;
     shutdown_flags := shutdown_flags s; is_acceptor := is_acceptor s;
     notify_read := notify_read s; notify_write := notify_write s; peek_buf := peek_buf s;
     unix := unix s; family_unix := family_unix s; stream_unix := stream_unix s;
     peer_addr_unix := x; dgram_unix := dgram_unix s; inherited := inherited s; udp := udp s;
     family_v6 := family_v6 s; ipv6_v6only := ipv6_v6only s |}.

Definition sock_set_inherited (s : SocketInner)  : SocketInner :=
  {| kind := kind s; s_nonblock := s_nonblock s; bound := bound s;
     listen_backlog := listen_backlog s; so_reuseaddr := so_reuseaddr s;
     so_keepalive := so_keepalive s; tcp_nodelay := tcp_nodelay s; listener := listener s;
     stream := stream s; peer_addr := peer_addr s; last_error := last_error s;
     shutdown_flags := shutdown_flags s; is_acceptor := is_acceptor s;
     notify_read := notify_read s; notify_write := notify_write s; peek_buf := peek_buf s;
     unix := unix s; family_unix := family_unix s; stream_unix := stream_unix s;
     peer_addr_unix := peer_addr_unix s; dgram_unix := dgram_unix s; inherited := true;
     udp := udp s; family_v6 := family_v6 s; ipv6_v6only := ipv6_v6only s |}.

Definition sock_set_udp (s : SocketInner) (x : option UdpSocketState) : SocketInner :=
  {| kind := kind s; s_nonblock := s_nonblock s; bound := bound s;
     listen_backlog := listen_backlog s; so_reuseaddr := so_reuseaddr s;
     so_keepalive := so_keepalive s; tcp_nodelay := tcp_nodelay s; listener := listener s;
     stream := stream s; peer_addr := peer_addr s; last_error := last_error s;
     shutdown_flags := shutdown_flags s; is_acceptor := is_acceptor s;
     notify_read := notify_read s; notify_write := notify_write s; peek_buf := peek_buf s;
     unix := unix s; family_unix := family_unix s; stream_unix := stream_unix s;
     peer_addr_unix := peer_addr_unix s; dgram_unix := dgram_unix s; inherited := inherited s;
     udp := x; family_v6 := family_v6 s; ipv6_v6only := ipv6_v6only s |}.

Definition sock_set_v6 (s : SocketInner)  : SocketInner :=
  {| kind := kind s; s_nonblock := s_nonblock s; bound := bound s;
     listen_backlog := listen_backlog s; so_reuseaddr := so_reuseaddr s;
     so_keepalive := so_keepalive s; tcp_nodelay := tcp_nodelay s; listener := listener s;
     stream := stream s; peer_addr := peer_addr s; last_error := last_error s;
     shutdown_flags := shutdown_flags s; is_acceptor := is_acceptor s;
     notify_read := notify_read s; notify_write := notify_write s; peek_buf := peek_buf s;
     unix := unix s; family_unix := family_unix s; stream_unix := stream_unix s;
     peer_addr_unix := peer_addr_unix s; dgram_unix := dgram_unix s; inherited := inherited s;
     udp := udp s; family_v6 := true; ipv6_v6only := true |}.

Definition sock_make_unix (s : SocketInner)  : SocketInner :=
  {| kind := kind s; s_nonblock := s_nonblock s; bound := bound s;
     listen_backlog := listen_backlog s; so_reuseaddr := so_reuseaddr s;
     so_keepalive := so_keepalive s; tcp_nodelay := tcp_nodelay s; listener := listener s;
     stream := stream s; peer_addr := peer_addr s; last_error := last_error s;
     shutdown_flags := shutdown_flags s; is_acceptor := is_acceptor s;
     notify_read := notify_read s; notify_write := notify_write s; peek_buf := peek_buf s;
     unix := Some UnixSockInner_new; family_unix := true; stream_unix := stream_unix s;
     peer_addr_unix := peer_addr_unix s; dgram_unix := dgram_unix s; inherited := inherited s;
     udp := udp s; family_v6 := family_v6 s; ipv6_v6only := ipv6_v6only s |}.

(** ** Constructors

    Each is given its two fresh [Notify] locations. *)

Definition new_unix (nr nw : Z) (kd : SocketKind) (nonblock : bool) : SocketInner :=
  sock_make_unix (SocketInner_new nr nw kd nonblock).

Definition from_accepted (nr nw : Z) (st : handle) (kd : SocketKind) (nonblock : bool) : SocketInner :=
  sock_set_stream (SocketInner_new nr nw kd nonblock) (Some st).

Definition from_tcp_listener (nr nw : Z) (l : handle) (b : SockAddr) (reuse nonblock : bool)
    : SocketInner :=
  let s := SocketInner_new nr nw SkStream nonblock in
  let s := sock_set_listener s (Some l) in
  let s := sock_set_bound s (Some b) in
  let s := sock_set_listen_backlog s (Some 0) in
  let s := sock_set_so_reuseaddr s reuse in
  sock_set_is_acceptor s true.

Definition from_unix_listener (nr nw : Z) (l : handle) (p : bytes) (nonblock : bool) : SocketInner :=
  let s := new_unix nr nw SkStream nonblock in
  let s := sock_set_bound s (Some (SockUnix p)) in
  let s := sock_set_listen_backlog s (Some 0) in
  let s := sock_set_is_acceptor s true in
  match unix s with
  | Some u => sock_set_unix s (Some (MkUnix (Some p) (Some l) (ux_stream u) (ux_dgram u) (ux_peer_addr u)))
  | None => s
  end.

(** ** UDP sockets *)

Definition udp_set_socket (u : UdpSocketState) (sock : handle) (addr : SocketAddr) : UdpSocketState :=
  {| u_socket := Some sock; recv_queue := recv_queue u; u_notify_read := u_notify_read u;
     u_notify_write := u_notify_write u; u_bound_addr := Some addr;
     u_peer_addr := u_peer_addr u; u_family := u_family u;
     u_ipv6_v6only := u_ipv6_v6only u; u_so_reuseaddr := u_so_reuseaddr u;
     u_shutdown_flags := u_shutdown_flags u; pump_handle := pump_handle u;
     pump_cancel := pump_cancel u |}.

Definition net_err {A} (f : NetErrorKind → Z) (r : net A) : result A :=
  match r with NetOk a => Ok a | NetErr k => Err (f k) end.

Definition udp_socket_errno (k : NetErrorKind) : Z :=
  match k with NetPermissionDenied => - EACCES | _ => - EIO end.

Definition udp_bind_errno (k : NetErrorKind) : Z :=
  match k with
  | NetAddrInUse => - EADDRINUSE
  | NetAddrNotAvailable => - EADDRNOTAVAIL
  | NetPermissionDenied => - EACCES
  | _ => - EIO
  end.

Definition to_eio (_ : NetErrorKind) : Z := - EIO.

Section ensure_bound.
Context {W : Type} `{Net W}.

(** Create and bind the host socket: options first, then [bind]. *)
Definition udp_materialize (u : UdpSocketState) (w : W) (requested : SocketAddr)
    : result (handle * SocketAddr) * W :=
  let '(raw, w) := udp_socket w (u_family u) in
  match net_err udp_socket_errno raw with
  | Err e => (Err e, w)
  | Ok raw =>
    let w := if u_so_reuseaddr u then udp_set_reuse_address w raw true else w in
    let w := match u_family u with
             | V6 => udp_set_only_v6 w raw (u_ipv6_v6only u)
             | V4 => w
             end in
    let '(r, w) := udp_bind w raw requested in
    match net_err udp_bind_errno r with
    | Err e => (Err e, w)
    | Ok _ =>
      let '(r, w) := udp_set_nonblocking w raw in
      match net_err to_eio r with
      | Err e => (Err e, w)
      | Ok _ =>
        let '(r, w) := udp_from_std w raw in
        match net_err to_eio r with
        | Err e => (Err e, w)
        | Ok sock =>
          match net_err to_eio (udp_local_addr w sock) with
          | Err e => (Err e, w)
          | Ok addr => (Ok (sock, addr), w)
          end
        end
      end
    end
  end.

(** [request_pump_cancel]: the flag, and a wake-up for the readers. [Drop]
    only sets the flag. *)
Definition request_pump_cancel (u : UdpSocketState) (h : heap) : UdpSocketState * heap :=
  (set_pump_cancel u, notify_waiters h (u_notify_read u)).

Definition drop_udp (u : UdpSocketState) : UdpSocketState := set_pump_cancel u.

Definition ensure_bound (u : UdpSocketState) (w : W) (requested : SocketAddr)
    : result SocketAddr * UdpSocketState * W :=
  match u_socket u with
  | Some sock => (net_err to_eio (udp_local_addr w sock), u, w)
  | None =>
    match udp_materialize u w requested with
    | (Ok (sock, addr), w) => (Ok addr, udp_set_socket u sock addr, w)
    | (Err e, w) => (Err e, u, w)
    end
  end.

Definition local_addr (u : UdpSocketState) : option SocketAddr := u_bound_addr u.

(** A successful bind leaves a host socket and the address it reported. *)
Lemma ensure_bound_Ok u w req a u' w' :
  ensure_bound u w req = (Ok a, u', w') → u_socket u = None →
  is_Some (u_socket u') ∧ local_addr u' = Some a.
Proof.
  unfold ensure_bound. intros Hb Hu. rewrite Hu in Hb.
  destruct (udp_materialize u w req) as [[[sock addr]|e] w1]; simplify_eq. by split; eexists.
Qed.

End ensure_bound.
