(* ===== verification/Futex.v ===== *)
(** * The futex table (src/sys/futex.rs, the table)

    [FutexTable] maps a guest address to the number of threads parked on it
    and the [Notify] they wait on. This file has the operations on the table;
    [SysFutex] has the syscall around them. Fresh [Notify] locations come from
    a counter. *)

From S2P Require Import Prelude Word Errno.

Record FutexEntry := MkFutexEntry {
  f_notify : Z;
  waiters : Z;
}.

Abbreviation FutexTable := (gmap Z FutexEntry).

(** Wire form of one address. *)
Record FutexAddrSnapshot := MkFutexAddr {
  fa_addr : Z;
  fa_waiters : Z;
}.

#[global] Instance FutexAddrSnapshot_eq_dec : EqDecision FutexAddrSnapshot.
Proof. solve_decision. Defined.

(** Phase 2 of [futex_wait]: count the caller in and clone its [Notify];
    [fresh] is the location of the [Notify] created for a new entry. The count
    is a [usize]. *)
Definition register (t : FutexTable) (fresh uaddr : Z) : Z * FutexTable :=
  let entry := default (MkFutexEntry fresh 0) (t !! uaddr) in
  (f_notify entry, <[uaddr := MkFutexEntry (f_notify entry) (as_usize (waiters entry + 1))]> t).

Definition release_waiter (t : FutexTable) (uaddr : Z) : FutexTable :=
  match t !! uaddr with
  | None => t
  | Some entry =>
    let w := saturating_sub_usize (waiters entry) 1 in
    if w =? 0 then delete uaddr t else <[uaddr := MkFutexEntry (f_notify entry) w]> t
  end.

(** The locked part of [futex_wake]: how many to wake and on which [Notify];
    [None] when nobody waits on the address. *)
Definition wake (t : FutexTable) (uaddr val : Z) : option (Z * Z) * FutexTable :=
  match t !! uaddr with
  | None => (None, t)
  | Some entry =>
    let to_wake := Z.min (Z.max val 0) (waiters entry) in
    let w := waiters entry - to_wake in
    (Some (f_notify entry, to_wake),
     if w =? 0 then delete uaddr t else <[uaddr := MkFutexEntry (f_notify entry) w]> t)
  end.

(** Counts stay within a [usize]. *)
Definition counts_ok (t : FutexTable) : Prop := map_Forall (λ _ e, is_u 64 (waiters e)) t.

Lemma register_counts t fresh uaddr : counts_ok t → counts_ok (register t fresh uaddr).2.
Proof.
  intros Ht. apply map_Forall_insert_2; [|done]. by apply (wrapu_range 64).
Qed.

Lemma release_counts t uaddr : counts_ok t → counts_ok (release_waiter t uaddr).
Proof.
  intros Ht. unfold release_waiter. destruct (t !! uaddr) as [e|] eqn:E; [|done]. apply Ht in E.
  case_if; [by apply map_Forall_delete|]. apply map_Forall_insert_2; [|done].
  unfold saturating_sub_usize, is_u in *. simpl. lia.
Qed.

Lemma wake_counts_ok t uaddr val :
  counts_ok t →
  match wake t uaddr val with
  | (Some (_, n), t') => 0 ≤ n ≤ Z.max val 0 ∧ counts_ok t'
  | (None, t') => t' = t
  end.
Proof.
  intros Ht. unfold wake. destruct (t !! uaddr) as [e|] eqn:E; [|done]. apply Ht in E.
  unfold is_u in E. split; [lia|]. case_if; [by apply map_Forall_delete|]. apply map_Forall_insert_2; [|done].
  unfold is_u. simpl. lia.
Qed.

(** [FutexTable::snapshot] over the entries in the order the hash map yields
    them. *)
Definition snapshot_iter (it : list (Z * FutexEntry)) : list FutexAddrSnapshot :=
  sort_by (λ a b, fa_addr a <=? fa_addr b)
    ((λ e, MkFutexAddr e.1 (as_u32 (waiters e.2))) <$> it).

Definition snapshot (t : FutexTable) : list FutexAddrSnapshot := snapshot_iter (map_to_list t).

(** Clears the table and inserts the snapshot's entries in order, each with a
    fresh [Notify]. *)
Fixpoint rebuild_insert (fresh : Z) (snap : list FutexAddrSnapshot) (t : FutexTable) : FutexTable :=
  match snap with
  | [] => t
  | f :: snap => rebuild_insert (fresh + 1) snap (<[fa_addr f := MkFutexEntry fresh (fa_waiters f)]> t)
  end.

Definition rebuild_from_snapshot (fresh : Z) (snap : list FutexAddrSnapshot) : FutexTable :=
  rebuild_insert fresh snap ∅.

(** ** Invariant: an entry is kept only while somebody is counted on it *)

(** Threads counted at an address; zero when the table has no entry. *)
Definition waiting (t : FutexTable) (uaddr : Z) : Z :=
  match t !! uaddr with Some e => waiters e | None => 0 end.

Definition table_wf (t : FutexTable) : Prop := ∀ a e, t !! a = Some e → 0 < waiters e.

(** A count that would pass [usize::MAX] is left out. *)
Inductive table_step : FutexTable → FutexTable → Prop :=
  | ts_register t fresh uaddr : waiting t uaddr < U64_MAX → table_step t (register t fresh uaddr).2
  | ts_release t uaddr : table_step t (release_waiter t uaddr)
  | ts_wake t uaddr val : table_step t (wake t uaddr val).2.

Lemma register_wf t fresh uaddr : waiting t uaddr < U64_MAX → table_wf t → table_wf (register t fresh uaddr).2.
Proof.
  unfold waiting, U64_MAX. intros Hm Ht a e. simpl. rewrite lookup_insert_Some. intros [[<- <-]|[_ He]]; [|eauto].
  simpl. destruct (t !! uaddr) as [e'|] eqn:E; simpl; [|done]. apply Ht in E.
  unfold as_usize. rewrite wrapu_id; [lia|]. unfold is_u. lia.
Qed.

Lemma dec_entry_wf t uaddr n w :
  table_wf t → 0 ≤ w →
  table_wf (if w =? 0 then delete uaddr t else <[uaddr := MkFutexEntry n w]> t).
Proof.
  intros Ht Hw a e. destruct (w =? 0) eqn:E; to_prop.
  - rewrite lookup_delete_Some. intros [_ ?]. eauto.
  - rewrite lookup_insert_Some. intros [[<- <-]|[_ ?]]; [simpl; lia|eauto].
Qed.

Lemma release_wf t uaddr : table_wf t → table_wf (release_waiter t uaddr).
Proof.
  intros Ht. unfold release_waiter. destruct (t !! uaddr) as [e|]; [|done].
  apply dec_entry_wf; [done|]. unfold saturating_sub_usize. lia.
Qed.

Lemma wake_wf t uaddr val : table_wf t → table_wf (wake t uaddr val).2.
Proof.
  intros Ht. unfold wake. destruct (t !! uaddr) as [e|] eqn:E; [|done].
  apply dec_entry_wf; [done|]. apply Ht in E. lia.
Qed.

#[export] Hint Resolve register_wf release_wf wake_wf : libos.

Lemma table_reachable_wf t : rtc table_step ∅ t → table_wf t.
Proof.
  intros Hs. assert (table_wf ∅) as H0 by (intros ? ? H; by rewrite lookup_empty in H).
  revert H0. induction Hs as [|? ? ? Hst]; [done|]. destruct Hst; eauto with libos.
Qed.

(** ** Counting *)

Lemma waiting_dec t uaddr n w a :
  waiting (if w =? 0 then delete uaddr t else <[uaddr := MkFutexEntry n w]> t) a =
  if bool_decide (a = uaddr) then w else waiting t a.
Proof.
  unfold waiting. destruct (w =? 0) eqn:E; to_prop; case_bool_decide as Ha.
  - subst. by rewrite lookup_delete_eq.
  - by rewrite lookup_delete_ne.
  - subst. by rewrite lookup_insert_eq.
  - by rewrite lookup_insert_ne.
Qed.

Lemma wake_waiting t uaddr val a :
  let n := match (wake t uaddr val).1 with Some (_, n) => n | None => 0 end in
  waiting (wake t uaddr val).2 a =
  (if bool_decide (a = uaddr) then waiting t uaddr - n else waiting t a).
Proof.
  unfold wake. destruct (t !! uaddr) as [e|] eqn:E; simpl.
  - rewrite waiting_dec. unfold waiting at 2. by rewrite E.
  - case_bool_decide; [|done]. subst. unfold waiting. rewrite E. lia.
Qed.

(** ** Snapshots *)

Lemma snapshot_iter_perm it t :
  it ≡ₚ map_to_list t → snapshot_iter it = snapshot t.
Proof.
  intros Hp. unfold snapshot, snapshot_iter.
  apply (sort_by_key_unique fa_addr); [by rewrite Hp|].
  rewrite <- list_fmap_compose. unfold compose. simpl. rewrite Hp. apply NoDup_fst_map_to_list.
Qed.

Lemma rebuild_insert_lookup fresh snap t a :
  NoDup (fa_addr <$> snap) →
  waiters <$> rebuild_insert fresh snap t !! a =
  match list_find (λ f, fa_addr f = a) snap with
  | Some (_, f) => Some (fa_waiters f)
  | None => waiters <$> t !! a
  end.
Proof.
  revert fresh t. induction snap as [|f snap IH]; intros fresh t Hnd; [done|].
  apply NoDup_cons in Hnd as [Hn Hnd]. cbn [rebuild_insert]. rewrite IH by done. cbn [list_find].
  destruct (decide (fa_addr f = a)) as [<-|Hne].
  - destruct (list_find _ snap) as [[i g]|] eqn:E.
    + apply list_find_Some in E as (Hg & Hga & _). destruct Hn. rewrite <- Hga.
      apply list_elem_of_fmap_2. by eapply list_elem_of_lookup_2.
    + by rewrite lookup_insert_eq.
  - destruct (list_find _ snap) as [[i g]|]; [done|]. by rewrite lookup_insert_ne.
Qed.

Lemma snapshot_elem t f :
  f ∈ snapshot t ↔ ∃ e, t !! fa_addr f = Some e ∧ fa_waiters f = as_u32 (waiters e).
Proof.
  unfold snapshot, snapshot_iter. rewrite sort_by_perm, list_elem_of_fmap. split.
  - intros ([a e] & -> & He). apply elem_of_map_to_list in He. by exists e.
  - intros (e & He & Hw). exists (fa_addr f, e). split; [by destruct f; simpl in *; subst|].
    by apply elem_of_map_to_list.
Qed.

Lemma snapshot_nodup t : NoDup (fa_addr <$> snapshot t).
Proof.
  unfold snapshot, snapshot_iter. rewrite sort_by_perm, <- list_fmap_compose.
  unfold compose. simpl. apply NoDup_fst_map_to_list.
Qed.

Lemma rebuild_lookup fresh t a :
  waiters <$> rebuild_from_snapshot fresh (snapshot t) !! a = (λ e, as_u32 (waiters e)) <$> t !! a.
Proof.
  unfold rebuild_from_snapshot. rewrite rebuild_insert_lookup by apply snapshot_nodup.
  destruct (list_find _ _) as [[i f]|] eqn:E.
  - apply list_find_Some in E as (Hf & <- & _). apply list_elem_of_lookup_2, snapshot_elem in Hf.
    destruct Hf as (e & He & ->). by rewrite He.
  - rewrite lookup_empty. simpl. destruct (t !! a) as [e|] eqn:He; [|done].
    apply list_find_None in E. rewrite Forall_forall in E.
    destruct (E (MkFutexAddr a (as_u32 (waiters e)))); [|done].
    apply snapshot_elem. by exists e.
Qed.

Lemma rebuild_counts fresh t : counts_ok (rebuild_from_snapshot fresh (snapshot t)).
Proof.
  intros a e He. pose proof (rebuild_lookup fresh t a) as Hr. rewrite He in Hr. simpl in Hr.
  destruct (t !! a) as [e'|]; simplify_eq/=. rewrite Hr.
  pose proof (wrapu_range 32 (waiters e') ltac:(done)). unfold is_u, as_u32 in *. lia.
Qed.

Lemma rebuild_waiting fresh t a :
  (∀ a e, t !! a = Some e → is_u 32 (waiters e)) →
  waiters <$> rebuild_from_snapshot fresh (snapshot t) !! a = waiters <$> t !! a.
Proof.
  intros Hw. rewrite rebuild_lookup. destruct (t !! a) as [e|] eqn:He; [|done].
  simpl. f_equal. apply wrapu_id. eauto.
Qed.

(** A table rebuilt from a snapshot has that snapshot. *)
Lemma snapshot_rebuild fresh t : snapshot (rebuild_from_snapshot fresh (snapshot t)) = snapshot t.
Proof.
  apply (sort_by_key_unique fa_addr); [|rewrite <- list_fmap_compose; apply NoDup_fst_map_to_list].
  assert (∀ t, NoDup ((λ e, MkFutexAddr e.1 (as_u32 (waiters e.2))) <$> map_to_list t)) as Hnd.
  { intros t'. apply (NoDup_fmap_1 fa_addr). rewrite <- list_fmap_compose. apply NoDup_fst_map_to_list. }
  apply NoDup_Permutation; [apply Hnd..|]. intros f.
  assert (∀ t, f ∈ (λ e, MkFutexAddr e.1 (as_u32 (waiters e.2))) <$> map_to_list t ↔ f ∈ snapshot t) as Hs.
  { intros t'. unfold snapshot, snapshot_iter. by rewrite sort_by_perm. }
  rewrite !Hs, !snapshot_elem. pose proof (rebuild_lookup fresh t (fa_addr f)) as Hl.
  destruct (rebuild_from_snapshot fresh (snapshot t) !! _) as [e'|], (t !! _) as [e|]; simplify_eq/=.
  - assert (as_u32 (waiters e') = as_u32 (waiters e)) as He'
      by (rewrite Hl; apply wrapu_id, wrapu_range; lia).
    split; intros (? & [= <-] & ->); eexists; (split; [done|]); by rewrite He'.
  - split; by intros (? & ? & _).
Qed.

(** ** Theorems *)

(** [FUTEX_WAKE] wakes as many as were asked for and are there: over any
    reachable table it returns [min(max(val, 0), waiting)], takes exactly that
    many off the address, leaves every other address alone and drops an entry
    nobody waits on. *)
Theorem wake_counts t uaddr val :
  rtc table_step ∅ t →
  let n := match (wake t uaddr val).1 with Some (_, n) => n | None => 0 end in
  n = Z.min (Z.max val 0) (waiting t uaddr) ∧
  (∀ a, waiting (wake t uaddr val).2 a =
     if bool_decide (a = uaddr) then waiting t uaddr - n else waiting t a) ∧
  (∀ a e, (wake t uaddr val).2 !! a = Some e → 0 < waiters e).
Proof.
  intros Ht n. split_and!.
  - subst n. unfold wake, waiting. destruct (t !! uaddr) as [e|] eqn:E; simpl; [done|].
    symmetry. apply Z.min_r. lia.
  - intros a. apply wake_waiting.
  - by apply wake_wf, table_reachable_wf.
Qed.

(** The futex snapshot does not depend on the iteration order of the hash
    map, lists the addresses in increasing order, and rebuilding the table
    from it restores every waiter count. *)
Theorem futex_snapshot_roundtrip t it fresh :
  (∀ a e, t !! a = Some e → is_u 32 (waiters e)) → it ≡ₚ map_to_list t →
  snapshot_iter it = snapshot t ∧
  StronglySorted (λ a b, (fa_addr a <=? fa_addr b) = true) (snapshot_iter it) ∧
  ∀ a, waiting (rebuild_from_snapshot fresh (snapshot_iter it)) a = waiting t a.
Proof.
  intros Hw Hp. rewrite (snapshot_iter_perm it t Hp). split_and!; [done| |].
  - apply sort_by_sorted; lia.
  - intros a. pose proof (rebuild_waiting fresh t a Hw) as Hr. unfold waiting.
    destruct (rebuild_from_snapshot fresh (snapshot t) !! a), (t !! a); by simplify_eq/=.
Qed.

(** ** Witnesses *)

Definition two_waiters : FutexTable := (register (register ∅ 7 4096).2 8 4096).2.

Lemma two_waiters_reachable : rtc table_step ∅ two_waiters.
Proof.
  eapply rtc_l; [apply (ts_register ∅ 7 4096); by vm_compute|].
  eapply rtc_l; [apply (ts_register _ 8 4096); by vm_compute|]. apply rtc_refl.
Qed.

Lemma wake_counts_witness :
  let n := match (wake two_waiters 4096 1).1 with Some (_, n) => n | None => 0 end in
  n = 1 ∧
  (∀ a, waiting (wake two_waiters 4096 1).2 a =
     if bool_decide (a = 4096) then waiting two_waiters 4096 - n else waiting two_waiters a) ∧
  (∀ a e, (wake two_waiters 4096 1).2 !! a = Some e → 0 < waiters e).
Proof. apply (wake_counts two_waiters 4096 1), two_waiters_reachable. Defined.

Lemma futex_snapshot_roundtrip_witness :
  snapshot_iter (map_to_list two_waiters) = snapshot two_waiters ∧
  StronglySorted (λ a b, (fa_addr a <=? fa_addr b) = true) (snapshot_iter (map_to_list two_waiters)) ∧
  ∀ a, waiting (rebuild_from_snapshot 0 (snapshot_iter (map_to_list two_waiters))) a =
       waiting two_waiters a.
Proof.
  apply (futex_snapshot_roundtrip two_waiters (map_to_list two_waiters) 0).
  - apply (bool_decide_unpack (map_Forall (λ _ e, is_u 32 (waiters e)) two_waiters)).
    vm_compute. exact I.
  - reflexivity.
Defined.

(** A woken thread is counted off twice: by [futex_wake] and by its own
    [release_waiter]. With two threads parked, waking one of them prunes the
    entry and the next wake finds nobody, though one thread is still parked. *)
Lemma wake_one_of_two_forgets_other :
  let '(r1, t1) := wake two_waiters 4096 1 in
  let t2 := release_waiter t1 4096 in
  r1 = Some (7, 1) ∧ (wake t2 4096 1).1 = None.
Proof. vm_compute. done. Qed.
