(* ===== verification/Resolver.v ===== *)
(** * The resolver's state (src/sys/resolver.rs, the types)

    What the threads of a process share about name resolution: the backend,
    the cache of answers, the denylist and the two limits. Looking a name up
    on the network is the business of the [hickory] library behind the
    [ResolverBackend] trait; it is the interface [Dns] here. *)

From S2P Require Import Prelude Word Text Parse Host.

Definition is_ipv4 (ip : IpAddr) : bool := match ip with IpV4 _ => true | IpV6 _ => false end.
Definition is_ipv6 (ip : IpAddr) : bool := negb (is_ipv4 ip).

Definition DEFAULT_TTL_MS : Z := 60000.
Definition DEFAULT_TIMEOUT_MS : Z := 5000.
Definition MAX_CACHE_ENTRIES : Z := 1024.

(** An [Instant] is the monotonic clock in nanoseconds, counted from the start
    of the kernel. *)
Record CacheEntry := MkCacheEntry {
  addrs : list IpAddr;
  inserted : Z;
}.

Record ResolverConfig := MkResolverConfig {
  cfg_denylist : list IpAddr;
  cfg_ttl_ms : Z;
  cfg_timeout_ms : Z;
}.

(** [ResolverConfig::from_env]: tokens of the denylist that are no addresses
    are skipped, numbers that do not parse leave the default. *)
Definition deny_tokens (v : bytes) : list IpAddr :=
  omap (λ tok, let tok := trim tok in if bool_decide (tok = []) then None else parse_ip tok) (split_on 44 v).

Definition env_var (cfg : ResolverConfig) (kv : bytes * bytes) : ResolverConfig :=
  let '(k, v) := kv in
  if bool_decide (k = str "EDGE_RESOLVER_DENY") then
    MkResolverConfig (cfg_denylist cfg ++ deny_tokens v) (cfg_ttl_ms cfg) (cfg_timeout_ms cfg)
  else if bool_decide (k = str "EDGE_RESOLVER_CACHE_TTL_MS") then
    MkResolverConfig (cfg_denylist cfg) (default (cfg_ttl_ms cfg) (parse_u64 v)) (cfg_timeout_ms cfg)
  else if bool_decide (k = str "EDGE_RESOLVER_TIMEOUT_MS") then
    MkResolverConfig (cfg_denylist cfg) (cfg_ttl_ms cfg) (default (cfg_timeout_ms cfg) (parse_u64 v))
  else cfg.

Definition from_env (env : list (bytes * bytes)) : ResolverConfig :=
  foldl env_var (MkResolverConfig [] DEFAULT_TTL_MS DEFAULT_TIMEOUT_MS) env.

Record ResolverState := MkResolver {
  backend : option handle;
  cache : gmap bytes CacheEntry;
  denylist : list IpAddr;
  ttl_ms : Z;
  timeout_ms : Z;
}.

Definition ResolverState_default : ResolverState :=
  MkResolver None ∅ [] DEFAULT_TTL_MS DEFAULT_TIMEOUT_MS.

Definition set_backend (s : ResolverState) (b : handle) : ResolverState :=
  MkResolver (Some b) (cache s) (denylist s) (ttl_ms s) (timeout_ms s).
Definition set_cache (s : ResolverState) c : ResolverState :=
  MkResolver (backend s) c (denylist s) (ttl_ms s) (timeout_ms s).

(** The part of [Kernel::attach_resolver_config] that is about this state. *)
Definition set_config (s : ResolverState) (cfg : ResolverConfig) : ResolverState :=
  MkResolver (backend s) (cache s) (cfg_denylist cfg) (cfg_ttl_ms cfg) (cfg_timeout_ms cfg).

(** ** The backend *)

(** [tokio::time::timeout(d, lookup).await]. *)
Inductive lookup_result :=
  | Elapsed
  | LookupFailed
  | Looked (l : list IpAddr).

Class Dns (W : Type) := {
  (** [TokioResolverBackend::new]; [None] when one of its [expect]s fails. *)
  backend_new : W → option handle * W;
  (** A lookup under a timeout in milliseconds. *)
  lookup_ip : W → handle → Z → bytes → lookup_result * W;
}.

Class DnsLaws (W : Type) `{Dns W} : Prop := {
  lookup_ip_ok w b t name l w' : lookup_ip w b t name = (Looked l, w') → Forall ip_ok l;
}.

(** A backend that knows no name. *)
Definition no_dns W : Dns W :=
  {| backend_new w := (Some 0, w); lookup_ip w _ _ _ := (LookupFailed, w) |}.

Lemma no_dns_laws W : @DnsLaws W (no_dns W).
Proof. by split. Qed.

(** ** The cache *)

(** [iter().min_by_key(|(_, v)| v.inserted)]: the first of the oldest entries
    in the order of iteration. *)
Fixpoint oldest (l : list (bytes * CacheEntry)) : option (bytes * CacheEntry) :=
  match l with
  | [] => None
  | e :: l =>
    match oldest l with
    | None => Some e
    | Some e' => if inserted e.2 <=? inserted e'.2 then Some e else Some e'
    end
  end.

Section cache.
Context (order : gmap bytes CacheEntry → list (bytes * CacheEntry)).

Definition evict (c : gmap bytes CacheEntry) : gmap bytes CacheEntry :=
  if MAX_CACHE_ENTRIES <=? Z.of_nat (size c) then
    match oldest (order c) with
    | Some (key, _) => delete key c
    | None => c
    end
  else c.

Definition cache_insert (s : ResolverState) (node : bytes) (l : list IpAddr) (instant : Z)
    : ResolverState :=
  set_cache s (<[node := MkCacheEntry l instant]> (evict (cache s))).

(** ** Facts *)

Lemma oldest_elem l e : oldest l = Some e → e ∈ l.
Proof.
  revert e. induction l as [|x l IH]; intros e; simpl; [done|].
  destruct (oldest l) as [e'|]; [|intros [= <-]; left].
  case_match; intros [= <-]; [left|right; by apply IH].
Qed.

Lemma oldest_min l e x : oldest l = Some e → x ∈ l → inserted e.2 ≤ inserted x.2.
Proof.
  revert e. induction l as [|y l IH]; intros e; simpl; [done|].
  destruct (oldest l) as [e'|] eqn:E.
  - intros He [->|Hx]%elem_of_cons; [|specialize (IH _ eq_refl Hx)];
      destruct (_ <=? _) eqn:El; to_prop; injection He as <-; lia.
  - intros [= <-] [->|Hx]%elem_of_cons; [done|]. destruct l as [|z l]; [by apply elem_of_nil in Hx|].
    simpl in E. destruct (oldest l); [by case_match|done].
Qed.

Lemma oldest_None l : oldest l = None → l = [].
Proof. destruct l as [|x l]; [done|]; simpl. destruct (oldest l); [by case_match|done]. Qed.

Context (order_ok : ∀ c, order c ≡ₚ map_to_list c).

Lemma evict_subseteq c : evict c ⊆ c.
Proof.
  unfold evict. case_match; [|done]. destruct (oldest _) as [[key ?]|]; [|done]. apply delete_subseteq.
Qed.

(** A full cache loses one entry, and none of those that stay is older. *)
Lemma evict_full c :
  MAX_CACHE_ENTRIES ≤ Z.of_nat (size c) →
  ∃ key e, c !! key = Some e ∧ evict c = delete key c ∧
    ∀ key' e', c !! key' = Some e' → inserted e ≤ inserted e'.
Proof using order_ok.
  intros Hs. unfold evict. rewrite (proj2 (Z.leb_le _ _)) by done.
  destruct (oldest (order c)) as [[key e]|] eqn:E.
  - exists key, e. pose proof (oldest_elem _ _ E) as He. rewrite order_ok in He.
    split; [by apply elem_of_map_to_list|]. split; [done|]. intros key' e' H'.
    apply (oldest_min _ _ (key', e') E). rewrite order_ok. by apply elem_of_map_to_list.
  - apply oldest_None in E. pose proof (order_ok c) as Hp. rewrite E in Hp.
    apply Permutation_nil_l in Hp. symmetry in Hp. apply map_to_list_empty_iff in Hp. subst c.
    by rewrite map_size_empty in Hs.
Qed.

Lemma evict_size c :
  Z.of_nat (size c) ≤ MAX_CACHE_ENTRIES → Z.of_nat (size (evict c)) < MAX_CACHE_ENTRIES.
Proof using order_ok.
  intros Hs. destruct (decide (MAX_CACHE_ENTRIES ≤ Z.of_nat (size c))) as [Hf|Hf].
  - destruct (evict_full c Hf) as (key & e & He & -> & _).
    assert (size c ≠ 0)%nat by (unfold MAX_CACHE_ENTRIES in *; lia).
    rewrite map_size_delete_Some by eauto. lia.
  - unfold evict. rewrite (proj2 (Z.leb_gt _ _)) by lia. lia.
Qed.

End cache.

(** The cache respects its cap and holds well-formed answers. *)
Record resolver_ok (s : ResolverState) : Prop := {
  ro_size : Z.of_nat (size (cache s)) ≤ MAX_CACHE_ENTRIES;
  ro_addrs key e : cache s !! key = Some e → Forall ip_ok (addrs e);
}.

Lemma resolver_default_ok : resolver_ok ResolverState_default.
Proof. split; simpl; [by rewrite map_size_empty|]. intros key e. by rewrite lookup_empty. Qed.

Lemma set_backend_ok s b : resolver_ok s → resolver_ok (set_backend s b).
Proof. by intros [? ?]. Qed.

Lemma cache_insert_ok order s node l t :
  (∀ c, order c ≡ₚ map_to_list c) → resolver_ok s → Forall ip_ok l →
  resolver_ok (cache_insert order s node l t).
Proof.
  intros Ho [Hs Ha] Hl. split; simpl.
  - pose proof (evict_size order Ho _ Hs). rewrite map_size_insert. case_match; simpl; lia.
  - intros key e He. destruct (decide (key = node)) as [->|Hne].
    + rewrite lookup_insert_eq in He. by simplify_eq.
    + rewrite lookup_insert_ne in He by done. apply (Ha key). eapply lookup_weaken; [done|].
      apply evict_subseteq.
Qed.

(** ** The environment *)

Lemma deny_tokens_join os :
  Forall (λ o, length o = 4%nat ∧ bytes_ok o) os →
  deny_tokens (join_with [44] (display_ipv4 <$> os)) = IpV4 <$> os.
Proof.
  intros Hos. unfold deny_tokens. destruct (decide (os = [])) as [->|Hne]; [done|].
  rewrite split_join_with; [|by destruct os|].
  - clear Hne. induction Hos as [|o os [Hl Ho] _ IH]; [done|]. cbn.
    rewrite trim_display_ipv4 by done. rewrite bool_decide_false by (apply display_ipv4_cons; by destruct o).
    rewrite parse_display_ipv4 by done. f_equal. apply IH.
  - apply Forall_fmap. eapply Forall_impl; [exact Hos|]. intros o [_ Ho]. by apply display_ipv4_no_comma.
Qed.

(** The variables an operator sets for a configuration. *)
Definition to_env (os : list bytes) (ttl timeout : Z) : list (bytes * bytes) :=
  [(str "EDGE_RESOLVER_DENY", join_with [44] (display_ipv4 <$> os));
   (str "EDGE_RESOLVER_CACHE_TTL_MS", display_u ttl);
   (str "EDGE_RESOLVER_TIMEOUT_MS", display_u timeout)].

(** A variable of another name. *)
Definition other_var (kv : bytes * bytes) : Prop :=
  kv.1 ≠ str "EDGE_RESOLVER_DENY" ∧ kv.1 ≠ str "EDGE_RESOLVER_CACHE_TTL_MS" ∧
  kv.1 ≠ str "EDGE_RESOLVER_TIMEOUT_MS".

Lemma env_var_deny cfg v :
  env_var cfg (str "EDGE_RESOLVER_DENY", v) =
    MkResolverConfig (cfg_denylist cfg ++ deny_tokens v) (cfg_ttl_ms cfg) (cfg_timeout_ms cfg).
Proof. done. Qed.
Lemma env_var_ttl cfg v :
  env_var cfg (str "EDGE_RESOLVER_CACHE_TTL_MS", v) =
    MkResolverConfig (cfg_denylist cfg) (default (cfg_ttl_ms cfg) (parse_u64 v)) (cfg_timeout_ms cfg).
Proof. done. Qed.
Lemma env_var_timeout cfg v :
  env_var cfg (str "EDGE_RESOLVER_TIMEOUT_MS", v) =
    MkResolverConfig (cfg_denylist cfg) (cfg_ttl_ms cfg) (default (cfg_timeout_ms cfg) (parse_u64 v)).
Proof. done. Qed.

Lemma env_var_other l : ∀ cfg, Forall other_var l → foldl env_var cfg l = cfg.
Proof.
  induction l as [|[k v] l IH]; [done|]. intros cfg Hl. apply Forall_cons in Hl as [(H1 & H2 & H3) Hl].
  cbn [foldl]. unfold env_var at 2. rewrite !bool_decide_false by done. by apply IH.
Qed.

(** What the environment can make of a configuration. *)
Definition cfg_ok (cfg : ResolverConfig) : Prop :=
  Forall ip_ok (cfg_denylist cfg) ∧ is_u 64 (cfg_ttl_ms cfg) ∧ is_u 64 (cfg_timeout_ms cfg).

Lemma parse_u64_default d v : is_u 64 d → is_u 64 (default d (parse_u64 v)).
Proof. intros Hd. destruct (parse_u64 v) eqn:E; [|done]. by eapply parse_u64_range. Qed.

Lemma deny_tokens_ok v : Forall ip_ok (deny_tokens v).
Proof.
  unfold deny_tokens. induction (split_on 44 v) as [|tok l IH]; cbn; [constructor|].
  case_if; [done|]. destruct (parse_ip _) eqn:E; [|done]. constructor; [by eapply parse_ip_ok|done].
Qed.

Lemma env_vars_ok env : cfg_ok (from_env env).
Proof.
  unfold from_env. assert (cfg_ok (MkResolverConfig [] DEFAULT_TTL_MS DEFAULT_TIMEOUT_MS)) as Hc.
  { split; [constructor|]. by split. }
  revert Hc. generalize (MkResolverConfig [] DEFAULT_TTL_MS DEFAULT_TIMEOUT_MS) as cfg.
  induction env as [|[k v] env IH]; intros cfg Hc; [done|]. cbn [foldl]. apply IH. destruct Hc as (Hd & H1 & H2).
  unfold env_var. repeat case_if; split_and!; simpl; try done; try by apply parse_u64_default.
  apply Forall_app. split; [done|]. apply deny_tokens_ok.
Qed.

(** The resolver's configuration reads back from the environment: where
    the three variables hold a list of IPv4 addresses and two numbers, in any
    environment of other variables, the configuration is that denylist, that
    lifetime and that timeout. Whatever the environment holds, the denylist
    has only well-formed addresses and the numbers fit their 64 bits. *)
Theorem from_env_roundtrip os ttl timeout l1 l2 env :
  Forall (λ o, length o = 4%nat ∧ bytes_ok o) os → is_u 64 ttl → is_u 64 timeout →
  Forall other_var l1 → Forall other_var l2 →
  from_env (l1 ++ to_env os ttl timeout ++ l2) = MkResolverConfig (IpV4 <$> os) ttl timeout ∧
  Forall ip_ok (cfg_denylist (from_env env)) ∧
  is_u 64 (cfg_ttl_ms (from_env env)) ∧ is_u 64 (cfg_timeout_ms (from_env env)).
Proof.
  intros Hos Ht1 Ht2 Hl1 Hl2. split.
  - unfold from_env. rewrite !foldl_app, (env_var_other l1), (env_var_other l2) by done.
    unfold to_env. cbn [foldl]. rewrite env_var_deny, env_var_ttl, env_var_timeout.
    cbn [cfg_denylist cfg_ttl_ms cfg_timeout_ms app]. unfold parse_u64. rewrite !parse_display_u by (unfold is_u, U64_MAX in *; lia).
    by rewrite deny_tokens_join.
  - apply env_vars_ok.
Qed.

Lemma from_env_roundtrip_witness :
  let env := (str "HOME", str "/") :: to_env [[10; 0; 0; 1]; [169; 254; 169; 254]] 1000 250 in
  from_env env = MkResolverConfig [IpV4 [10; 0; 0; 1]; IpV4 [169; 254; 169; 254]] 1000 250.
Proof.
  refine (proj1 (from_env_roundtrip [[10; 0; 0; 1]; [169; 254; 169; 254]] 1000 250 [(str "HOME", str "/")] [] []
    _ _ _ _ _)).
  - repeat constructor; lia.
  - done.
  - done.
  - repeat constructor; done.
  - constructor.
Defined.
