(* ===== verification/Kernel.v ===== *)
(** * The kernel state and guest memory access (src/kernel.rs, src/mem.rs)

    [kern] is the state a syscall handler sees through [Caller]: the fields
    of [Kernel], the bytes of the linear memory it is attached to, the heap of
    shared objects its resources refer to and the host. [ProcessState] is the
    part the threads of a process share. The started-at instant is not part of
    it.

    A handler is a function from a state and its arguments to the [i64] it
    returns and the new state. Guest memory is reached only through
    [guest_slice], [guest_slice_mut] and [guest_str]. *)

From S2P Require Import Prelude Word Errno GuestMem Text Path Host Vfs Fd Futex LinearAllocator Resolver.

(** The six syscall arguments. *)
Record args := Args { a0 : Z; a1 : Z; a2 : Z; a3 : Z; a4 : Z; a5 : Z }.

Inductive MemoryKind := Owned (m : gmem) | Shared (m : gmem).

(** ** Signal dispositions (src/sys/signal.rs, the state) *)

Record SigAction := MkSigAction {
  sa_handler : Z;
  sa_flags : Z;
  sa_restorer : Z;
  sa_mask : Z;
}.

#[global] Instance SigAction_eq_dec : EqDecision SigAction.
Proof. solve_decision. Defined.

Definition SigAction_default : SigAction := MkSigAction 0 0 0 0.

Record SignalState := MkSignals {
  actions : gmap Z SigAction;
  sig_mask : Z;
  alt_stack : option bytes;
}.

Definition SignalState_new : SignalState := MkSignals ∅ 0 None.

(** ** Processes *)

Record ChildExitStatus := MkChild {
  exit_status : Z;
  exited : bool;
  child_notify : Z;
}.

Record ProcessState := MkProcess {
  next_pid : Z;
  children : gmap Z ChildExitStatus;
  child_event : Z;
  futex_table : FutexTable;
  signals_pending : list Z;
  tgid_registry : gset Z;
  ps_tgid : Z;
  resolver : ResolverState;
}.

Record kern (W : Type) := MkKern {
  k_memory : option MemoryKind;
  k_fds : FdTable;
  k_vfs : Vfs;
  k_mm : LinearAllocator;
  k_boot_monotonic_ns : Z;
  k_brk : Z;
  k_args : list bytes;
  k_env : list (bytes * bytes);
  k_rng_seed : bytes;
  k_signals : SignalState;
  k_exit_code : option Z;
  k_comm : bytes;
  k_tid : Z;
  k_tgid : Z;
  k_ps : ProcessState;
  k_cpu_ns : Z;
  k_heap : heap;
  k_host : W;
}.
Arguments MkKern {W}.
Arguments k_memory {W}. Arguments k_fds {W}. Arguments k_vfs {W}. Arguments k_mm {W}.
Arguments k_boot_monotonic_ns {W}. Arguments k_brk {W}. Arguments k_args {W}.
Arguments k_env {W}. Arguments k_rng_seed {W}. Arguments k_signals {W}.
Arguments k_exit_code {W}. Arguments k_comm {W}. Arguments k_tid {W}. Arguments k_tgid {W}.
Arguments k_ps {W}. Arguments k_cpu_ns {W}. Arguments k_heap {W}. Arguments k_host {W}.

Section kernel.
Context {W : Type}.
Implicit Types k : kern W.

(** ** Field updates *)

Definition set_memory k x : kern W :=
  MkKern x (k_fds k) (k_vfs k) (k_mm k) (k_boot_monotonic_ns k) (k_brk k) (k_args k) (k_env k)
    (k_rng_seed k) (k_signals k) (k_exit_code k) (k_comm k) (k_tid k) (k_tgid k) (k_ps k)
    (k_cpu_ns k) (k_heap k) (k_host k).
Definition set_fds k x : kern W :=
  MkKern (k_memory k) x (k_vfs k) (k_mm k) (k_boot_monotonic_ns k) (k_brk k) (k_args k) (k_env k)
    (k_rng_seed k) (k_signals k) (k_exit_code k) (k_comm k) (k_tid k) (k_tgid k) (k_ps k)
    (k_cpu_ns k) (k_heap k) (k_host k).
Definition set_vfs k x : kern W :=
  MkKern (k_memory k) (k_fds k) x (k_mm k) (k_boot_monotonic_ns k) (k_brk k) (k_args k) (k_env k)
    (k_rng_seed k) (k_signals k) (k_exit_code k) (k_comm k) (k_tid k) (k_tgid k) (k_ps k)
    (k_cpu_ns k) (k_heap k) (k_host k).
Definition set_mm k x : kern W :=
  MkKern (k_memory k) (k_fds k) (k_vfs k) x (k_boot_monotonic_ns k) (k_brk k) (k_args k) (k_env k)
    (k_rng_seed k) (k_signals k) (k_exit_code k) (k_comm k) (k_tid k) (k_tgid k) (k_ps k)
    (k_cpu_ns k) (k_heap k) (k_host k).
Definition set_signals k x : kern W :=
  MkKern (k_memory k) (k_fds k) (k_vfs k) (k_mm k) (k_boot_monotonic_ns k) (k_brk k) (k_args k)
    (k_env k) (k_rng_seed k) x (k_exit_code k) (k_comm k) (k_tid k) (k_tgid k) (k_ps k)
    (k_cpu_ns k) (k_heap k) (k_host k).
Definition set_exit_code k x : kern W :=
  MkKern (k_memory k) (k_fds k) (k_vfs k) (k_mm k) (k_boot_monotonic_ns k) (k_brk k) (k_args k)
    (k_env k) (k_rng_seed k) (k_signals k) x (k_comm k) (k_tid k) (k_tgid k) (k_ps k)
    (k_cpu_ns k) (k_heap k) (k_host k).
Definition set_comm k x : kern W :=
  MkKern (k_memory k) (k_fds k) (k_vfs k) (k_mm k) (k_boot_monotonic_ns k) (k_brk k) (k_args k)
    (k_env k) (k_rng_seed k) (k_signals k) (k_exit_code k) x (k_tid k) (k_tgid k) (k_ps k)
    (k_cpu_ns k) (k_heap k) (k_host k).
Definition set_ps k x : kern W :=
  MkKern (k_memory k) (k_fds k) (k_vfs k) (k_mm k) (k_boot_monotonic_ns k) (k_brk k) (k_args k)
    (k_env k) (k_rng_seed k) (k_signals k) (k_exit_code k) (k_comm k) (k_tid k) (k_tgid k) x
    (k_cpu_ns k) (k_heap k) (k_host k).
Definition set_heap k x : kern W :=
  MkKern (k_memory k) (k_fds k) (k_vfs k) (k_mm k) (k_boot_monotonic_ns k) (k_brk k) (k_args k)
    (k_env k) (k_rng_seed k) (k_signals k) (k_exit_code k) (k_comm k) (k_tid k) (k_tgid k) (k_ps k)
    (k_cpu_ns k) x (k_host k).
Definition set_host k x : kern W :=
  MkKern (k_memory k) (k_fds k) (k_vfs k) (k_mm k) (k_boot_monotonic_ns k) (k_brk k) (k_args k)
    (k_env k) (k_rng_seed k) (k_signals k) (k_exit_code k) (k_comm k) (k_tid k) (k_tgid k) (k_ps k)
    (k_cpu_ns k) (k_heap k) x.

(** ** Construction *)

(** [Kernel::new_inner]. The seed is 32 bytes from the operating system. *)
Definition new_inner (arguments : list bytes) (env : list (bytes * bytes)) (vfs : Vfs)
    (seed : bytes) (w : W) : kern W :=
  let '(fds, h) := with_buffered_stdio heap_empty in
  let '(ev, h) := new_notify h in
  {| k_memory := None; k_fds := fds; k_vfs := vfs; k_mm := LinearAllocator.new;
     k_boot_monotonic_ns := 0; k_brk := 0; k_args := arguments; k_env := env;
     k_rng_seed := seed; k_signals := SignalState_new; k_exit_code := None;
     k_comm := replicate 16 0; k_tid := 1; k_tgid := 1;
     k_ps := {| next_pid := 2; children := ∅; child_event := ev; futex_table := ∅;
                signals_pending := []; tgid_registry := {[1]}; ps_tgid := 1;
                resolver := ResolverState_default |};
     k_cpu_ns := 0; k_heap := h; k_host := w |}.

Definition attach_memory k (m : gmem) : kern W := set_memory k (Some (Owned m)).
Definition attach_shared_memory k (m : gmem) : kern W := set_memory k (Some (Shared m)).

(** [Kernel::new_for_child]: a thread of an existing process. Its descriptor
    table is fresh and its process state is the parent's. *)
Definition new_for_child (arguments : list bytes) (env : list (bytes * bytes)) (vfs : Vfs)
    (ps : ProcessState) (tid tgid : Z) (seed : bytes) (h : heap) (w : W) : kern W :=
  let '(fds, h) := with_buffered_stdio h in
  {| k_memory := None; k_fds := fds; k_vfs := vfs; k_mm := LinearAllocator.new;
     k_boot_monotonic_ns := 0; k_brk := 0; k_args := arguments; k_env := env;
     k_rng_seed := seed; k_signals := SignalState_new; k_exit_code := None;
     k_comm := replicate 16 0; k_tid := tid; k_tgid := tgid;
     k_ps := ps; k_cpu_ns := 0; k_heap := h; k_host := w |}.

(** ** Linear memory *)

Definition memory k : result gmem :=
  match k_memory k with
  | None => Err (- EFAULT)
  | Some (Owned m) => Ok m
  | Some (Shared _) => Err (- EINVAL)
  end.

Definition memory_kind k : result MemoryKind :=
  result_of_option (- EFAULT) (k_memory k).

(** The range check shared by the accessors: the end of the range, or
    [-EFAULT]. *)
Definition range_end (ptr len : Z) : result Z :=
  if (ptr <? 0) || (len <? 0) then Err (- EFAULT)
  else result_of_option (- EFAULT) (checked_add_usize ptr len).

Definition guest_slice k (ptr len : Z) : result bytes :=
  e <-? range_end ptr len;
  m <-? memory k;
  if e <=? gm_size m then Ok (read_bytes m ptr len) else Err (- EFAULT).

(** A mutable slice is the offset it starts at; writing into it is [mem_put]. *)
Definition guest_slice_mut k (ptr len : Z) : result Z :=
  e <-? range_end ptr len;
  m <-? memory k;
  if e <=? gm_size m then Ok ptr else Err (- EFAULT).

Definition guest_slice_mut_via (m : gmem) (ptr len : Z) : result Z :=
  e <-? range_end ptr len;
  if e <=? gm_size m then Ok ptr else Err (- EFAULT).

Definition mem_put k (p : Z) (bs : bytes) : kern W :=
  match k_memory k with
  | Some (Owned m) => set_memory k (Some (Owned (write_bytes m p bs)))
  | _ => k
  end.

(** [guest_slice_mut(caller, ptr, bs.len())?.copy_from_slice(bs)]. *)
Definition guest_write k (ptr : Z) (bs : bytes) : result (kern W) :=
  p <-? guest_slice_mut k ptr (Z.of_nat (length bs));
  Ok (mem_put k p bs).

Definition guest_str k (ptr max_len : Z) : result bytes :=
  bs <-? guest_slice k ptr max_len;
  let nul := default (length bs) (position (λ b, b =? 0) bs) in
  let s := take nul bs in
  if utf8_valid s then Ok s else Err (- EINVAL).

(** ** Facts *)

Lemma memory_Ok k m : memory k = Ok m ↔ k_memory k = Some (Owned m).
Proof. unfold memory. destruct (k_memory k) as [[]|]; naive_solver. Qed.

Lemma range_end_Ok ptr len e :
  range_end ptr len = Ok e ↔ 0 ≤ ptr ∧ 0 ≤ len ∧ ptr + len ≤ U64_MAX ∧ e = ptr + len.
Proof.
  unfold range_end, checked_add_usize. destruct ((ptr <? 0) || (len <? 0)) eqn:E.
  - split; [done|]. intros (? & ? & _). apply orb_prop in E. lia.
  - apply orb_false_elim in E as [? ?]. destruct (ptr + len <=? U64_MAX) eqn:E'; simpl.
    + split; [intros [= <-]; lia|]. by intros (_ & _ & _ & ->).
    + split; [done|lia].
Qed.

Lemma range_end_Err ptr len e : range_end ptr len = Err e → e = - EFAULT.
Proof.
  unfold range_end. destruct (_ || _); [by intros [= <-]|].
  destruct (checked_add_usize _ _); simpl; [done|by intros [= <-]].
Qed.

(** The range lies inside an attached, unshared memory. *)
Definition in_memory k (ptr len : Z) : Prop :=
  ∃ m, k_memory k = Some (Owned m) ∧ 0 ≤ ptr ∧ 0 ≤ len ∧ ptr + len ≤ gm_size m ∧
       ptr + len ≤ U64_MAX.

Lemma guest_slice_Ok k ptr len bs :
  guest_slice k ptr len = Ok bs ↔
  in_memory k ptr len ∧ ∀ m, k_memory k = Some (Owned m) → bs = read_bytes m ptr len.
Proof.
  unfold guest_slice, in_memory. rewrite result_bind_Ok. split.
  - intros (e & (? & ? & ? & ->)%range_end_Ok & Hk). apply result_bind_Ok in Hk as (m & Hm & Hk).
    apply memory_Ok in Hm. destruct (_ <=? _) eqn:E in Hk; [|done]. to_prop. injection Hk as <-.
    split; [eauto 10|]. intros m' Hm'. by rewrite Hm in Hm'; simplify_eq.
  - intros [(m & Hm & ? & ? & ? & ?) Hbs]. exists (ptr + len). split; [by apply range_end_Ok|].
    unfold memory. rewrite Hm. simpl. rewrite (proj2 (Z.leb_le _ _)) by done. by rewrite (Hbs m).
Qed.

Lemma guest_slice_mut_Ok k ptr len p :
  guest_slice_mut k ptr len = Ok p ↔ in_memory k ptr len ∧ p = ptr.
Proof.
  unfold guest_slice_mut, in_memory. rewrite result_bind_Ok. split.
  - intros (e & (? & ? & ? & ->)%range_end_Ok & Hk). apply result_bind_Ok in Hk as (m & Hm & Hk).
    apply memory_Ok in Hm. destruct (_ <=? _) eqn:E in Hk; [|done]. to_prop. injection Hk as <-.
    eauto 10.
  - intros [(m & Hm & ? & ? & ? & ?) ->]. exists (ptr + len). split; [by apply range_end_Ok|].
    unfold memory. rewrite Hm. simpl. by rewrite (proj2 (Z.leb_le _ _)) by done.
Qed.

Lemma guest_slice_mut_via_Ok k m ptr len p :
  memory k = Ok m →
  guest_slice_mut_via m ptr len = Ok p ↔ in_memory k ptr len ∧ p = ptr.
Proof.
  intros Hm. rewrite <- guest_slice_mut_Ok. unfold guest_slice_mut_via, guest_slice_mut.
  destruct (range_end ptr len); simpl; [|done]. by rewrite Hm.
Qed.

(** Immutable and mutable access agree on what is accessible. *)
Lemma guest_slice_mut_slice k ptr len :
  (∃ p, guest_slice_mut k ptr len = Ok p) ↔ (∃ bs, guest_slice k ptr len = Ok bs).
Proof.
  split.
  - intros [p [Hin ->]%guest_slice_mut_Ok]. pose proof Hin as (m & Hm & _).
    exists (read_bytes m ptr len). apply guest_slice_Ok. split; [done|].
    intros m' Hm'. by rewrite Hm in Hm'; simplify_eq.
  - intros [bs [Hin _]%guest_slice_Ok]. exists ptr. by apply guest_slice_mut_Ok.
Qed.

Lemma guest_slice_length k ptr len bs :
  guest_slice k ptr len = Ok bs → Z.of_nat (length bs) = len.
Proof.
  intros [(m & Hm & ? & ? & _) Hbs]%guest_slice_Ok. rewrite (Hbs m Hm).
  by apply length_read_bytes.
Qed.

Lemma guest_write_Ok k ptr bs k' :
  guest_write k ptr bs = Ok k' ↔
  in_memory k ptr (Z.of_nat (length bs)) ∧ k' = mem_put k ptr bs.
Proof.
  unfold guest_write. rewrite result_bind_Ok. split.
  - intros (p & [? ->]%guest_slice_mut_Ok & [= <-]). done.
  - intros [? ->]. exists ptr. split; [by apply guest_slice_mut_Ok|done].
Qed.

(** Access outside the memory is refused with [-EFAULT] ([-EINVAL] when the
    memory is a shared one). *)
Lemma guest_slice_Err k ptr len e :
  guest_slice k ptr len = Err e → (∃ m, k_memory k = Some (Shared m)) ∨ e = - EFAULT.
Proof.
  unfold guest_slice, memory. destruct (range_end ptr len) eqn:E.
  - simpl. destruct (k_memory k) as [[]|]; simpl; [|by left; eauto|intros [= <-]; by right].
    destruct (_ <=? _); [done|]. intros [= <-]. by right.
  - intros [= <-]. apply range_end_Err in E. by right.
Qed.

Lemma guest_slice_mut_Err k ptr len e :
  guest_slice_mut k ptr len = Err e → (∃ m, k_memory k = Some (Shared m)) ∨ e = - EFAULT.
Proof.
  unfold guest_slice_mut, memory. destruct (range_end ptr len) eqn:E.
  - simpl. destruct (k_memory k) as [[]|]; simpl; [|by left; eauto|intros [= <-]; by right].
    destruct (_ <=? _); [done|]. intros [= <-]. by right.
  - intros [= <-]. apply range_end_Err in E. by right.
Qed.

(** A part of a slice is the slice of the part. *)
Lemma guest_slice_sub k ptr len bs q n :
  guest_slice k ptr len = Ok bs → ptr ≤ q → 0 ≤ n → q + n ≤ ptr + len →
  guest_slice k q n = Ok (take (Z.to_nat n) (drop (Z.to_nat (q - ptr)) bs)).
Proof.
  intros [Hin Hbs]%guest_slice_Ok ???. pose proof Hin as (m & Hm & ? & ? & ? & ?).
  apply guest_slice_Ok. split.
  - exists m. split_and!; try done; lia.
  - intros m' Hm'. rewrite (Hbs m Hm). simplify_eq. symmetry. by apply read_bytes_sub.
Qed.

(** ** Well-formed memory *)

Definition mem_wf k : Prop :=
  ∀ m, k_memory k = Some (Owned m) → gmem_wf m ∧ gm_size m ≤ 2 ^ 32.

Lemma mem_put_wf k p bs :
  mem_wf k → in_memory k p (Z.of_nat (length bs)) → bytes_ok bs → mem_wf (mem_put k p bs).
Proof.
  intros Hk (m & Hm & ? & ? & ? & ?) Hbs m'. unfold mem_put. rewrite Hm. simpl.
  intros [= <-]. destruct (Hk m Hm) as [? ?]. split; [|done]. by apply write_bytes_wf.
Qed.

Lemma guest_slice_ok k ptr len bs : mem_wf k → guest_slice k ptr len = Ok bs → bytes_ok bs.
Proof.
  intros Hk [(m & Hm & _) Hbs]%guest_slice_Ok. rewrite (Hbs m Hm). apply read_bytes_ok, (Hk m Hm).
Qed.

(** ** Reading after writing *)

Lemma in_memory_put k p bs ptr len :
  in_memory k p (Z.of_nat (length bs)) → in_memory (mem_put k p bs) ptr len ↔ in_memory k ptr len.
Proof.
  intros (m & Hm & _). unfold in_memory, mem_put. rewrite Hm. simpl. split.
  - intros (m' & [= <-] & ?). eauto.
  - intros (m' & Hm' & ?). simplify_eq. eauto.
Qed.

Lemma guest_slice_put_same k p bs :
  in_memory k p (Z.of_nat (length bs)) →
  guest_slice (mem_put k p bs) p (Z.of_nat (length bs)) = Ok bs.
Proof.
  intros Hin. apply guest_slice_Ok. split; [by apply in_memory_put|].
  destruct Hin as (m & Hm & _). unfold mem_put. rewrite Hm. simpl. intros m' [= <-].
  by rewrite read_write_same.
Qed.

Lemma guest_slice_put_disjoint k p bs ptr len :
  in_memory k p (Z.of_nat (length bs)) → disjoint_ranges p (Z.of_nat (length bs)) ptr len →
  guest_slice (mem_put k p bs) ptr len = guest_slice k ptr len.
Proof.
  intros (m & Hm & _) Hd. unfold mem_put, guest_slice, memory. rewrite Hm. simpl.
  destruct (range_end ptr len); simpl; [|done]. destruct (_ <=? _); [|done].
  by rewrite read_write_disjoint.
Qed.

End kernel.

#[export] Hint Resolve mem_put_wf guest_slice_ok : libos.

(** ** Theorems *)

(** C5: the memory choke point: a slice is granted exactly when the range has
    no negative part, does not overflow and ends inside the attached memory,
    and it is then the bytes of that range; everything else is an error and,
    unless the memory is a shared one, that error is [-EFAULT]. The same
    ranges are granted for reading and for writing. *)
Theorem guest_access_checked {W} (k : kern W) ptr len :
  (∀ bs, guest_slice k ptr len = Ok bs ↔
     in_memory k ptr len ∧ ∀ m, k_memory k = Some (Owned m) → bs = read_bytes m ptr len) ∧
  (∀ p, guest_slice_mut k ptr len = Ok p ↔ in_memory k ptr len ∧ p = ptr) ∧
  (∀ e, guest_slice k ptr len = Err e → (∃ m, k_memory k = Some (Shared m)) ∨ e = - EFAULT) ∧
  (∀ e, guest_slice_mut k ptr len = Err e → (∃ m, k_memory k = Some (Shared m)) ∨ e = - EFAULT).
Proof.
  split_and!; intros.
  - apply guest_slice_Ok.
  - apply guest_slice_mut_Ok.
  - by eapply guest_slice_Err.
  - by eapply guest_slice_mut_Err.
Qed.

(** C6: what the kernel writes into guest memory is what the guest reads back
    there, every byte outside the range keeps its value, and the memory keeps
    its size and well-formedness. *)
Theorem guest_write_read_back {W} (k k' : kern W) ptr bs :
  mem_wf k → bytes_ok bs → guest_write k ptr bs = Ok k' →
  guest_slice k' ptr (Z.of_nat (length bs)) = Ok bs ∧
  (∀ q n, disjoint_ranges ptr (Z.of_nat (length bs)) q n →
     guest_slice k' q n = guest_slice k q n) ∧
  mem_wf k'.
Proof.
  intros Hk Hbs [Hin ->]%guest_write_Ok. split_and!.
  - by apply guest_slice_put_same.
  - intros. by apply guest_slice_put_disjoint.
  - by apply mem_put_wf.
Qed.

(** ** Witnesses *)

(** A fresh kernel over two pages of memory and a host without files. *)
Definition sample_kern : kern NullHost :=
  attach_memory (new_inner [] [] sample_vfs (replicate 32 0) tt) (zero_mem 131072).

Lemma sample_mem_wf : mem_wf sample_kern.
Proof.
  intros m [= <-]. split; [|simpl; lia]. split; [simpl; lia|].
  intros i b. simpl. by rewrite lookup_empty.
Qed.

Lemma guest_write_read_back_witness :
  let k' := mem_put sample_kern 131070 [1; 2] in
  guest_slice k' 131070 2 = Ok [1; 2] ∧
  (∀ q n, disjoint_ranges 131070 2 q n → guest_slice k' q n = guest_slice sample_kern q n) ∧
  mem_wf k'.
Proof.
  intros k'. apply (guest_write_read_back sample_kern k' 131070 [1; 2]).
  - apply sample_mem_wf.
  - repeat constructor; lia.
  - vm_compute. reflexivity.
Defined.
