(* ===== verification/Snapshot.v ===== *)
(** * Snapshots of the kernel (src/snapshot.rs, src/snapshot/io.rs)

    Freezing: [try_to_snapshot] copies the kernel into a [KernelSnapshot], a
    value without host handles; memory is recorded as its non-zero 64 KiB
    pages. Thawing: [apply_snapshot] writes a snapshot over a kernel,
    reopening what can be reopened. The file format is that of the [postcard]
    library, which is the interface [Codec] here; the file calls, the
    generator and the listener calls this code alone makes are [SnapHost].

    The little-endian newtypes of src/snapshot/endian.rs only choose that
    format; here they are the integers they wrap. *)

From S2P Require Import Prelude Word Errno GuestMem Text Path Host Vfs Udp Net Fd Sock Futex LinearAllocator Arena Kernel.

Definition SNAPSHOT_FORMAT_VERSION : Z := 1.
Definition PAGE_SIZE_BYTES : Z := 65536.

(** ** The data *)

Record MemoryPageSnapshot := MkPage { page_index : Z; page_bytes : bytes }.

Record PipeSnapshot := MkPipeSnap { ps_buf : bytes; ps_closed : bool; ps_nonblock : bool }.

Record FileSnapshot := MkFileSnap {
  fsn_path : option path;
  fsn_pos : Z;
  fsn_is_dir : bool;
  fsn_dir_cache : option bytes;
}.

Record UnixSockSnapshot := MkUnixSnap {
  usn_path : option bytes;
  usn_peer_addr_present : bool;
}.

Record SocketSnapshot := MkSockSnap {
  ssn_kind : SocketKind;
  ssn_nonblock : bool;
  ssn_bound : option SockAddr;
  ssn_listen_backlog : option Z;
  ssn_so_reuseaddr : bool;
  ssn_so_keepalive : bool;
  ssn_tcp_nodelay : bool;
  ssn_peer_addr_present : bool;
  ssn_last_error : Z;
  ssn_shutdown_flags : Z;
  ssn_is_acceptor : bool;
  ssn_peek_buf : bytes;
  ssn_family_unix : bool;
  ssn_unix_inner : option UnixSockSnapshot;
  ssn_inherited : bool;
}.

Record EpollEntrySnapshot := MkEpollEntrySnap { een_fd : Z; een_events : Z; een_data : Z }.

Record EpollSnapshot := MkEpollSnap {
  esn_entries : list EpollEntrySnapshot;
  esn_self_event_fd : option Z;
}.

Record EventFdSnapshot := MkEventFdSnap { evn_counter : Z; evn_nonblock : bool }.

Inductive ResourceKind :=
  | KStdin | KStdout | KStderr | KPipeRead | KPipeWrite | KFile | KSocket | KEpoll | KEventFd.

#[global] Instance ResourceKind_eq_dec : EqDecision ResourceKind.
Proof. solve_decision. Defined.

Record ResourceBody := MkBody {
  rb_pipe : option PipeSnapshot;
  rb_file : option FileSnapshot;
  rb_socket : option SocketSnapshot;
  rb_epoll : option EpollSnapshot;
  rb_eventfd : option EventFdSnapshot;
}.

Record ResourceSnapshot := MkResSnap { rs_kind : ResourceKind; rs_body : ResourceBody }.

Definition from_pipe (kd : ResourceKind) (p : PipeSnapshot) : ResourceSnapshot :=
  MkResSnap kd (MkBody (Some p) None None None None).
Definition from_file (f : FileSnapshot) : ResourceSnapshot :=
  MkResSnap KFile (MkBody None (Some f) None None None).
Definition from_socket (s : SocketSnapshot) : ResourceSnapshot :=
  MkResSnap KSocket (MkBody None None (Some s) None None).
Definition from_epoll (e : EpollSnapshot) : ResourceSnapshot :=
  MkResSnap KEpoll (MkBody None None None (Some e) None).
Definition from_eventfd (e : EventFdSnapshot) : ResourceSnapshot :=
  MkResSnap KEventFd (MkBody None None None None (Some e)).

Record FdEntrySnapshot := MkFdEntry { fe_fd : Z; fe_kind : ResourceSnapshot }.

Record FdSnapshot := MkFdSnap {
  fd_entries : list FdEntrySnapshot;
  fd_next_fd : Z;
  fd_cloexec : list Z;
}.

Record LinearAllocatorSnapshot := MkMmSnap { mm_arenas : list Arena; mm_high_water : Z }.

Record SignalStateSnapshot := MkSigSnap {
  sg_actions : gmap Z SigAction;
  sg_mask : Z;
  sg_alt_stack : option bytes;
}.

Record VfsSnapshot := MkVfsSnap { vs_root : path; vs_cwd : path }.

Record KernelSnapshot := MkSnapshot {
  sn_format_version : Z;
  sn_pages : list MemoryPageSnapshot;
  sn_fds : FdSnapshot;
  sn_mm : LinearAllocatorSnapshot;
  sn_vfs : VfsSnapshot;
  sn_boot_monotonic_ns : Z;
  sn_brk : Z;
  sn_args : list bytes;
  sn_env : list (bytes * bytes);
  sn_rng_seed : bytes;
  sn_signals : SignalStateSnapshot;
  sn_exit_code : option Z;
  sn_comm : bytes;
  sn_futex_table : list FutexAddrSnapshot;
  sn_cpu_ns : Z;
  sn_module_sha256 : bytes;
}.

(** Snapshots can be told apart. *)
#[global] Instance Arena_eq_dec : EqDecision Arena.
Proof. solve_decision. Defined.
#[global] Instance MemoryPageSnapshot_eq_dec : EqDecision MemoryPageSnapshot.
Proof. solve_decision. Defined.
#[global] Instance PipeSnapshot_eq_dec : EqDecision PipeSnapshot.
Proof. solve_decision. Defined.
#[global] Instance FileSnapshot_eq_dec : EqDecision FileSnapshot.
Proof. solve_decision. Defined.
#[global] Instance UnixSockSnapshot_eq_dec : EqDecision UnixSockSnapshot.
Proof. solve_decision. Defined.
#[global] Instance SocketSnapshot_eq_dec : EqDecision SocketSnapshot.
Proof. solve_decision. Defined.
#[global] Instance EpollEntrySnapshot_eq_dec : EqDecision EpollEntrySnapshot.
Proof. solve_decision. Defined.
#[global] Instance EpollSnapshot_eq_dec : EqDecision EpollSnapshot.
Proof. solve_decision. Defined.
#[global] Instance EventFdSnapshot_eq_dec : EqDecision EventFdSnapshot.
Proof. solve_decision. Defined.
#[global] Instance ResourceBody_eq_dec : EqDecision ResourceBody.
Proof. solve_decision. Defined.
#[global] Instance ResourceSnapshot_eq_dec : EqDecision ResourceSnapshot.
Proof. solve_decision. Defined.
#[global] Instance FdEntrySnapshot_eq_dec : EqDecision FdEntrySnapshot.
Proof. solve_decision. Defined.
#[global] Instance FdSnapshot_eq_dec : EqDecision FdSnapshot.
Proof. solve_decision. Defined.
#[global] Instance LinearAllocatorSnapshot_eq_dec : EqDecision LinearAllocatorSnapshot.
Proof. solve_decision. Defined.
#[global] Instance SignalStateSnapshot_eq_dec : EqDecision SignalStateSnapshot.
Proof. solve_decision. Defined.
#[global] Instance VfsSnapshot_eq_dec : EqDecision VfsSnapshot.
Proof. solve_decision. Defined.
#[global] Instance KernelSnapshot_eq_dec : EqDecision KernelSnapshot.
Proof. solve_decision. Defined.

(** The error of an [io::Error] is known by what was attempted. *)
Inductive SnapshotError :=
  | FormatVersionMismatch (found supported : Z)
  | ModuleHashMismatch (snap_hash wasm_hash : bytes)
  | IoError (ctx : string)
  | MissingPath
  | Unsupported (what : string)
  | AcceptedStreamOnListener
  | AbstractUnixNamespace
  | UnknownResource
  | Postcard
  | Invalid.

(** [Result<T, SnapshotError>]. *)
Inductive sres (A : Type) : Type := SOk (a : A) | SErr (e : SnapshotError).
Arguments SOk {A} a.
Arguments SErr {A} e.

(** ** The libraries below *)

Class SnapHost (W : Type) := {
  (** [std::fs::write], [std::fs::read], [Path::exists]. *)
  fs_write : W → path → bytes → io unit * W;
  fs_read : W → path → io bytes;
  fs_exists : W → path → bool;
  (** [SmallRng::from_seed]. *)
  rng_from_seed : W → bytes → W;
  (** [std::net::TcpListener::bind], [setsockopt_reuseaddr],
      [tokio::net::TcpListener::from_std], [local_addr]. *)
  std_tcp_bind : W → SocketAddr → net handle * W;
  std_set_reuseaddr : W → handle → bool → net unit * W;
  tcp_from_std : W → handle → net handle * W;
  tcp_local_addr : W → handle → net SocketAddr;
  (** [libc::dup] and [from_raw_fd]; [None] when [dup] fails. *)
  dup_listener : W → Z → option handle * W;
}.

(** [postcard::to_stdvec] and [postcard::from_bytes]. *)
Class Codec := {
  to_stdvec : KernelSnapshot → option bytes;
  from_bytes : bytes → option KernelSnapshot;
}.

(** [Sha256::digest]. *)
Class Digest := { sha256 : bytes → bytes }.

(** ** Freezing *)

Definition snapshot_pipe (p : pipe) : PipeSnapshot := MkPipeSnap (buf p) (closed p) (p_nonblock p).

Definition snapshot_file (f : FilePos) : FileSnapshot :=
  MkFileSnap (fpath f) (pos f) (is_dir f) (dir_cache f).

Definition snapshot_sock (s : SocketInner) : SocketSnapshot :=
  {| ssn_kind := kind s; ssn_nonblock := s_nonblock s; ssn_bound := bound s;
     ssn_listen_backlog := listen_backlog s; ssn_so_reuseaddr := so_reuseaddr s;
     ssn_so_keepalive := so_keepalive s; ssn_tcp_nodelay := tcp_nodelay s;
     ssn_peer_addr_present := bool_decide (is_Some (peer_addr s));
     ssn_last_error := last_error s; ssn_shutdown_flags := shutdown_flags s;
     ssn_is_acceptor := is_acceptor s; ssn_peek_buf := peek_buf s;
     ssn_family_unix := family_unix s;
     ssn_unix_inner := (λ u, MkUnixSnap (ux_path u) (bool_decide (is_Some (ux_peer_addr u)))) <$> unix s;
     ssn_inherited := inherited s |}.

(** The entries in the order the hash map yields them. *)
Definition snapshot_epoll_iter (it : list (Z * EpollEntry)) : list EpollEntrySnapshot :=
  snd <$> sort_by (λ a b, a.1 <=? b.1)
    ((λ e, (e.1, MkEpollEntrySnap (ee_fd e.2) (ee_events e.2) (ee_data e.2))) <$> it).

Definition snapshot_epoll (e : EpollInner) : EpollSnapshot :=
  MkEpollSnap (snapshot_epoll_iter (map_to_list (entries e))) (self_event_fd e).

Definition snapshot_eventfd (e : EventFdInner) : EventFdSnapshot :=
  MkEventFdSnap (counter e) (e_nonblock e).

Definition snapshot_mm (la : LinearAllocator) : LinearAllocatorSnapshot :=
  MkMmSnap (arenas la) (high_water la).

Definition snapshot_signals (s : SignalState) : SignalStateSnapshot :=
  MkSigSnap (actions s) (sig_mask s) (alt_stack s).

Definition snapshot_vfs (v : Vfs) : VfsSnapshot := MkVfsSnap (root v) (cwd v).

(** The port the host assigned replaces a port 0 of an IPv4 listener. *)
Definition actual_port {W} `{SnapHost W} (w : W) (s : SocketInner) (snap : SocketSnapshot) : SocketSnapshot :=
  match listener s, ssn_bound snap with
  | Some l, Some (SockV4 port ip) =>
    match tcp_local_addr w l with
    | NetErr _ => snap
    | NetOk (SAv4 actual _) | NetOk (SAv6 actual _) =>
      let port := if port =? 0 then actual else port in
      {| ssn_kind := ssn_kind snap; ssn_nonblock := ssn_nonblock snap;
         ssn_bound := Some (SockV4 port ip);
         ssn_listen_backlog := ssn_listen_backlog snap; ssn_so_reuseaddr := ssn_so_reuseaddr snap;
         ssn_so_keepalive := ssn_so_keepalive snap; ssn_tcp_nodelay := ssn_tcp_nodelay snap;
         ssn_peer_addr_present := ssn_peer_addr_present snap;
         ssn_last_error := ssn_last_error snap; ssn_shutdown_flags := ssn_shutdown_flags snap;
         ssn_is_acceptor := ssn_is_acceptor snap; ssn_peek_buf := ssn_peek_buf snap;
         ssn_family_unix := ssn_family_unix snap; ssn_unix_inner := ssn_unix_inner snap;
         ssn_inherited := ssn_inherited snap |}
    end
  | _, _ => snap
  end.

Definition snapshot_resource {W} `{SnapHost W} (h : heap) (w : W) (r : Resource) : ResourceSnapshot :=
  match r with
  | RStdin p => from_pipe KStdin (snapshot_pipe (pipe_at h (pr_pipe p)))
  | RStdout p => from_pipe KStdout (snapshot_pipe (pipe_at h (pw_pipe p)))
  | RStderr p => from_pipe KStderr (snapshot_pipe (pipe_at h (pw_pipe p)))
  | RPipeRead p => from_pipe KPipeRead (snapshot_pipe (pipe_at h (pr_pipe p)))
  | RPipeWrite p => from_pipe KPipeWrite (snapshot_pipe (pipe_at h (pw_pipe p)))
  | RFile l => from_file (snapshot_file (file_at h l))
  | RSocket l => from_socket (actual_port w (sock_at h l) (snapshot_sock (sock_at h l)))
  | REpoll e => from_epoll (snapshot_epoll e)
  | REventFd e => from_eventfd (snapshot_eventfd e)
  end.

Definition snapshot_fds_iter {W} `{SnapHost W} (h : heap) (w : W) (it : list (Z * Resource))
    : list FdEntrySnapshot :=
  (λ e, MkFdEntry e.1 (snapshot_resource h w e.2)) <$> sort_by (λ a b, a.1 <=? b.1) it.

(** [iter_for_snapshot] and [iter_cloexec_for_snapshot] yield their entries in
    the order of a hash table: [it] and [clo]. *)
Definition build_iter {W} `{SnapHost W} (k : kern W) (it : list (Z * Resource)) (clo : list Z)
    (pages : list MemoryPageSnapshot) : KernelSnapshot :=
  {| sn_format_version := SNAPSHOT_FORMAT_VERSION;
     sn_pages := pages;
     sn_fds := MkFdSnap (snapshot_fds_iter (k_heap k) (k_host k) it) (next_fd (k_fds k))
                 (sort_by Z.leb clo);
     sn_mm := snapshot_mm (k_mm k);
     sn_vfs := snapshot_vfs (k_vfs k);
     sn_boot_monotonic_ns := k_boot_monotonic_ns k;
     sn_brk := k_brk k;
     sn_args := k_args k;
     sn_env := k_env k;
     sn_rng_seed := k_rng_seed k;
     sn_signals := snapshot_signals (k_signals k);
     sn_exit_code := k_exit_code k;
     sn_comm := k_comm k;
     sn_futex_table := Futex.snapshot (futex_table (k_ps k));
     sn_cpu_ns := k_cpu_ns k;
     sn_module_sha256 := replicate 32 0 |}.

Definition build_kernel_snapshot {W} `{SnapHost W} (k : kern W) (pages : list MemoryPageSnapshot)
    : KernelSnapshot :=
  build_iter k (map_to_list (table (k_fds k))) (elements (cloexec (k_fds k))) pages.

(** ** Pages *)

Definition is_zero_page (page : bytes) : bool := negb (existsb (λ b, negb (b =? 0)) page).

(** [n] exact chunks, then the remainder. *)
Fixpoint collect_chunks (n : nat) (index : Z) (data : bytes) : list MemoryPageSnapshot :=
  match n with
  | O =>
    if negb (bool_decide (data = [])) && negb (is_zero_page data) then [MkPage index data] else []
  | S n =>
    let chunk := take (Z.to_nat PAGE_SIZE_BYTES) data in
    let rest := collect_chunks n (index + 1) (drop (Z.to_nat PAGE_SIZE_BYTES) data) in
    if is_zero_page chunk then rest else MkPage index chunk :: rest
  end.

Definition collect_pages (data : bytes) : list MemoryPageSnapshot :=
  collect_chunks (Z.to_nat (Z.of_nat (length data) / PAGE_SIZE_BYTES)) 0 data.

(** [MemoryKind::data]. *)
Definition kind_data (mk : MemoryKind) : bytes :=
  match mk with Owned m | Shared m => read_bytes m 0 (gm_size m) end.

Definition try_to_snapshot {W} `{SnapHost W} (k : kern W) : KernelSnapshot :=
  let pages := match memory_kind k with Ok mk => collect_pages (kind_data mk) | Err _ => [] end in
  build_kernel_snapshot k pages.

(** ** Thawing: the kernel state *)

(** Fresh [Notify]s for the addresses of the futex table. *)
Definition alloc_notifies (n : nat) (h : heap) : heap :=
  MkHeap (next_loc h + Z.of_nat n) (pipes h) (files h) (socks h) (wakes h).

Section apply.
Context {W : Type} `{Host W} `{Net W} `{SnapHost W}.
Implicit Types k : kern W.

(** A pipe end with fresh cells and a fresh [Notify]. *)
Definition restore_pipe k (p : PipeSnapshot) (mk : Z → Z → Resource) : Resource * kern W :=
  let '(l, h) := new_pipe_cell (k_heap k) (MkPipe (ps_buf p) (ps_closed p) (ps_nonblock p)) in
  let '(n, h) := new_notify h in
  (mk l n, set_heap k h).

Definition reopen_options : OpenOptions := MkOpenOptions true true false false false false.

Definition restore_file k (f : FileSnapshot) : sres Resource * kern W :=
  if fsn_is_dir f then (SErr (Unsupported "Resource::File (directory) reopen on apply_snapshot"), k)
  else match fsn_path f with
  | None => (SErr MissingPath, k)
  | Some p =>
    match fs_open (k_host k) reopen_options p with
    | (IoErr _, w) => (SErr (IoError "open"), set_host k w)
    | (IoOk h, w) =>
      match file_seek w h (SeekStart (fsn_pos f)) with
      | (IoErr _, w) => (SErr (IoError "seek"), set_host k w)
      | (IoOk _, w) =>
        let '(l, hp) := new_file (k_heap k) (MkFilePos h (fsn_pos f) (Some p) false (fsn_dir_cache f)) in
        (SOk (RFile l), set_heap (set_host k w) hp)
      end
    end
  end.

(** A new socket object. *)
Definition install_sock k (mk : Z → Z → SocketInner) : Resource * kern W :=
  let '(nr, h) := new_notify (k_heap k) in
  let '(nw, h) := new_notify h in
  let '(l, h) := new_sock h (mk nr nw) in
  (RSocket l, set_heap k h).

Definition restore_unix k (s : SocketSnapshot) : sres Resource * kern W :=
  match ssn_unix_inner s ≫= usn_path with
  | None => (SErr AbstractUnixNamespace, k)
  | Some p =>
    if bool_decide (head p = Some 0) then (SErr AbstractUnixNamespace, k)
    else
      let '(ok, k) :=
        match fs_metadata (k_host k) (components p) with
        | IoOk m =>
          if bool_decide (md_type m = FtSocket)
          then (true, set_host k (fs_remove_file (k_host k) (components p)).2)
          else (false, k)
        | IoErr _ => (true, k)
        end in
      if negb ok then (SErr (IoError "exists and is not a socket"), k)
      else match unix_bind (k_host k) p with
      | (NetErr _, w) => (SErr (IoError "bind"), set_host k w)
      | (NetOk l, w) =>
        let '(r, k) := install_sock (set_host k w) (λ nr nw, from_unix_listener nr nw l p (ssn_nonblock s)) in
        (SOk r, k)
      end
  end.

Definition restore_tcp k (s : SocketSnapshot) : sres Resource * kern W :=
  if negb (ssn_is_acceptor s) then (SErr (Unsupported "unconnected TCP client not yet supported"), k)
  else match ssn_bound s with
  | None => (SErr (Unsupported "missing bound for TCP listener"), k)
  | Some (SockV6 _ _) | Some (SockUnix _) => (SErr (Unsupported "only IPv4 socket reopen supported"), k)
  | Some (SockV4 port ip) =>
    match std_tcp_bind (k_host k) (SAv4 port ip) with
    | (NetErr _, w) => (SErr (IoError "bind"), set_host k w)
    | (NetOk l, w) =>
      let '(r, w) := if ssn_so_reuseaddr s then std_set_reuseaddr w l true else (NetOk tt, w) in
      match r with
      | NetErr _ => (SErr (IoError "set SO_REUSEADDR"), set_host k w)
      | NetOk _ =>
        match tcp_from_std w l with
        | (NetErr _, w) => (SErr (IoError "tokio::TcpListener::from_std"), set_host k w)
        | (NetOk l, w) =>
          let '(r, k) := install_sock (set_host k w)
            (λ nr nw, from_tcp_listener nr nw l (SockV4 port ip) (ssn_so_reuseaddr s) (ssn_nonblock s)) in
          (SOk r, k)
        end
      end
    end
  end.

Definition restore_socket k (s : SocketSnapshot) : sres Resource * kern W :=
  if ssn_is_acceptor s && ssn_peer_addr_present s then (SErr AcceptedStreamOnListener, k)
  else if ssn_family_unix s then restore_unix k s
  else restore_tcp k s.

(** The interest list, every entry with a fresh [Notify]. *)
Fixpoint restore_interest (h : heap) (l : list EpollEntrySnapshot) (m : gmap Z EpollEntry)
    : gmap Z EpollEntry * heap :=
  match l with
  | [] => (m, h)
  | e :: l =>
    let '(n, h) := new_notify h in
    restore_interest h l (<[een_fd e := MkEpollEntry (een_fd e) (een_events e) (een_data e) n]> m)
  end.

Definition restore_epoll k (e : EpollSnapshot) : Resource * kern W :=
  let '(m, h) := restore_interest (k_heap k) (esn_entries e) ∅ in
  let '(c, h) := new_notify h in
  (REpoll (MkEpoll m c (esn_self_event_fd e)), set_heap k h).

Definition restore_eventfd k (e : EventFdSnapshot) : Resource * kern W :=
  let '(n, h) := new_notify (k_heap k) in
  (REventFd (MkEventFd (evn_counter e) n (evn_nonblock e)), set_heap k h).

(** A body without the payload of its kind is refused. *)
Definition with_body {A} k (b : option A) (f : A → sres Resource * kern W) : sres Resource * kern W :=
  match b with Some x => f x | None => (SErr UnknownResource, k) end.

Definition always (x : Resource * kern W) : sres Resource * kern W := (SOk x.1, x.2).

Definition restore_resource k (r : ResourceSnapshot) : sres Resource * kern W :=
  let b := rs_body r in
  match rs_kind r with
  | KStdin => with_body k (rb_pipe b) (λ p, always (restore_pipe k p (λ l n, RStdin (MkPipeRead l n))))
  | KStdout => with_body k (rb_pipe b) (λ p, always (restore_pipe k p (λ l n, RStdout (MkPipeWrite l n))))
  | KStderr => with_body k (rb_pipe b) (λ p, always (restore_pipe k p (λ l n, RStderr (MkPipeWrite l n))))
  | KPipeRead => with_body k (rb_pipe b) (λ p, always (restore_pipe k p (λ l n, RPipeRead (MkPipeRead l n))))
  | KPipeWrite => with_body k (rb_pipe b) (λ p, always (restore_pipe k p (λ l n, RPipeWrite (MkPipeWrite l n))))
  | KFile => with_body k (rb_file b) (restore_file k)
  | KSocket => with_body k (rb_socket b) (restore_socket k)
  | KEpoll => with_body k (rb_epoll b) (λ e, always (restore_epoll k e))
  | KEventFd => with_body k (rb_eventfd b) (λ e, always (restore_eventfd k e))
  end.

Definition is_inherited (r : ResourceSnapshot) : bool :=
  bool_decide (rs_kind r = KSocket) && match rb_socket (rs_body r) with Some s => ssn_inherited s | None => false end.

(** Inherited listeners are skipped: the caller attaches them. *)
Fixpoint restore_entries k (l : list FdEntrySnapshot) : sres unit * kern W :=
  match l with
  | [] => (SOk tt, k)
  | e :: l =>
    if is_inherited (fe_kind e) then restore_entries k l
    else match restore_resource k (fe_kind e) with
    | (SErr err, k) => (SErr err, k)
    | (SOk r, k) =>
      match insert_at (k_fds k) (fe_fd e) r with
      | (Err _, _) => (SErr (IoError "fd insert_at"), k)
      | (Ok _, t) => restore_entries (set_fds k t) l
      end
    end
  end.

(** Everything but the descriptors. *)
Definition restore_fields k (s : KernelSnapshot) : kern W :=
  let ps := k_ps k in
  let h := k_heap k in
  {| k_memory := k_memory k;
     k_fds := Fd.empty;
     k_vfs := MkVfs (vs_root (sn_vfs s)) (vs_cwd (sn_vfs s));
     k_mm := MkLA (mm_arenas (sn_mm s)) (mm_high_water (sn_mm s));
     k_boot_monotonic_ns := sn_boot_monotonic_ns s;
     k_brk := sn_brk s;
     k_args := sn_args s;
     k_env := sn_env s;
     k_rng_seed := sn_rng_seed s;
     k_signals := MkSignals (sg_actions (sn_signals s)) (sg_mask (sn_signals s)) (sg_alt_stack (sn_signals s));
     k_exit_code := sn_exit_code s;
     k_comm := sn_comm s;
     k_tid := k_tid k;
     k_tgid := k_tgid k;
     k_ps := MkProcess (next_pid ps) (children ps) (child_event ps)
               (rebuild_from_snapshot (next_loc h) (sn_futex_table s))
               (signals_pending ps) (tgid_registry ps) (ps_tgid ps) (resolver ps);
     k_cpu_ns := sn_cpu_ns s;
     k_heap := alloc_notifies (length (sn_futex_table s)) h;
     k_host := rng_from_seed (k_host k) (sn_rng_seed s) |}.

Definition apply_snapshot_kernel_state (s : KernelSnapshot) k : sres unit * kern W :=
  if negb (sn_format_version s =? SNAPSHOT_FORMAT_VERSION)
  then (SErr (FormatVersionMismatch (sn_format_version s) SNAPSHOT_FORMAT_VERSION), k)
  else
    match restore_entries (restore_fields k s) (sort_by (λ a b, fe_fd a <=? fe_fd b) (fd_entries (sn_fds s))) with
    | (SErr e, k) => (SErr e, k)
    | (SOk _, k) =>
      let t := foldl (λ t fd, set_cloexec t fd true) (k_fds k) (fd_cloexec (sn_fds s)) in
      (SOk tt, set_fds k (MkFdTable (table t) (fd_next_fd (sn_fds s)) (cloexec t)))
    end.

(** ** Thawing: linear memory *)

(** The largest page index; [None] without pages. *)
Definition max_index (pages : list MemoryPageSnapshot) : option Z :=
  match pages with
  | [] => None
  | p :: pages => Some (foldl (λ m p, Z.max m (page_index p)) (page_index p) pages)
  end.

Fixpoint copy_pages (m : gmem) (pages : list MemoryPageSnapshot) : sres unit * gmem :=
  match pages with
  | [] => (SOk tt, m)
  | p :: pages =>
    let start := page_index p * PAGE_SIZE_BYTES in
    let e := start + Z.of_nat (length (page_bytes p)) in
    if gm_size m <? e then (SErr (IoError "page chunk-copy"), m)
    else copy_pages (write_bytes m start (page_bytes p)) pages
  end.

(** Grow the memory to hold the last page, then copy the pages in; the code
    for a shared memory does the same. *)
Definition apply_pages (pages : list MemoryPageSnapshot) (m : gmem) (w : W) : sres unit * gmem * W :=
  match max_index pages with
  | None => (SErr Invalid, m, w)
  | Some max_idx =>
    let target_pages := max_idx + 1 in
    let cur_pages := gm_size m / PAGE_SIZE_BYTES in
    let '(ok, m, w) :=
      if cur_pages <? target_pages then
        let delta := target_pages - cur_pages in
        let '(ok, w) := memory_grow w (gm_size m) delta in
        (ok, if ok then grow_bytes m (delta * PAGE_SIZE_BYTES) else m, w)
      else (true, m, w) in
    if negb ok then (SErr (IoError "mem.grow"), m, w)
    else let '(r, m) := copy_pages m pages in (r, m, w)
  end.

Definition apply_snapshot_to_memory (s : KernelSnapshot) (m : gmem) (w : W) : sres unit * gmem * W :=
  if bool_decide (length (sn_pages s) = 0%nat) then (SOk tt, m, w) else apply_pages (sn_pages s) m w.

Definition apply_snapshot_to_shared_memory (s : KernelSnapshot) (m : gmem) (w : W) : sres unit * gmem * W :=
  apply_pages (sn_pages s) m w.

Definition dispatch_memory_apply (s : KernelSnapshot) k : sres unit * kern W :=
  if bool_decide (length (sn_pages s) = 0%nat) then (SOk tt, k)
  else match memory_kind k with
  | Err _ => (SErr (IoError "kernel.memory_kind()"), k)
  | Ok (Owned m) =>
    let '(r, m, w) := apply_snapshot_to_memory s m (k_host k) in
    (r, set_memory (set_host k w) (Some (Owned m)))
  | Ok (Shared m) =>
    let '(r, m, w) := apply_snapshot_to_shared_memory s m (k_host k) in
    (r, set_memory (set_host k w) (Some (Shared m)))
  end.

Definition apply_snapshot (s : KernelSnapshot) k : sres unit * kern W :=
  match apply_snapshot_kernel_state s k with
  | (SErr e, k) => (SErr e, k)
  | (SOk _, k) => dispatch_memory_apply s k
  end.

(** ** Inherited listeners *)

Definition inherited_fds (s : KernelSnapshot) : list Z :=
  fe_fd <$> List.filter (λ e, is_inherited (fe_kind e)) (fd_entries (sn_fds s)).

(** The listeners as descriptor and socket location. *)
Definition apply_snapshot_inherited_listeners (s : KernelSnapshot) k (listeners : list (Z * Z)) : kern W :=
  foldl (λ k l,
    if bool_decide (l.1 ∈ inherited_fds s)
    then set_fds k (insert_at (k_fds k) l.1 (RSocket l.2)).2
    else k) k listeners.

(** [SocketInner::from_inherited_listener]. *)
Definition from_inherited_listener (nr nw : Z) (l : handle) (b : SockAddr) : SocketInner :=
  sock_set_inherited (from_tcp_listener nr nw l b true false).

(** [Kernel::attach_inherited_listeners]: target and source descriptors in,
    the sockets that were made out. *)
Fixpoint attach_inherited_listeners k (fds : list (Z * Z)) : list (Z * Z) * kern W :=
  match fds with
  | [] => ([], k)
  | (target_fd, source_fd) :: fds =>
    if source_fd <? 0 then attach_inherited_listeners k fds
    else match dup_listener (k_host k) source_fd with
    | (None, w) => attach_inherited_listeners (set_host k w) fds
    | (Some l, w) =>
      match tcp_from_std w l with
      | (NetErr _, w) => attach_inherited_listeners (set_host k w) fds
      | (NetOk l, w) =>
        let k := set_host k w in
        match tcp_local_addr w l with
        | NetErr _ => attach_inherited_listeners k fds
        | NetOk a =>
          let b := match a with SAv4 port ip => SockV4 port ip | SAv6 port ip => SockV6 port ip end in
          let '(r, k) := install_sock k (λ nr nw, from_inherited_listener nr nw l b) in
          let k := set_fds k (insert_at (k_fds k) target_fd r).2 in
          let loc := match r with RSocket loc => loc | _ => 0 end in
          let '(out, k) := attach_inherited_listeners k fds in
          ((target_fd, loc) :: out, k)
        end
      end
    end
  end.

(** ** Files *)

Context `{Codec} `{Digest}.

Definition encode_snapshot (s : KernelSnapshot) : sres bytes :=
  match to_stdvec s with Some bs => SOk bs | None => SErr Postcard end.

Definition decode_snapshot (bs : bytes) : sres KernelSnapshot :=
  match from_bytes bs with Some s => SOk s | None => SErr Postcard end.

Definition write_snapshot_file (w : W) (p : path) (s : KernelSnapshot) : sres unit * W :=
  match encode_snapshot s with
  | SErr e => (SErr e, w)
  | SOk bs =>
    match fs_write w p bs with
    | (IoOk _, w) => (SOk tt, w)
    | (IoErr _, w) => (SErr (IoError "write snapshot"), w)
    end
  end.

Definition read_snapshot_file (w : W) (p : path) : sres KernelSnapshot :=
  if negb (fs_exists w p) then SErr MissingPath
  else match fs_read w p with
  | IoErr _ => SErr (IoError "read snapshot")
  | IoOk bs => decode_snapshot bs
  end.

Definition verify_module_hash (s : KernelSnapshot) (wasm_bytes : bytes) : sres unit :=
  let computed := sha256 wasm_bytes in
  if bool_decide (sn_module_sha256 s = replicate 32 0) then SOk tt
  else if negb (bool_decide (computed = sn_module_sha256 s))
  then SErr (ModuleHashMismatch (sn_module_sha256 s) computed)
  else SOk tt.

(** ** The syscall (src/sys/process.rs) *)

Definition snapshot_syscall k (a : args) : Z * kern W :=
  let snap_path_ptr := a0 a in
  if snap_path_ptr =? 0 then (- EFAULT, k)
  else
    let! snap_path := guest_str k snap_path_ptr 4096 on k;
    let snap := try_to_snapshot k in
    match write_snapshot_file (k_host k) (components snap_path) snap with
    | (SErr _, w) => (- EIO, set_host k w)
    | (SOk _, w) =>
      match encode_snapshot snap with
      | SErr _ => (- EIO, set_host k w)
      | SOk bs => (Z.of_nat (length bs), set_host k w)
      end
    end.

End apply.

(** ** Hosts *)

(** No files; listeners are handed out and have an address. *)
#[global] Instance null_snap : SnapHost NullHost := {
  fs_write w _ _ := (IoErr PermissionDenied, w);
  fs_read _ _ := IoErr NotFound;
  fs_exists _ _ := false;
  rng_from_seed w _ := w;
  std_tcp_bind w _ := (NetErr NetAddrInUse, w);
  std_set_reuseaddr w _ _ := (NetOk tt, w);
  tcp_from_std w h := (NetOk h, w);
  tcp_local_addr _ _ := NetOk (SAv4 8080 [127; 0; 0; 1]);
  dup_listener w fd := (Some fd, w);
}.

(** The host with one file: snapshots go there. *)
#[global] Instance one_file_snap : SnapHost OneFile := {
  fs_write w _ bs := (IoOk tt, MkOneFile bs 0);
  fs_read w _ := IoOk (of_data w);
  fs_exists _ _ := true;
  rng_from_seed w _ := w;
  std_tcp_bind w _ := (NetErr NetAddrInUse, w);
  std_set_reuseaddr w _ _ := (NetOk tt, w);
  tcp_from_std w h := (NetOk h, w);
  tcp_local_addr _ _ := NetErr NetOther;
  dup_listener w _ := (None, w);
}.
