(* ===== verification/SnapMem.v ===== *)
(** * Snapshots of linear memory

    The pages [collect_pages] records are the non-zero pages of the memory,
    each under its index; copying them over a memory of zeros gives back every
    byte. The declarative list of pages is [pages_of]. *)

From S2P Require Import Prelude Word Errno GuestMem Text Host Net Udp Fd Kernel Snapshot.

(** A Wasm memory: a whole number of pages, nothing stored outside. *)
Record wasm_mem (m : gmem) (n : Z) : Prop := {
  wm_pages : 0 ≤ n;
  wm_size : gm_size m = n * PAGE_SIZE_BYTES;
  wm_bound i : is_Some (gm_bytes m !! i) → 0 ≤ i < gm_size m;
}.

Definition page_at (m : gmem) (i : Z) : bytes := read_bytes m (i * PAGE_SIZE_BYTES) PAGE_SIZE_BYTES.

Definition nonzero_page (m : gmem) (i : Z) : option MemoryPageSnapshot :=
  if is_zero_page (page_at m i) then None else Some (MkPage i (page_at m i)).

(** The non-zero pages among [first .. first + n]. *)
Definition pages_of (m : gmem) (first n : Z) : list MemoryPageSnapshot :=
  omap (nonzero_page m) (seqZ first n).

Lemma is_zero_page_spec bs : is_zero_page bs = true ↔ ∀ i, default 0 (bs !! i) = 0.
Proof.
  unfold is_zero_page. rewrite negb_true_iff, <- not_true_iff_false. split.
  - intros Hn i. destruct (bs !! i) as [b|] eqn:E; [simpl|done].
    destruct (decide (b = 0)) as [|Hb]; [done|]. destruct Hn. apply existsb_exists.
    exists b. split; [by eapply list_elem_of_In, list_elem_of_lookup_2|lia].
  - intros Hz Hex. apply existsb_exists in Hex as (b & Hb & Hne).
    apply list_elem_of_In, list_elem_of_lookup_1 in Hb as [i Hi].
    specialize (Hz i). rewrite Hi in Hz. simpl in Hz. lia.
Qed.

Lemma page_at_lookup m i j :
  0 ≤ j < PAGE_SIZE_BYTES → page_at m i !! Z.to_nat j = Some (read_byte m (i * PAGE_SIZE_BYTES + j)).
Proof. intros. by apply read_bytes_lookup. Qed.

Lemma page_at_byte m i j :
  0 ≤ j < PAGE_SIZE_BYTES →
  default 0 (page_at m i !! Z.to_nat j) = read_byte m (i * PAGE_SIZE_BYTES + j).
Proof. intros. by rewrite page_at_lookup. Qed.

Lemma length_page_at m i : Z.of_nat (length (page_at m i)) = PAGE_SIZE_BYTES.
Proof. by apply length_read_bytes. Qed.

(** The page and the offset of an address. *)
Lemma page_split i :
  0 ≤ i → i = i / PAGE_SIZE_BYTES * PAGE_SIZE_BYTES + i mod PAGE_SIZE_BYTES ∧
  0 ≤ i / PAGE_SIZE_BYTES ∧ 0 ≤ i mod PAGE_SIZE_BYTES < PAGE_SIZE_BYTES.
Proof.
  intros. pose proof (Z.div_mod i PAGE_SIZE_BYTES ltac:(done)).
  pose proof (Z.mod_pos_bound i PAGE_SIZE_BYTES ltac:(done)).
  pose proof (Z.div_pos i PAGE_SIZE_BYTES ltac:(done) ltac:(done)). lia.
Qed.

Lemma page_zero_byte m i :
  0 ≤ i → is_zero_page (page_at m (i / PAGE_SIZE_BYTES)) = true → read_byte m i = 0.
Proof.
  intros Hi Hz. destruct (page_split i Hi) as (He & ? & ?). rewrite is_zero_page_spec in Hz.
  specialize (Hz (Z.to_nat (i mod PAGE_SIZE_BYTES))). rewrite page_at_lookup in Hz by done.
  simpl in Hz. by rewrite <- He in Hz.
Qed.

Lemma is_zero_page_at m i :
  0 ≤ i → (∀ j, 0 ≤ j → read_byte m j = 0) → is_zero_page (page_at m i) = true.
Proof.
  intros Hi Hz. apply is_zero_page_spec. intros j.
  unfold page_at. rewrite !read_bytes_seqZ. destruct (_ !! j) as [b|] eqn:E; [simpl|done].
  apply list_lookup_fmap_Some in E as (x & -> & Hx). apply lookup_seqZ in Hx as [-> ?].
  apply Hz. unfold PAGE_SIZE_BYTES. lia.
Qed.

(** ** The scan finds exactly the non-zero pages *)

Lemma collect_chunks_pages m (n : nat) index :
  collect_chunks n index (read_bytes m (index * PAGE_SIZE_BYTES) (Z.of_nat n * PAGE_SIZE_BYTES)) =
  pages_of m index (Z.of_nat n).
Proof.
  revert index. induction n as [|n IH]; intros index; [done|].
  cbn [collect_chunks]. unfold pages_of. rewrite seqZ_cons by lia.
  assert (take (Z.to_nat PAGE_SIZE_BYTES)
            (read_bytes m (index * PAGE_SIZE_BYTES) (Z.of_nat (S n) * PAGE_SIZE_BYTES)) = page_at m index) as ->.
  { unfold page_at. rewrite (read_bytes_sub m (index * PAGE_SIZE_BYTES) (Z.of_nat (S n) * PAGE_SIZE_BYTES)
      (index * PAGE_SIZE_BYTES) PAGE_SIZE_BYTES) by (unfold PAGE_SIZE_BYTES; lia).
    rewrite Z.sub_diag. by rewrite drop_0. }
  assert (drop (Z.to_nat PAGE_SIZE_BYTES)
            (read_bytes m (index * PAGE_SIZE_BYTES) (Z.of_nat (S n) * PAGE_SIZE_BYTES)) =
          read_bytes m ((index + 1) * PAGE_SIZE_BYTES) (Z.of_nat n * PAGE_SIZE_BYTES)) as ->.
  { rewrite (read_bytes_sub m (index * PAGE_SIZE_BYTES) (Z.of_nat (S n) * PAGE_SIZE_BYTES)
      ((index + 1) * PAGE_SIZE_BYTES)) by (unfold PAGE_SIZE_BYTES; lia).
    replace ((index + 1) * PAGE_SIZE_BYTES - index * PAGE_SIZE_BYTES) with PAGE_SIZE_BYTES by lia.
    rewrite take_ge; [done|]. rewrite length_drop. apply Nat2Z.inj_le.
    rewrite Nat2Z.inj_sub_max, length_read_bytes by (unfold PAGE_SIZE_BYTES; lia).
    unfold PAGE_SIZE_BYTES. lia. }
  rewrite IH. cbn [omap list_omap]. replace (Z.pred (Z.of_nat (S n))) with (Z.of_nat n) by lia.
  change (Z.succ index) with (index + 1). unfold nonzero_page at 1. destruct (is_zero_page (page_at m index)); done.
Qed.

Lemma collect_pages_of m n : wasm_mem m n → collect_pages (read_bytes m 0 (gm_size m)) = pages_of m 0 n.
Proof.
  intros [Hn Hs _]. unfold collect_pages. rewrite length_read_bytes, Hs, Z.div_mul
    by (rewrite ?Hs; unfold PAGE_SIZE_BYTES; lia).
  pose proof (collect_chunks_pages m (Z.to_nat n) 0) as Hc. by rewrite Z2Nat.id in Hc.
Qed.

Lemma pages_of_elem m first n p :
  p ∈ pages_of m first n ↔
  first ≤ page_index p < first + n ∧ page_bytes p = page_at m (page_index p) ∧
  is_zero_page (page_bytes p) = false.
Proof.
  unfold pages_of. rewrite list_elem_of_omap. split.
  - intros (i & Hi & Hp). apply elem_of_seqZ in Hi. revert Hp. unfold nonzero_page.
    destruct (is_zero_page _) eqn:E; [done|]. intros Hp.
    by simplify_eq/=.
  - intros (Hi & Hb & Hz). exists (page_index p). rewrite elem_of_seqZ. split; [lia|].
    unfold nonzero_page. rewrite <- Hb, Hz. by destruct p.
Qed.

Lemma pages_of_nodup m first n : NoDup (page_index <$> pages_of m first n).
Proof.
  assert (page_index <$> pages_of m first n `sublist_of` seqZ first n) as Hs.
  { unfold pages_of. induction (seqZ first n) as [|i l IH]; [done|]. simpl. unfold nonzero_page at 1.
    destruct (is_zero_page _); simpl; [by apply sublist_cons|by apply sublist_skip]. }
  eapply sublist_NoDup; [apply NoDup_seqZ|done].
Qed.

Lemma page_beyond m n i : wasm_mem m n → n ≤ i → is_zero_page (page_at m i) = true.
Proof.
  intros [Hn Hs Hb] Hi. apply is_zero_page_spec. intros j.
  unfold page_at. rewrite !read_bytes_seqZ. destruct (_ !! j) as [b|] eqn:E; [simpl|done].
  apply list_lookup_fmap_Some in E as (x & -> & Hx). apply lookup_seqZ in Hx as [-> ?].
  unfold read_byte. destruct (gm_bytes m !! _) eqn:El; [|done].
  destruct (Hb (i * PAGE_SIZE_BYTES + Z.of_nat j)); [by eexists|].
  rewrite Hs in *. unfold PAGE_SIZE_BYTES in *. lia.
Qed.

(** Only the bytes matter, not how many zero pages follow them. *)
Lemma pages_of_same m m' n n' :
  wasm_mem m n → wasm_mem m' n' → (∀ i, 0 ≤ i → read_byte m' i = read_byte m i) →
  pages_of m' 0 n' = pages_of m 0 n.
Proof.
  intros Hm Hm' Hb.
  assert (∀ i, 0 ≤ i → page_at m' i = page_at m i) as Hp.
  { intros i Hi. unfold page_at. rewrite !read_bytes_seqZ. apply list_fmap_ext. intros j x Hx.
    apply lookup_seqZ in Hx as [-> ?]. apply Hb. unfold PAGE_SIZE_BYTES. lia. }
  assert (∀ m n k, wasm_mem m n → 0 ≤ k → pages_of m 0 (n + k) = pages_of m 0 n) as Hext.
  { clear. intros m n k Hm Hk. pose proof (wm_pages _ _ Hm). unfold pages_of. rewrite seqZ_app by lia.
    rewrite omap_app. assert (omap (nonzero_page m) (seqZ (0 + n) k) = []) as ->; [|by rewrite app_nil_r].
    apply elem_of_nil_inv. intros p Hin.
    apply (pages_of_elem m (0 + n) k) in Hin as (Hi & Hpb & Hz).
    by rewrite Hpb, (page_beyond m n) in Hz by (done || lia). }
  assert (∀ n, pages_of m' 0 n = pages_of m 0 n) as Heq.
  { intros l. unfold pages_of. apply list_omap_ext. apply Forall2_same_length_lookup. split; [done|].
    intros j x y Hx Hy. assert (x = y) as -> by congruence. apply lookup_seqZ in Hx as [-> ?].
    unfold nonzero_page. by rewrite Hp by lia. }
  destruct (decide (n ≤ n')).
  - replace n' with (n + (n' - n)) by lia. rewrite Heq. by apply Hext; [|lia].
  - rewrite <- (Hext m' n' (n - n')) by (done || lia). replace (n' + (n - n')) with n by lia. apply Heq.
Qed.

(** ** Copying the pages in *)

(** Whole pages that fit. *)
Definition pages_fit (l : list MemoryPageSnapshot) (size : Z) : Prop :=
  Forall (λ p, 0 ≤ page_index p ∧ (page_index p + 1) * PAGE_SIZE_BYTES ≤ size ∧
               Z.of_nat (length (page_bytes p)) = PAGE_SIZE_BYTES) l.

Lemma copy_pages_spec l m :
  pages_fit l (gm_size m) → NoDup (page_index <$> l) →
  ∃ m', copy_pages m l = (SOk tt, m') ∧ gm_size m' = gm_size m ∧
    (∀ i, is_Some (gm_bytes m' !! i) → is_Some (gm_bytes m !! i) ∨ 0 ≤ i < gm_size m) ∧
    (∀ x bs j, MkPage x bs ∈ l → 0 ≤ j < PAGE_SIZE_BYTES →
       read_byte m' (x * PAGE_SIZE_BYTES + j) = default 0 (bs !! Z.to_nat j)) ∧
    (∀ i, (∀ p, p ∈ l → ¬ page_index p * PAGE_SIZE_BYTES ≤ i < (page_index p + 1) * PAGE_SIZE_BYTES) →
       read_byte m' i = read_byte m i).
Proof.
  revert m. induction l as [|p l IH]; intros m Hf Hnd.
  { exists m. split_and!; try done; [by left|]. by intros ? ? ? []%not_elem_of_nil. }
  apply Forall_cons in Hf as ((Hi & He & Hlen) & Hf). apply NoDup_cons in Hnd as [Hni Hnd].
  cbn [copy_pages]. rewrite Hlen, (proj2 (Z.ltb_ge _ _)) by lia.
  destruct (IH (write_bytes m (page_index p * PAGE_SIZE_BYTES) (page_bytes p))) as
    (m' & -> & Hs & Hb & Hin & Hout); [done..|]. exists m'. split_and!; [done|done| | |].
  - intros i Hm. apply Hb in Hm as [Hm|?]; [|by right]. revert Hm. simpl.
    rewrite lookup_insert_bytes, Hlen. case_bool_decide; [right; lia|by left].
  - intros x bs j [<-|Hq]%elem_of_cons Hj; [|by apply Hin]. cbn [page_index page_bytes] in *. rewrite Hout.
    + rewrite read_byte_write_in by lia. do 3 f_equal. lia.
    + intros q Hq Hr. destruct Hni. replace x with (page_index q); [by apply list_elem_of_fmap_2|].
      unfold PAGE_SIZE_BYTES in *. lia.
  - intros i Hi'. rewrite Hout by (intros; apply Hi'; by right). apply read_byte_write_out.
    specialize (Hi' p ltac:(left)). lia.
Qed.

Lemma max_index_spec l x :
  max_index l = Some x → (∀ p, p ∈ l → page_index p ≤ x) ∧ ∃ p, p ∈ l ∧ page_index p = x.
Proof.
  destruct l as [|p l]; [done|]. cbn [max_index]. intros [= <-].
  assert (∀ a, a ≤ foldl (λ m p, Z.max m (page_index p)) a l ∧
    (∀ q, q ∈ l → page_index q ≤ foldl (λ m p, Z.max m (page_index p)) a l) ∧
    (foldl (λ m p, Z.max m (page_index p)) a l = a ∨
     ∃ q, q ∈ l ∧ page_index q = foldl (λ m p, Z.max m (page_index p)) a l)) as Hfold.
  { induction l as [|q l IH]; intros a; cbn [foldl].
    { split_and!; [lia|by intros ? ?%not_elem_of_nil|by left]. }
    destruct (IH (Z.max a (page_index q))) as (? & Hall & Hw). split_and!; [lia| |].
    - intros q' [->|?]%elem_of_cons; [lia|auto].
    - destruct Hw as [->|(q' & ? & <-)]; [|right; exists q'; split; [by right|done]].
      destruct (Z.max_spec a (page_index q)) as [[? ->]|[? ->]]; [right|by left].
      exists q. split; [left|done]. }
  destruct (Hfold (page_index p)) as (? & Hall & Hw). split.
  - intros q [->|?]%elem_of_cons; [lia|auto].
  - destruct Hw as [->|(q & ? & <-)]; [exists p; split; [left|done]|exists q; split; [by right|done]].
Qed.

(** Copying the pages of [m] over a memory [mg] that holds them: recorded
    pages get the bytes of [m], the others keep theirs. *)
Definition overlaid (m m0 m' : gmem) : Prop :=
  ∀ i, 0 ≤ i → read_byte m' i =
    if is_zero_page (page_at m (i / PAGE_SIZE_BYTES)) then read_byte m0 i else read_byte m i.

Lemma copy_pages_over m n mg n' :
  wasm_mem m n → wasm_mem mg n' → (∀ p, p ∈ pages_of m 0 n → page_index p < n') →
  ∃ m', copy_pages mg (pages_of m 0 n) = (SOk tt, m') ∧ wasm_mem m' n' ∧ overlaid m mg m'.
Proof.
  intros Hm [Hn' Hs' Hb'] Hle.
  destruct (copy_pages_spec (pages_of m 0 n) mg) as (m' & Hc & Hs & Hb & Hin & Hout).
  { apply Forall_forall. intros p Hp. pose proof (Hle p Hp) as Hpi.
    apply pages_of_elem in Hp as (? & -> & _). rewrite length_page_at, Hs'. unfold PAGE_SIZE_BYTES. lia. }
  { apply pages_of_nodup. }
  exists m'. split_and!; [done|split; [done|congruence|]|].
  { intros i Hi. rewrite Hs. apply Hb in Hi as [Hi|?]; auto. }
  intros i Hi. destruct (page_split i Hi) as (He & ? & ?).
  destruct (is_zero_page (page_at m (i / PAGE_SIZE_BYTES))) eqn:Ez.
  - apply Hout. intros p Hp Hpr. apply pages_of_elem in Hp as (_ & Hpb & Hnz).
    replace (page_index p) with (i / PAGE_SIZE_BYTES) in Hpb by (unfold PAGE_SIZE_BYTES in *; lia).
    congruence.
  - assert (i / PAGE_SIZE_BYTES < n).
    { destruct (decide (i / PAGE_SIZE_BYTES < n)); [done|]. by rewrite (page_beyond m n) in Ez by (done || lia). }
    assert (MkPage (i / PAGE_SIZE_BYTES) (page_at m (i / PAGE_SIZE_BYTES)) ∈ pages_of m 0 n) as Hp
      by (apply pages_of_elem; cbn [page_index page_bytes]; split; [lia|done]).
    rewrite He at 1 2. rewrite (Hin _ _ _ Hp) by done. by apply page_at_byte.
Qed.

Lemma grow_wasm m n d : 0 ≤ d → wasm_mem m n → wasm_mem (grow_bytes m (d * PAGE_SIZE_BYTES)) (n + d).
Proof.
  intros Hd [Hn Hs Hb]. split; cbn [gm_size gm_bytes grow_bytes]; [lia|lia|].
  intros i Hi. apply Hb in Hi. unfold PAGE_SIZE_BYTES in *. lia.
Qed.

Section apply_pages.
Context {W : Type} `{Host W}.

(** The memory grows to the last recorded page, no further; it is restored
    whenever it can be grown to the size the recorded one had. *)
Lemma apply_pages_spec m n m0 n0 (w : W) r m' w' :
  wasm_mem m n → wasm_mem m0 n0 → pages_of m 0 n ≠ [] →
  apply_pages (pages_of m 0 n) m0 w = (r, m', w') →
  (r = SOk tt → ∃ n', wasm_mem m' n' ∧ n0 ≤ n' ≤ Z.max n0 n ∧ overlaid m m0 m') ∧
  ((∀ w d, 0 < d → gm_size m0 + d * PAGE_SIZE_BYTES ≤ gm_size m → (memory_grow w (gm_size m0) d).1 = true) →
   r = SOk tt).
Proof.
  intros Hm Hm0 Hne. unfold apply_pages.
  destruct (max_index (pages_of m 0 n)) as [x|] eqn:Ex; [|by destruct (pages_of m 0 n)].
  apply max_index_spec in Ex as [Hle (px & Hpx & Hxe)]. pose proof Hpx as Hpx'.
  apply pages_of_elem in Hpx' as (Hr & _ & _).
  rewrite (wm_size _ _ Hm0), Z.div_mul by done.
  destruct (n0 <? x + 1) eqn:Eg; to_prop.
  - destruct (memory_grow w _ _) as [[] wg] eqn:Egr; cbn [negb].
    + pose proof (grow_wasm m0 n0 (x + 1 - n0) ltac:(lia) Hm0) as Hmg.
      destruct (copy_pages_over m n _ _ Hm Hmg) as (m'' & -> & Hm' & Ho).
      { intros p Hp. apply Hle in Hp. lia. }
      intros [= <- <- <-]. split; [|done]. intros _. eexists. split_and!; [exact Hm'|lia|lia|exact Ho].
    + intros [= <- <- <-]. split; [done|]. intros Hok.
      specialize (Hok w (x + 1 - n0)). rewrite (wm_size _ _ Hm), Egr in Hok.
      unfold PAGE_SIZE_BYTES in Hok. simpl in Hok. exfalso. discriminate Hok; lia.
  - destruct (copy_pages_over m n _ _ Hm Hm0) as (m'' & Hc & Hm' & Ho).
    { intros p Hp. apply Hle in Hp. lia. }
    cbn [negb]. rewrite Hc. intros [= <- <- <-]. split; [|done]. intros _. eexists. split_and!; [exact Hm'|lia|lia|exact Ho].
Qed.

End apply_pages.
