(* ===== verification/KernInv.v ===== *)
(** * The kernel invariant

    [kern_wf] is the type invariant of the kernel state: guest memory is
    written only inside its bounds, every bound descriptor is below [next_fd]
    and stands for a shared object that exists, socket addresses have the
    size of their family, the working directory is inside the root, the
    thread name has its 16 bytes, process and thread ids are [i32]s, the
    allocator's mark is a [u32] and the resolver's cache respects its cap.
    Each syscall file proves its handlers keep it; this file has the lemmas for
    the state updates they are made of.

    [next_fd] wraps to zero after descriptor [u32::MAX]; a call that binds
    descriptors keeps the invariant unless that happened ([3 <= next_fd]). *)

From S2P Require Import Prelude Word Errno GuestMem Text Path Host Udp Vfs Fd Futex LinearAllocator Resolver Kernel.

(** An epoll instance files every entry under its own descriptor. *)
Definition epoll_ok (e : EpollInner) : Prop := ∀ fd x, entries e !! fd = Some x → ee_fd x = fd.

(** The object a resource refers to exists. *)
Definition res_ok (h : heap) (r : Resource) : Prop :=
  match r with
  | RStdin x | RPipeRead x => is_Some (pipes h !! pr_pipe x)
  | RStdout x | RStderr x | RPipeWrite x => is_Some (pipes h !! pw_pipe x)
  | RFile l => is_Some (files h !! l)
  | RSocket l => is_Some (socks h !! l)
  | REpoll e => epoll_ok e
  | REventFd _ => True
  end.

(** The addresses of a socket have the size of their family, and a path fits
    the 108 bytes of [sun_path] with its terminator. *)
Definition inet_len (a : SocketAddr) : Prop :=
  match a with SAv4 _ ip => length ip = 4%nat | SAv6 _ ip => length ip = 16%nat end.
Definition sockaddr_len (a : SockAddr) : Prop :=
  match a with
  | SockV4 _ ip => length ip = 4%nat
  | SockV6 _ ip => length ip = 16%nat
  | SockUnix p => (length p < 108)%nat
  end.
Record sock_ok (s : SocketInner) : Prop := {
  so_bound a : bound s = Some a → sockaddr_len a;
  so_peer a : peer_addr s = Some a → inet_len a;
  so_udp u a : udp s = Some u → u_bound_addr u = Some a → inet_len a;
  so_peer_unix p : peer_addr_unix s = Some p → (length p < 108)%nat;
  so_path p : unix s ≫= ux_path = Some p → (length p < 108)%nat;
}.

Lemma sock_ok_same s s' :
  sock_ok s → bound s' = bound s → peer_addr s' = peer_addr s → udp s' = udp s →
  peer_addr_unix s' = peer_addr_unix s → unix s' ≫= ux_path = unix s ≫= ux_path → sock_ok s'.
Proof. intros [] Hb Hp Hu Hq Hx. split; rewrite ?Hb, ?Hp, ?Hu, ?Hq, ?Hx; eauto. Qed.

Lemma sock_ok_new nr nw kd nb : sock_ok (SocketInner_new nr nw kd nb).
Proof. by split. Qed.

(** Objects sit below the allocation counter. *)
Record heap_wf (h : heap) : Prop := {
  hw_pipes l : is_Some (pipes h !! l) → l < next_loc h;
  hw_files l : is_Some (files h !! l) → l < next_loc h;
  hw_socks l : is_Some (socks h !! l) → l < next_loc h;
  hw_sock_ok l s : socks h !! l = Some s → sock_ok s;
}.

Lemma sock_at_ok h l : heap_wf h → sock_ok (sock_at h l).
Proof.
  intros Hh. unfold sock_at. destruct (socks h !! l) as [s|] eqn:E; simpl; [|apply sock_ok_new].
  by eapply hw_sock_ok.
Qed.

(** No object disappears. *)
Record heap_le (h h' : heap) : Prop := {
  hl_pipes l : is_Some (pipes h !! l) → is_Some (pipes h' !! l);
  hl_files l : is_Some (files h !! l) → is_Some (files h' !! l);
  hl_socks l : is_Some (socks h !! l) → is_Some (socks h' !! l);
}.

#[global] Instance heap_le_preorder : PreOrder heap_le.
Proof. split; [by split|]. intros h1 h2 h3 [] []. split; eauto. Qed.

Lemma res_ok_mono h h' r : heap_le h h' → res_ok h r → res_ok h' r.
Proof. intros [Hp Hf Hs]. destruct r; simpl; auto. Qed.

(** Memory holds nothing outside its bounds. *)
Definition mem_bounds (m : gmem) : Prop :=
  0 ≤ gm_size m ≤ 2 ^ 32 ∧ ∀ i, is_Some (gm_bytes m !! i) → 0 ≤ i < gm_size m.

(** What the threads of a process share: ids are [i32]s, counts are
    [usize]s. *)
Record ps_ok (ps : ProcessState) : Prop := {
  po_next : is_i 32 (next_pid ps);
  po_children : map_Forall (λ pid _, is_i 32 pid) (children ps);
  po_futex : counts_ok (futex_table ps);
  po_resolver : resolver_ok (resolver ps);
}.

Record kern_wf {W} (k : kern W) : Prop := {
  kw_mem m : k_memory k = Some (Owned m) → mem_bounds m;
  kw_fds : fdt_wf (k_fds k);
  kw_res fd r : table (k_fds k) !! fd = Some r → res_ok (k_heap k) r;
  kw_heap : heap_wf (k_heap k);
  kw_vfs : vfs_wf (k_vfs k);
  kw_comm : length (k_comm k) = 16%nat;
  kw_ps : ps_ok (k_ps k);
  kw_mm : is_u 32 (high_water (k_mm k));
  kw_ids : is_i 32 (k_tid k) ∧ is_i 32 (k_tgid k);
}.

(** ** Heap updates *)

Lemma set_pipe_wf h l p : heap_wf h → is_Some (pipes h !! l) → heap_wf (set_pipe h l p) ∧ heap_le h (set_pipe h l p).
Proof.
  intros [Hp Hf Hs Ho] Hl. split; split; simpl; auto; intros l'; rewrite lookup_insert_is_Some'; [|tauto].
  intros [<-|?]; auto.
Qed.

Lemma set_file_wf h l f : heap_wf h → is_Some (files h !! l) → heap_wf (set_file h l f) ∧ heap_le h (set_file h l f).
Proof.
  intros [Hp Hf Hs Ho] Hl. split; split; simpl; auto; intros l'; rewrite lookup_insert_is_Some'; [|tauto].
  intros [<-|?]; auto.
Qed.

Lemma set_sock_wf h l s :
  heap_wf h → is_Some (socks h !! l) → sock_ok s → heap_wf (set_sock h l s) ∧ heap_le h (set_sock h l s).
Proof.
  intros [Hp Hf Hs Ho] Hl Hok. split; split; simpl; auto; intros l'.
  - rewrite lookup_insert_is_Some'. intros [<-|?]; auto.
  - intros s'. rewrite lookup_insert_Some. intros [[_ <-]|[_ ?]]; eauto.
  - rewrite lookup_insert_is_Some'. tauto.
Qed.

Lemma new_notify_wf h n h' : new_notify h = (n, h') → heap_wf h → heap_wf h' ∧ heap_le h h'.
Proof.
  intros [= <- <-] [Hp Hf Hs Ho]. split; split; simpl; auto; intros l Hl.
  - apply Hp in Hl. lia.
  - apply Hf in Hl. lia.
  - apply Hs in Hl. lia.
Qed.

Lemma notify_waiters_wf h n : heap_wf h → heap_wf (notify_waiters h n) ∧ heap_le h (notify_waiters h n).
Proof. intros [Hp Hf Hs Ho]. by split. Qed.

Lemma notify_one_wf h n : heap_wf h → heap_wf (notify_one h n) ∧ heap_le h (notify_one h n).
Proof. intros [Hp Hf Hs Ho]. by split. Qed.

Lemma new_file_wf h f l h' :
  new_file h f = (l, h') → heap_wf h → heap_wf h' ∧ heap_le h h' ∧ is_Some (files h' !! l).
Proof.
  intros [= <- <-] [Hp Hf Hs Ho]. split_and!; [split|split|]; simpl; auto; try intros l'.
  - intros Hl. apply Hp in Hl. lia.
  - rewrite lookup_insert_is_Some'. intros [<-|Hl]; [lia|]. apply Hf in Hl. lia.
  - intros Hl. apply Hs in Hl. lia.
  - rewrite lookup_insert_is_Some'. tauto.
  - rewrite lookup_insert_eq. by eexists.
Qed.

Lemma make_pipe_wf h rd wr h' :
  make_pipe h = (rd, wr, h') → heap_wf h →
  heap_wf h' ∧ heap_le h h' ∧ is_Some (pipes h' !! pr_pipe rd) ∧ pr_pipe rd = pw_pipe wr ∧
  pipe_at h' (pr_pipe rd) = MkPipe [] false false.
Proof.
  unfold make_pipe. simpl. intros [= <- <- <-] [Hp Hf Hs Ho].
  split_and!; [split|split| |done|]; simpl; auto; try intros l'.
  - rewrite lookup_insert_is_Some'. intros [<-|Hl]; [lia|]. apply Hp in Hl. lia.
  - intros Hl. apply Hf in Hl. lia.
  - intros Hl. apply Hs in Hl. lia.
  - rewrite lookup_insert_is_Some'. tauto.
  - rewrite lookup_insert_eq. by eexists.
  - unfold pipe_at. simpl. by rewrite lookup_insert_eq.
Qed.

(** ** Kernel updates *)

Section updates.
Context {W : Type}.
Implicit Types k : kern W.

Lemma insert_bytes_bounds p bs d (n : Z) :
  (∀ i, is_Some (d !! i) → 0 ≤ i < n) → 0 ≤ p → p + Z.of_nat (length bs) ≤ n →
  ∀ i, is_Some (insert_bytes p bs d !! i) → 0 ≤ i < n.
Proof.
  intros Hd Hp Hn i. rewrite lookup_insert_bytes. case_bool_decide; [lia|auto].
Qed.

Lemma kern_wf_mem_put k p bs :
  kern_wf k → in_memory k p (Z.of_nat (length bs)) → kern_wf (mem_put k p bs).
Proof.
  intros [Hm Hf Hr Hh Hv Hcm Hps Hmm Hid] (m & Hk & ? & ? & ? & ?). unfold mem_put. rewrite Hk.
  split; simpl; try done. intros m' [= <-]. destruct (Hm m Hk) as [? Hb]. split; [done|].
  simpl. by apply insert_bytes_bounds.
Qed.

Lemma kern_wf_guest_write k ptr bs k' : kern_wf k → guest_write k ptr bs = Ok k' → kern_wf k'.
Proof. intros Hk [? ->]%guest_write_Ok. by apply kern_wf_mem_put. Qed.

Lemma kern_wf_set_host k w : kern_wf k → kern_wf (set_host k w).
Proof. intros []. by split. Qed.
Lemma kern_wf_set_mm k x : kern_wf k → is_u 32 (high_water x) → kern_wf (set_mm k x).
Proof. intros [] ?. by split. Qed.
Lemma kern_wf_set_signals k x : kern_wf k → kern_wf (set_signals k x).
Proof. intros []. by split. Qed.
Lemma kern_wf_set_exit_code k x : kern_wf k → kern_wf (set_exit_code k x).
Proof. intros []. by split. Qed.
Lemma kern_wf_set_comm k x : kern_wf k → length x = 16%nat → kern_wf (set_comm k x).
Proof. intros [] ?. by split. Qed.
Lemma kern_wf_set_ps k x : kern_wf k → (ps_ok (k_ps k) → ps_ok x) → kern_wf (set_ps k x).
Proof. intros [] Hx. split; try done. by apply Hx. Qed.
Lemma kern_wf_set_vfs k v : kern_wf k → vfs_wf v → kern_wf (set_vfs k v).
Proof. intros [] ?. by split. Qed.

Lemma kern_wf_set_heap k h :
  kern_wf k → heap_wf h ∧ heap_le (k_heap k) h → kern_wf (set_heap k h).
Proof. intros [Hm Hf Hr Hh Hv Hcm Hps Hmm Hid] [? ?]. split; simpl; try done. intros. eapply res_ok_mono; eauto. Qed.

Lemma kern_wf_put k fd r :
  kern_wf k → is_Some (table (k_fds k) !! fd) → res_ok (k_heap k) r →
  kern_wf (set_fds k (put (k_fds k) fd r)).
Proof.
  intros [Hm Hf Hr Hh Hv Hcm Hps Hmm Hid] Hfd Hres. split; simpl; try done; [by apply put_wf|].
  intros fd' r'. rewrite lookup_insert_Some. intros [[_ <-]|[_ ?]]; eauto.
Qed.

Lemma kern_wf_close k fd x t : kern_wf k → Fd.close (k_fds k) fd = (x, t) → kern_wf (set_fds k t).
Proof.
  intros [Hm Hf Hr Hh Hv Hcm Hps Hmm Hid] Hc. split; simpl; try done; [by eapply close_wf|].
  intros fd' r'. revert Hc. unfold Fd.close. case_bool_decide; intros [= <- <-]; [|by apply Hr].
  simpl. rewrite lookup_delete_Some. intros [_ ?]. eauto.
Qed.

Lemma kern_wf_cloexec k fd b : kern_wf k → kern_wf (set_fds k (set_cloexec (k_fds k) fd b)).
Proof. intros [Hm Hf Hr Hh Hv Hcm Hps Hmm Hid]. by split. Qed.

Lemma get_Ok t fd r : get t fd = Ok r ↔ table t !! fd = Some r.
Proof. unfold get. destruct (table t !! fd); simpl; naive_solver. Qed.

Lemma kern_wf_get k fd r : kern_wf k → get (k_fds k) fd = Ok r → res_ok (k_heap k) r.
Proof. intros Hk ?%get_Ok. by eapply kw_res. Qed.

(** [insert], unless the counter wrapped. *)
Lemma insert_wf' t r : fdt_wf t → 3 ≤ next_fd (insert t r).2 → fdt_wf (insert t r).2.
Proof.
  intros Ht Hn. apply insert_wf; [done|]. destruct Ht as [Hb _].
  destruct (decide (next_fd t = U32_MAX)) as [He|]; [|lia].
  simpl in Hn. rewrite He in Hn. vm_compute in Hn. by destruct Hn.
Qed.

Lemma kern_wf_insert k r fd t :
  kern_wf k → res_ok (k_heap k) r → insert (k_fds k) r = (fd, t) → 3 ≤ next_fd t →
  kern_wf (set_fds k t).
Proof.
  intros [Hm Hf Hr Hh Hv Hcm Hps Hmm Hid] Hres Hi Hn.
  assert (t = (insert (k_fds k) r).2) as -> by by rewrite Hi.
  split; simpl; try done; [by apply insert_wf'|].
  intros fd' r'. simpl. rewrite lookup_insert_Some. intros [[_ <-]|[_ ?]]; eauto.
Qed.

(** Binding at a chosen descriptor, unless the counter wrapped. *)
Lemma kern_wf_bind_at k fd r c :
  kern_wf k → res_ok (k_heap k) r → 0 ≤ fd ≤ U32_MAX →
  let t := MkFdTable (<[fd := r]> (table (k_fds k)))
             (if next_fd (k_fds k) <=? fd then as_u32 (fd + 1) else next_fd (k_fds k)) c in
  3 ≤ next_fd t → kern_wf (set_fds k t).
Proof.
  intros [Hm Hf Hr Hh Hv Hcm Hps Hmm Hid] Hres Hfd t Hn. split; try done.
  - apply (bind_at_wf (k_fds k) fd r); [done|]. destruct (decide (fd = U32_MAX)) as [->|]; [|lia].
    exfalso. subst t. simpl in Hn. destruct Hf as [Hb _].
    rewrite (proj2 (Z.leb_le _ _)) in Hn by lia. vm_compute in Hn. by destruct Hn.
  - intros fd' r'. simpl. rewrite lookup_insert_Some. intros [[_ <-]|[_ ?]]; eauto.
Qed.

End updates.

#[export] Hint Resolve kern_wf_mem_put kern_wf_guest_write kern_wf_set_host kern_wf_set_mm
  kern_wf_set_signals kern_wf_set_exit_code kern_wf_set_comm kern_wf_set_ps kern_wf_set_heap
  kern_wf_cloexec kern_wf_get set_pipe_wf set_file_wf set_sock_wf notify_waiters_wf
  kw_heap kw_fds kw_vfs : libos.

(** The resource a successful lookup found, in the form the heap lemmas use. *)
Ltac use_res Hk Hget :=
  let H := fresh "Hres" in
  pose proof (kern_wf_get _ _ _ Hk Hget) as H; simpl in H.

(** ** Handlers *)

(** A handler that keeps the invariant. *)
Class Preserves {W} (h : kern W → args → Z * kern W) : Prop :=
  preserves k a r k' : kern_wf k → h k a = (r, k') → kern_wf k'.

(** One that binds descriptors keeps it unless [next_fd] wrapped. *)
Class PreservesFd {W} (h : kern W → args → Z * kern W) : Prop :=
  preserves_fd k a r k' : kern_wf k → h k a = (r, k') → 3 ≤ next_fd (k_fds k') → kern_wf k'.

Class PreservesOut {W} (h : kern W → args → outcome (Z * kern W)) : Prop :=
  preserves_out k a r k' : kern_wf k → h k a = Return (r, k') → 3 ≤ next_fd (k_fds k') → kern_wf k'.

Lemma preserves_fd_of {W} (h : kern W → args → Z * kern W) : Preserves h → PreservesFd h.
Proof. intros Hp k a r k' Hk Hh _. by eapply Hp. Qed.

Lemma in_memory_le {W} (k : kern W) ptr len n :
  in_memory k ptr len → 0 ≤ n ≤ len → in_memory k ptr n.
Proof. intros (m & ? & ? & ? & ? & ?) ?. exists m. split_and!; try done; lia. Qed.

(** ** Initial state *)

Lemma heap_empty_wf : heap_wf heap_empty.
Proof.
  split; [intros l [? Hl]..|intros l s Hl]; simpl in Hl; by rewrite lookup_empty in Hl.
Qed.

Lemma stdio_heap_wf h t h' :
  with_buffered_stdio h = (t, h') → heap_wf h →
  heap_wf h' ∧ heap_le h h' ∧ ∀ fd r, table t !! fd = Some r → res_ok h' r.
Proof.
  unfold with_buffered_stdio. destruct (make_pipe h) as [[rd wr] h1] eqn:E1.
  destruct (make_pipe h1) as [[rd2 wr2] h2] eqn:E2. intros [= <- <-] Hh.
  destruct (make_pipe_wf _ _ _ _ E1 Hh) as (Hh1 & Hle1 & Hs1 & He1 & _).
  destruct (make_pipe_wf _ _ _ _ E2 Hh1) as (Hh2 & Hle2 & Hs2 & He2 & _).
  split_and!; [done|by transitivity h1|]. intros fd r. simpl.
  rewrite !lookup_insert_Some, lookup_singleton_Some.
  intros [[_ <-]|[_ [[_ <-]|[_ [_ <-]]]]]; simpl.
  - by apply (hl_pipes _ _ Hle2).
  - rewrite <- He1. by apply (hl_pipes _ _ Hle2).
  - by rewrite <- He2.
Qed.

Lemma new_inner_wf {W} arguments env v seed (w : W) m :
  vfs_wf v → mem_bounds m → kern_wf (attach_memory (new_inner arguments env v seed w) m).
Proof.
  intros Hv Hm. unfold attach_memory, new_inner.
  destruct (with_buffered_stdio heap_empty) as [t h] eqn:E.
  pose proof (stdio_wf heap_empty) as Ht. rewrite E in Ht.
  destruct (stdio_heap_wf _ _ _ E heap_empty_wf) as (Hh & _ & Hr).
  destruct (new_notify h) as [ev h'] eqn:En. destruct (new_notify_wf _ _ _ En Hh) as [Hh' Hle].
  split; simpl; try done.
  - by intros m' [= <-].
  - intros. eapply res_ok_mono; eauto.
Qed.

Lemma sample_kern_wf : kern_wf sample_kern.
Proof.
  apply new_inner_wf; [apply sample_vfs_wf|]. split; [simpl; lia|].
  intros i [? Hi]. simpl in Hi. by rewrite lookup_empty in Hi.
Qed.
