(* ===== verification/SysMemory.v ===== *)
(** * Memory syscalls (src/sys/memory.rs)

    [mmap], [munmap], [mremap], [brk] and the two no-ops, over the allocator
    of [LinearAllocator] and the linear memory of [Kernel]. [mm_ok k live]
    extends the allocator's invariant to the kernel: the memory is attached,
    smaller than 4 GiB and reaches up to the high-water mark. *)

From S2P Require Import Prelude Word Errno GuestMem Text Host Arena LinearAllocator Vfs Fd Kernel KernInv.

Definition MREMAP_MAYMOVE : Z := 1.
Definition MREMAP_FIXED : Z := 2.

Section syscalls.
Context {W : Type} `{Host W}.
Implicit Types k : kern W.

Definition mem_size k : Z := match memory k with Ok m => gm_size m | Err _ => 0 end.

(** [usize::try_from(x)] with [n > 0]. *)
Definition positive_usize (x : Z) : result Z :=
  match usize_try_from x with
  | Some n => if 0 <? n then Ok n else Err (- EINVAL)
  | None => Err (- EINVAL)
  end.

(** [mem.grow(pages)]: [None] when it fails. *)
Definition grow_memory k (pages : Z) : bool * kern W :=
  match memory k with
  | Err _ => (false, k)
  | Ok m =>
    let '(ok, w) := memory_grow (k_host k) (gm_size m) pages in
    let k := set_host k w in
    if ok then (true, set_memory k (Some (Owned (grow_bytes m (pages * PAGE_SIZE)))))
    else (false, k)
  end.

(** [bytes[start..start + len].fill(0)] when the range ends inside. *)
Definition zero_fill k (start len : Z) : kern W :=
  match memory k with
  | Ok m => if start + len <=? gm_size m
            then set_memory k (Some (Owned (zero_range m start len))) else k
  | Err _ => k
  end.

Definition mmap k (a : args) : Z * kern W :=
  let! len := positive_usize (a1 a) on k;
  let prot := as_i32 (a2 a) in
  let flags := as_i32 (a3 a) in
  let fd := a4 a in
  let off := a5 a in
  let! _ := memory k on k;
  let cur := mem_size k in
  let '(decision, mm) := LinearAllocator.mmap (k_mm k) cur len prot flags fd off in
  let k := set_mm k mm in
  let '(ok, k) := match decision with
                  | NeedGrow pages => grow_memory k pages
                  | _ => (true, k)
                  end in
  if negb ok then (- ENOMEM, k)
  else
    let cur2 := mem_size k in
    let '(decision, mm) := LinearAllocator.mmap (k_mm k) cur2 len prot flags fd off in
    let k := set_mm k mm in
    match decision with
    | MErr e => (e, k)
    | NeedGrow _ => (- ENOMEM, k)
    | MOk addr => (addr, zero_fill k addr len)
    end.

Definition munmap k (a : args) : Z * kern W :=
  match u32_try_from (a0 a) with
  | None => (- EINVAL, k)
  | Some addr =>
    match usize_try_from (a1 a) with
    | None => (- EINVAL, k)
    | Some len =>
      let '(r, mm) := LinearAllocator.munmap (k_mm k) addr len in (r, set_mm k mm)
    end
  end.

Definition mprotect : Z := 0.
Definition madvise : Z := 0.
Definition brk k (a : args) : Z := LinearAllocator.brk (k_mm k).

Definition mremap k (a : args) : Z * kern W :=
  match u32_try_from (a0 a) with
  | None => (- EINVAL, k)
  | Some old =>
    let! old_len := positive_usize (a1 a) on k;
    let! new_len := positive_usize (a2 a) on k;
    let flags := as_i32 (a3 a) in
    let new_addr := as_u32 (a4 a) in
    if negb (Z.land flags (Z.lor MREMAP_MAYMOVE MREMAP_FIXED) =? 0) then (- ENOSYS, k)
    else if negb (new_addr =? 0) then (- ENOSYS, k)
    else if new_len <=? old_len then (old, k)
    else
      let '(r, mm) := grow_in_place (k_mm k) old old_len new_len in
      (match r with Ok addr => addr | Err e => e end, set_mm k mm)
  end.

(** ** Invariant *)

(** A 32-bit linear memory has at most 65536 pages. *)
Class Memory32 : Prop :=
  memory_grow_bound w size pages w' :
    memory_grow w size pages = (true, w') → 0 ≤ pages → size + pages * PAGE_SIZE ≤ 2 ^ 32.

Record mm_ok k (live : list block) : Prop := {
  mo_mem : ∃ m, k_memory k = Some (Owned m) ∧ gmem_wf m ∧ gm_size m < 2 ^ 32 ∧
                (arenas (k_mm k) = [] ∨ high_water (k_mm k) ≤ gm_size m);
  mo_la : la_inv (k_mm k) live;
}.

(** A byte of the attached memory. *)
Definition gbyte k (i : Z) : Z :=
  match k_memory k with Some (Owned m) => read_byte m i | _ => 0 end.

Lemma mem_size_owned k m : k_memory k = Some (Owned m) → mem_size k = gm_size m.
Proof. intros Hm. unfold mem_size, memory. by rewrite Hm. Qed.

(** An allocation below the memory's end keeps the arenas below it. *)
Lemma mmap_high_water la live cur len prot flags fd off r la' :
  la_inv la live → 0 ≤ len → 0 ≤ cur < 2 ^ 32 → (arenas la = [] ∨ high_water la ≤ cur) →
  LinearAllocator.mmap la cur len prot flags fd off = (r, la') →
  arenas la' = [] ∨ high_water la' ≤ cur.
Proof.
  intros Hla Hlen Hcur Hhw Hm. destruct (mmap_args_ok len flags fd off) eqn:Hok.
  2:{ rewrite mmap_args_bad in Hm by done. by simplify_eq. }
  rewrite mmap_args_good in Hm by done.
  destruct (try_arenas len (arenas la)) as [[addr|] l'] eqn:Ht.
  - simplify_eq. simpl. destruct Hhw as [Hn|?]; [|by right].
    rewrite Hn in Ht. simpl in Ht. simplify_eq.
  - destruct (cur <? _) eqn:E; simplify_eq; to_prop; [done|]. right. simpl.
    pose proof (li_bound _ _ Hla). unfold as_u32. rewrite wrapu_id; [done|].
    pose proof (li_high _ _ Hla) as Hh. unfold is_u, arena_base, FIRST_ARENA_BASE, ARENA_SIZE in *. lia.
Qed.

Lemma set_mm_ok k live r la' live' cur len prot flags fd off :
  mm_ok k live → 0 ≤ len → cur = mem_size k →
  LinearAllocator.mmap (k_mm k) cur len prot flags fd off = (r, la') →
  live' = match r with MOk addr => (addr, len) :: live | _ => live end →
  mm_ok (set_mm k la') live'.
Proof.
  intros [(m & Hm & Hwf & Hsz & Hhw) Hla] Hlen -> Hmm ->.
  rewrite (mem_size_owned _ _ Hm) in Hmm.
  assert (0 ≤ gm_size m) by apply Hwf. split.
  - exists m. simpl. split_and!; try done.
    eapply (mmap_high_water _ live (gm_size m) len prot flags fd off r); try done.
  - simpl. destruct r as [addr|n|e].
    1: by eapply mmap_inv.
    all: assert (la' = k_mm k) as -> by (eapply mmap_refused_same; [exact Hlen|exact Hmm|done]).
    all: done.
Qed.

Lemma grow_memory_ok k live pages ok k' :
  mm_ok k live → 0 ≤ pages → grow_memory k pages = (ok, k') → mem_size k' < 2 ^ 32 →
  mm_ok k' live ∧ mem_size k ≤ mem_size k' ∧
  ∀ i, gbyte k' i = gbyte k i.
Proof.
  intros [(m & Hm & Hwf & Hsz & Hhw) Hla] Hp. unfold grow_memory, memory. rewrite Hm.
  destruct (memory_grow _ _ _) as [b w] eqn:Hg. destruct b; intros [= <- <-].
  - intros Hb. unfold mem_size, memory in Hb. simpl in Hb. assert (0 < PAGE_SIZE) by done. split_and!.
    + split; simpl; [|done]. eexists. split; [done|]. simpl.
      split; [by apply grow_bytes_wf; [nia|]|]. split; [done|].
      destruct Hhw; [by left|right; nia].
    + unfold mem_size, memory. rewrite Hm. simpl. nia.
    + intros i. unfold gbyte. simpl. by rewrite Hm.
  - intros _. split_and!; simpl; try done. by split; [exists m|].
Qed.

Lemma zero_fill_size k addr len : mem_size (zero_fill k addr len) = mem_size k.
Proof.
  unfold zero_fill, mem_size. destruct (memory k) as [m|] eqn:Hm; [|by rewrite Hm].
  case_if; [done|by rewrite Hm].
Qed.

Lemma zero_fill_ok k live addr len :
  mm_ok k live → 0 ≤ addr → 0 ≤ len → addr + len ≤ mem_size k →
  mm_ok (zero_fill k addr len) live ∧ mem_size (zero_fill k addr len) = mem_size k ∧
  ∀ i, gbyte (zero_fill k addr len) i = if bool_decide (addr ≤ i < addr + len) then 0 else gbyte k i.
Proof.
  intros [(m & Hm & Hwf & Hsz & Hhw) Hla] Ha Hlen Hle.
  rewrite (mem_size_owned _ _ Hm) in Hle |- *. unfold zero_fill, memory. rewrite Hm.
  rewrite (proj2 (Z.leb_le _ _) Hle). split_and!.
  - split; [|done]. eexists. split; [done|]. simpl. split_and!; try done.
    apply write_bytes_wf; [done|apply Forall_replicate; unfold byte_ok; lia|done|].
    rewrite length_replicate. lia.
  - done.
  - intros i. unfold gbyte. simpl. rewrite Hm. by apply read_zero_range.
Qed.

Lemma positive_usize_Ok x n : positive_usize x = Ok n ↔ x = n ∧ 0 < n ≤ U64_MAX.
Proof.
  unfold positive_usize, usize_try_from. split.
  - destruct (_ && _) eqn:E; [|done]. case_if; [|done]. intros [= <-]. to_prop. lia.
  - intros [-> ?]. rewrite (proj2 (andb_true_iff _ _)) by lia.
    by rewrite (proj2 (Z.ltb_lt 0 n)) by lia.
Qed.

Lemma div_ceil_nonneg x y : 0 ≤ x → 0 < y → 0 ≤ div_ceil x y.
Proof. intros. unfold div_ceil. apply Z.div_pos; lia. Qed.

Lemma mmap_NeedGrow_nonneg la cur len prot flags fd off n la' :
  0 ≤ len → LinearAllocator.mmap la cur len prot flags fd off = (NeedGrow n, la') → 0 ≤ n.
Proof.
  intros Hlen Hm. destruct (mmap_args_ok len flags fd off) eqn:Hok.
  2:{ rewrite mmap_args_bad in Hm by done. by simplify_eq. }
  rewrite mmap_args_good in Hm by done.
  destruct (try_arenas len (arenas la)) as [[addr|] l']; [done|].
  destruct (cur <? _) eqn:E; [|done]. to_prop. simplify_eq. apply div_ceil_nonneg; [lia|done].
Qed.

(** The first decision and the growth it asks for: [leaked] is the block the
    first call already took when it could answer at once. *)
Lemma mmap_first_ok k live len prot flags fd off :
  mm_ok k live → 0 ≤ len →
  let '(decision, mm) := LinearAllocator.mmap (k_mm k) (mem_size k) len prot flags fd off in
  let '(ok, k') := match decision with
                   | NeedGrow pages => grow_memory (set_mm k mm) pages
                   | _ => (true, set_mm k mm) end in
  mem_size k' < 2 ^ 32 →
  ∃ leaked, mm_ok k' (leaked ++ live) ∧ (length leaked ≤ 1)%nat ∧
    (∀ pages, decision = NeedGrow pages → leaked = []) ∧ mem_size k ≤ mem_size k' ∧
    ∀ i, gbyte k' i = gbyte k i.
Proof.
  intros Hk Hlen. destruct (LinearAllocator.mmap _ _ _ _ _ _ _) as [d mm] eqn:Hm.
  destruct d as [addr|n|e].
  - intros _. exists [(addr, len)]. simpl. split_and!; try done.
    eapply set_mm_ok; [exact Hk|exact Hlen|reflexivity|exact Hm|done].
  - assert (0 ≤ n) by by eapply mmap_NeedGrow_nonneg.
    assert (mm_ok (set_mm k mm) live) as Hk'
      by (eapply set_mm_ok; [exact Hk|exact Hlen|reflexivity|exact Hm|done]).
    destruct (grow_memory (set_mm k mm) n) as [ok k'] eqn:Hg. intros Hlt.
    destruct (grow_memory_ok _ _ _ _ _ Hk' ltac:(done) Hg Hlt) as (? & ? & ?).
    exists []. simpl. split_and!; try done. lia.
  - intros _. exists []. simpl. split_and!; try done; [|lia].
    eapply set_mm_ok; [exact Hk|exact Hlen|reflexivity|exact Hm|done].
Qed.

Lemma mmap_MErr la cur len prot flags fd off e la' :
  0 ≤ len → LinearAllocator.mmap la cur len prot flags fd off = (MErr e, la') →
  e = - EINVAL ∨ e = - ENOSYS.
Proof.
  intros Hlen Hm. destruct (mmap_args_ok len flags fd off) eqn:Hok.
  - rewrite mmap_args_good in Hm by done.
    destruct (try_arenas len (arenas la)) as [[addr|] l']; [done|]. by destruct (cur <? _).
  - rewrite mmap_args_bad in Hm by done. simplify_eq. destruct (len =? 0); auto.
Qed.

(** What the guest may assume after [mmap] returned an address. *)
Record mmap_result k k' (live : list block) (len r : Z) (leaked : list block) : Prop := {
  mr_ok : mm_ok k' ((r, len) :: leaked ++ live);
  mr_inside : 0 ≤ r ∧ r + len ≤ mem_size k';
  mr_bytes i : gbyte k' i = if bool_decide (r ≤ i < r + len) then 0 else gbyte k i;
}.

Lemma mmap_cases k live a r k' :
  mm_ok k live → mmap k a = (r, k') → mem_size k' < 2 ^ 32 →
  ∃ leaked, (length leaked ≤ 1)%nat ∧
    ((r ∈ [- EINVAL; - ENOSYS; - ENOMEM] ∧ mm_ok k' (leaked ++ live) ∧ (∀ i, gbyte k' i = gbyte k i))
     ∨ mmap_result k k' live (a1 a) r leaked).
Proof.
  intros Hk. unfold mmap.
  destruct (positive_usize (a1 a)) as [len|e] eqn:Hlen.
  2:{ intros [= <- <-] _. exists []. split; [simpl; lia|]. left.
      unfold positive_usize in Hlen. repeat case_match; simplify_eq; split_and!; set_solver. }
  apply positive_usize_Ok in Hlen as [-> Hlen].
  pose proof Hk as [(m & Hm & _) _]. unfold memory. rewrite Hm.
  pose proof (mmap_first_ok k live len (as_i32 (a2 a)) (as_i32 (a3 a)) (a4 a) (a5 a) Hk ltac:(lia)) as Hf.
  destruct (LinearAllocator.mmap _ _ _ _ _ _ _) as [d mm].
  destruct (match d with NeedGrow _ => _ | _ => _ end) as [ok k1].
  destruct ok; simpl negb.
  2:{ intros [= <- <-] Hlt. destruct (Hf Hlt) as (leaked & Hk1 & Hl & _ & Hsz & Hb). exists leaked. split; [done|]. left. split_and!; [set_solver|done|done]. }
  destruct (LinearAllocator.mmap _ _ _ _ _ _ _) as [d2 mm2] eqn:Hm2. intros Hres Hlt.
  assert (mem_size k' = mem_size k1) as Hsame.
  { destruct d2; injection Hres as _ <-; [by rewrite zero_fill_size|done..]. }
  rewrite Hsame in Hlt. destruct (Hf Hlt) as (leaked & Hk1 & Hl & _ & Hsz & Hb).
  assert (0 ≤ len) as Hlen0 by lia.
  pose proof (set_mm_ok k1 _ d2 mm2 _ _ _ _ _ _ _ Hk1 Hlen0 eq_refl Hm2 eq_refl) as Hk2.
  exists leaked. split; [done|].
  destruct d2 as [addr|n|e]; injection Hres as <- <-.
  - right. pose proof Hk2 as [(m2 & Hm2' & _ & _ & Hhw) Hla2].
    pose proof (li_live _ _ Hla2) as Hll. apply Forall_cons in Hll as [(Ha & _ & Hend) _].
    simpl in Ha, Hend. unfold FIRST_ARENA_BASE in Ha.
    assert (addr + len ≤ mem_size (set_mm k1 mm2)) as Hle.
    { rewrite (mem_size_owned _ _ Hm2'). simpl in *. destruct Hhw as [Hn|?]; [|lia].
      destruct (live_block_arena _ _ addr len Hla2) as (j & c & Hc & _); [by left|].
      simpl in Hc. rewrite Hn in Hc. by destruct j. }
    destruct (zero_fill_ok _ _ addr len Hk2 ltac:(lia) Hlen0 Hle) as (Hok & Hs & Hz).
    split; [done|rewrite Hs; lia|]. intros i. rewrite Hz. case_bool_decide; [done|]. apply Hb.
  - left. split_and!; [set_solver|done|done].
  - left. split_and!; [|done|done].
    destruct (mmap_MErr _ _ _ _ _ _ _ _ _ Hlen0 Hm2) as [->| ->]; set_solver.
Qed.


End syscalls.

#[global] Instance null_host_grow : Memory32 (W := NullHost).
Proof. intros w size pages w' [= Hlt _] _. unfold PAGE_SIZE. lia. Qed.

(** ** Theorems *)


(** When [mmap] fails it is with [-EINVAL], [-ENOSYS] or [-ENOMEM]; no byte
    of memory changes and the guest's blocks stay valid. *)
Theorem sys_mmap_error {W} `{Host W} (k k' : kern W) live a r :
  mm_ok k live → mmap k a = (r, k') → mem_size k' < 2 ^ 32 → r < 0 →
  r ∈ [- EINVAL; - ENOSYS; - ENOMEM] ∧ (∀ i, gbyte k' i = gbyte k i) ∧
  ∃ leaked, (length leaked ≤ 1)%nat ∧ mm_ok k' (leaked ++ live).
Proof.
  intros Hk Hm Hlt Hr.
  destruct (mmap_cases _ _ _ _ _ Hk Hm Hlt) as (leaked & Hl & [(Hin & Hok & Hb)|[_ [? _] _]]); [|lia].
  split_and!; [done|done|by exists leaked].
Qed.

(** ** Witnesses *)

Lemma sample_mm_ok : mm_ok sample_kern [].
Proof.
  split; [|apply new_la_inv]. exists (zero_mem 131072). split_and!; [done| |simpl; lia|by left].
  apply (sample_mem_wf (zero_mem 131072)). done.
Qed.

Definition mmap_64 : args := Args 0 64 3 34 (-1) 0.


Lemma sys_mmap_error_witness :
  - ENOSYS ∈ [- EINVAL; - ENOSYS; - ENOMEM] ∧
  (∀ i, gbyte sample_kern i = gbyte sample_kern i) ∧
  ∃ leaked, (length leaked ≤ 1)%nat ∧ mm_ok sample_kern (leaked ++ []).
Proof.
  apply (sys_mmap_error sample_kern sample_kern [] (Args 0 64 3 34 5 0)).
  - apply sample_mm_ok.
  - vm_compute. reflexivity.
  - by vm_compute.
  - vm_compute. reflexivity.
Defined.

(** When the first decision can be met at once it is taken, and then a second
    one is made: a single [mmap] of 64 bytes uses 128 bytes of the arena. *)
Lemma mmap_takes_two_blocks :
  let k1 := (mmap sample_kern mmap_64).2 in
  let k2 := (mmap k1 mmap_64).2 in
  used <$> arenas (k_mm k1) = [64] ∧ used <$> arenas (k_mm k2) = [192].
Proof. vm_compute. done. Qed.

(** A request that the existing memory could hold fails for want of a second
    copy: 200000 bytes fit the one arena, the repeated request does not. *)
Lemma mmap_refused_for_second_copy :
  let k := attach_memory sample_kern (zero_mem 1310720) in
  (LinearAllocator.mmap (k_mm k) 1310720 200000 3 34 (-1) 0).1 = MOk 1048576 ∧
  (mmap k (Args 0 200000 3 34 (-1) 0)).1 = - ENOMEM.
Proof. vm_compute. done. Qed.

(** ** Kernel invariant

    Whatever the guest does with the allocator, the memory syscalls keep the
    memory and the rest of the kernel well formed. *)

Section invariant.
Context {W : Type} `{Host W} `{!Memory32 (W:=W)}.
Implicit Types k : kern W.

Lemma grow_memory_wf k pages ok k' :
  kern_wf k → 0 ≤ pages → grow_memory k pages = (ok, k') → kern_wf k'.
Proof using All.
  intros Hk Hp. unfold grow_memory. destruct (memory k) as [m|] eqn:Hm; [|by intros [= <- <-]].
  apply memory_Ok in Hm. destruct (kw_mem _ Hk m Hm) as [Hs Hb].
  destruct (memory_grow _ _ _) as [b w] eqn:Hg. destruct b; intros [= <- <-]; [|by apply kern_wf_set_host].
  pose proof (memory_grow_bound _ _ _ _ Hg Hp) as Hbound. assert (0 < PAGE_SIZE) by done.
  destruct Hk. split; simpl; try done. intros m' [= <-]. split; simpl; [nia|].
  intros i Hi. apply Hb in Hi. nia.
Qed.

Lemma zero_fill_wf k start len : kern_wf k → 0 ≤ start → 0 ≤ len → kern_wf (zero_fill k start len).
Proof.
  intros Hk Hs Hl. unfold zero_fill. destruct (memory k) as [m|] eqn:Hm; [|done].
  destruct (_ <=? _) eqn:E; [|done]. to_prop. apply memory_Ok in Hm.
  destruct (kw_mem _ Hk m Hm) as [Hsz Hb]. destruct Hk. split; simpl; try done. intros m' [= <-].
  split; [done|]. simpl. apply insert_bytes_bounds; [done|done|]. rewrite length_replicate. lia.
Qed.

Lemma alloc_range a len align addr a' : alloc a len align = (Some addr, a') → is_u 32 addr.
Proof.
  unfold alloc. destruct (best_search _ _ _ _ _) as [[[i o] w]|]; [|case_if; [done|]]; intros [= <- _];
    by apply wrapu_range.
Qed.

(** What the allocator decides, whatever its state: an address is a [u32]. *)
Lemma mmap_result_range la cur len prot flags fd off r la' :
  LinearAllocator.mmap la cur len prot flags fd off = (r, la') →
  match r with MOk addr => is_u 32 addr | NeedGrow pages => 0 ≤ pages | MErr e => errno_ok e end ∧
  (is_u 32 (high_water la) → is_u 32 (high_water la')).
Proof.
  unfold LinearAllocator.mmap. repeat (case_if; [by intros [= <- <-]|]).
  destruct (try_arenas len (arenas la)) as [[addr|] l'] eqn:Ht.
  - intros [= <- <-]. split; [|done]. revert l' Ht. induction (arenas la) as [|a l IH]; intros l'; simpl; [done|].
    destruct (alloc a len 8) as [[x|] a'] eqn:Ea.
    + intros [= <- _]. by eapply alloc_range.
    + destruct (try_arenas len l) as [y l2] eqn:E2. intros [= -> _]. by eapply IH.
  - case_if.
    + intros [= <- <-]. split; [|done]. unfold div_ceil. apply Z.div_pos; [|done]. unfold PAGE_SIZE. lia.
    + destruct (alloc _ _ _) as [[x|] a'] eqn:Ea; intros [= <- <-];
        (split; [first [by eapply alloc_range|done]|by intros; apply wrapu_range]).
Qed.

Lemma munmap_high_water la addr len : high_water (LinearAllocator.munmap la addr len).2 = high_water la.
Proof. unfold LinearAllocator.munmap. case_if; [done|]. by destruct (munmap_arenas _ _ _). Qed.

Lemma grow_high_water la old old_len new_len : high_water (grow_in_place la old old_len new_len).2 = high_water la.
Proof. unfold grow_in_place. case_if; [done|]. by destruct (grow_arenas _ _ _ _). Qed.

#[export] Instance mmap_preserves : Preserves mmap.
Proof using All.
  intros k a r k' Hk. unfold mmap. destruct (positive_usize _) as [len|] eqn:El; [|by intros [= <- <-]].
  assert (0 ≤ len) as Hlen.
  { unfold positive_usize in El. destruct (usize_try_from _); [|done]. case_if; [|done]. by simplify_eq; lia. }
  destruct (memory k); [|by intros [= <- <-]].
  destruct (LinearAllocator.mmap _ _ _ _ _ _ _) as [d mm] eqn:E1.
  apply mmap_result_range in E1 as [E1 Hw1]. specialize (Hw1 (kw_mm _ Hk)).
  set (g := match d with NeedGrow pages => grow_memory (set_mm k mm) pages | _ => (true, set_mm k mm) end).
  assert (kern_wf g.2) as Hg.
  { subst g. destruct d; simpl; try by apply kern_wf_set_mm.
    destruct (grow_memory _ _) as [b kg] eqn:Eg. eapply grow_memory_wf; [|exact E1|exact Eg].
    by apply kern_wf_set_mm. }
  destruct g as [ok kg]. simpl in Hg. case_if; [by intros [= <- <-]|].
  destruct (LinearAllocator.mmap _ _ _ _ _ _ _) as [d2 mm2] eqn:E2.
  apply mmap_result_range in E2 as [E2 Hw2]. specialize (Hw2 (kw_mm _ Hg)).
  destruct d2; intros [= <- <-]; try by apply kern_wf_set_mm.
  apply zero_fill_wf; [by apply kern_wf_set_mm|apply E2|done].
Qed.

#[export] Instance munmap_preserves : Preserves (munmap (W:=W)).
Proof.
  intros k a r k' Hk. unfold munmap. destruct (u32_try_from _); [|by intros [= <- <-]].
  destruct (usize_try_from _); [|by intros [= <- <-]].
  match goal with |- context [LinearAllocator.munmap ?la ?x ?n] =>
    pose proof (munmap_high_water la x n) as Hw; destruct (LinearAllocator.munmap la x n) end.
  intros [= <- <-]. apply kern_wf_set_mm; [done|]. simpl in Hw. rewrite Hw. by apply kw_mm.
Qed.

#[export] Instance mremap_preserves : Preserves (mremap (W:=W)).
Proof.
  intros k a r k' Hk. unfold mremap. case_match; [|by intros [= <- <-]].
  destruct (positive_usize _); [|by intros [= <- <-]]. destruct (positive_usize _); [|by intros [= <- <-]].
  repeat (case_if; [by intros [= <- <-]|]).
  match goal with |- context [grow_in_place ?la ?x ?n ?l] =>
    pose proof (grow_high_water la x n l) as Hw; destruct (grow_in_place la x n l) end.
  intros [= <- <-]. apply kern_wf_set_mm; [done|]. simpl in Hw. rewrite Hw. by apply kw_mm.
Qed.

End invariant.
