(* ===== verification/SysPath.v ===== *)
(** * Path arguments of syscalls (src/sys/path.rs)

    [resolve] routes a [(dirfd, path)] pair: absolute paths and [AT_FDCWD] go
    to the VFS, a directory descriptor contributes the path it was opened
    with. *)

From S2P Require Import Prelude Word Errno Text Path Host Vfs Fd Kernel.

Section path.
Context {W : Type}.
Implicit Types k : kern W.

Definition resolve_via_cwd_or_root k (dirfd : Z) (s : bytes) : result path :=
  resolve_path (k_vfs k) dirfd s.

(** The directory behind a descriptor. *)
Definition dirfd_path k (dirfd : Z) : result path :=
  match get (k_fds k) dirfd with
  | Ok (RFile l) =>
    let fp := file_at (k_heap k) l in
    if is_dir fp then result_of_option (- EACCES) (fpath fp) else Err (- ENOTDIR)
  | Ok _ => Err (- ENOTDIR)
  | Err _ => Err (- EBADF)
  end.

Definition resolve_via_dirfd k (dirfd : Z) (s : bytes) : result path :=
  dir_path <-? dirfd_path k dirfd;
  let joined := if bool_decide (s = []) then render dir_path else raw_join (render dir_path) s in
  resolve_path (k_vfs k) AT_FDCWD (to_string_lossy joined).

Definition resolve k (dirfd : Z) (s : bytes) : result path :=
  if is_absolute s || (dirfd =? AT_FDCWD) then resolve_via_cwd_or_root k dirfd s
  else if 0 <=? dirfd then resolve_via_dirfd k (as_u32 dirfd) s
  else Err (- ENOSYS).

Lemma resolve_sound k dirfd s p :
  vfs_wf (k_vfs k) → resolve k dirfd s = Ok p → plain p ∧ root (k_vfs k) `prefix_of` p.
Proof.
  intros Hv. unfold resolve, resolve_via_cwd_or_root, resolve_via_dirfd.
  destruct (is_absolute s || _); [by apply resolve_path_sound|].
  destruct (0 <=? dirfd); [|done]. intros (dp & _ & Hr)%result_bind_Ok.
  by eapply resolve_path_sound.
Qed.

(** A clean name under a directory descriptor is an entry of that directory. *)
Lemma resolve_dirfd_name k dirfd dir w :
  vfs_wf (k_vfs k) → 0 ≤ dirfd ≤ U32_MAX → dirfd_path k dirfd = Ok dir →
  plain dir → root (k_vfs k) `prefix_of` dir → utf8_valid (render dir) = true →
  name_ok w → utf8_valid w = true →
  resolve k dirfd w = Ok (dir ++ [Normal w]).
Proof.
  intros Hv Hd Hdir Hp Hpre Hu Hw Huw. pose proof Hw as (Hne & Hns & _).
  assert (is_absolute w = false) as Habs.
  { destruct w as [|c w]; [done|]. simpl. apply Z.eqb_neq. intros ->. set_solver. }
  unfold resolve. rewrite Habs. rewrite (proj2 (Z.eqb_neq dirfd AT_FDCWD)) by (unfold AT_FDCWD; lia).
  simpl. rewrite (proj2 (Z.leb_le 0 dirfd)) by lia. rewrite as_u32_small by done.
  unfold resolve_via_dirfd. rewrite Hdir. simpl. rewrite bool_decide_false by done.
  set (raw := raw_join (render dir) w).
  assert (components raw = dir ++ [Normal w]) as Hc.
  { change (components raw) with (join dir w). rewrite join_plain by done. f_equal.
    rewrite split_on_no_sep by done. cbn. by rewrite parse_comp_name. }
  assert (to_string_lossy raw = raw) as ->.
  { apply to_string_lossy_valid. subst raw. unfold raw_join. rewrite Habs.
    destruct (last (render dir)) as [c|] eqn:El; [|done]. destruct (c =? SLASH).
    - by rewrite utf8_valid_app.
    - rewrite utf8_valid_app by done. by rewrite utf8_valid_cons_ascii. }
  assert (is_absolute raw = true) as Hra.
  { apply plain_split in Hp as (l & -> & _). subst raw. unfold raw_join. rewrite Habs.
    destruct (last _) as [c|] eqn:El; [by destruct (c =? SLASH)|].
    apply last_None in El. by simpl in El. }
  unfold resolve_path. rewrite Hra, Hc. simpl.
  assert (root (k_vfs k) `prefix_of` dir ++ [Normal w]) by by apply prefix_app_r.
  unfold starts_with at 1. rewrite bool_decide_true by done.
  apply normalize_id; [|done]. apply plain_prefix_app; [done|]. by apply Forall_singleton.
Qed.

End path.

(** ** Theorems *)

(** C8: no path argument escapes: whatever descriptor and string a syscall
    passes, a path it is allowed to use is the root directory followed by
    ordinary names; and a proper file name looked up in an open directory of
    the sandbox is that entry of that directory. *)
Theorem resolve_confined {W} (k : kern W) dirfd s p :
  vfs_wf (k_vfs k) → resolve k dirfd s = Ok p →
  (∃ rest, p = root (k_vfs k) ++ rest ∧ Forall normal_ok rest) ∧
  (∀ dir, 0 ≤ dirfd ≤ U32_MAX → dirfd_path k dirfd = Ok dir → plain dir →
     root (k_vfs k) `prefix_of` dir → utf8_valid (render dir) = true →
     name_ok s → utf8_valid s = true → p = dir ++ [Normal s]).
Proof.
  intros Hv Hr. split.
  - destruct (resolve_sound _ _ _ _ Hv Hr) as [Hp [rest ->]]. exists rest. split; [done|].
    by apply (plain_prefix_app (root (k_vfs k))), Hp; apply Hv.
  - intros dir Hd Hdir Hp Hpre Hu Hw Huw.
    pose proof (resolve_dirfd_name k dirfd dir s Hv Hd Hdir Hp Hpre Hu Hw Huw). congruence.
Qed.

(** ** Witnesses *)

(** Descriptor 3 open on the directory [/srv/www/a]. *)
Definition dir_kern : kern NullHost :=
  let '(l, h) := new_file (k_heap sample_kern) (MkFilePos 0 0 (Some (cwd sample_vfs)) true None) in
  set_heap (set_fds sample_kern (insert (k_fds sample_kern) (RFile l)).2) h.

Lemma resolve_confined_witness :
  (∃ rest, cwd sample_vfs ++ [Normal [98]] = root sample_vfs ++ rest ∧ Forall normal_ok rest) ∧
  cwd sample_vfs ++ [Normal [98]] = cwd sample_vfs ++ [Normal [98]].
Proof.
  destruct (resolve_confined dir_kern 3 [98] (cwd sample_vfs ++ [Normal [98]])) as [H1 H2].
  - apply sample_vfs_wf.
  - vm_compute. reflexivity.
  - split; [exact H1|]. apply (H2 (cwd sample_vfs)).
    + vm_compute. split; discriminate.
    + vm_compute. reflexivity.
    + apply sample_vfs_wf.
    + apply sample_vfs_wf.
    + vm_compute. reflexivity.
    + apply (bool_decide_unpack (name_ok [98])). vm_compute. exact I.
    + vm_compute. reflexivity.
Defined.
