(* ===== verification/SysEventfd.v ===== *)
(** * Event counters (src/sys/eventfd.rs) *)

From S2P Require Import Prelude Word Errno Text Host Vfs Fd Kernel.

Definition EFD_NONBLOCK : Z := 2048.

(** Drain the counter. An empty one is [-EAGAIN] when non-blocking and [0]
    otherwise. *)
Definition eventfd_read (e : EventFdInner) : result Z * EventFdInner :=
  let v := counter e in
  if v =? 0 then
    if e_nonblock e then (Err (- EAGAIN), e) else (Ok 0, e)
  else (Ok v, MkEventFd 0 (e_notify e) (e_nonblock e)).

(** Add to the counter, saturating; the caller fires the notify. *)
Definition eventfd_write (e : EventFdInner) (addend : Z) : Z * EventFdInner :=
  let new := default U64_MAX (checked_add_u64 (counter e) addend) in
  (new, MkEventFd new (e_notify e) (e_nonblock e)).

Definition require_u64_buf (buf_len : Z) : result unit :=
  if buf_len <? 8 then Err (- EINVAL) else Ok tt.

Section syscalls.
Context {W : Type}.
Implicit Types k : kern W.

Definition eventfd2 k (a : args) : Z * kern W :=
  let initval := as_u64 (a0 a) in
  let flags := as_i32 (a1 a) in
  let nonblock := has flags EFD_NONBLOCK in
  let '(n, h) := new_notify (k_heap k) in
  let '(fd, t) := insert (k_fds k) (REventFd (MkEventFd initval n nonblock)) in
  (fd, set_fds (set_heap k h) t).

Definition eventfd k (a : args) : Z * kern W := eventfd2 k a.

(** The two wrappers for callers that do not go through [read] and [write]. *)
Definition eventfd_read_compat k (fd buf_ptr buf_len : Z) : Z * kern W :=
  let! _ := require_u64_buf buf_len on k;
  match get (k_fds k) fd with
  | Err e => (e, k)
  | Ok (REventFd e) =>
    let '(r, e') := eventfd_read e in
    let k := set_fds k (put (k_fds k) fd (REventFd e')) in
    let! val := r on k;
    let! kw := guest_write k buf_ptr (to_le_bytes 8 val) on k;
    (8, kw)
  | Ok _ => (- EBADF, k)
  end.

Definition eventfd_write_compat k (fd buf_ptr buf_len : Z) : Z * kern W :=
  let! _ := require_u64_buf buf_len on k;
  let! bs := guest_slice k buf_ptr 8 on k;
  match get (k_fds k) fd with
  | Err e => (e, k)
  | Ok (REventFd e) =>
    let '(_, e') := eventfd_write e (from_le_bytes bs) in
    (8, set_heap (set_fds k (put (k_fds k) fd (REventFd e'))) (notify_waiters (k_heap k) (e_notify e)))
  | Ok _ => (- EBADF, k)
  end.

End syscalls.

(** ** Reading back what was added *)

Inductive efd_op := EAdd (n : Z) | EDrain.

(** Values drained by a sequence of operations, and the counter after it. *)
Fixpoint efd_run (e : EventFdInner) (ops : list efd_op) : list Z * EventFdInner :=
  match ops with
  | [] => ([], e)
  | EAdd n :: ops => efd_run (eventfd_write e n).2 ops
  | EDrain :: ops =>
    match eventfd_read e with
    | (Ok v, e) => let '(vs, e) := efd_run e ops in (v :: vs, e)
    | (Err _, e) => efd_run e ops
    end
  end.

Definition efd_added (ops : list efd_op) : Z :=
  zsum ((λ o, match o with EAdd n => n | EDrain => 0 end) <$> ops).

Lemma efd_run_conserves ops e vs e' :
  Forall (λ o, match o with EAdd n => 0 ≤ n | EDrain => True end) ops →
  0 ≤ counter e → counter e + efd_added ops ≤ U64_MAX →
  efd_run e ops = (vs, e') → zsum vs + counter e' = counter e + efd_added ops.
Proof.
  intros Hops. revert e vs e'. induction Hops as [|o ops Ho Hops IH]; intros e vs e' He Hb.
  { intros [= <- <-]. unfold efd_added. simpl. rewrite zsum_nil. lia. }
  unfold efd_added in *. rewrite fmap_cons, zsum_cons in Hb |- *.
  assert (0 ≤ zsum ((λ o, match o with EAdd n => n | EDrain => 0 end) <$> ops)) as Hnn.
  { apply zsum_nonneg, Forall_fmap. eapply Forall_impl; [exact Hops|]. intros [n|]; simpl; lia. }
  destruct o as [n|]; cbn [efd_run].
  - unfold eventfd_write, checked_add_u64. rewrite (proj2 (Z.leb_le _ _)) by lia. simpl.
    intros Hr. apply IH in Hr; simpl in *; lia.
  - unfold eventfd_read. destruct (counter e =? 0) eqn:E; to_prop.
    + destruct (e_nonblock e).
      * intros Hr. apply IH in Hr; simpl in *; lia.
      * destruct (efd_run e ops) as [vs1 e1] eqn:Hr. intros [= <- <-].
        apply IH in Hr; [|lia..]. rewrite zsum_cons. lia.
    + destruct (efd_run _ ops) as [vs1 e1] eqn:Hr. intros [= <- <-].
      apply IH in Hr; simpl in *; [|lia..]. rewrite zsum_cons. lia.
Qed.

(** Whatever is added, the counter fits 64 bits and no value is made up. *)
Lemma efd_run_bounded ops e vs e' :
  Forall (λ o, match o with EAdd n => is_u 64 n | EDrain => True end) ops → is_u 64 (counter e) →
  efd_run e ops = (vs, e') → is_u 64 (counter e') ∧ zsum vs + counter e' ≤ counter e + efd_added ops.
Proof.
  intros Hops. revert e vs e'. induction Hops as [|o ops Ho Hops IH]; intros e vs e' He.
  { intros [= <- <-]. unfold efd_added. simpl. rewrite zsum_nil. split; [done|lia]. }
  unfold efd_added in *. rewrite fmap_cons, zsum_cons.
  destruct o as [n|]; cbn [efd_run].
  - unfold eventfd_write, checked_add_u64. cbv zeta. cbn [snd]. intros Hr.
    apply IH in Hr as [? Hr]; cbn [counter] in *; unfold is_u, U64_MAX in *; case_if; simpl in *; split; lia.
  - unfold eventfd_read. destruct (counter e =? 0) eqn:E; to_prop.
    + destruct (e_nonblock e).
      * intros Hr. by apply IH in Hr.
      * destruct (efd_run e ops) as [vs1 e1] eqn:Hr. intros [= <- <-].
        apply IH in Hr; [|done]. rewrite zsum_cons. by rewrite Z.add_0_l.
    + destruct (efd_run _ ops) as [vs1 e1] eqn:Hr. intros [= <- <-].
      apply IH in Hr as [? Hr]; [|done]. simpl in Hr. rewrite zsum_cons. split; [done|lia].
Qed.

(** C39: an event counter loses nothing: over any sequence of additions and
    drains that does not pass [u64::MAX], the values drained plus the value
    left are the initial value plus everything added. An addition that would
    pass it leaves the counter at [u64::MAX], so that over any sequence at all
    the counter stays a [u64] and no more is drained than was added; and a
    drain of an empty counter is [-EAGAIN] exactly when the descriptor is
    non-blocking. *)
Theorem eventfd_conserves e ops vs e' :
  is_u 64 (counter e) → Forall (λ o, match o with EAdd n => is_u 64 n | EDrain => True end) ops →
  efd_run e ops = (vs, e') →
  (counter e + efd_added ops ≤ U64_MAX → zsum vs + counter e' = counter e + efd_added ops) ∧
  is_u 64 (counter e') ∧ zsum vs + counter e' ≤ counter e + efd_added ops ∧
  (∀ n, is_u 64 n →
     (eventfd_write e n).2 = MkEventFd (Z.min (counter e + n) U64_MAX) (e_notify e) (e_nonblock e)) ∧
  ((eventfd_read e).1 = Err (- EAGAIN) ↔ counter e = 0 ∧ e_nonblock e = true).
Proof.
  intros He Hops Hr. destruct (efd_run_bounded _ _ _ _ Hops He Hr) as [Hu Hle]. split_and!; try done; [|apply Hu..| |].
  - intros Hb. eapply efd_run_conserves; [|apply He|done|done].
    eapply Forall_impl; [exact Hops|]. intros [n|] Hn; [apply Hn|done].
  - intros n Hn. unfold eventfd_write, checked_add_u64. simpl. f_equal. case_if; simpl; lia.
  - unfold eventfd_read. destruct (counter e =? 0) eqn:E; to_prop; [|naive_solver].
    destruct (e_nonblock e); simpl; naive_solver.
Qed.

Lemma eventfd_conserves_witness :
  (0 + efd_added [EAdd 5; EAdd 2; EDrain; EAdd 1] ≤ U64_MAX → zsum [7] + 1 = 0 + 8) ∧
  is_u 64 1 ∧ zsum [7] + 1 ≤ 0 + 8 ∧
  (∀ n, is_u 64 n → (eventfd_write (MkEventFd 0 1 true) n).2 = MkEventFd (Z.min (0 + n) U64_MAX) 1 true) ∧
  ((eventfd_read (MkEventFd 0 1 true)).1 = Err (- EAGAIN) ↔ 0 = 0 ∧ true = true).
Proof.
  apply (eventfd_conserves (MkEventFd 0 1 true) [EAdd 5; EAdd 2; EDrain; EAdd 1] [7]
           (MkEventFd 1 1 true)).
  - vm_compute. split; [discriminate|reflexivity].
  - repeat constructor; discriminate.
  - vm_compute. reflexivity.
Defined.
