(* ===== verification/SysFile.v ===== *)
(** * File syscalls (src/sys/file.rs)

    Reading, writing and seeking, opening and closing, metadata, directory
    streams, pipes, descriptor flags and duplication, and the path-bearing
    calls. Socket descriptors hand [read] and [write] over to the socket
    layer, which is the pair of functions [recvfrom] and [sendto].

    A call returns a value and a state, except where the code can also loop
    forever ([fcntl(F_DUPFD)], [dup]) or panic ([utimensat]): those return an
    [outcome]. *)

From S2P Require Import Prelude Word Errno GuestMem Text Path Host Vfs Fd Kernel SysPath SysEventfd.

Definition AT_EMPTY_PATH : Z := 4096.
Definition AT_NO_AUTOMOUNT : Z := 2048.
Definition AT_SYMLINK_NOFOLLOW : Z := 256.
Definition AT_REMOVEDIR : Z := 512.
Definition RENAME_NOREPLACE : Z := 1.
Definition RENAME_EXCHANGE : Z := 2.
Definition RENAME_WHITEOUT : Z := 4.
Definition PATH_MAX : Z := 4096.
Definition SEEK_SET : Z := 0.
Definition SEEK_CUR : Z := 1.
Definition SEEK_END : Z := 2.
Definition F_DUPFD : Z := 0.
Definition F_GETFD : Z := 1.
Definition F_SETFD : Z := 2.
Definition F_GETFL : Z := 3.
Definition F_SETFL : Z := 4.
Definition F_DUPFD_CLOEXEC : Z := 1030.
Definition R_OK : Z := 4.
Definition W_OK : Z := 2.
Definition X_OK : Z := 1.
Definition F_OK : Z := 0.
Definition STATX_SIZE : Z := 256.

(** A positive errno, unlike the one of [Vfs]. *)
Definition file_io_to_errno (k : ErrorKind) : Z :=
  match k with
  | NotFound => ENOENT
  | PermissionDenied => EACCES
  | AlreadyExists => EEXIST
  | InvalidInput => EINVAL
  | NotADirectory => ENOTDIR
  | IsADirectory => EISDIR
  | DirectoryNotEmpty => ENOTEMPTY
  | TooManyLinks => ELOOP
  | OtherKind => EIO
  end.

(** ** struct statx *)

Record Statx := MkStatx {
  stx_mask : Z; stx_blksize : Z; stx_attributes : Z; stx_nlink : Z;
  stx_uid : Z; stx_gid : Z; stx_mode : Z; stx_ino : Z; stx_size : Z; stx_blocks : Z;
  stx_attributes_mask : Z;
  stx_atime_sec : Z; stx_atime_nsec : Z; stx_btime_sec : Z; stx_btime_nsec : Z;
  stx_ctime_sec : Z; stx_ctime_nsec : Z; stx_mtime_sec : Z; stx_mtime_nsec : Z;
  stx_rdev_major : Z; stx_rdev_minor : Z; stx_dev_major : Z; stx_dev_minor : Z;
  stx_mnt_id : Z; stx_dio_mem_align : Z; stx_dio_offset_align : Z;
}.

Definition filled_mask : Z :=
  foldr Z.lor 0 [1; 2; 4; 8; 16; 32; 64; 128; 256; 1024].

Definition clamp_nsec (n : Z) : Z := Z.max 0 (Z.min n 999999999).

Definition from_stat (s : Stat) : Statx :=
  {| stx_mask := filled_mask; stx_blksize := as_u32 (st_blksize s); stx_attributes := 0;
     stx_nlink := st_nlink s; stx_uid := st_uid s; stx_gid := st_gid s;
     stx_mode := as_u16 (Z.land (st_mode s) 65535); stx_ino := st_ino s;
     stx_size := as_u64 (st_size s); stx_blocks := as_u64 (st_blocks s);
     stx_attributes_mask := 0;
     stx_atime_sec := st_atime s; stx_atime_nsec := clamp_nsec (st_atime_nsec s);
     stx_btime_sec := 0; stx_btime_nsec := 0;
     stx_ctime_sec := st_ctime s; stx_ctime_nsec := clamp_nsec (st_ctime_nsec s);
     stx_mtime_sec := st_mtime s; stx_mtime_nsec := clamp_nsec (st_mtime_nsec s);
     stx_rdev_major := 0; stx_rdev_minor := 0; stx_dev_major := 0; stx_dev_minor := 0;
     stx_mnt_id := 0; stx_dio_mem_align := 0; stx_dio_offset_align := 0 |}.

(** [Statx::encode]: 176 bytes of fields, then zeros up to 256. *)
Definition statx_encode (s : Statx) : bytes :=
  to_le_bytes 4 (stx_mask s) ++ to_le_bytes 4 (stx_blksize s) ++
  to_le_bytes 8 (stx_attributes s) ++ to_le_bytes 8 (stx_nlink s) ++
  to_le_bytes 4 (stx_uid s) ++ to_le_bytes 4 (stx_gid s) ++
  to_le_bytes 2 (stx_mode s) ++ replicate 6 0 ++
  to_le_bytes 8 (stx_ino s) ++ to_le_bytes 8 (stx_size s) ++ to_le_bytes 8 (stx_blocks s) ++
  to_le_bytes 8 (stx_attributes_mask s) ++
  to_le_bytes 8 (stx_atime_sec s) ++ to_le_bytes 8 (stx_atime_nsec s) ++
  to_le_bytes 8 (stx_btime_sec s) ++ to_le_bytes 8 (stx_btime_nsec s) ++
  to_le_bytes 8 (stx_ctime_sec s) ++ to_le_bytes 8 (stx_ctime_nsec s) ++
  to_le_bytes 8 (stx_mtime_sec s) ++ to_le_bytes 8 (stx_mtime_nsec s) ++
  to_le_bytes 4 (stx_rdev_major s) ++ to_le_bytes 4 (stx_rdev_minor s) ++
  to_le_bytes 8 (stx_dev_major s) ++ to_le_bytes 8 (stx_dev_minor s) ++
  to_le_bytes 8 (stx_mnt_id s) ++
  to_le_bytes 4 (stx_dio_mem_align s) ++ to_le_bytes 4 (stx_dio_offset_align s) ++
  replicate 80 0.

Definition synth_char : Stat :=
  {| st_dev := 0; st_ino := 0; st_nlink := 1; st_mode := 8630; st_uid := 1000; st_gid := 1000;
     st_rdev := 0; st_size := 0; st_blksize := 4096; st_blocks := 0; st_atime := 0;
     st_atime_nsec := 0; st_mtime := 0; st_mtime_nsec := 0; st_ctime := 0; st_ctime_nsec := 0 |}.

(** ** Helpers *)

Definition set_pos (fp : FilePos) (p : Z) : FilePos :=
  MkFilePos (inner fp) p (fpath fp) (is_dir fp) (dir_cache fp).

Definition set_dir_cache (fp : FilePos) (c : bytes) : FilePos :=
  MkFilePos (inner fp) (pos fp) (fpath fp) (is_dir fp) (Some c).

(** What duplicating a descriptor shares; [None] for epoll instances and
    event counters. *)
Definition clone_resource (r : Resource) : option Resource :=
  match r with
  | REpoll _ | REventFd _ => None
  | _ => Some r
  end.

(** An array of [struct iovec { u32 base; u32 len; }]. *)
Fixpoint parse_iovs (n : nat) (bs : bytes) : list (Z * Z) :=
  match n with
  | O => []
  | S n => (from_le_bytes (take 4 bs), from_le_bytes (take 4 (drop 4 bs))) :: parse_iovs n (drop 8 bs)
  end.

(** A [SystemTime] from a [struct timespec]. Adding a duration past the range
    of [SystemTime] ([i64] seconds) panics: [None]. *)
Definition timespec_from_bytes (b : bytes) : option system_time :=
  let sec := from_le_bytes_i 64 (take 8 b) in
  let nsec := from_le_bytes_i 64 (take 8 (drop 8 b)) in
  if (sec <? 0) || (nsec <? 0) then Some 0
  else if I64_MAX <? sec + nsec / 1000000000 then None
  else Some (sec * 1000000000 + nsec).

Section syscalls.
Context {W : Type} `{Host W}.
Context (recvfrom sendto : kern W → args → Z * kern W).
Implicit Types k : kern W.

(** ** read and write *)

(** The [loop] of [read] on a regular file, in chunks of 4096 bytes. Every
    iteration that goes on adds at least one byte, so [S len] iterations are
    enough ([read_loop_enough]). *)
Fixpoint read_loop (fuel : nat) (w : W) (f : handle) (len : nat) (got : bytes) : result bytes * W :=
  match fuel with
  | O => (Ok got, w)
  | S fuel =>
    match file_read w f 4096 with
    | (IoErr _, w) => (Err (- EACCES), w)
    | (IoOk chunk, w) =>
      if bool_decide (chunk = []) then (Ok got, w)
      else
        let remaining := (len - length got)%nat in
        if (remaining <? length chunk)%nat then (Ok (got ++ take remaining chunk), w)
        else
          let got := got ++ chunk in
          if (len <=? length got)%nat then (Ok got, w) else read_loop fuel w f len got
    end
  end.

(** Copy what was read to the guest; the tail of [read]. *)
Definition finish_read k (buf_ptr len : Z) (eof : bool) (tmp : bytes) : Z * kern W :=
  if eof then (0, k)
  else if bool_decide (tmp = []) then (- EAGAIN, k)
  else
    let! p := guest_slice_mut k buf_ptr len on k;
    (Z.of_nat (length tmp), mem_put k p tmp).

Definition read_pipe k (r : PipeRead) (buf_ptr len : Z) : Z * kern W :=
  let p := pipe_at (k_heap k) (pr_pipe r) in
  let tmp := take (Z.to_nat len) (buf p) in
  let k := set_heap k (set_pipe (k_heap k) (pr_pipe r)
             (MkPipe (drop (Z.to_nat len) (buf p)) (closed p) (p_nonblock p))) in
  let eof := bool_decide (tmp = []) && closed p in
  if bool_decide (tmp = []) && negb eof && p_nonblock p then (- EAGAIN, k)
  else finish_read k buf_ptr len eof tmp.

Definition read_file k (l : Z) (buf_ptr len : Z) : Z * kern W :=
  let fp := file_at (k_heap k) l in
  let '(_, w) := file_seek (k_host k) (inner fp) (SeekStart (pos fp)) in
  match read_loop (S (Z.to_nat len)) w (inner fp) (Z.to_nat len) [] with
  | (Err e, w) => (e, set_host k w)
  | (Ok got, w) =>
    let k := set_host k w in
    let k := set_heap k (set_file (k_heap k) l
               (set_pos fp (as_u64 (pos fp + Z.of_nat (length got))))) in
    finish_read k buf_ptr len false got
  end.

Definition read_eventfd k (fd : Z) (e : EventFdInner) (buf_ptr len_raw : Z) : Z * kern W :=
  let! _ := require_u64_buf len_raw on k;
  let '(r, e') := eventfd_read e in
  let k := set_fds k (put (k_fds k) fd (REventFd e')) in
  let! val := r on k;
  if val =? 0 then (0, k)
  else
    let! kw := guest_write k buf_ptr (to_le_bytes 8 val) on k;
    (8, kw).

Definition read k (a : args) : Z * kern W :=
  match u32_try_from (a0 a) with
  | None => (- EBADF, k)
  | Some fd =>
    let! _ := guest_slice_mut k (a1 a) (a2 a) on k;
    match usize_try_from (a2 a) with
    | None => (- EFAULT, k)
    | Some len =>
      if len =? 0 then (0, k)
      else
        let! res := get (k_fds k) fd on k;
        match res with
        | RStdin r | RPipeRead r => read_pipe k r (a1 a) len
        | RFile l => read_file k l (a1 a) len
        | REventFd e => read_eventfd k fd e (a1 a) (a2 a)
        | RSocket _ => recvfrom k (Args (a0 a) (a1 a) (a2 a) 0 0 0)
        | _ => (- EBADF, k)
        end
    end
  end.

Definition write_pipe k (w : PipeWrite) (bs : bytes) : Z * kern W :=
  let p := pipe_at (k_heap k) (pw_pipe w) in
  let was_empty := bool_decide (buf p = []) in
  let h := set_pipe (k_heap k) (pw_pipe w) (MkPipe (buf p ++ bs) (closed p) (p_nonblock p)) in
  (Z.of_nat (length bs), set_heap k (if was_empty then notify_waiters h (pw_notify w) else h)).

Definition write_file k (l : Z) (bs : bytes) : Z * kern W :=
  let fp := file_at (k_heap k) l in
  match file_write (k_host k) (inner fp) bs with
  | (IoErr _, w) => (- EIO, set_host k w)
  | (IoOk n, w) =>
    let k := set_host k w in
    (n, set_heap k (set_file (k_heap k) l (set_pos fp (as_u64 (pos fp + n)))))
  end.

Definition write_eventfd k (fd : Z) (e : EventFdInner) (len_raw : Z) (bs : bytes) : Z * kern W :=
  let! _ := require_u64_buf len_raw on k;
  let '(_, e') := eventfd_write e (from_le_bytes (take 8 bs)) in
  (8, set_heap (set_fds k (put (k_fds k) fd (REventFd e')))
        (notify_waiters (k_heap k) (e_notify e))).

Definition write k (a : args) : Z * kern W :=
  match u32_try_from (a0 a) with
  | None => (- EBADF, k)
  | Some fd =>
    let! bs := guest_slice k (a1 a) (a2 a) on k;
    if bool_decide (bs = []) then (0, k)
    else
      let! res := get (k_fds k) fd on k;
      match res with
      | RStdout w | RStderr w | RPipeWrite w => write_pipe k w bs
      | RFile l => write_file k l bs
      | REventFd e => write_eventfd k fd e (a2 a) bs
      | RSocket _ => sendto k (Args (a0 a) (a1 a) (a2 a) 0 0 0)
      | _ => (- EBADF, k)
      end
  end.

(** The bytes of the [iovec] array: its length in bytes, checked as [i64]. *)
Definition iov_entries k (iov_ptr cnt_raw : Z) : result (list (Z * Z)) :=
  iov_count <-? result_of_option (- EINVAL) (usize_try_from cnt_raw);
  let total := as_i64 iov_count * 8 in
  if (0 <=? total) && (total <=? I64_MAX) then
    bs <-? guest_slice k iov_ptr total;
    Ok (parse_iovs (Z.to_nat iov_count) bs)
  else Err (- EFAULT).

(** The loop of [readv] and [writev] over [op]: stop at the first error or
    short count, reporting what was transferred before. *)
Fixpoint iov_loop (op : kern W → args → Z * kern W) k (fd : Z) (iovs : list (Z * Z)) (total : Z)
    : Z * kern W :=
  match iovs with
  | [] => (total, k)
  | (base, len) :: iovs =>
    if len =? 0 then iov_loop op k fd iovs total
    else
      let '(r, k) := op k (Args fd base len 0 0 0) in
      if r <? 0 then (if total =? 0 then r else total, k)
      else if r <? len then (total + r, k)
      else iov_loop op k fd iovs (total + r)
  end.

Definition readv k (a : args) : Z * kern W :=
  let! iovs := iov_entries k (a1 a) (a2 a) on k;
  iov_loop read k (a0 a) iovs 0.

Definition writev k (a : args) : Z * kern W :=
  let! iovs := iov_entries k (a1 a) (a2 a) on k;
  iov_loop write k (a0 a) iovs 0.

(** ** Opening, closing, seeking *)

Definition openat k (a : args) : Z * kern W :=
  let dirfd := a0 a in
  let flags := as_i32 (a2 a) in
  let mode := as_u32 (a3 a) in
  let! s := guest_str k (a1 a) 4096 on k;
  let! abs := resolve k dirfd s on k;
  match Vfs_open (k_host k) abs flags mode with
  | (Err e, w) => (e, set_host k w)
  | (Ok file, w) =>
    let k := set_host k w in
    let isdir := match fs_metadata w abs with
                 | IoOk m => bool_decide (md_type m = FtDir)
                 | IoErr _ => false
                 end in
    let '(l, h) := new_file (k_heap k) (MkFilePos file 0 (Some abs) isdir None) in
    let '(fd, t) := insert (k_fds k) (RFile l) in
    (fd, set_fds (set_heap k h) t)
  end.

Definition open k (a : args) : Z * kern W :=
  openat k (Args AT_FDCWD (a0 a) (a1 a) (a2 a) 0 0).

Definition close k (a : args) : Z * kern W :=
  match u32_try_from (a0 a) with
  | None => (- EBADF, k)
  | Some fd =>
    match Fd.close (k_fds k) fd with
    | (Ok _, t) => (0, set_fds k t)
    | (Err e, t) => (e, set_fds k t)
    end
  end.

(** Where [lseek] on a regular file goes. *)
Definition seek_target (w : W) (fp : FilePos) (offset whence : Z) : option SeekFrom :=
  if whence =? SEEK_SET then Some (SeekStart (Z.max offset 0))
  else if whence =? SEEK_CUR then Some (SeekCurrent offset)
  else if whence =? SEEK_END then
    let len := match file_metadata w (inner fp) with IoOk m => as_i64 (md_len m) | IoErr _ => 0 end in
    Some (SeekStart (Z.max (as_i64 (len + offset)) 0))
  else None.

Definition lseek k (a : args) : Z * kern W :=
  match u32_try_from (a0 a) with
  | None => (- EBADF, k)
  | Some fd =>
    let offset := a1 a in
    let whence := a2 a in
    let! res := get (k_fds k) fd on k;
    match res with
    | RFile l =>
      let fp := file_at (k_heap k) l in
      if is_dir fp then
        if (whence =? SEEK_SET) && (offset =? 0)
        then (0, set_heap k (set_file (k_heap k) l (set_pos fp 0)))
        else (- ESPIPE, k)
      else
        match seek_target (k_host k) fp offset whence with
        | None => (- EINVAL, k)
        | Some from =>
          match file_seek (k_host k) (inner fp) from with
          | (IoErr _, w) => (- EINVAL, set_host k w)
          | (IoOk p, w) =>
            let k := set_host k w in
            (as_i64 p, set_heap k (set_file (k_heap k) l (set_pos fp p)))
          end
        end
    | _ => (- ESPIPE, k)
    end
  end.

(** ** Metadata *)

(** [Stat::write_to_guest]. *)
Definition stat_write_to_guest k (s : Stat) (ptr : Z) : result (kern W) :=
  guest_write k ptr (stat_encode s).

Definition fstat k (a : args) : Z * kern W :=
  match u32_try_from (a0 a) with
  | None => (- EBADF, k)
  | Some fd =>
    let! res := get (k_fds k) fd on k;
    let s := match res with
             | RFile l => match file_metadata (k_host k) (inner (file_at (k_heap k) l)) with
                          | IoOk meta => from_metadata meta
                          | IoErr _ => synth_char
                          end
             | _ => synth_char
             end in
    let! kw := stat_write_to_guest k s (a1 a) on k;
    (0, kw)
  end.

Definition newfstatat k (a : args) : Z * kern W :=
  let dirfd := a0 a in
  let statbuf_ptr := a2 a in
  let flags := as_i32 (a3 a) in
  let! s := guest_str k (a1 a) 4096 on k;
  if has flags AT_EMPTY_PATH && bool_decide (s = []) then fstat k (Args dirfd statbuf_ptr 0 0 0 0)
  else if bool_decide (s = []) then (- ENOENT, k)
  else
    let! abs := resolve k dirfd s on k;
    let! st := Vfs_stat (k_host k) abs on k;
    let! kw := stat_write_to_guest k st statbuf_ptr on k;
    (0, kw).

Definition stat k (a : args) : Z * kern W := newfstatat k (Args (-100) (a0 a) (a1 a) 0 0 0).
Definition lstat k (a : args) : Z * kern W := newfstatat k (Args (-100) (a0 a) (a1 a) 256 0 0).

Definition statx k (a : args) : Z * kern W :=
  let dirfd := a0 a in
  let flags := as_i32 (a2 a) in
  let buf_ptr := a4 a in
  let recognized := Z.lor AT_EMPTY_PATH (Z.lor AT_NO_AUTOMOUNT AT_SYMLINK_NOFOLLOW) in
  if negb (Z.land flags (Z.lnot recognized) =? 0) then (- EINVAL, k)
  else
    let! _ := guest_slice_mut k buf_ptr STATX_SIZE on k;
    let! s := guest_str k (a1 a) 4096 on k;
    let! st := (if has flags AT_EMPTY_PATH && bool_decide (s = []) then
                  fd <-? result_of_option (- EBADF) (u32_try_from dirfd);
                  res <-? get (k_fds k) fd;
                  match res with
                  | RFile l => map_err (λ _, - EACCES)
                      (match file_metadata (k_host k) (inner (file_at (k_heap k) l)) with
                       | IoOk meta => IoOk (from_metadata meta) | IoErr e => IoErr e end)
                  | _ => Ok synth_char
                  end
                else if bool_decide (s = []) then Err (- ENOENT)
                else abs <-? resolve k dirfd s; Vfs_stat (k_host k) abs) on k;
    let! kw := guest_write k buf_ptr (statx_encode (from_stat st)) on k;
    (0, kw).

(** ** Directory streams *)

(** The part of [getdents64] after the cache has been filled. *)
Definition getdents_slice k (l : Z) (buf_ptr : Z) (len : Z) : Z * kern W :=
  let fp := file_at (k_heap k) l in
  match dir_cache fp with
  | None => (- EBADF, k)
  | Some cache =>
    let total := Z.of_nat (length cache) in
    let start := pos fp in
    if total <=? start then (0, k)
    else
      let e := Z.min (start + len) total in
      let s := take (Z.to_nat (e - start)) (drop (Z.to_nat start) cache) in
      let k := set_heap k (set_file (k_heap k) l (set_pos fp e)) in
      if bool_decide (s = []) then (0, k)
      else
        let! kw := guest_write k buf_ptr s on k;
        (Z.of_nat (length s), kw)
  end.

Definition getdents64 k (a : args) : Z * kern W :=
  match u32_try_from (a0 a) with
  | None => (- EBADF, k)
  | Some fd =>
    let! _ := guest_slice_mut k (a1 a) (a2 a) on k;
    match usize_try_from (a2 a) with
    | None => (- EINVAL, k)
    | Some len =>
      if len =? 0 then (- EINVAL, k)
      else
        let! res := get (k_fds k) fd on k;
        match res with
        | RFile l =>
          let fp := file_at (k_heap k) l in
          if negb (is_dir fp) then (- ENOTDIR, k)
          else match fpath fp with
          | None => (- EBADF, k)
          | Some p =>
            match dir_cache fp with
            | Some _ => getdents_slice k l (a1 a) len
            | None =>
              let! cached := readdir_all (k_host k) p on k;
              getdents_slice (set_heap k (set_file (k_heap k) l (set_dir_cache fp cached))) l (a1 a) len
            end
          end
        | _ => (- ENOTDIR, k)
        end
    end
  end.

(** ** Pipes and descriptor flags *)

Definition pipe2 k (a : args) : Z * kern W :=
  let fdarray_ptr := a0 a in
  let flags := as_i32 (a1 a) in
  let! _ := guest_slice_mut k fdarray_ptr 8 on k;
  let '(rd, wr, h) := make_pipe (k_heap k) in
  let h := if has flags O_NONBLOCK
           then set_pipe h (pr_pipe rd) (MkPipe [] false true) else h in
  let '(rd_fd, t) := insert (k_fds k) (RPipeRead rd) in
  let '(wr_fd, t) := insert t (RPipeWrite wr) in
  let k := set_fds (set_heap k h) t in
  let! kw := guest_write k fdarray_ptr (to_le_bytes 4 rd_fd ++ to_le_bytes 4 wr_fd) on k;
  (0, kw).

Definition sys_pipe k (a : args) : Z * kern W := pipe2 k (Args (a0 a) 0 0 0 0 0).

(** The non-blocking flag lives in the shared object; files, epoll instances
    and event counters ignore it. *)
Definition set_nonblock (h : heap) (r : Resource) (want : bool) : heap :=
  match r with
  | RStdin x | RPipeRead x =>
    let p := pipe_at h (pr_pipe x) in set_pipe h (pr_pipe x) (MkPipe (buf p) (closed p) want)
  | RStdout x | RStderr x | RPipeWrite x =>
    let p := pipe_at h (pw_pipe x) in set_pipe h (pw_pipe x) (MkPipe (buf p) (closed p) want)
  | RSocket l => set_sock h l (sock_set_nonblock (sock_at h l) want)
  | _ => h
  end.

(** [F_GETFL]: the access mode and [O_NONBLOCK]. *)
Definition status_flags (h : heap) (r : Resource) : Z :=
  match r with
  | RStdin x | RPipeRead x =>
    if p_nonblock (pipe_at h (pr_pipe x)) then Z.lor O_RDONLY O_NONBLOCK else O_RDONLY
  | RStdout x | RStderr x | RPipeWrite x =>
    if p_nonblock (pipe_at h (pw_pipe x)) then Z.lor O_WRONLY O_NONBLOCK else O_WRONLY
  | RSocket l => if s_nonblock (sock_at h l) then Z.lor O_RDWR O_NONBLOCK else O_RDWR
  | RFile _ | REpoll _ | REventFd _ => O_RDWR
  end.

Definition dup_fd k (fd min_fd : Z) (want_cloexec : bool) : outcome (Z * kern W) :=
  match get (k_fds k) fd with
  | Err e => Return (e, k)
  | Ok r =>
    match clone_resource r with
    | None => Return (- EBADF, k)
    | Some cloned =>
      match insert_at_least (k_fds k) min_fd cloned with
      | None => Hang
      | Some (new_fd, t) => Return (new_fd, set_fds k (set_cloexec t new_fd want_cloexec))
      end
    end
  end.

Definition fcntl k (a : args) : outcome (Z * kern W) :=
  match u32_try_from (a0 a) with
  | None => Return (- EBADF, k)
  | Some fd =>
    let cmd := as_i32 (a1 a) in
    let arg := a2 a in
    if cmd =? F_GETFL then
      Return (match get (k_fds k) fd with
              | Ok r => status_flags (k_heap k) r
              | Err e => e
              end, k)
    else if cmd =? F_SETFL then
      match get (k_fds k) fd with
      | Ok r => Return (0, set_heap k (set_nonblock (k_heap k) r (has (as_i32 arg) O_NONBLOCK)))
      | Err e => Return (e, k)
      end
    else if cmd =? F_GETFD then
      let on_ := get_cloexec (k_fds k) fd in
      let v := if on_ then 1 else 0 in
      Return (v, if negb (arg =? 0)
                 then match guest_write k arg (to_le_bytes 4 v) with Ok k' => k' | Err _ => k end
                 else k)
    else if cmd =? F_SETFD then
      Return (0, set_fds k (set_cloexec (k_fds k) fd (has (as_i32 arg) 1)))
    else if (cmd =? F_DUPFD) || (cmd =? F_DUPFD_CLOEXEC) then
      if as_i32 arg <? 0 then Return (- EINVAL, k)
      else dup_fd k fd (as_u32 arg) (cmd =? F_DUPFD_CLOEXEC)
    else Return (- EINVAL, k)
  end.

(** ** Duplication *)

Definition internal_dup k (oldfd : Z) (newfd_target : option Z) (want_cloexec : bool)
    : outcome (Z * kern W) :=
  match newfd_target with
  | None => dup_fd k oldfd (as_u32 (oldfd + 1)) want_cloexec
  | Some target =>
    match get (k_fds k) oldfd with
    | Err e => Return (e, k)
    | Ok r =>
      match clone_resource r with
      | None => Return (- EBADF, k)
      | Some cloned =>
        let '(_, t) := Fd.close (k_fds k) target in
        match insert_at t target cloned with
        | (Err e, t) => Return (e, set_fds k t)
        | (Ok new_fd, t) => Return (new_fd, set_fds k (set_cloexec t new_fd want_cloexec))
        end
      end
    end
  end.

Definition dup k (a : args) : outcome (Z * kern W) :=
  match u32_try_from (a0 a) with
  | None => Return (- EBADF, k)
  | Some oldfd => internal_dup k oldfd None false
  end.

Definition dup2 k (a : args) : outcome (Z * kern W) :=
  match u32_try_from (a0 a), u32_try_from (a1 a) with
  | Some oldfd, Some newfd =>
    if oldfd =? newfd then
      Return (match get (k_fds k) oldfd with Ok _ => newfd | Err e => e end, k)
    else internal_dup k oldfd (Some newfd) false
  | _, _ => Return (- EBADF, k)
  end.

Definition dup3 k (a : args) : outcome (Z * kern W) :=
  match u32_try_from (a0 a), u32_try_from (a1 a) with
  | Some oldfd, Some newfd =>
    let flags := as_i32 (a2 a) in
    if negb (Z.land flags (Z.lnot O_CLOEXEC) =? 0) then Return (- EINVAL, k)
    else if oldfd =? newfd then Return (- EINVAL, k)
    else internal_dup k oldfd (Some newfd) (has flags O_CLOEXEC)
  | _, _ => Return (- EBADF, k)
  end.

(** ** Path-bearing calls *)

(** Read a path argument, refuse an empty one, resolve it. *)
Definition with_path k (dirfd ptr : Z) (f : path → Z * kern W) : Z * kern W :=
  let! s := guest_str k ptr PATH_MAX on k;
  if bool_decide (s = []) then (- ENOENT, k)
  else
    let! abs := resolve k dirfd s on k;
    f abs.

(** Report the result of a host call. *)
Definition host_unit k (r : io unit * W) : Z * kern W :=
  (match r.1 with IoOk _ => 0 | IoErr e => - file_io_to_errno e end, set_host k r.2).

Definition mkdir k (a : args) : Z * kern W :=
  with_path k (-100) (a0 a) (λ abs, host_unit k (fs_create_dir (k_host k) abs)).
Definition mkdirat k (a : args) : Z * kern W :=
  with_path k (a0 a) (a1 a) (λ abs, host_unit k (fs_create_dir (k_host k) abs)).
Definition rmdir k (a : args) : Z * kern W :=
  with_path k (-100) (a0 a) (λ abs, host_unit k (fs_remove_dir (k_host k) abs)).
Definition unlink k (a : args) : Z * kern W :=
  with_path k (-100) (a0 a) (λ abs, host_unit k (fs_remove_file (k_host k) abs)).
Definition unlinkat k (a : args) : Z * kern W :=
  with_path k (a0 a) (a1 a) (λ abs,
    host_unit k (if has (as_i32 (a2 a)) AT_REMOVEDIR then fs_remove_dir (k_host k) abs
                 else fs_remove_file (k_host k) abs)).

(** Two path arguments, both read before either is resolved. *)
Definition with_paths k (olddirfd old_ptr newdirfd new_ptr : Z) (f : path → path → Z * kern W)
    : Z * kern W :=
  let! old := guest_str k old_ptr PATH_MAX on k;
  let! new := guest_str k new_ptr PATH_MAX on k;
  if bool_decide (old = []) || bool_decide (new = []) then (- ENOENT, k)
  else
    let! old_abs := resolve k olddirfd old on k;
    let! new_abs := resolve k newdirfd new on k;
    f old_abs new_abs.

Definition renameat k (a : args) : Z * kern W :=
  let flags := as_i32 (a4 a) in
  with_paths k (a0 a) (a1 a) (a2 a) (a3 a) (λ old_abs new_abs,
    let known := Z.lor RENAME_NOREPLACE (Z.lor RENAME_EXCHANGE RENAME_WHITEOUT) in
    if negb (Z.land flags (Z.lnot known) =? 0) then (- EINVAL, k)
    else if has flags RENAME_WHITEOUT then (- EINVAL, k)
    else if has flags RENAME_NOREPLACE &&
            (match fs_metadata (k_host k) new_abs with IoOk _ => true | IoErr _ => false end)
    then (- EEXIST, k)
    else host_unit k (fs_rename (k_host k) old_abs new_abs)).
Definition rename k (a : args) : Z * kern W := renameat k (Args (-100) (a0 a) (-100) (a1 a) 0 0).
Definition renameat2 k (a : args) : Z * kern W := renameat k a.

Definition linkat k (a : args) : Z * kern W :=
  with_paths k (a0 a) (a1 a) (a2 a) (a3 a) (λ old_abs new_abs,
    host_unit k (fs_hard_link (k_host k) old_abs new_abs)).
Definition link k (a : args) : Z * kern W := linkat k (Args (-100) (a0 a) (-100) (a1 a) 0 0).

Definition truncate k (a : args) : Z * kern W :=
  let! s := guest_str k (a0 a) 4096 on k;
  if bool_decide (s = []) then (- ENOENT, k)
  else if a1 a <? 0 then (- EINVAL, k)
  else
    let! abs := resolve k (-100) s on k;
    match fs_open (k_host k) (MkOpenOptions false true true false false false) abs with
    | (IoErr e, w) => (- file_io_to_errno e, set_host k w)
    | (IoOk f, w) => host_unit k (file_set_len w f (a1 a))
    end.

(** [try_clone] of the file behind a descriptor. *)
Definition clone_file k (fd : Z) : result handle * W :=
  match get (k_fds k) fd with
  | Ok (RFile l) =>
    match file_try_clone (k_host k) (inner (file_at (k_heap k) l)) with
    | (IoOk f, w) => (Ok f, w)
    | (IoErr e, w) => (Err (- file_io_to_errno e), w)
    end
  | Ok _ => (Err (- EBADF), k_host k)
  | Err e => (Err e, k_host k)
  end.

Definition ftruncate k (a : args) : Z * kern W :=
  match u32_try_from (a0 a) with
  | None => (- EBADF, k)
  | Some fd =>
    if a1 a <? 0 then (- EINVAL, k)
    else match clone_file k fd with
    | (Err e, w) => (e, set_host k w)
    | (Ok f, w) => host_unit k (file_set_len w f (a1 a))
    end
  end.

Definition getcwd k (a : args) : Z * kern W :=
  match usize_try_from (a1 a) with
  | None => (- EFAULT, k)
  | Some buf_len =>
    let cwd_bytes := to_string_lossy (render (cwd (k_vfs k))) in
    let needed := Z.of_nat (length cwd_bytes) + 1 in
    if buf_len <? needed then (- ERANGE, k)
    else
      let! kw := guest_write k (a0 a) (cwd_bytes ++ [0]) on k;
      (Z.of_nat (length cwd_bytes), kw)
  end.

Definition readlinkat k (a : args) : Z * kern W :=
  match usize_try_from (a3 a) with
  | None => (- EINVAL, k)
  | Some buf_len =>
    with_path k (a0 a) (a1 a) (λ abs,
      match fs_read_link (k_host k) abs with
      | IoErr e => (- file_io_to_errno e, k)
      | IoOk target =>
        let bs := to_string_lossy target in
        if buf_len <? Z.of_nat (length bs) then (- ENAMETOOLONG, k)
        else
          let! kw := guest_write k (a2 a) bs on k;
          (Z.of_nat (length bs), kw)
      end)
  end.
Definition readlink k (a : args) : Z * kern W :=
  readlinkat k (Args (-100) (a0 a) (a1 a) (a2 a) 0 0).

Definition symlinkat k (a : args) : Z * kern W :=
  let! target := guest_str k (a0 a) PATH_MAX on k;
  with_path k (a1 a) (a2 a) (λ abs, host_unit k (fs_symlink (k_host k) target abs)).
Definition symlink k (a : args) : Z * kern W := symlinkat k (Args (a0 a) (-100) (a1 a) 0 0 0).

(** The modification time [utimensat] sets: [None] is a panic. *)
Definition utimens_mtime k (times_ptr : Z) : result (option system_time) :=
  if times_ptr =? 0 then Ok (Some (now (k_host k)))
  else
    bs <-? guest_slice k times_ptr 32;
    Ok (match timespec_from_bytes (take 16 bs) with
        | Some _ => timespec_from_bytes (drop 16 bs)
        | None => None
        end).

Definition utimensat k (a : args) : outcome (Z * kern W) :=
  match guest_str k (a1 a) PATH_MAX with
  | Err e => Return (e, k)
  | Ok s =>
    if bool_decide (s = []) then Return (- ENOENT, k)
    else match resolve k (a0 a) s with
    | Err e => Return (e, k)
    | Ok abs =>
      match utimens_mtime k (a2 a) with
      | Err e => Return (e, k)
      | Ok None => Panic
      | Ok (Some mtime) =>
        match fs_open (k_host k) (MkOpenOptions false true false false false false) abs with
        | (IoErr e, w) => Return (- file_io_to_errno e, set_host k w)
        | (IoOk f, w) => Return (host_unit k (file_set_modified w f mtime))
        end
      end
    end
  end.

Definition fchmod k (a : args) : Z * kern W :=
  let fd := as_u32 (a0 a) in
  let mode := Z.land (as_u32 (a1 a)) 4095 in
  match clone_file k fd with
  | (Err e, w) => (e, set_host k w)
  | (Ok f, w) =>
    match file_metadata w f with
    | IoErr e => (- file_io_to_errno e, set_host k w)
    | IoOk _ => host_unit k (file_set_permissions w f mode)
    end
  end.

Definition fchmodat k (a : args) : Z * kern W :=
  let mode := Z.land (as_u32 (a2 a)) 4095 in
  with_path k (a0 a) (a1 a) (λ abs, host_unit k (fs_set_permissions (k_host k) abs mode)).
Definition chmod k (a : args) : Z * kern W := fchmodat k (Args (-100) (a0 a) (a1 a) 0 0 0).

Definition faccessat2 k (a : args) : Z * kern W :=
  let mode := as_i32 (a2 a) in
  with_path k (a0 a) (a1 a) (λ abs,
    match fs_metadata (k_host k) abs with
    | IoErr e => (- file_io_to_errno e, k)
    | IoOk meta =>
      let m := md_mode meta in
      let readonly := Z.land m 146 =? 0 in
      if mode =? F_OK then (0, k)
      else if has mode R_OK && (Z.land m 292 =? 0) then (- EACCES, k)
      else if has mode W_OK && (readonly || (Z.land m 146 =? 0)) then (- EACCES, k)
      else if has mode X_OK && (Z.land m 73 =? 0) then (- EACCES, k)
      else (0, k)
    end).
Definition faccessat k (a : args) : Z * kern W := faccessat2 k a.

Definition chdir k (a : args) : Z * kern W :=
  with_path k (-100) (a0 a) (λ abs,
    match Vfs_chdir (k_host k) (k_vfs k) abs with
    | Ok v => (0, set_vfs k v)
    | Err e => (e, k)
    end).

Definition chroot k (a : args) : Z * kern W :=
  with_path k (-100) (a0 a) (λ abs,
    match Vfs_chroot (k_host k) (k_vfs k) abs with
    | Ok v => (0, set_vfs k v)
    | Err e => (e, k)
    end).

End syscalls.
