(* ===== verification/SysFileInv.v ===== *)
(** * File syscalls keep the kernel invariant

    One instance of [Preserves] per handler of [SysFile]. That the socket
    handlers behind [read] and [write] keep the invariant too is a premise
    here; [SysSocketInv] proves it. *)

From S2P Require Import Prelude Word Errno GuestMem Text Path Host Vfs.
From S2P Require Import Fd Kernel KernInv SysPath SysEventfd SysFile.

Section inv.
Context {W : Type} `{Host W}.
Context (recvfrom sendto : kern W → args → Z * kern W).
Implicit Types k : kern W.

(** ** read and write *)

Lemma finish_read_wf k ptr len eof tmp r k' :
  kern_wf k → Z.of_nat (length tmp) ≤ len → finish_read k ptr len eof tmp = (r, k') → kern_wf k'.
Proof.
  intros Hk Hl. unfold finish_read. destruct eof; [by intros [= <- <-]|].
  case_bool_decide; [by intros [= <- <-]|].
  destruct (guest_slice_mut k ptr len) as [p|e] eqn:E; [|by intros [= <- <-]].
  apply guest_slice_mut_Ok in E as [Hin ->]. intros [= <- <-].
  apply kern_wf_mem_put; [done|]. eapply in_memory_le; [done|lia].
Qed.

Lemma read_pipe_wf k x ptr len r k' :
  kern_wf k → 0 ≤ len → is_Some (pipes (k_heap k) !! pr_pipe x) →
  read_pipe k x ptr len = (r, k') → kern_wf k'.
Proof.
  intros Hk Hlen Hx. unfold read_pipe.
  set (k1 := set_heap k _). assert (kern_wf k1) as Hk1 by (subst k1; eauto with libos).
  destruct (_ && _ && _); [by intros [= <- <-]|]. apply finish_read_wf; [done|].
  rewrite length_take. lia.
Qed.

Lemma read_loop_length fuel w f len got bs w' :
  read_loop fuel w f len got = (Ok bs, w') → (length got ≤ len)%nat → (length bs ≤ len)%nat.
Proof.
  revert w got. induction fuel as [|fuel IH]; intros w got; simpl; [by intros [= <- <-]|].
  destruct (file_read w f 4096) as [[chunk|e] w1]; [|done].
  case_bool_decide; [by intros [= <- <-]|].
  destruct (_ <? _)%nat eqn:E1; [intros [= <- <-]; rewrite length_app, length_take; lia|].
  apply Nat.ltb_ge in E1.
  destruct (_ <=? _)%nat eqn:E2; [intros [= <- <-] ?; rewrite length_app; lia|].
  intros Hr Hl. apply IH in Hr; [done|]. rewrite length_app. lia.
Qed.

Lemma read_file_wf k l ptr len r k' :
  kern_wf k → 0 ≤ len → is_Some (files (k_heap k) !! l) →
  read_file k l ptr len = (r, k') → kern_wf k'.
Proof.
  intros Hk Hlen Hl. unfold read_file. destruct (file_seek _ _ _) as [x w].
  destruct (read_loop _ _ _ _ _) as [[got|e] w'] eqn:E; [|intros [= <- <-]; eauto with libos].
  apply read_loop_length in E; [|simpl; lia].
  apply finish_read_wf; [|lia]. apply kern_wf_set_heap; [eauto with libos|].
  apply set_file_wf; [exact (kw_heap _ Hk)|done].
Qed.

Lemma read_eventfd_wf k fd e ptr len r k' :
  kern_wf k → get (k_fds k) fd = Ok (REventFd e) → read_eventfd k fd e ptr len = (r, k') → kern_wf k'.
Proof.
  intros Hk Hg. apply get_Ok in Hg. unfold read_eventfd.
  destruct (require_u64_buf len); [|by intros [= <- <-]]. destruct (eventfd_read e) as [v e'].
  set (k1 := set_fds k _).
  assert (kern_wf k1) as Hk1 by (apply kern_wf_put; [done|by eexists|done]).
  destruct v as [v|]; [|by intros [= <- <-]]. destruct (v =? 0); [by intros [= <- <-]|].
  destruct (guest_write k1 _ _) eqn:E; intros [= <- <-]; eauto with libos.
Qed.

#[export] Instance read_preserves `{!Preserves recvfrom} : Preserves (read recvfrom).
Proof.
  intros k a r k' Hk. unfold read. destruct (u32_try_from (a0 a)) as [fd|]; [|by intros [= <- <-]].
  destruct (guest_slice_mut k _ _); [|by intros [= <- <-]].
  destruct (usize_try_from (a2 a)) as [len|] eqn:El; [|by intros [= <- <-]].
  apply usize_try_from_Some in El as [<- [Hlen _]].
  destruct (a2 a =? 0); [by intros [= <- <-]|].
  destruct (get (k_fds k) fd) as [res|e] eqn:Hg; [|by intros [= <- <-]]. use_res Hk Hg.
  destruct res; try (by intros [= <- <-]).
  - by apply read_pipe_wf.
  - by apply read_file_wf.
  - by apply read_pipe_wf.
  - by apply preserves.
  - by apply read_eventfd_wf.
Qed.

Lemma write_pipe_wf k x bs r k' :
  kern_wf k → is_Some (pipes (k_heap k) !! pw_pipe x) → write_pipe k x bs = (r, k') → kern_wf k'.
Proof.
  intros Hk Hx. unfold write_pipe. intros [= <- <-]. apply kern_wf_set_heap; [done|].
  set (h := set_pipe _ _ _).
  destruct (set_pipe_wf (k_heap k) (pw_pipe x)
    (MkPipe (buf (pipe_at (k_heap k) (pw_pipe x)) ++ bs) (closed (pipe_at (k_heap k) (pw_pipe x)))
       (p_nonblock (pipe_at (k_heap k) (pw_pipe x)))) (kw_heap _ Hk) Hx) as [Hh Hle].
  case_bool_decide; [|done]. destruct (notify_waiters_wf h (pw_notify x) Hh). split; [done|].
  by transitivity h.
Qed.

Lemma write_file_wf k l bs r k' :
  kern_wf k → is_Some (files (k_heap k) !! l) → write_file k l bs = (r, k') → kern_wf k'.
Proof.
  intros Hk Hl. unfold write_file. destruct (file_write _ _ _) as [[n|e] w]; intros [= <- <-].
  - apply kern_wf_set_heap; [eauto with libos|]. apply set_file_wf; [exact (kw_heap _ Hk)|done].
  - eauto with libos.
Qed.

Lemma write_eventfd_wf k fd e len bs r k' :
  kern_wf k → get (k_fds k) fd = Ok (REventFd e) → write_eventfd k fd e len bs = (r, k') → kern_wf k'.
Proof.
  intros Hk Hg. apply get_Ok in Hg. unfold write_eventfd.
  destruct (require_u64_buf len); [|by intros [= <- <-]]. simpl. intros [= <- <-].
  apply kern_wf_set_heap; [apply kern_wf_put; [done|by eexists|done]|].
  apply notify_waiters_wf. exact (kw_heap _ Hk).
Qed.

#[export] Instance write_preserves `{!Preserves sendto} : Preserves (write sendto).
Proof.
  intros k a r k' Hk. unfold write. destruct (u32_try_from (a0 a)) as [fd|]; [|by intros [= <- <-]].
  destruct (guest_slice k _ _); [|by intros [= <- <-]].
  case_bool_decide; [by intros [= <- <-]|].
  destruct (get (k_fds k) fd) as [res|e] eqn:Hg; [|by intros [= <- <-]]. use_res Hk Hg.
  destruct res; try (by intros [= <- <-]).
  - by apply write_pipe_wf.
  - by apply write_pipe_wf.
  - by apply write_file_wf.
  - by apply write_pipe_wf.
  - by apply preserves.
  - by apply write_eventfd_wf.
Qed.

Lemma iov_loop_wf op k fd iovs total r k' :
  Preserves op → kern_wf k → iov_loop op k fd iovs total = (r, k') → kern_wf k'.
Proof.
  intros Hop. revert k total. induction iovs as [|[base len] iovs IH]; intros k total Hk; cbn [iov_loop].
  { by intros [= <- <-]. }
  destruct (len =? 0); [by apply IH|].
  destruct (op k _) as [r1 k1] eqn:E. apply Hop in E; [|done].
  destruct (r1 <? 0); [by intros [= <- <-]|]. destruct (r1 <? len); [by intros [= <- <-]|].
  by apply IH.
Qed.

#[export] Instance readv_preserves `{!Preserves recvfrom} : Preserves (readv recvfrom).
Proof.
  intros k a r k' Hk. unfold readv. destruct (iov_entries k _ _); [|by intros [= <- <-]].
  apply iov_loop_wf; [apply _|done].
Qed.

#[export] Instance writev_preserves `{!Preserves sendto} : Preserves (writev sendto).
Proof.
  intros k a r k' Hk. unfold writev. destruct (iov_entries k _ _); [|by intros [= <- <-]].
  apply iov_loop_wf; [apply _|done].
Qed.

(** ** Opening, closing, seeking *)

#[export] Instance openat_preserves : PreservesFd openat.
Proof.
  intros k a r k' Hk. unfold openat.
  destruct (guest_str k _ _); [|by intros [= <- <-]].
  destruct (resolve k _ _) as [abs|]; [|by intros [= <- <-]].
  destruct (Vfs_open _ _ _ _) as [[f|e] w]; [|intros [= <- <-]; eauto with libos].
  set (fp := MkFilePos _ _ _ _ _).
  destruct (new_file (k_heap (set_host k w)) fp) as [l h] eqn:En.
  destruct (new_file_wf _ _ _ _ En (kw_heap _ Hk)) as (Hh & Hle & Hl).
  destruct (insert (k_fds (set_host k w)) (RFile l)) as [fd t] eqn:Ei. intros [= <- <-] Hn.
  eapply (kern_wf_insert (set_heap (set_host k w) h) (RFile l)); [|exact Hl|exact Ei|done].
  apply kern_wf_set_heap; [eauto with libos|done].
Qed.

#[export] Instance open_preserves : PreservesFd open.
Proof. intros k a r k' Hk Ho. by eapply openat_preserves. Qed.

#[export] Instance close_preserves : Preserves (close (W:=W)).
Proof.
  intros k a r k' Hk. unfold close. destruct (u32_try_from (a0 a)) as [fd|]; [|by intros [= <- <-]].
  destruct (Fd.close (k_fds k) fd) as [[] t] eqn:E; intros [= <- <-]; by eapply kern_wf_close.
Qed.

Lemma set_file_kern_wf k l fp :
  kern_wf k → is_Some (files (k_heap k) !! l) → kern_wf (set_heap k (set_file (k_heap k) l fp)).
Proof. intros Hk Hl. apply kern_wf_set_heap; [done|]. apply set_file_wf; [by apply kw_heap|done]. Qed.

#[export] Instance lseek_preserves : Preserves lseek.
Proof.
  intros k a r k' Hk. unfold lseek. destruct (u32_try_from (a0 a)) as [fd|]; [|by intros [= <- <-]].
  destruct (get (k_fds k) fd) as [res|e] eqn:Hg; [|by intros [= <- <-]]. use_res Hk Hg.
  destruct res as [| | |l| | | | |]; try (by intros [= <- <-]).
  destruct (is_dir _).
  { destruct (_ && _); intros [= <- <-]; [|done]. by apply set_file_kern_wf. }
  destruct (seek_target _ _ _ _); [|by intros [= <- <-]].
  destruct (file_seek _ _ _) as [[p|e] w]; intros [= <- <-]; [|eauto with libos].
  apply (set_file_kern_wf (set_host k w)); [eauto with libos|done].
Qed.

(** ** Metadata and directories *)

#[export] Instance fstat_preserves : Preserves fstat.
Proof.
  intros k a r k' Hk. unfold fstat, stat_write_to_guest.
  destruct (u32_try_from (a0 a)) as [fd|]; [|by intros [= <- <-]].
  destruct (get (k_fds k) fd); [|by intros [= <- <-]].
  destruct (guest_write k _ _) eqn:E; intros [= <- <-]; eauto with libos.
Qed.

#[export] Instance newfstatat_preserves : Preserves newfstatat.
Proof.
  intros k a r k' Hk. unfold newfstatat, stat_write_to_guest.
  destruct (guest_str k _ _); [|by intros [= <- <-]].
  destruct (_ && _); [by apply fstat_preserves|]. case_bool_decide; [by intros [= <- <-]|].
  destruct (resolve k _ _); [|by intros [= <- <-]].
  destruct (Vfs_stat _ _); [|by intros [= <- <-]].
  destruct (guest_write k _ _) eqn:E; intros [= <- <-]; eauto with libos.
Qed.

#[export] Instance stat_preserves : Preserves stat.
Proof. intros k a r k' Hk Hs. by eapply newfstatat_preserves. Qed.
#[export] Instance lstat_preserves : Preserves lstat.
Proof. intros k a r k' Hk Hs. by eapply newfstatat_preserves. Qed.

#[export] Instance statx_preserves : Preserves statx.
Proof.
  intros k a r k' Hk. unfold statx. destruct (negb _); [by intros [= <- <-]|].
  destruct (guest_slice_mut k _ _); [|by intros [= <- <-]].
  destruct (guest_str k _ _); [|by intros [= <- <-]].
  match goal with |- (match ?x with Ok _ => _ | Err _ => _ end) = _ → _ => destruct x as [st|e] end;
    [|by intros [= <- <-]].
  destruct (guest_write k _ _) eqn:E; intros [= <- <-]; eauto with libos.
Qed.

Lemma getdents_slice_wf k l ptr len r k' :
  kern_wf k → is_Some (files (k_heap k) !! l) → getdents_slice k l ptr len = (r, k') → kern_wf k'.
Proof.
  intros Hk Hl. unfold getdents_slice. destruct (dir_cache _) as [c|]; [|by intros [= <- <-]].
  destruct (_ <=? _); [by intros [= <- <-]|].
  set (k1 := set_heap k _). assert (kern_wf k1) by by apply set_file_kern_wf.
  case_bool_decide; [by intros [= <- <-]|].
  destruct (guest_write k1 _ _) eqn:E; intros [= <- <-]; eauto with libos.
Qed.

#[export] Instance getdents64_preserves : Preserves getdents64.
Proof.
  intros k a r k' Hk. unfold getdents64.
  destruct (u32_try_from (a0 a)) as [fd|]; [|by intros [= <- <-]].
  destruct (guest_slice_mut k _ _); [|by intros [= <- <-]].
  destruct (usize_try_from _) as [len|]; [|by intros [= <- <-]].
  destruct (len =? 0); [by intros [= <- <-]|].
  destruct (get (k_fds k) fd) as [res|e] eqn:Hg; [|by intros [= <- <-]]. use_res Hk Hg.
  destruct res as [| | |l| | | | |]; try (by intros [= <- <-]).
  destruct (negb _); [by intros [= <- <-]|]. destruct (fpath _) as [p|]; [|by intros [= <- <-]].
  destruct (dir_cache _); [by apply getdents_slice_wf|].
  destruct (readdir_all _ _); [|by intros [= <- <-]].
  apply getdents_slice_wf; [by apply set_file_kern_wf|]. simpl. rewrite lookup_insert_eq. by eexists.
Qed.

(** ** Pipes, flags, duplication *)

#[export] Instance pipe2_preserves : PreservesFd (pipe2 (W:=W)).
Proof.
  intros k a r k' Hk. unfold pipe2. destruct (guest_slice_mut k _ _); [|by intros [= <- <-]].
  destruct (make_pipe (k_heap k)) as [[rd wr] h] eqn:Em.
  destruct (make_pipe_wf _ _ _ _ Em (kw_heap _ Hk)) as (Hh & Hle & Hs & Heq & _).
  set (h' := if has _ _ then _ else h).
  assert (heap_wf h' ∧ heap_le (k_heap k) h' ∧ is_Some (pipes h' !! pr_pipe rd)) as (Hh' & Hle' & Hs').
  { subst h'. destruct (has _ _); [|done].
    destruct (set_pipe_wf h (pr_pipe rd) (MkPipe [] false true) Hh Hs) as [? [Hlp ? ?]].
    split_and!; [done|by transitivity h|by apply Hlp]. }
  destruct (insert (k_fds k) (RPipeRead rd)) as [rd_fd t1] eqn:Ei1.
  destruct (insert t1 (RPipeWrite wr)) as [wr_fd t2] eqn:Ei2.
  set (k2 := set_fds _ t2). intros Hret Hn.
  assert (3 ≤ next_fd t2) as Hn2.
  { destruct (guest_write k2 _ _) as [kw|e] eqn:E; injection Hret as <- <-; [|done].
    apply guest_write_Ok in E as [(m & Hm & _) ->]. unfold mem_put in Hn. by rewrite Hm in Hn. }
  assert (kern_wf k2) as Hk2.
  { assert (3 ≤ next_fd t1) as Hn1.
    { destruct (kw_fds _ Hk) as [Hb _]. injection Ei1 as _ <-. injection Ei2 as _ <-. simpl in *.
      destruct (decide (next_fd (k_fds k) = U32_MAX)) as [He|].
      - rewrite He in Hn2. vm_compute in Hn2. by destruct Hn2.
      - rewrite as_u32_small by lia. lia. }
    assert (kern_wf (set_heap k h')) as Hkh by by apply kern_wf_set_heap.
    assert (kern_wf (set_fds (set_heap k h') t1)) as Hk1
      by by eapply (kern_wf_insert (set_heap k h') (RPipeRead rd)).
    eapply (kern_wf_insert (set_fds (set_heap k h') t1) (RPipeWrite wr)); [done| |exact Ei2|done].
    simpl. by rewrite <- Heq. }
  destruct (guest_write k2 _ _) eqn:E; injection Hret as <- <-; eauto with libos.
Qed.

#[export] Instance sys_pipe_preserves : PreservesFd (sys_pipe (W:=W)).
Proof. intros k a r k' Hk Hp. by eapply pipe2_preserves. Qed.

Lemma set_nonblock_wf h r want : heap_wf h → res_ok h r → heap_wf (set_nonblock h r want) ∧ heap_le h (set_nonblock h r want).
Proof.
  intros Hh Hr. destruct r; simpl in *; eauto with libos; try by split.
  apply set_sock_wf; [done|done|]. by eapply sock_ok_same; [apply sock_at_ok|..].
Qed.

Lemma clone_resource_eq r c : clone_resource r = Some c → c = r.
Proof. destruct r; simpl; by intros [= <-]. Qed.

Lemma dup_fd_wf k fd min want r k' :
  kern_wf k → 0 ≤ min ≤ U32_MAX → dup_fd k fd min want = Return (r, k') →
  3 ≤ next_fd (k_fds k') → kern_wf k'.
Proof.
  intros Hk Hmin. unfold dup_fd. destruct (get (k_fds k) fd) as [res|e] eqn:Hg; [|by intros [= <- <-]].
  use_res Hk Hg. destruct (clone_resource res) as [c|] eqn:Ec; [|by intros [= <- <-]].
  apply clone_resource_eq in Ec as ->.
  destruct (insert_at_least _ _ _) as [[nfd t]|] eqn:Ei; [|done]. intros [= <- <-] Hn.
  unfold insert_at_least in Ei. apply bind_Some in Ei as (x & Hp & [= -> <-]).
  apply probe_sound in Hp as (_ & Hx & _); [|lia].
  apply (kern_wf_bind_at k nfd res); [done|done|lia|done].
Qed.

Lemma as_u32_range x : 0 ≤ as_u32 x ≤ U32_MAX.
Proof. pose proof (wrapu_range 32 x ltac:(lia)) as Hr. unfold is_u, U32_MAX, as_u32 in *. lia. Qed.

#[export] Instance fcntl_preserves : PreservesOut (fcntl (W:=W)).
Proof.
  intros k a r k' Hk. unfold fcntl. destruct (u32_try_from (a0 a)) as [fd|]; [|by intros [= <- <-]].
  destruct (_ =? F_GETFL); [by intros [= <- <-]|].
  destruct (_ =? F_SETFL).
  { destruct (get (k_fds k) fd) as [res|e] eqn:Hg; intros [= <- <-]; [|done]. use_res Hk Hg.
    intros _. apply kern_wf_set_heap; [done|]. apply set_nonblock_wf; [by apply kw_heap|done]. }
  destruct (_ =? F_GETFD).
  { intros [= <- <-] _. destruct (negb _); [|done].
    destruct (guest_write k _ _) eqn:E; eauto with libos. }
  destruct (_ =? F_SETFD); [intros [= <- <-] _; eauto with libos|].
  destruct (_ || _); [|by intros [= <- <-]].
  destruct (_ <? 0); [by intros [= <- <-]|]. apply dup_fd_wf; [done|apply as_u32_range].
Qed.

Lemma close_mono_next k fd x t : Fd.close (k_fds k) fd = (x, t) → next_fd t = next_fd (k_fds k).
Proof. unfold Fd.close. case_bool_decide; by intros [= <- <-]. Qed.

Lemma internal_dup_wf k oldfd target want r k' :
  kern_wf k → (∀ t, target = Some t → 0 ≤ t ≤ U32_MAX) →
  internal_dup k oldfd target want = Return (r, k') → 3 ≤ next_fd (k_fds k') → kern_wf k'.
Proof.
  intros Hk Ht. unfold internal_dup. destruct target as [target|]; [|apply dup_fd_wf; [done|apply as_u32_range]].
  destruct (get (k_fds k) oldfd) as [res|e] eqn:Hg; [|by intros [= <- <-]]. use_res Hk Hg.
  destruct (clone_resource res) as [c|] eqn:Ec; [|by intros [= <- <-]].
  apply clone_resource_eq in Ec as ->.
  destruct (Fd.close (k_fds k) target) as [x t] eqn:Hc.
  pose proof (kern_wf_close _ _ _ _ Hk Hc) as Hk1.
  destruct (insert_at t target res) as [[nfd|e] t'] eqn:Hi.
  - intros [= <- <-] Hn. unfold insert_at in Hi. case_bool_decide; [done|]. injection Hi as <- <-.
    by apply (kern_wf_bind_at (set_fds k t) target res); [done|done|apply Ht|].
  - unfold insert_at in Hi. case_bool_decide; [|done]. injection Hi as _ <-. by intros [= <- <-].
Qed.

#[export] Instance dup_preserves : PreservesOut (dup (W:=W)).
Proof.
  intros k a r k' Hk. unfold dup. destruct (u32_try_from (a0 a)); [|by intros [= <- <-]].
  by apply internal_dup_wf.
Qed.

Lemma u32_bound x y : u32_try_from x = Some y → 0 ≤ y ≤ U32_MAX.
Proof. intros [<- ?]%u32_try_from_Some. unfold is_u, U32_MAX in *. lia. Qed.

#[export] Instance dup2_preserves : PreservesOut (dup2 (W:=W)).
Proof.
  intros k a r k' Hk. unfold dup2. destruct (u32_try_from (a0 a)); [|by intros [= <- <-]].
  destruct (u32_try_from (a1 a)) eqn:E; [|by intros [= <- <-]].
  destruct (_ =? _); [by intros [= <- <-]|]. apply internal_dup_wf; [done|].
  intros t [= <-]. by eapply u32_bound.
Qed.

#[export] Instance dup3_preserves : PreservesOut (dup3 (W:=W)).
Proof.
  intros k a r k' Hk. unfold dup3. destruct (u32_try_from (a0 a)); [|by intros [= <- <-]].
  destruct (u32_try_from (a1 a)) eqn:E; [|by intros [= <- <-]].
  destruct (negb _); [by intros [= <- <-]|].
  destruct (_ =? _); [by intros [= <- <-]|]. apply internal_dup_wf; [done|].
  intros t [= <-]. by eapply u32_bound.
Qed.

(** ** Path-bearing calls *)

Lemma with_path_wf k dirfd ptr f r k' :
  kern_wf k →
  (∀ abs r k', plain abs → root (k_vfs k) `prefix_of` abs → f abs = (r, k') → kern_wf k') →
  with_path k dirfd ptr f = (r, k') → kern_wf k'.
Proof.
  intros Hk Hf. unfold with_path. destruct (guest_str k _ _); [|by intros [= <- <-]].
  case_bool_decide; [by intros [= <- <-]|].
  destruct (resolve k _ _) eqn:E; [|by intros [= <- <-]].
  apply resolve_sound in E as [? ?]; [by eapply Hf|by apply kw_vfs].
Qed.

Lemma with_paths_wf k d1 p1 d2 p2 f r k' :
  kern_wf k → (∀ x y r k', f x y = (r, k') → kern_wf k') →
  with_paths k d1 p1 d2 p2 f = (r, k') → kern_wf k'.
Proof.
  intros Hk Hf. unfold with_paths. destruct (guest_str k _ _); [|by intros [= <- <-]].
  destruct (guest_str k _ _); [|by intros [= <- <-]]. destruct (_ || _); [by intros [= <- <-]|].
  destruct (resolve k _ _); [|by intros [= <- <-]]. destruct (resolve k _ _); [|by intros [= <- <-]].
  apply Hf.
Qed.

Lemma host_unit_wf k x r k' : kern_wf k → host_unit k x = (r, k') → kern_wf k'.
Proof. intros Hk [= <- <-]. eauto with libos. Qed.

Ltac path_call h :=
  intros k a r k' Hk; unfold h; apply with_path_wf; [done|]; intros; by eapply host_unit_wf.

#[export] Instance mkdir_preserves : Preserves mkdir.
Proof. path_call @mkdir. Qed.
#[export] Instance mkdirat_preserves : Preserves mkdirat.
Proof. path_call @mkdirat. Qed.
#[export] Instance rmdir_preserves : Preserves rmdir.
Proof. path_call @rmdir. Qed.
#[export] Instance unlink_preserves : Preserves unlink.
Proof. path_call @unlink. Qed.
#[export] Instance unlinkat_preserves : Preserves unlinkat.
Proof. path_call @unlinkat. Qed.
#[export] Instance fchmodat_preserves : Preserves fchmodat.
Proof. path_call @fchmodat. Qed.
#[export] Instance chmod_preserves : Preserves chmod.
Proof. intros k a r k' Hk Hs. by eapply fchmodat_preserves. Qed.

#[export] Instance symlinkat_preserves : Preserves symlinkat.
Proof.
  intros k a r k' Hk. unfold symlinkat. destruct (guest_str k _ _); [|by intros [= <- <-]].
  apply with_path_wf; [done|]. intros. by eapply host_unit_wf.
Qed.
#[export] Instance symlink_preserves : Preserves symlink.
Proof. intros k a r k' Hk Hs. by eapply symlinkat_preserves. Qed.

#[export] Instance renameat_preserves : Preserves renameat.
Proof.
  intros k a r k' Hk. unfold renameat. apply with_paths_wf; [done|]. intros x y r1 k1.
  destruct (negb _); [by intros [= <- <-]|]. destruct (has _ RENAME_WHITEOUT); [by intros [= <- <-]|].
  destruct (_ && _); [by intros [= <- <-]|]. by apply host_unit_wf.
Qed.
#[export] Instance rename_preserves : Preserves rename.
Proof. intros k a r k' Hk Hs. by eapply renameat_preserves. Qed.
#[export] Instance renameat2_preserves : Preserves renameat2.
Proof. intros k a r k' Hk Hs. by eapply renameat_preserves. Qed.

#[export] Instance linkat_preserves : Preserves linkat.
Proof.
  intros k a r k' Hk. unfold linkat. apply with_paths_wf; [done|]. intros x y r1 k1. by apply host_unit_wf.
Qed.
#[export] Instance link_preserves : Preserves link.
Proof. intros k a r k' Hk Hs. by eapply linkat_preserves. Qed.

#[export] Instance truncate_preserves : Preserves truncate.
Proof.
  intros k a r k' Hk. unfold truncate. destruct (guest_str k _ _); [|by intros [= <- <-]].
  case_bool_decide; [by intros [= <- <-]|]. destruct (_ <? 0); [by intros [= <- <-]|].
  destruct (resolve k _ _); [|by intros [= <- <-]].
  destruct (fs_open _ _ _) as [[f|e] w]; [by apply host_unit_wf|intros [= <- <-]; eauto with libos].
Qed.

#[export] Instance ftruncate_preserves : Preserves ftruncate.
Proof.
  intros k a r k' Hk. unfold ftruncate. destruct (u32_try_from (a0 a)); [|by intros [= <- <-]].
  destruct (_ <? 0); [by intros [= <- <-]|].
  destruct (clone_file k _) as [[f|e] w]; [by apply host_unit_wf|intros [= <- <-]; eauto with libos].
Qed.

#[export] Instance fchmod_preserves : Preserves fchmod.
Proof.
  intros k a r k' Hk. unfold fchmod.
  destruct (clone_file k _) as [[f|e] w]; [|intros [= <- <-]; eauto with libos].
  destruct (file_metadata w f); [by apply host_unit_wf|intros [= <- <-]; eauto with libos].
Qed.

#[export] Instance getcwd_preserves : Preserves (getcwd (W:=W)).
Proof.
  intros k a r k' Hk. unfold getcwd. destruct (usize_try_from _); [|by intros [= <- <-]].
  destruct (_ <? _); [by intros [= <- <-]|].
  destruct (guest_write k _ _) eqn:E; intros [= <- <-]; eauto with libos.
Qed.

#[export] Instance readlinkat_preserves : Preserves readlinkat.
Proof.
  intros k a r k' Hk. unfold readlinkat. destruct (usize_try_from _); [|by intros [= <- <-]].
  apply with_path_wf; [done|]. intros abs r1 k1 _ _.
  destruct (fs_read_link _ _); [|by intros [= <- <-]]. destruct (_ <? _); [by intros [= <- <-]|].
  destruct (guest_write k _ _) eqn:E; intros [= <- <-]; eauto with libos.
Qed.
#[export] Instance readlink_preserves : Preserves readlink.
Proof. intros k a r k' Hk Hs. by eapply readlinkat_preserves. Qed.

#[export] Instance utimensat_preserves : PreservesOut utimensat.
Proof.
  intros k a r k' Hk. unfold utimensat. destruct (guest_str k _ _); [|by intros [= <- <-]].
  case_bool_decide; [by intros [= <- <-]|]. destruct (resolve k _ _); [|by intros [= <- <-]].
  destruct (utimens_mtime k _) as [[t|]|]; [|done|by intros [= <- <-]].
  destruct (fs_open _ _ _) as [[f|e] w]; intros [= <- <-] _; eauto with libos.
Qed.

#[export] Instance faccessat2_preserves : Preserves faccessat2.
Proof.
  intros k a r k' Hk. unfold faccessat2. apply with_path_wf; [done|]. intros abs r1 k1 _ _.
  destruct (fs_metadata _ _); [|by intros [= <- <-]]. repeat case_if; by intros [= <- <-].
Qed.
#[export] Instance faccessat_preserves : Preserves faccessat.
Proof. intros k a r k' Hk Hs. by eapply faccessat2_preserves. Qed.

#[export] Instance chdir_preserves : Preserves chdir.
Proof.
  intros k a r k' Hk. unfold chdir. apply with_path_wf; [done|]. intros abs r1 k1 Hp Hpre.
  destruct (Vfs_chdir _ _ _) as [v|e] eqn:E; intros [= <- <-]; [|done].
  apply kern_wf_set_vfs; [done|]. unfold Vfs_chdir in E.
  destruct (negb _); [done|]. apply result_bind_Ok in E as (m & _ & E). case_bool_decide; [|done].
  injection E as <-. split; simpl; [apply Hk|done|done].
Qed.

#[export] Instance chroot_preserves : Preserves chroot.
Proof.
  intros k a r k' Hk. unfold chroot. apply with_path_wf; [done|]. intros abs r1 k1 Hp Hpre.
  destruct (Vfs_chroot _ _ _) as [v|e] eqn:E; intros [= <- <-]; [|done].
  apply kern_wf_set_vfs; [done|]. unfold Vfs_chroot in E.
  apply result_bind_Ok in E as (m & _ & E). case_bool_decide; [|done].
  injection E as <-. by split.
Qed.

#[export] Instance eventfd2_preserves : PreservesFd (eventfd2 (W:=W)).
Proof.
  intros k a r k' Hk. unfold eventfd2.
  destruct (new_notify (k_heap k)) as [n h] eqn:En.
  destruct (new_notify_wf _ _ _ En (kw_heap _ Hk)) as [Hh Hle].
  destruct (insert (k_fds k) _) as [fd t] eqn:Ei. intros [= <- <-] Hn.
  eapply (kern_wf_insert (set_heap k h)); [by apply kern_wf_set_heap| |exact Ei|done]. done.
Qed.
#[export] Instance eventfd_preserves : PreservesFd (eventfd (W:=W)).
Proof. intros k a r k' Hk Hr. by apply (eventfd2_preserves k a r k' Hk Hr). Qed.

End inv.
