(* ===== verification/SysFileSpec.v ===== *)
(** * What the file syscalls do

    Functional theorems about the handlers of [SysFile]: data moves through
    pipes in order, duplicated descriptors share their object, reading a
    regular file delivers its bytes from the current position, a directory
    stream delivers its listing once, gathered writes concatenate. *)

From S2P Require Import Prelude Word Errno GuestMem Text Path Host Vfs.
From S2P Require Import Fd Kernel KernInv SysPath SysEventfd SysFile SysFileInv.

(** Arguments of [read(fd, buf, len)] and [write(fd, buf, len)]. *)
Definition rw_args (fd ptr len : Z) : args := Args fd ptr len 0 0 0.

Lemma take_min {A} (n : Z) (l : list A) :
  0 ≤ n → Z.of_nat (length (take (Z.to_nat n) l)) = Z.min n (Z.of_nat (length l)).
Proof. intros. rewrite length_take. lia. Qed.

Section spec.
Context {W : Type} `{Host W}.
Context (recvfrom sendto : kern W → args → Z * kern W).
Implicit Types k : kern W.

(** ** Pipes *)

(** The descriptor is a write end of the pipe at [l]. *)
Definition writes_to k (fd l : Z) : Prop :=
  ∃ x, pw_pipe x = l ∧ (get (k_fds k) fd = Ok (RPipeWrite x) ∨ get (k_fds k) fd = Ok (RStdout x) ∨
                        get (k_fds k) fd = Ok (RStderr x)).

Definition reads_from k (fd l : Z) : Prop :=
  ∃ x, pr_pipe x = l ∧ (get (k_fds k) fd = Ok (RPipeRead x) ∨ get (k_fds k) fd = Ok (RStdin x)).

Lemma pipe_at_set h l p : pipe_at (set_pipe h l p) l = p.
Proof. unfold pipe_at. simpl. by rewrite lookup_insert_eq. Qed.

Lemma pipe_at_notify h l n : pipe_at (notify_waiters h n) l = pipe_at h l.
Proof. done. Qed.

(** A write to a pipe accepts everything and touches nothing else. *)
Lemma write_pipe_fd k fd ptr len l bs :
  is_u 32 fd → writes_to k fd l → guest_slice k ptr len = Ok bs → bs ≠ [] →
  ∃ k', write sendto k (rw_args fd ptr len) = (Z.of_nat (length bs), k') ∧
    buf (pipe_at (k_heap k') l) = buf (pipe_at (k_heap k) l) ++ bs ∧
    closed (pipe_at (k_heap k') l) = closed (pipe_at (k_heap k) l) ∧
    p_nonblock (pipe_at (k_heap k') l) = p_nonblock (pipe_at (k_heap k) l) ∧
    k_fds k' = k_fds k ∧ k_memory k' = k_memory k.
Proof.
  intros Hfd (x & <- & Hg) Hs Hne. unfold write. simpl. rewrite u32_try_from_id by done.
  rewrite Hs. simpl. rewrite bool_decide_false by done.
  assert (∀ r, get (k_fds k) fd = r → r = Ok (RPipeWrite x) ∨ r = Ok (RStdout x) ∨ r = Ok (RStderr x))
    as Hr by (intros r <-; done).
  destruct (Hr _ eq_refl) as [E|[E|E]]; rewrite E; unfold write_pipe; eexists; (split; [done|]);
    simpl; case_bool_decide; rewrite ?pipe_at_notify, pipe_at_set; done.
Qed.

(** A read from a non-empty pipe takes from its front, as much as fits. *)
Lemma read_is_read_pipe k fd ptr len x :
  is_u 32 fd → get (k_fds k) fd = Ok (RPipeRead x) ∨ get (k_fds k) fd = Ok (RStdin x) →
  in_memory k ptr len → 0 < len → read recvfrom k (rw_args fd ptr len) = read_pipe k x ptr len.
Proof.
  intros Hfd Hg Hin Hlen. assert (usize_try_from len = Some len) as Hu.
  { destruct Hin as (m & ? & ? & ? & ? & ?). apply usize_try_from_id. unfold is_u, U64_MAX in *. lia. }
  unfold read. simpl. rewrite u32_try_from_id by done. rewrite (proj2 (guest_slice_mut_Ok k ptr len ptr)) by done.
  rewrite Hu, (proj2 (Z.eqb_neq len 0)) by lia. by destruct Hg as [-> | ->].
Qed.

Lemma read_pipe_fd k fd ptr len l :
  is_u 32 fd → reads_from k fd l → in_memory k ptr len → 0 < len →
  buf (pipe_at (k_heap k) l) ≠ [] →
  let n := Z.min len (Z.of_nat (length (buf (pipe_at (k_heap k) l)))) in
  ∃ k', read recvfrom k (rw_args fd ptr len) = (n, k') ∧
    guest_slice k' ptr n = Ok (take (Z.to_nat n) (buf (pipe_at (k_heap k) l))) ∧
    buf (pipe_at (k_heap k') l) = drop (Z.to_nat n) (buf (pipe_at (k_heap k) l)) ∧
    k_fds k' = k_fds k.
Proof.
  intros Hfd (x & <- & Hg) Hin Hlen Hne n. set (p := pipe_at (k_heap k) (pr_pipe x)) in *.
  rewrite (read_is_read_pipe k fd ptr len x) by done. unfold read_pipe. fold p.
  assert (take (Z.to_nat len) (buf p) ≠ []) as Hne'.
  { destruct (buf p); [done|]. by destruct (Z.to_nat len) eqn:E; [lia|]. }
  rewrite bool_decide_false by done. simpl. unfold finish_read.
  rewrite bool_decide_false by done. set (k1 := set_heap k _).
  assert (in_memory k1 ptr len) as Hin1 by done.
  rewrite (proj2 (guest_slice_mut_Ok k1 ptr len ptr)) by done.
  assert (Z.of_nat (length (take (Z.to_nat len) (buf p))) = n) as Hn by (apply take_min; lia).
  rewrite Hn. eexists. split; [done|].
  assert (take (Z.to_nat len) (buf p) = take (Z.to_nat n) (buf p)) as Htk.
  { subst n. destruct (decide (len ≤ Z.of_nat (length (buf p)))).
    - by rewrite Z.min_l by lia.
    - rewrite Z.min_r by lia. rewrite !take_ge by lia. done. }
  assert (drop (Z.to_nat len) (buf p) = drop (Z.to_nat n) (buf p)) as Hdr.
  { subst n. destruct (decide (len ≤ Z.of_nat (length (buf p)))).
    - by rewrite Z.min_l by lia.
    - rewrite Z.min_r by lia. rewrite !drop_ge by lia. done. }
  split_and!.
  - rewrite <- Htk. pose proof (guest_slice_put_same k1 ptr (take (Z.to_nat len) (buf p))) as Hs.
    rewrite Hn in Hs. apply Hs. eapply in_memory_le; [done|]. lia.
  - destruct Hin1 as (m & Hm & _). unfold mem_put. rewrite Hm. simpl.
    rewrite pipe_at_set. simpl. done.
  - destruct Hin1 as (m & Hm & _). unfold mem_put. by rewrite Hm.
Qed.

(** ** Duplication *)

Lemma insert_at_least_Some t min r fd t' :
  0 ≤ min ≤ U32_MAX → insert_at_least t min r = Some (fd, t') →
  min ≤ fd ≤ U32_MAX ∧ table t !! fd = None ∧ table t' = <[fd := r]> (table t) ∧ cloexec t' = cloexec t.
Proof.
  intros Hmin. unfold insert_at_least. intros (x & Hp & [= -> <-])%bind_Some.
  apply probe_sound in Hp as (? & [? ?] & _); [|lia]. by split_and!.
Qed.

Lemma get_cloexec_set t fd b : get_cloexec (set_cloexec t fd b) fd = b.
Proof.
  unfold get_cloexec, set_cloexec. simpl. destruct b.
  - rewrite bool_decide_true; [done|]. set_solver.
  - rewrite bool_decide_false; [done|]. set_solver.
Qed.

(** What a duplicated descriptor is: same resource, nothing else disturbed. *)
Record dup_result k k' (oldfd r : Z) (want : bool) : Prop := {
  dr_shared : get (k_fds k') r = get (k_fds k) oldfd;
  dr_bound : ∃ res, get (k_fds k) oldfd = Ok res;
  dr_frame fd : fd ≠ r → get (k_fds k') fd = get (k_fds k) fd;
  dr_cloexec : get_cloexec (k_fds k') r = want;
  dr_heap : k_heap k' = k_heap k;
  dr_memory : k_memory k' = k_memory k;
}.

Lemma dup_fd_spec k oldfd min want r k' :
  0 ≤ min ≤ U32_MAX → dup_fd k oldfd min want = Return (r, k') → 0 ≤ r →
  dup_result k k' oldfd r want ∧ min ≤ r ∧ table (k_fds k) !! r = None.
Proof.
  intros Hmin. unfold dup_fd. destruct (get (k_fds k) oldfd) as [res|e] eqn:Hg.
  2:{ unfold get in Hg. destruct (_ !! _); [done|]. simpl in Hg. injection Hg as <-. by intros [= <- <-]. }
  destruct (clone_resource res) as [c|] eqn:Ec; [|by intros [= <- <-]].
  apply clone_resource_eq in Ec as ->.
  destruct (insert_at_least _ _ _) as [[nfd t]|] eqn:Ei; [|done]. intros [= <- <-] _.
  apply insert_at_least_Some in Ei as (Hr & Hn & Ht & Hc); [|done].
  split; [|split; [lia|done]]. split; simpl; try done.
  - rewrite Hg. unfold get. simpl. by rewrite Ht, lookup_insert_eq.
  - rewrite Hg. by eexists.
  - intros fd Hne. unfold get. simpl. by rewrite Ht, lookup_insert_ne.
  - apply get_cloexec_set.
Qed.

Lemma internal_dup_spec k oldfd target want r k' :
  0 ≤ oldfd < U32_MAX → (∀ t, target = Some t → 0 ≤ t ≤ U32_MAX) → target ≠ Some oldfd →
  internal_dup k oldfd target want = Return (r, k') → 0 ≤ r →
  dup_result k k' oldfd r want ∧ r ≠ oldfd ∧ (∀ t, target = Some t → r = t).
Proof.
  intros Hold Ht Hne. unfold internal_dup. destruct target as [t|].
  - destruct (get (k_fds k) oldfd) as [res|e] eqn:Hg.
    2:{ unfold get in Hg. destruct (_ !! _); [done|]. simpl in Hg. injection Hg as <-. by intros [= <- <-]. }
    destruct (clone_resource res) as [c|] eqn:Ec; [|by intros [= <- <-]].
    apply clone_resource_eq in Ec as ->.
    destruct (Fd.close (k_fds k) t) as [x t1] eqn:Hc.
    assert (table t1 = delete t (table (k_fds k))) as Ht1.
    { unfold Fd.close in Hc. case_bool_decide as Hb; injection Hc as _ <-; [done|].
      symmetry. apply delete_id. by apply eq_None_not_Some. }
    unfold insert_at. rewrite bool_decide_false by (rewrite Ht1, lookup_delete_eq; by intros [? ?]).
    intros [= <- <-] _. assert (t ≠ oldfd) by congruence.
    split_and!; [split; simpl; try done| done |by intros ? [= <-]].
    + rewrite Hg. unfold get. simpl. by rewrite lookup_insert_eq.
    + rewrite Hg. by eexists.
    + intros fd Hfd. unfold get. simpl. rewrite lookup_insert_ne by done.
      by rewrite Ht1, lookup_delete_ne.
    + apply get_cloexec_set.
  - rewrite as_u32_small by lia. intros Hd Hr.
    apply dup_fd_spec in Hd as (? & ? & ?); [|lia|done].
    split_and!; [done|lia|done].
Qed.

(** ** Pipes from [pipe2] *)

Lemma insert_table t r : table (insert t r).2 = <[next_fd t := r]> (table t).
Proof. done. Qed.

Lemma pipe2_spec k ptr flags x2 x3 x4 x5 :
  kern_wf k → next_fd (k_fds k) < U32_MAX → in_memory k ptr 8 →
  let rd := next_fd (k_fds k) in
  let l := next_loc (k_heap k) in
  ∃ k', pipe2 k (Args ptr flags x2 x3 x4 x5) = (0, k') ∧
    guest_slice k' ptr 8 = Ok (to_le_bytes 4 rd ++ to_le_bytes 4 (rd + 1)) ∧
    table (k_fds k) !! rd = None ∧ table (k_fds k) !! (rd + 1) = None ∧
    (∀ fd, fd ≠ rd → fd ≠ rd + 1 → get (k_fds k') fd = get (k_fds k) fd) ∧
    reads_from k' rd l ∧ writes_to k' (rd + 1) l ∧
    pipes (k_heap k) !! l = None ∧
    pipe_at (k_heap k') l = MkPipe [] false (has (as_i32 flags) O_NONBLOCK).
Proof.
  intros Hk Hn Hin rd l. destruct (kw_fds _ Hk) as [Hb Hlt].
  assert (∀ fd, rd ≤ fd → table (k_fds k) !! fd = None) as Hfree.
  { intros fd Hfd. apply eq_None_not_Some. intros Hs%Hlt. lia. }
  assert (as_u32 (rd + 1) = rd + 1) as Hrd by (apply as_u32_small; lia).
  unfold pipe2. simpl. rewrite (proj2 (guest_slice_mut_Ok k ptr 8 ptr)) by done.
  fold rd. rewrite Hrd.
  match goal with |- context [guest_write ?x ptr ?b] => set (k1 := x); set (bs := b) end.
  assert (Z.of_nat (length bs) = 8) as Hlen by done.
  assert (in_memory k1 ptr (Z.of_nat (length bs))) as Hin1 by by rewrite Hlen.
  rewrite (proj2 (guest_write_Ok k1 ptr bs (mem_put k1 ptr bs))) by done.
  pose proof Hin1 as (m & Hm & _).
  assert (k_fds (mem_put k1 ptr bs) = k_fds k1 ∧ k_heap (mem_put k1 ptr bs) = k_heap k1) as [Ef Eh]
    by (unfold mem_put; by rewrite Hm).
  eexists. split; [done|]. rewrite Ef, Eh. split_and!.
  - rewrite <- Hlen. by apply guest_slice_put_same.
  - by apply Hfree.
  - apply Hfree. lia.
  - intros fd ??. unfold get, k1. simpl. by rewrite !lookup_insert_ne.
  - exists (MkPipeRead l (l + 1)). split; [done|]. left. rewrite Ef. unfold get, k1. simpl.
    rewrite lookup_insert_ne by lia. by rewrite lookup_insert_eq.
  - exists (MkPipeWrite l (l + 1 + 1)). split; [done|]. left. rewrite Ef. unfold get, k1. simpl.
    by rewrite lookup_insert_eq.
  - apply eq_None_not_Some. intros Hs%(hw_pipes _ (kw_heap _ Hk)). subst l. lia.
  - unfold k1. simpl. destruct (has _ _); unfold pipe_at; simpl; by rewrite lookup_insert_eq.
Qed.

(** ** Gathered writes *)

(** The loop of [writev] over vectors whose bytes are [bss]. *)
Lemma writev_loop_pipe fd l iovs bss : ∀ k total,
  is_u 32 fd → writes_to k fd l → 0 ≤ total →
  Forall2 (λ v bs, guest_slice k v.1 v.2 = Ok bs) iovs bss →
  ∃ k', iov_loop (write sendto) k fd iovs total = (total + Z.of_nat (length (concat bss)), k') ∧
    buf (pipe_at (k_heap k') l) = buf (pipe_at (k_heap k) l) ++ concat bss ∧
    k_fds k' = k_fds k ∧ k_memory k' = k_memory k.
Proof.
  revert bss. induction iovs as [|[base len] iovs IH]; intros bss k total Hfd Hw Ht Hall.
  { apply Forall2_nil_inv_l in Hall as ->. exists k. simpl. split_and!; [f_equal; lia| |done|done].
    by rewrite app_nil_r. }
  apply Forall2_cons_inv_l in Hall as (bs & bss' & Hbs & Hall & ->). simpl in Hbs |- *.
  pose proof (guest_slice_length _ _ _ _ Hbs) as Hlen.
  destruct (len =? 0) eqn:E; to_prop.
  { destruct bs; [|simpl in Hlen; lia]. by apply IH. }
  assert (bs ≠ []) as Hne by (intros ->; simpl in Hlen; lia).
  destruct (write_pipe_fd k fd base len l bs Hfd Hw Hbs Hne) as (k1 & Hwr & Hbuf & _ & _ & Hf & Hm).
  unfold rw_args in Hwr. rewrite Hwr, Hlen. rewrite !(proj2 (Z.ltb_ge _ _)) by lia.
  destruct (IH bss' k1 (total + len)) as (k2 & Hl & Hb & Hf2 & Hm2); [done| |lia| |].
  - destruct Hw as (x & ? & Hx). exists x. by rewrite Hf.
  - eapply Forall2_impl; [done|]. intros v b. unfold guest_slice, memory. by rewrite Hm.
  - exists k2. split_and!; [|by rewrite Hb, Hbuf, <- app_assoc|congruence|congruence].
    rewrite Hl. f_equal. rewrite length_app. lia.
Qed.

(** ** Directory streams *)

(** The descriptor is a directory stream with [rest] still to deliver. *)
Definition dir_stream k (fd : Z) (rest : bytes) : Prop :=
  ∃ l fp c p, get (k_fds k) fd = Ok (RFile l) ∧ files (k_heap k) !! l = Some fp ∧
    is_dir fp = true ∧ fpath fp = Some p ∧ dir_cache fp = Some c ∧
    0 ≤ pos fp ∧ rest = drop (Z.to_nat (pos fp)) c.

Lemma getdents_step k fd ptr len rest :
  is_u 32 fd → dir_stream k fd rest → in_memory k ptr len → 0 < len →
  let chunk := take (Z.to_nat len) rest in
  ∃ k', getdents64 k (Args fd ptr len 0 0 0) = (Z.of_nat (length chunk), k') ∧
    guest_slice k' ptr (Z.of_nat (length chunk)) = Ok chunk ∧
    dir_stream k' fd (drop (Z.to_nat len) rest) ∧ in_memory k' ptr len.
Proof.
  intros Hfd (l & fp & c & p & Hg & Hl & Hd & Hp & Hc & H0 & ->) Hin Hlen chunk.
  assert (0 ≤ len ≤ U64_MAX) as Hb by (destruct Hin as (m & ? & ? & ? & ? & ?); lia).
  assert (file_at (k_heap k) l = fp) as Hat by (unfold file_at; by rewrite Hl).
  unfold getdents64. simpl. rewrite u32_try_from_id by done.
  rewrite (proj2 (guest_slice_mut_Ok k ptr len ptr)) by done.
  rewrite usize_try_from_id by (unfold is_u, U64_MAX in *; lia).
  rewrite (proj2 (Z.eqb_neq len 0)) by lia. rewrite Hg, Hat, Hd, Hp, Hc. simpl.
  unfold getdents_slice. rewrite Hat, Hc. destruct (_ <=? pos fp) eqn:E; to_prop.
  - assert (drop (Z.to_nat (pos fp)) c = []) as He by (apply drop_ge; lia).
    assert (chunk = []) as -> by (subst chunk; by rewrite He, take_nil).
    exists k. split_and!; [done| | |done].
    + apply guest_slice_Ok. split; [eapply in_memory_le; [done|simpl; lia]|done].
    + rewrite He, drop_nil. exists l, fp, c, p. split_and!; done.
  - set (e := Z.min _ _).
    assert (take (Z.to_nat (e - pos fp)) (drop (Z.to_nat (pos fp)) c) = chunk) as ->.
    { subst chunk e. destruct (decide (pos fp + len ≤ Z.of_nat (length c))).
      - rewrite Z.min_l by lia. do 2 f_equal. lia.
      - rewrite Z.min_r by lia. rewrite !take_ge; [done| |]; rewrite length_drop; lia. }
    assert (chunk ≠ []) as Hne.
    { intros Hn. apply (f_equal length) in Hn. subst chunk. rewrite length_take, length_drop in Hn.
      simpl in Hn. lia. }
    rewrite bool_decide_false by done. set (k1 := set_heap k _).
    assert (Z.of_nat (length chunk) ≤ len) as Hcl by (subst chunk; rewrite take_min by lia; lia).
    assert (in_memory k1 ptr (Z.of_nat (length chunk))) as Hin1.
    { apply (in_memory_le k ptr len); [done|]. lia. }
    rewrite (proj2 (guest_write_Ok k1 ptr chunk (mem_put k1 ptr chunk))) by done.
    eexists. split; [done|]. split_and!; [by apply guest_slice_put_same| |by apply in_memory_put].
    destruct Hin1 as (m & Hm & _). unfold mem_put. rewrite Hm.
    exists l, (set_pos fp e), c, p. simpl. rewrite lookup_insert_eq.
    split_and!; try done; [lia|]. rewrite drop_drop. subst e.
    destruct (decide (pos fp + len ≤ Z.of_nat (length c))).
    + f_equal. lia.
    + rewrite !drop_ge by lia. done.
Qed.

(** Call [getdents64] until it returns 0, collecting what it put in the
    buffer. *)
Fixpoint drain (fuel : nat) k (fd ptr len : Z) : option (list bytes) :=
  match fuel with
  | O => None
  | S fuel =>
    let '(r, k) := getdents64 k (Args fd ptr len 0 0 0) in
    if r <? 0 then None
    else if r =? 0 then Some []
    else match guest_slice k ptr r with
         | Ok bs => cons bs <$> drain fuel k fd ptr len
         | Err _ => None
         end
  end.

Lemma drain_stream fuel : ∀ k fd ptr len rest,
  is_u 32 fd → dir_stream k fd rest → in_memory k ptr len → 0 < len → (length rest < fuel)%nat →
  ∃ chunks, drain fuel k fd ptr len = Some chunks ∧ concat chunks = rest ∧
    Forall (λ c, 0 < Z.of_nat (length c) ≤ len) chunks.
Proof.
  induction fuel as [|fuel IH]; intros k fd ptr len rest Hfd Hs Hin Hlen Hf; [lia|]. simpl.
  destruct (getdents_step k fd ptr len rest Hfd Hs Hin Hlen) as (k1 & -> & Hg & Hs' & Hin').
  set (chunk := take (Z.to_nat len) rest) in *.
  assert (Z.of_nat (length chunk) ≤ len) as Hcl by (subst chunk; rewrite take_min by lia; lia).
  rewrite (proj2 (Z.ltb_ge _ 0)) by lia. destruct (_ =? 0) eqn:E; to_prop.
  - assert (rest = []) as ->; [|by exists []].
    apply length_zero_iff_nil. subst chunk. rewrite length_take in E. lia.
  - rewrite Hg. destruct (IH k1 fd ptr len (drop (Z.to_nat len) rest)) as (cs & -> & Hc & Hall); try done.
    { rewrite length_drop. subst chunk. rewrite length_take in E. lia. }
    exists (chunk :: cs). split_and!; [done|simpl; rewrite Hc; apply take_drop|].
    constructor; [lia|done].
Qed.

(** ** Regular files *)

Context `{!FileHost W}.

(** The chunked loop of [read] collects exactly what is there, whatever the
    sizes of the host's reads. *)
Lemma read_loop_content fuel : ∀ w f len got,
  readable w f → (length got < len)%nat → (len - length got < fuel)%nat → 0 ≤ cursor w f →
  ∃ w', read_loop fuel w f len got
      = (Ok (got ++ take (len - length got) (drop (Z.to_nat (cursor w f)) (content w f))), w') ∧
    content w' f = content w f ∧ readable w' f.
Proof.
  induction fuel as [|fuel IH]; intros w f len got Hr Hl Hf Hc; [lia|]. simpl.
  destruct (file_read_law w f 4096 Hr ltac:(lia)) as (bs & w1 & -> & Hr1 & Hc1 & Hcur & [rest Hd] & Hn & Heof).
  case_bool_decide as Hbs.
  { subst bs. exists w1. split_and!; [|done|done]. rewrite drop_ge by (specialize (Heof eq_refl); lia).
    by rewrite take_nil, app_nil_r. }
  destruct (_ <? _)%nat eqn:E1; [apply Nat.ltb_lt in E1|apply Nat.ltb_ge in E1].
  { exists w1. split_and!; [|done|done]. rewrite Hd. by rewrite take_app_le by lia. }
  destruct (_ <=? _)%nat eqn:E2; [apply Nat.leb_le in E2|apply Nat.leb_gt in E2]; rewrite length_app in E2.
  { exists w1. split_and!; [|done|done]. rewrite Hd, take_app_le by lia. by rewrite take_ge by lia. }
  assert (0 < length bs)%nat by (destruct bs; [done|simpl; lia]).
  destruct (IH w1 f len (got ++ bs)) as (w2 & -> & Hc2 & Hr2); rewrite ?length_app; [done|lia|lia|lia|].
  exists w2. split_and!; [|by rewrite Hc2|done]. rewrite <- app_assoc, Hcur, Hc1. do 3 f_equal.
  rewrite Hd, take_app_ge by lia. f_equal. f_equal; [lia|].
  rewrite Z2Nat.inj_add, Nat2Z.id, <- drop_drop, Hd by lia. by rewrite drop_app_length.
Qed.

(** [read] on a regular file: the bytes from the descriptor's position, as
    many as asked for and there are; the position moves past them. *)
Lemma read_file_fd k fd l ptr len :
  is_u 32 fd → get (k_fds k) fd = Ok (RFile l) → in_memory k ptr len → 0 < len →
  let fp := file_at (k_heap k) l in
  let d := take (Z.to_nat len) (drop (Z.to_nat (pos fp)) (content (k_host k) (inner fp))) in
  readable (k_host k) (inner fp) → 0 ≤ pos fp → pos fp + len ≤ U64_MAX →
  ∃ k', read recvfrom k (rw_args fd ptr len)
      = (if bool_decide (d = []) then - EAGAIN else Z.of_nat (length d), k') ∧
    guest_slice k' ptr (Z.of_nat (length d)) = Ok d ∧
    pos (file_at (k_heap k') l) = pos fp + Z.of_nat (length d) ∧
    content (k_host k') (inner fp) = content (k_host k) (inner fp) ∧
    k_fds k' = k_fds k.
Proof.
  intros Hfd Hg Hin Hlen fp d Hr Hp Hmax.
  assert (0 ≤ len ≤ U64_MAX) as Hb by (destruct Hin as (m & ? & ? & ? & ? & ?); lia).
  unfold read. simpl. rewrite u32_try_from_id by done.
  rewrite (proj2 (guest_slice_mut_Ok k ptr len ptr)) by done.
  rewrite usize_try_from_id by (unfold is_u, U64_MAX in *; lia).
  rewrite (proj2 (Z.eqb_neq len 0)) by lia. rewrite Hg. unfold read_file. fold fp.
  destruct (file_seek_law (k_host k) (inner fp) (pos fp) Hr Hp) as (w1 & -> & Hr1 & Hc1 & Hcur).
  destruct (read_loop_content (S (Z.to_nat len)) w1 (inner fp) (Z.to_nat len) [])
    as (w2 & -> & Hc2 & _); simpl; [done|lia|lia|lia|].
  rewrite Nat.sub_0_r, Hcur, Hc1. fold d.
  assert (Z.of_nat (length d) ≤ len) as Hd by (subst d; rewrite take_min by lia; lia).
  rewrite (wrapu_id 64) by (unfold is_u, U64_MAX in *; lia).
  unfold finish_read. match goal with |- context [mem_put ?x _ _] => set (k2 := x) end.
  assert (in_memory k2 ptr (Z.of_nat (length d))) as Hin2 by (apply (in_memory_le k ptr len); [done|lia]).
  assert (pos (file_at (k_heap k2) l) = pos fp + Z.of_nat (length d)) as Hpos
    by (unfold file_at; simpl; by rewrite lookup_insert_eq).
  case_bool_decide as He.
  - exists k2. split_and!; [done| |done|by rewrite <- Hc1, <- Hc2|done]. rewrite He in Hin2 |- *.
    apply guest_slice_Ok. split; [done|]. done.
  - rewrite (proj2 (guest_slice_mut_Ok k2 ptr len ptr)) by done. eexists. split; [done|].
    split_and!; [by apply guest_slice_put_same| | |]; destruct Hin2 as (m & Hm & _);
      unfold mem_put; rewrite Hm; [done|simpl; congruence|done].
Qed.

(** ** Event counters *)

(** The wrappers of src/sys/eventfd.rs do what [read] and [write] do with an
    8-byte buffer inside memory; [read] of an empty blocking counter stores
    nothing, the wrapper a zero. *)
Lemma eventfd_compat_agrees k fd e ptr :
  is_u 32 fd → get (k_fds k) fd = Ok (REventFd e) → in_memory k ptr 8 →
  eventfd_write_compat k fd ptr 8 = write sendto k (Args fd ptr 8 0 0 0) ∧
  (counter e ≠ 0 ∨ e_nonblock e = true →
   eventfd_read_compat k fd ptr 8 = read recvfrom k (Args fd ptr 8 0 0 0)).
Proof.
  intros Hfd Hg Hin. unfold read, write. cbn [a0 a1 a2].
  rewrite u32_try_from_id by done. split.
  - assert (∃ bs, guest_slice k ptr 8 = Ok bs) as [bs Hbs].
    { apply guest_slice_mut_slice. exists ptr. by apply guest_slice_mut_Ok. }
    unfold eventfd_write_compat. cbn [require_u64_buf]. rewrite Hbs, Hg.
    apply guest_slice_length in Hbs. rewrite bool_decide_false by (by intros ->).
    unfold write_eventfd. cbn. by rewrite take_ge by lia.
  - assert (guest_slice_mut k ptr 8 = Ok ptr) as Hm by by apply guest_slice_mut_Ok.
    intros Hne. unfold eventfd_read_compat. cbn [require_u64_buf]. rewrite Hm, Hg. cbn.
    unfold read_eventfd, eventfd_read. cbn. destruct (counter e =? 0) eqn:E; [|by rewrite E].
    to_prop. destruct Hne as [Hne|Hne]; [done|]. by rewrite Hne.
Qed.

End spec.

(** ** Theorems *)

(** C15: data through a pipe. Writing [bs] to one end and then reading from
    the other delivers the front of what was queued followed by [bs], in
    order and without loss: the write accepts everything, the read returns as
    many bytes as were asked for or are there, puts them in guest memory and
    leaves the rest queued. No descriptor changes. *)
Theorem sys_pipe_transfer {W} `{Host W} recvfrom sendto (k : kern W) wfd rfd l src n dst len bs :
  is_u 32 wfd → is_u 32 rfd → writes_to k wfd l → reads_from k rfd l →
  guest_slice k src n = Ok bs → bs ≠ [] → in_memory k dst len → 0 < len →
  let q := buf (pipe_at (k_heap k) l) ++ bs in
  let m := Z.min len (Z.of_nat (length q)) in
  ∃ k1 k2, write sendto k (rw_args wfd src n) = (Z.of_nat (length bs), k1) ∧
    read recvfrom k1 (rw_args rfd dst len) = (m, k2) ∧
    guest_slice k2 dst m = Ok (take (Z.to_nat m) q) ∧
    buf (pipe_at (k_heap k2) l) = drop (Z.to_nat m) q ∧ k_fds k2 = k_fds k.
Proof.
  intros Hw Hr Hww Hrr Hs Hne Hin Hlen q m.
  destruct (write_pipe_fd sendto k wfd src n l bs Hw Hww Hs Hne) as (k1 & Hwr & Hb & _ & _ & Hf & Hm).
  destruct (read_pipe_fd recvfrom k1 rfd dst len l) as (k2 & Hrd & Hg & Hb2 & Hf2); [done| | |done| |].
  - destruct Hrr as (x & ? & ?). exists x. by rewrite Hf.
  - unfold in_memory. by rewrite Hm.
  - rewrite Hb. by destruct (buf _).
  - rewrite Hb in *. exists k1, k2. split_and!; try done. congruence.
Qed.

(** C27: [pipe2] on a writable array returns 0, stores two descriptors no one
    held, and they are the read and the write end of one new empty pipe
    carrying the requested [O_NONBLOCK]; every other descriptor keeps its
    resource. While descriptor numbers are left; the flag [O_CLOEXEC] is
    ignored ([pipe2_ignores_cloexec]). *)
Theorem pipe2_fresh {W} (k : kern W) ptr flags x2 x3 x4 x5 :
  kern_wf k → next_fd (k_fds k) < U32_MAX → in_memory k ptr 8 →
  ∃ k' rd wr l, pipe2 k (Args ptr flags x2 x3 x4 x5) = (0, k') ∧
    guest_slice k' ptr 8 = Ok (to_le_bytes 4 rd ++ to_le_bytes 4 wr) ∧ rd ≠ wr ∧
    table (k_fds k) !! rd = None ∧ table (k_fds k) !! wr = None ∧
    (∀ fd, fd ≠ rd → fd ≠ wr → get (k_fds k') fd = get (k_fds k) fd) ∧
    reads_from k' rd l ∧ writes_to k' wr l ∧ pipes (k_heap k) !! l = None ∧
    pipe_at (k_heap k') l = MkPipe [] false (has (as_i32 flags) O_NONBLOCK).
Proof.
  intros Hk Hn Hin. destruct (pipe2_spec k ptr flags x2 x3 x4 x5 Hk Hn Hin)
    as (k' & ? & ? & ? & ? & ? & ? & ? & ? & ?).
  exists k', (next_fd (k_fds k)), (next_fd (k_fds k) + 1), (next_loc (k_heap k)).
  split_and!; try done. lia.
Qed.

(** C28: a successful [dup], [dup2] or [dup3] (the common [internal_dup]) binds
    one more descriptor, different from the old one and equal to the target
    when one is given, to the very same resource, with the requested
    close-on-exec flag; no other descriptor, no shared object and no memory
    changes. *)
Theorem dup_shares {W} (k k' : kern W) oldfd target want r :
  0 ≤ oldfd < U32_MAX → (∀ t, target = Some t → 0 ≤ t ≤ U32_MAX) → target ≠ Some oldfd →
  internal_dup k oldfd target want = Return (r, k') → 0 ≤ r →
  dup_result k k' oldfd r want ∧ r ≠ oldfd ∧ (∀ t, target = Some t → r = t).
Proof. apply internal_dup_spec. Qed.

(** [writev] to a pipe queues the concatenation of the vectors, in order,
    and returns its length; empty vectors contribute nothing. *)
Theorem writev_gather {W} `{Host W} sendto (k : kern W) fd l iov_ptr cnt iovs bss :
  is_u 32 fd → writes_to k fd l → iov_entries k iov_ptr cnt = Ok iovs →
  Forall2 (λ v bs, guest_slice k v.1 v.2 = Ok bs) iovs bss →
  ∃ k', writev sendto k (Args fd iov_ptr cnt 0 0 0) = (Z.of_nat (length (concat bss)), k') ∧
    buf (pipe_at (k_heap k') l) = buf (pipe_at (k_heap k) l) ++ concat bss ∧
    k_fds k' = k_fds k ∧ k_memory k' = k_memory k.
Proof.
  intros Hfd Hw Hi Hall. unfold writev. simpl. rewrite Hi.
  apply (writev_loop_pipe sendto fd l iovs bss k 0); done.
Qed.

(** C37: a directory stream delivers its listing once. Calling [getdents64]
    until it returns 0 takes finitely many calls, every one of them fills at
    most the buffer, and the pieces put together are the rest of the cached
    listing. *)
Theorem getdents_stream {W} `{Host W} (k : kern W) fd ptr len rest :
  is_u 32 fd → dir_stream k fd rest → in_memory k ptr len → 0 < len →
  ∃ chunks, drain (S (length rest)) k fd ptr len = Some chunks ∧ concat chunks = rest ∧
    Forall (λ c, 0 < Z.of_nat (length c) ≤ len) chunks.
Proof. intros. apply drain_stream; try done. lia. Qed.

(** C18: [read] on a regular file. Whatever sizes the host's own reads have,
    the guest gets exactly the bytes from the descriptor's position, as many
    as it asked for and the file has, the position moves past them and the
    file is unchanged. At the end of the file the result is [-EAGAIN]. *)
Theorem read_file_content {W} `{FileHost W} recvfrom (k : kern W) fd l ptr len :
  is_u 32 fd → get (k_fds k) fd = Ok (RFile l) → in_memory k ptr len → 0 < len →
  let fp := file_at (k_heap k) l in
  let d := take (Z.to_nat len) (drop (Z.to_nat (pos fp)) (content (k_host k) (inner fp))) in
  readable (k_host k) (inner fp) → 0 ≤ pos fp → pos fp + len ≤ U64_MAX →
  ∃ k', read recvfrom k (rw_args fd ptr len)
      = (if bool_decide (d = []) then - EAGAIN else Z.of_nat (length d), k') ∧
    guest_slice k' ptr (Z.of_nat (length d)) = Ok d ∧
    pos (file_at (k_heap k') l) = pos fp + Z.of_nat (length d) ∧
    content (k_host k') (inner fp) = content (k_host k) (inner fp) ∧
    k_fds k' = k_fds k.
Proof. apply read_file_fd. Qed.

(** ** Witnesses *)

(** No socket is open in the samples. *)
Definition no_socket {W} (k : kern W) (a : args) : Z * kern W := (- EBADF, k).

(** The sample kernel after [pipe2]: descriptors 3 and 4, and bytes to send
    at 16. *)
Definition piped_kern : kern NullHost :=
  mem_put (pipe2 sample_kern (Args 0 0 0 0 0 0)).2 16 [7; 8; 9].

Definition piped_loc : Z := next_loc (k_heap sample_kern).

Lemma sample_in_memory ptr len : 0 ≤ ptr → 0 ≤ len → ptr + len ≤ 131072 → in_memory sample_kern ptr len.
Proof. intros. exists (zero_mem 131072). split_and!; try done. unfold U64_MAX. lia. Qed.

Lemma piped_in_memory ptr len : 0 ≤ ptr → 0 ≤ len → ptr + len ≤ 131072 → in_memory piped_kern ptr len.
Proof. intros. eexists. split; [vm_compute; reflexivity|]. simpl. unfold U64_MAX. lia. Qed.

Lemma piped_writes : writes_to piped_kern 4 piped_loc.
Proof. eexists. split; [|left; vm_compute; reflexivity]. reflexivity. Qed.

Lemma piped_reads : reads_from piped_kern 3 piped_loc.
Proof. eexists. split; [|left; vm_compute; reflexivity]. reflexivity. Qed.

Lemma is_u32_lit x : (0 <=? x) && (x <? 2 ^ 32) = true → is_u 32 x.
Proof. intros. to_prop. unfold is_u. lia. Qed.

Lemma sys_pipe_transfer_witness :
  ∃ k1 k2, write no_socket piped_kern (rw_args 4 16 3) = (3, k1) ∧
    read no_socket k1 (rw_args 3 64 2) = (2, k2) ∧
    guest_slice k2 64 2 = Ok [7; 8] ∧
    buf (pipe_at (k_heap k2) piped_loc) = [9] ∧ k_fds k2 = k_fds piped_kern.
Proof.
  apply (sys_pipe_transfer no_socket no_socket piped_kern 4 3 piped_loc 16 3 64 2 [7; 8; 9]).
  - by apply is_u32_lit.
  - by apply is_u32_lit.
  - apply piped_writes.
  - apply piped_reads.
  - vm_compute. reflexivity.
  - done.
  - by apply piped_in_memory.
  - lia.
Defined.

Lemma pipe2_fresh_witness :
  ∃ k' rd wr l, pipe2 sample_kern (Args 0 0 0 0 0 0) = (0, k') ∧
    guest_slice k' 0 8 = Ok (to_le_bytes 4 rd ++ to_le_bytes 4 wr) ∧ rd ≠ wr ∧
    table (k_fds sample_kern) !! rd = None ∧ table (k_fds sample_kern) !! wr = None ∧
    (∀ fd, fd ≠ rd → fd ≠ wr → get (k_fds k') fd = get (k_fds sample_kern) fd) ∧
    reads_from k' rd l ∧ writes_to k' wr l ∧ pipes (k_heap sample_kern) !! l = None ∧
    pipe_at (k_heap k') l = MkPipe [] false false.
Proof.
  apply (pipe2_fresh sample_kern 0 0 0 0 0 0).
  - apply sample_kern_wf.
  - vm_compute. reflexivity.
  - by apply sample_in_memory.
Defined.

Lemma dup_shares_witness :
  ∃ k', internal_dup piped_kern 3 (Some 9) true = Return (9, k') ∧
    dup_result piped_kern k' 3 9 true ∧ 9 ≠ 3 ∧ (∀ t, Some 9 = Some t → 9 = t).
Proof.
  destruct (internal_dup piped_kern 3 (Some 9) true) as [[r k']| |] eqn:E; [|exfalso; revert E; by vm_compute..].
  assert (r = 9) as -> by (revert E; vm_compute; by intros [= <- _]).
  exists k'. split; [done|]. apply (dup_shares piped_kern k' 3 (Some 9) true 9).
  - unfold U32_MAX. lia.
  - intros t [= <-]. unfold U32_MAX. lia.
  - done.
  - exact E.
  - lia.
Defined.

(** Two vectors, the second one empty and a third of one byte. *)
Definition iov_kern : kern NullHost :=
  mem_put piped_kern 32 (concat (to_le_bytes 4 <$> [16; 2; 0; 0; 18; 1])).

Lemma writev_gather_witness :
  ∃ k', writev no_socket iov_kern (Args 4 32 3 0 0 0) = (3, k') ∧
    buf (pipe_at (k_heap k') piped_loc) = [] ++ [7; 8; 9] ∧
    k_fds k' = k_fds iov_kern ∧ k_memory k' = k_memory iov_kern.
Proof.
  apply (writev_gather no_socket iov_kern 4 piped_loc 32 3 [(16, 2); (0, 0); (18, 1)] [[7; 8]; []; [9]]).
  - by apply is_u32_lit.
  - eexists. split; [|left; vm_compute; reflexivity]. reflexivity.
  - vm_compute. reflexivity.
  - repeat constructor.
Defined.

(** The sample kernel with an open directory whose listing is cached. *)
Definition dir_kern : kern NullHost :=
  let '(l, h) := new_file (k_heap sample_kern) (MkFilePos 0 1 (Some []) true (Some [1; 2; 3; 4; 5; 6])) in
  set_fds (set_heap sample_kern h) (insert (k_fds sample_kern) (RFile l)).2.

Lemma getdents_stream_witness :
  ∃ chunks, drain 6 dir_kern 3 0 2 = Some chunks ∧ concat chunks = [2; 3; 4; 5; 6] ∧
    Forall (λ c, 0 < Z.of_nat (length c) ≤ 2) chunks.
Proof.
  apply (getdents_stream dir_kern 3 0 2 [2; 3; 4; 5; 6]).
  - by apply is_u32_lit.
  - eexists _, _, _, _. split_and!; [vm_compute; reflexivity|vm_compute; reflexivity|reflexivity..| |].
    + simpl. lia.
    + reflexivity.
  - by apply (sample_in_memory 0 2).
  - lia.
Defined.

(** A kernel over the one-file host, with the file open as descriptor 3. *)
Definition file_kern : kern OneFile :=
  let k := attach_memory (new_inner [] [] sample_vfs (replicate 32 0) (MkOneFile [1; 2; 3; 4; 5; 6; 7] 0))
             (zero_mem 131072) in
  (openat (mem_put k 0 [97; 0]) (Args AT_FDCWD 0 0 0 0 0)).2.

Definition file_loc : Z := next_loc (k_heap sample_kern).

Lemma read_file_content_witness :
  ∃ k', read no_socket file_kern (rw_args 3 64 5) = (5, k') ∧
    guest_slice k' 64 5 = Ok [1; 2; 3; 4; 5] ∧
    pos (file_at (k_heap k') file_loc) = 5 ∧
    of_data (k_host k') = [1; 2; 3; 4; 5; 6; 7] ∧ k_fds k' = k_fds file_kern.
Proof.
  assert (Hat : file_at (k_heap file_kern) file_loc
                = MkFilePos 0 0 (Some (cwd sample_vfs ++ [Normal [97]])) false None) by (vm_compute; reflexivity).
  assert (Hc : content (k_host file_kern) 0 = [1; 2; 3; 4; 5; 6; 7]) by (vm_compute; reflexivity).
  pose proof (read_file_content no_socket file_kern 3 file_loc 64 5) as Hr.
  rewrite Hat in Hr. simpl inner in Hr. simpl pos in Hr. rewrite Hc in Hr. apply Hr.
  - by apply is_u32_lit.
  - vm_compute. reflexivity.
  - eexists. split; [vm_compute; reflexivity|]. simpl. unfold U64_MAX. lia.
  - lia.
  - by vm_compute.
  - lia.
  - unfold U64_MAX. lia.
Defined.

(** ** Deviations *)

(** At the end of a regular file [read] reports [-EAGAIN], where the caller
    expects 0. *)
Lemma read_at_eof_eagain :
  (read no_socket (read no_socket file_kern (rw_args 3 64 100)).2 (rw_args 3 64 1)).1 = - EAGAIN.
Proof. vm_compute. reflexivity. Qed.

(** [pipe2] accepts [O_CLOEXEC] and does nothing with it. *)
Lemma pipe2_ignores_cloexec {W} (k : kern W) ptr :
  pipe2 k (Args ptr O_CLOEXEC 0 0 0 0) = pipe2 k (Args ptr 0 0 0 0 0).
Proof. reflexivity. Qed.

(** A [struct timespec] near the end of the [i64] range makes [utimensat]
    panic. *)
Definition late_times_kern : kern OneFile :=
  mem_put file_kern 64 (to_le_bytes 8 0 ++ to_le_bytes 8 0 ++
                        to_le_bytes 8 I64_MAX ++ to_le_bytes 8 1000000000).

Lemma utimensat_panics : utimensat late_times_kern (Args AT_FDCWD 0 64 0 0 0) = Panic.
Proof. vm_compute. reflexivity. Qed.
