(* ===== verification/SysFileIo.v ===== *)
(** * Writing to regular files

    A descriptor of a regular file keeps its own position, and the host's file
    has a cursor. [lseek] to an absolute offset makes the two agree, [write]
    stores at the cursor and moves both; [read] goes back to the position
    first, but leaves the cursor wherever its last chunk ended. So what is
    written after an [lseek] is read back from there ([rewrite_reads_back]),
    and what is written after a short [read] is not where it should be
    ([write_after_read_misplaced]). *)

From S2P Require Import Prelude Word Errno GuestMem Text Path Host Vfs.
From S2P Require Import Fd Kernel KernInv SysFile SysFileInv SysFileSpec.

Definition seek_args (fd off whence : Z) : args := Args fd off whence 0 0 0.

Section io.
Context {W : Type} `{FileWriteHost W}.
Context (recvfrom sendto : kern W → args → Z * kern W).
Implicit Types k : kern W.

(** The descriptor is a regular file the guest may read and write. *)
Record rw_file k (fd l : Z) : Prop := {
  rf_fd : is_u 32 fd;
  rf_get : get (k_fds k) fd = Ok (RFile l);
  rf_regular : is_dir (file_at (k_heap k) l) = false;
  rf_readable : readable (k_host k) (inner (file_at (k_heap k) l));
  rf_writable : writable (k_host k) (inner (file_at (k_heap k) l));
}.

(** The bytes of the file, the position of the descriptor, the cursor of the
    host. *)
Definition file_bytes k l : bytes := content (k_host k) (inner (file_at (k_heap k) l)).
Definition file_pos k l : Z := pos (file_at (k_heap k) l).
Definition file_cursor k l : Z := cursor (k_host k) (inner (file_at (k_heap k) l)).

Lemma file_at_set h l f : file_at (set_file h l f) l = f.
Proof. unfold file_at. simpl. by rewrite lookup_insert_eq. Qed.

(** [lseek] to an absolute offset: position and cursor are there. *)
Lemma lseek_set_spec k fd l p :
  rw_file k fd l → 0 ≤ p ≤ I64_MAX →
  ∃ k', lseek k (seek_args fd p SEEK_SET) = (p, k') ∧ rw_file k' fd l ∧
    file_bytes k' l = file_bytes k l ∧ file_pos k' l = p ∧ file_cursor k' l = p ∧
    k_memory k' = k_memory k.
Proof.
  intros [Hfd Hg Hd Hr Hw] Hp. unfold lseek, seek_args. cbn [a0 a1 a2].
  rewrite u32_try_from_id by done. rewrite Hg, Hd. unfold seek_target. cbn [Z.eqb SEEK_SET].
  rewrite Z.max_l by lia. set (fp := file_at (k_heap k) l) in *.
  destruct (file_seek_law (k_host k) (inner fp) p Hr ltac:(lia)) as (w & Hs & Hr' & Hc & Hcur).
  pose proof (file_seek_writable _ _ _ _ _ Hw Hs) as Hw'. rewrite Hs.
  unfold as_i64. rewrite wraps_id by (unfold is_i, I64_MAX in *; lia). eexists. split; [done|].
  unfold file_bytes, file_pos, file_cursor. simpl. rewrite file_at_set. simpl. fold fp.
  split_and!; try done. split; simpl; rewrite ?file_at_set; done.
Qed.

(** [write]: what it stored is at the cursor. When the position is the cursor
    it stays so. *)
Lemma write_file_spec k fd l src len bs n k' :
  rw_file k fd l → guest_slice k src len = Ok bs → bs ≠ [] →
  write sendto k (rw_args fd src len) = (n, k') → 0 ≤ n → file_pos k l + len ≤ U64_MAX → 0 ≤ file_pos k l →
  n ≤ len ∧ rw_file k' fd l ∧
  file_bytes k' l = overwrite (file_bytes k l) (file_cursor k l) (take (Z.to_nat n) bs) ∧
  file_pos k' l = file_pos k l + n ∧ file_cursor k' l = file_cursor k l + n ∧ k_memory k' = k_memory k.
Proof.
  intros [Hfd Hg Hd Hr Hw] Hs Hne. unfold write, rw_args. cbn [a0 a1 a2].
  rewrite u32_try_from_id by done. rewrite Hs, bool_decide_false, Hg by done. unfold write_file.
  unfold file_pos, file_bytes, file_cursor. set (fp := file_at (k_heap k) l) in *.
  destruct (file_write _ _ _) as [[c|e] w] eqn:E; [|intros [= <- _]; done]. intros [= <- <-] Hn Hmax Hp.
  destruct (file_write_law _ _ _ _ _ Hr Hw E) as (Hc & Hr' & Hw' & Hb & Hcur).
  rewrite (guest_slice_length _ _ _ _ Hs) in Hc. simpl. rewrite file_at_set. simpl. fold fp.
  unfold as_u64. rewrite wrapu_id by (unfold is_u, U64_MAX in *; lia). split_and!; try done; [lia|].
  split; simpl; rewrite ?file_at_set; done.
Qed.

(** [lseek] relative to the current position answers the host's cursor. *)
Lemma lseek_cur_spec k fd l d :
  rw_file k fd l → 0 ≤ file_cursor k l + d ≤ I64_MAX →
  ∃ k', lseek k (seek_args fd d SEEK_CUR) = (file_cursor k l + d, k') ∧
    file_pos k' l = file_cursor k l + d ∧ file_cursor k' l = file_cursor k l + d ∧ file_bytes k' l = file_bytes k l.
Proof.
  intros [Hfd Hg Hd Hr Hw] Hp. unfold file_cursor, file_pos, file_bytes, lseek, seek_args in *. cbn [a0 a1 a2].
  rewrite u32_try_from_id by done. rewrite Hg, Hd. unfold seek_target, SEEK_CUR, SEEK_SET. cbn [Z.eqb Pos.eqb].
  set (fp := file_at (k_heap k) l) in *.
  destruct (file_seek_current_law (k_host k) (inner fp) d Hr ltac:(lia)) as (w & -> & Hr' & Hc & Hcur).
  unfold as_i64. rewrite wraps_id by (unfold is_i, I64_MAX in *; lia). eexists. split; [done|].
  simpl. by rewrite file_at_set.
Qed.

End io.

(** ** Theorems *)

(** C19: what the guest writes to a file it reads back. After an [lseek] to
    offset [p], a [write] that reports [n] bytes has stored the first [n] of
    the guest's bytes from offset [p] on and left the rest of the file as it
    was (a gap before [p] reads as zeros); after another [lseek] to [p], a
    [read] of [n] bytes returns [n] and puts exactly those bytes in guest
    memory. *)
Theorem rewrite_reads_back {W} `{FileWriteHost W} recvfrom sendto (k : kern W) fd l p src len bs dst :
  rw_file k fd l → 0 ≤ p → p + len ≤ I64_MAX →
  guest_slice k src len = Ok bs → bs ≠ [] → in_memory k dst len →
  ∃ k1, lseek k (seek_args fd p SEEK_SET) = (p, k1) ∧
  ∀ n k2, write sendto k1 (rw_args fd src len) = (n, k2) → 0 < n →
    let stored := take (Z.to_nat n) bs in
    file_bytes k2 l = overwrite (file_bytes k l) p stored ∧ file_pos k2 l = p + n ∧
    ∃ k3 k4, lseek k2 (seek_args fd p SEEK_SET) = (p, k3) ∧
      read recvfrom k3 (rw_args fd dst n) = (n, k4) ∧ guest_slice k4 dst n = Ok stored ∧
      content (k_host k4) (inner (file_at (k_heap k3) l)) = file_bytes k2 l.
Proof.
  intros Hf Hp Hlen Hs Hne Hin. pose proof (guest_slice_length _ _ _ _ Hs) as Hbl.
  destruct (lseek_set_spec k fd l p Hf) as (k1 & -> & Hf1 & Hb1 & Hp1 & Hc1 & Hm1); [lia|].
  exists k1. split; [done|]. intros n k2 Hw Hn stored.
  assert (guest_slice k1 src len = Ok bs) as Hs1 by (revert Hs; unfold guest_slice, memory; by rewrite Hm1).
  destruct (write_file_spec sendto k1 fd l src len bs n k2) as (Hnl & Hf2 & Hb2 & Hp2 & _ & Hm2); try done;
    [lia|unfold I64_MAX, U64_MAX in *; lia|lia|].
  fold stored in Hb2. rewrite Hb1, Hc1 in Hb2. split_and!; [done|lia|].
  destruct (lseek_set_spec k2 fd l p Hf2) as (k3 & -> & Hf3 & Hb3 & Hp3 & _ & Hm3); [lia|].
  assert (Z.of_nat (length stored) = n) as Hsl by (subst stored; rewrite take_min by lia; lia).
  assert (in_memory k3 dst n) as Hin3.
  { apply (in_memory_le k3 dst len); [|lia]. unfold in_memory. by rewrite Hm3, Hm2, Hm1. }
  destruct Hf3 as [Hfd Hg Hd Hr Hwr].
  pose proof (read_file_fd recvfrom k3 fd l dst n Hfd Hg Hin3 Hn) as Hread. cbv zeta in Hread.
  change (content (k_host k3) (inner (file_at (k_heap k3) l))) with (file_bytes k3 l) in Hread.
  change (pos (file_at (k_heap k3) l)) with (file_pos k3 l) in Hread.
  rewrite Hb3, Hb2, Hp3 in Hread.
  replace (Z.to_nat n) with (length stored) in Hread by lia. rewrite overwrite_read in Hread by done.
  rewrite bool_decide_false, Hsl in Hread by (intros He; rewrite He in Hsl; simpl in Hsl; lia).
  destruct Hread as (k4 & Hrd & Hgs & _ & Hc4 & Hfd4); [done|lia|unfold I64_MAX, U64_MAX in *; lia|].
  exists k3, k4. split_and!; try done. by rewrite Hb2.
Qed.

(** ** Witnesses *)

(** Two bytes at 64, to be written over the third and fourth of the file. *)
Definition rewrite_kern : kern OneFile := mem_put file_kern 64 [9; 8].

Lemma rewrite_rw_file : rw_file rewrite_kern 3 file_loc.
Proof. split; by vm_compute. Qed.

Lemma rewrite_reads_back_witness :
  ∃ k1, lseek rewrite_kern (seek_args 3 2 SEEK_SET) = (2, k1) ∧
  ∀ n k2, write no_socket k1 (rw_args 3 64 2) = (n, k2) → 0 < n →
    let stored := take (Z.to_nat n) [9; 8] in
    file_bytes k2 file_loc = overwrite [1; 2; 3; 4; 5; 6; 7] 2 stored ∧ file_pos k2 file_loc = 2 + n ∧
    ∃ k3 k4, lseek k2 (seek_args 3 2 SEEK_SET) = (2, k3) ∧
      read no_socket k3 (rw_args 3 128 n) = (n, k4) ∧ guest_slice k4 128 n = Ok stored ∧
      content (k_host k4) (inner (file_at (k_heap k3) file_loc)) = file_bytes k2 file_loc.
Proof.
  assert (file_bytes rewrite_kern file_loc = [1; 2; 3; 4; 5; 6; 7]) as Hb by (vm_compute; reflexivity).
  pose proof (rewrite_reads_back no_socket no_socket rewrite_kern 3 file_loc 2 64 2 [9; 8] 128) as Hr.
  rewrite Hb in Hr. apply Hr.
  - apply rewrite_rw_file.
  - lia.
  - unfold I64_MAX. lia.
  - by vm_compute.
  - done.
  - eexists. split; [vm_compute; reflexivity|]. simpl. unfold U64_MAX. lia.
Defined.

Lemma rewrite_result :
  file_bytes (write no_socket (lseek rewrite_kern (seek_args 3 2 SEEK_SET)).2 (rw_args 3 64 2)).2 file_loc
  = [1; 2; 9; 8; 5; 6; 7].
Proof. vm_compute. reflexivity. Qed.

(** ** Deviations *)

(** After a short read the host's cursor is past the descriptor's position, at
    the end of the chunk that was read: a write goes there, and [lseek]
    relative to the current position starts from there. Reading one byte here
    and writing one byte leaves it at offset 3 instead of 1. *)
Definition after_one : kern OneFile := (read no_socket rewrite_kern (rw_args 3 128 1)).2.

Lemma write_after_read_misplaced :
  file_pos after_one file_loc = 1 ∧
  (write no_socket after_one (rw_args 3 64 1)).1 = 1 ∧
  file_bytes (write no_socket after_one (rw_args 3 64 1)).2 file_loc = [1; 2; 3; 9; 5; 6; 7] ∧
  (lseek after_one (seek_args 3 0 SEEK_CUR)).1 = 3.
Proof. vm_compute. split_and!; reflexivity. Qed.
