(* ===== verification/SysSignal.v ===== *)
(** * Signal syscalls (src/sys/signal.rs)

    Dispositions, the blocked mask and the alternate stack are recorded and
    read back; nothing is delivered. *)

From S2P Require Import Prelude Word Errno GuestMem Text Path Host Vfs Fd Futex Kernel KernInv.

Definition SS_ONSTACK : Z := 1.
Definition SS_DISABLE : Z := 2.
Definition SIGALTSTACK_SIZE : Z := 24.
Definition SIG_BLOCK : Z := 0.
Definition SIG_UNBLOCK : Z := 1.
Definition SIG_SETMASK : Z := 2.
Definition SIGACTION_SIZE : Z := 32.

Definition set_actions (s : SignalState) x : SignalState := MkSignals x (sig_mask s) (alt_stack s).
Definition set_sig_mask (s : SignalState) x : SignalState := MkSignals (actions s) x (alt_stack s).
Definition set_alt_stack (s : SignalState) x : SignalState := MkSignals (actions s) (sig_mask s) x.

(** The fields of [struct sigaction]: handler at 0, flags at 4, mask at 8,
    restorer at 24. *)
Definition parse_sigaction (bs : bytes) : SigAction :=
  {| sa_handler := from_le_bytes (take 4 bs);
     sa_flags := from_le_bytes (take 4 (drop 4 bs));
     sa_mask := from_le_bytes (take 8 (drop 8 bs));
     sa_restorer := from_le_bytes (take 4 (drop 24 bs)) |}.

(** What [oldact] receives at 0 and at 24; the other bytes stay. *)
Definition sigaction_head (s : SigAction) : bytes :=
  to_le_bytes 4 (as_u32 (sa_handler s)) ++ to_le_bytes 4 (as_u32 (sa_flags s)) ++
  to_le_bytes 8 (sa_mask s).
Definition sigaction_tail (s : SigAction) : bytes := to_le_bytes 4 (as_u32 (sa_restorer s)).

Section syscalls.
Context {W : Type}.
Implicit Types k : kern W.

Definition write_oldact k (oldact : Z) (prev : SigAction) : result (kern W) :=
  m <-? memory k;
  p <-? guest_slice_mut_via m oldact SIGACTION_SIZE;
  Ok (mem_put (mem_put k p (sigaction_head prev)) (p + 24) (sigaction_tail prev)).

Definition rt_sigaction k (a : args) : Z * kern W :=
  let signum := as_i32 (a0 a) in
  let act := a1 a in
  let oldact := a2 a in
  if negb ((1 <=? signum) && (signum <=? 64)) then (- EINVAL, k)
  else
    let prev := default SigAction_default (actions (k_signals k) !! signum) in
    let! kw := (if oldact =? 0 then Ok k else write_oldact k oldact prev) on k;
    if act =? 0 then (0, kw)
    else
      let! bs := guest_slice kw act SIGACTION_SIZE on kw;
      (0, set_signals kw (set_actions (k_signals kw)
            (<[signum := parse_sigaction bs]> (actions (k_signals kw))))).

Definition rt_sigprocmask k (a : args) : Z * kern W :=
  let how := a0 a in
  let set := a1 a in
  let oldset := a2 a in
  let prev_mask := sig_mask (k_signals k) in
  let! kw := (if oldset =? 0 then Ok k
              else m <-? memory k;
                   p <-? guest_slice_mut_via m oldset 8;
                   Ok (mem_put k p (to_le_bytes 8 prev_mask))) on k;
  if set =? 0 then (0, kw)
  else
    let! bs := guest_slice kw set 8 on kw;
    let new_mask := from_le_bytes bs in
    let old := sig_mask (k_signals kw) in
    let put x := (0, set_signals kw (set_sig_mask (k_signals kw) x)) in
    if how =? SIG_BLOCK then put (Z.lor old new_mask)
    else if how =? SIG_UNBLOCK then put (Z.land old (Z.lxor U64_MAX new_mask))
    else if how =? SIG_SETMASK then put new_mask
    else (- EINVAL, kw).

Definition sigaltstack k (a : args) : Z * kern W :=
  let ss := a0 a in
  let old_ss := a1 a in
  let prev := alt_stack (k_signals k) in
  let! kw := (if old_ss =? 0 then Ok k
              else p <-? guest_slice_mut k old_ss SIGALTSTACK_SIZE;
                   Ok (mem_put k p (match prev with
                                    | Some bs => take 24 bs
                                    | None => replicate 24 0
                                    end))) on k;
  if ss =? 0 then (0, kw)
  else
    let! bs := guest_slice kw ss SIGALTSTACK_SIZE on kw;
    let flags := from_le_bytes_i 32 (take 4 (drop 8 bs)) in
    (0, set_signals kw (set_alt_stack (k_signals kw)
          (if has flags SS_DISABLE then None else Some bs))).

Definition rt_sigreturn : Z := 0.

(** ** Facts *)

Lemma write_oldact_Ok k oldact prev k' :
  write_oldact k oldact prev = Ok k' ↔
  in_memory k oldact SIGACTION_SIZE ∧
  k' = mem_put (mem_put k oldact (sigaction_head prev)) (oldact + 24) (sigaction_tail prev).
Proof.
  unfold write_oldact. rewrite result_bind_Ok. split.
  - intros (m & Hm & (p & Hp & [= <-])%result_bind_Ok).
    apply (guest_slice_mut_via_Ok _ _ _ _ _ Hm) in Hp as [? ->]. done.
  - intros [Hin ->]. pose proof Hin as (m & Hm & _). apply memory_Ok in Hm. exists m. split; [done|].
    apply result_bind_Ok. exists oldact. split; [|done]. by apply (guest_slice_mut_via_Ok _ _ _ _ _ Hm).
Qed.

Lemma length_sigaction_head s : length (sigaction_head s) = 16%nat.
Proof. done. Qed.
Lemma length_sigaction_tail s : length (sigaction_tail s) = 4%nat.
Proof. done. Qed.

Lemma in_memory_sub k ptr len q n :
  in_memory k ptr len → ptr ≤ q → 0 ≤ n → q + n ≤ ptr + len → in_memory k q n.
Proof. intros (m & ? & ? & ? & ? & ?) ???. exists m. split_and!; try done; lia. Qed.

Lemma k_signals_put k p bs : k_signals (mem_put k p bs) = k_signals k.
Proof. unfold mem_put. by destruct (k_memory k) as [[]|]. Qed.

(** ** Invariant *)

#[export] Instance rt_sigaction_preserves : Preserves rt_sigaction.
Proof.
  intros k a r k' Hk. unfold rt_sigaction. destruct (negb _); [by intros [= <- <-]|].
  set (prev := default _ _).
  destruct (if a2 a =? 0 then Ok k else write_oldact k (a2 a) prev) as [kw|e] eqn:E; [|by intros [= <- <-]].
  assert (kern_wf kw) as Hkw.
  { destruct (a2 a =? 0); [by injection E as <-|]. apply write_oldact_Ok in E as [Hin ->].
    assert (in_memory k (a2 a) 16 ∧ in_memory k (a2 a + 24) 4) as [??]
      by (split; eapply in_memory_sub; try done; unfold SIGACTION_SIZE; lia).
    apply kern_wf_mem_put; [by apply kern_wf_mem_put|]. by apply in_memory_put. }
  destruct (a1 a =? 0); [by intros [= <- <-]|].
  destruct (guest_slice _ _ _); intros [= <- <-]; eauto with libos.
Qed.

#[export] Instance rt_sigprocmask_preserves : Preserves rt_sigprocmask.
Proof.
  intros k a r k' Hk. unfold rt_sigprocmask.
  destruct (if a2 a =? 0 then _ else _) as [kw|e] eqn:E; [|by intros [= <- <-]].
  assert (kern_wf kw) as Hkw.
  { destruct (a2 a =? 0); [by injection E as <-|].
    apply result_bind_Ok in E as (m & Hm & (p & Hp & [= <-])%result_bind_Ok).
    apply (guest_slice_mut_via_Ok _ _ _ _ _ Hm) in Hp as [? ->]. by apply kern_wf_mem_put. }
  destruct (a1 a =? 0); [by intros [= <- <-]|].
  destruct (guest_slice _ _ _); [|by intros [= <- <-]].
  repeat case_if; intros [= <- <-]; eauto with libos.
Qed.

#[export] Instance sigaltstack_preserves : Preserves sigaltstack.
Proof.
  intros k a r k' Hk. unfold sigaltstack.
  destruct (if a1 a =? 0 then _ else _) as [kw|e] eqn:E; [|by intros [= <- <-]].
  assert (kern_wf kw) as Hkw.
  { destruct (a1 a =? 0); [by injection E as <-|].
    apply result_bind_Ok in E as (p & [Hin ->]%guest_slice_mut_Ok & [= <-]).
    apply kern_wf_mem_put; [done|]. eapply in_memory_le; [done|]. unfold SIGALTSTACK_SIZE.
    destruct (alt_stack _); [rewrite length_take; lia|simpl; lia]. }
  destruct (a0 a =? 0); [by intros [= <- <-]|].
  destruct (guest_slice _ _ _); intros [= <- <-]; eauto with libos.
Qed.

End syscalls.

(** ** Round trip *)

Lemma as_u32_from_le bs : bytes_ok bs → length bs = 4%nat → as_u32 (from_le_bytes bs) = from_le_bytes bs.
Proof.
  intros Hbs Hl. apply wrapu_id. pose proof (from_le_bytes_range bs Hbs) as Hr. rewrite Hl in Hr.
  unfold is_u. simpl in Hr. lia.
Qed.

(** Encoding a parsed record gives back the bytes it was parsed from. *)
Lemma sigaction_reencode bs :
  bytes_ok bs → length bs = 32%nat →
  sigaction_head (parse_sigaction bs) = take 16 bs ∧
  sigaction_tail (parse_sigaction bs) = take 4 (drop 24 bs).
Proof.
  intros Hbs Hl.
  assert (∀ n, bytes_ok (take n bs)) as Ht by (intros; by apply Forall_take).
  assert (∀ n m, bytes_ok (take n (drop m bs))) as Hd by (intros; by apply Forall_take, Forall_drop).
  assert (∀ n m : nat, (n + m ≤ 32)%nat → length (take n (drop m bs)) = n) as Hlen.
  { intros. rewrite length_take, length_drop. lia. }
  assert (length (take 4 bs) = 4%nat) as H4 by (rewrite length_take; lia).
  unfold sigaction_head, sigaction_tail. cbn [parse_sigaction sa_handler sa_flags sa_mask sa_restorer].
  rewrite !as_u32_from_le by (try apply Hlen; auto; lia).
  split.
  - rewrite !to_from_le_bytes_n by (try apply Hlen; auto; lia).
    change (drop 8 bs) with (drop (4 + 4) bs). rewrite <- drop_drop.
    rewrite (take_take_drop (drop 4 bs) 4 8). apply (take_take_drop bs 4 12).
  - by rewrite to_from_le_bytes_n by (try apply Hlen; auto; lia).
Qed.

Section spec.
Context {W : Type}.
Implicit Types k : kern W.

(** Record a disposition, then query it. *)
Lemma sigaction_set_get k sig act old bs :
  bytes_ok bs → 1 ≤ sig ≤ 64 → act ≠ 0 → old ≠ 0 →
  guest_slice k act 32 = Ok bs → in_memory k old 32 →
  ∃ k1 k2, rt_sigaction k (Args sig act 0 8 0 0) = (0, k1) ∧
    rt_sigaction k1 (Args sig 0 old 8 0 0) = (0, k2) ∧
    guest_slice k2 old 16 = Ok (take 16 bs) ∧
    guest_slice k2 (old + 24) 4 = Ok (take 4 (drop 24 bs)) ∧
    (∀ s, s ≠ sig → actions (k_signals k1) !! s = actions (k_signals k) !! s) ∧
    k_signals k2 = k_signals k1.
Proof.
  intros Hok Hsig Ha Ho Hbs Hin. pose proof (guest_slice_length _ _ _ _ Hbs) as Hlen.
  assert (as_i32 sig = sig) as Hs by (apply wraps_id; [lia|]; unfold is_i; lia).
  unfold rt_sigaction. simpl. rewrite Hs.
  rewrite (proj2 (Z.leb_le 1 sig)), (proj2 (Z.leb_le sig 64)) by lia. simpl.
  rewrite (proj2 (Z.eqb_neq act 0)) by done. unfold SIGACTION_SIZE at 1. rewrite Hbs.
  eexists. eexists. split; [done|]. set (k1 := set_signals _ _).
  rewrite (proj2 (Z.eqb_neq old 0)) by done.
  assert (default SigAction_default (actions (k_signals k1) !! sig) = parse_sigaction bs) as ->.
  { simpl. by rewrite lookup_insert_eq. }
  rewrite (proj2 (write_oldact_Ok k1 old _ _) (conj Hin eq_refl)).
  destruct (sigaction_reencode bs Hok ltac:(lia)) as [Hh Ht]. rewrite Hh, Ht.
  assert (length (take 16 bs) = 16%nat) as L1 by (rewrite length_take; lia).
  assert (length (take 4 (drop 24 bs)) = 4%nat) as L2 by (rewrite length_take, length_drop; lia).
  assert (in_memory k1 old (Z.of_nat (length (take 16 bs)))) as I1.
  { rewrite L1. apply (in_memory_sub k old 32); try done; lia. }
  assert (in_memory (mem_put k1 old (take 16 bs)) (old + 24) (Z.of_nat (length (take 4 (drop 24 bs))))) as I2.
  { apply in_memory_put; [done|]. rewrite L2. apply (in_memory_sub k old 32); try done; lia. }
  split; [done|]. split_and!.
  - rewrite guest_slice_put_disjoint; [|done|rewrite L2; right; lia].
    pose proof (guest_slice_put_same k1 old (take 16 bs) I1) as Hg. by rewrite L1 in Hg.
  - pose proof (guest_slice_put_same _ _ _ I2) as Hg. by rewrite L2 in Hg.
  - intros s Hne. simpl. by rewrite lookup_insert_ne.
  - by rewrite !k_signals_put.
Qed.

End spec.

(** Bit [i] of a mask under the three ways of changing it. *)
Lemma procmask_bits how old new i :
  0 ≤ i < 64 → is_u 64 old →
  Z.testbit (if how =? SIG_BLOCK then Z.lor old new
             else if how =? SIG_UNBLOCK then Z.land old (Z.lxor U64_MAX new) else new) i =
  (if how =? SIG_BLOCK then Z.testbit old i || Z.testbit new i
   else if how =? SIG_UNBLOCK then Z.testbit old i && negb (Z.testbit new i)
   else Z.testbit new i).
Proof.
  intros Hi Ho. destruct (how =? SIG_BLOCK); [apply Z.lor_spec|].
  destruct (how =? SIG_UNBLOCK); [|done]. rewrite Z.land_spec, Z.lxor_spec.
  change U64_MAX with (Z.ones 64). by rewrite Z.ones_spec_low by lia.
Qed.

(** ** Theorems *)

(** A signal disposition set with [rt_sigaction] is read back from the
    [oldact] of the next call byte for byte (handler, flags and mask in the
    first 16 bytes, restorer at 24), and no other signal's disposition
    changes. *)
Theorem sigaction_roundtrip {W} (k : kern W) sig act old bs :
  bytes_ok bs → 1 ≤ sig ≤ 64 → act ≠ 0 → old ≠ 0 →
  guest_slice k act 32 = Ok bs → in_memory k old 32 →
  ∃ k1 k2, rt_sigaction k (Args sig act 0 8 0 0) = (0, k1) ∧
    rt_sigaction k1 (Args sig 0 old 8 0 0) = (0, k2) ∧
    guest_slice k2 old 16 = Ok (take 16 bs) ∧
    guest_slice k2 (old + 24) 4 = Ok (take 4 (drop 24 bs)) ∧
    (∀ s, s ≠ sig → actions (k_signals k1) !! s = actions (k_signals k) !! s) ∧
    k_signals k2 = k_signals k1.
Proof. apply sigaction_set_get. Qed.

(** [rt_sigprocmask] with both sets given and a known [how] returns 0,
    stores the previous mask in [oldset] and changes each of the 64 bits as
    asked: set, clear or replace. *)
Theorem sigprocmask_effect {W} (k : kern W) how set old :
  is_u 64 (sig_mask (k_signals k)) → 0 ≤ how ≤ 2 → set ≠ 0 → old ≠ 0 →
  in_memory k set 8 → in_memory k old 8 → disjoint_ranges old 8 set 8 →
  ∃ k' new, rt_sigprocmask k (Args how set old 8 0 0) = (0, k') ∧
    guest_slice k set 8 = Ok new ∧
    guest_slice k' old 8 = Ok (to_le_bytes 8 (sig_mask (k_signals k))) ∧
    ∀ i, 0 ≤ i < 64 →
      Z.testbit (sig_mask (k_signals k')) i =
      (let o := Z.testbit (sig_mask (k_signals k)) i in
       let n := Z.testbit (from_le_bytes new) i in
       if how =? SIG_BLOCK then o || n else if how =? SIG_UNBLOCK then o && negb n else n).
Proof.
  intros Hm Hh Hs Ho Is Io Hd. unfold rt_sigprocmask. simpl.
  rewrite (proj2 (Z.eqb_neq old 0)), (proj2 (Z.eqb_neq set 0)) by done.
  pose proof Io as (m & Hmem & _). apply memory_Ok in Hmem. rewrite Hmem. simpl.
  rewrite (proj2 (guest_slice_mut_via_Ok k m old 8 old Hmem)) by done. simpl.
  match goal with |- context [mem_put k old ?b] => set (bs := b) end.
  assert (Z.of_nat (length bs) = 8) as Hl by done.
  assert (in_memory k old (Z.of_nat (length bs))) as Iw by by rewrite Hl.
  destruct (proj1 (guest_slice_mut_slice k set 8)) as [new Hn].
  { exists set. by apply guest_slice_mut_Ok. }
  rewrite guest_slice_put_disjoint, Hn by (rewrite ?Hl; done). rewrite k_signals_put.
  pose proof (guest_slice_put_same k old bs Iw) as Hg. rewrite Hl in Hg.
  pose proof (λ i Hi, procmask_bits how _ (from_le_bytes new) i Hi Hm) as Hb.
  destruct (how =? SIG_BLOCK) eqn:E1; [|destruct (how =? SIG_UNBLOCK) eqn:E2;
    [|assert (how =? SIG_SETMASK = true) as -> by (to_prop; unfold SIG_BLOCK, SIG_UNBLOCK, SIG_SETMASK in *; lia)]];
  eexists _, new; (split; [done|]); split_and!; try done.
Qed.

(** ** Witnesses *)

Definition act_kern : kern NullHost :=
  mem_put sample_kern 64 (to_le_bytes 4 77 ++ to_le_bytes 4 268435456 ++ to_le_bytes 8 3 ++
                          replicate 8 0 ++ to_le_bytes 4 99 ++ replicate 4 0).

Lemma act_in_memory ptr len : 0 ≤ ptr → 0 ≤ len → ptr + len ≤ 131072 → in_memory act_kern ptr len.
Proof. intros. eexists. split; [vm_compute; reflexivity|]. simpl. unfold U64_MAX. lia. Qed.

Lemma sigaction_roundtrip_witness :
  ∃ k1 k2, rt_sigaction act_kern (Args 2 64 0 8 0 0) = (0, k1) ∧
    rt_sigaction k1 (Args 2 0 128 8 0 0) = (0, k2) ∧
    guest_slice k2 128 16 = Ok [77; 0; 0; 0; 0; 0; 0; 16; 3; 0; 0; 0; 0; 0; 0; 0] ∧
    guest_slice k2 (128 + 24) 4 = Ok [99; 0; 0; 0] ∧
    (∀ s, s ≠ 2 → actions (k_signals k1) !! s = actions (k_signals act_kern) !! s) ∧
    k_signals k2 = k_signals k1.
Proof.
  apply (sigaction_roundtrip act_kern 2 64 128
    (to_le_bytes 4 77 ++ to_le_bytes 4 268435456 ++ to_le_bytes 8 3 ++
     replicate 8 0 ++ to_le_bytes 4 99 ++ replicate 4 0)).
  - repeat constructor; vm_compute; done.
  - lia.
  - done.
  - done.
  - vm_compute. reflexivity.
  - by apply act_in_memory.
Defined.

Lemma sigprocmask_effect_witness :
  ∃ k' new, rt_sigprocmask act_kern (Args 0 72 128 8 0 0) = (0, k') ∧
    guest_slice act_kern 72 8 = Ok new ∧
    guest_slice k' 128 8 = Ok (to_le_bytes 8 0) ∧
    ∀ i, 0 ≤ i < 64 →
      Z.testbit (sig_mask (k_signals k')) i =
      (let o := Z.testbit 0 i in
       let n := Z.testbit (from_le_bytes new) i in
       if 0 =? SIG_BLOCK then o || n else if 0 =? SIG_UNBLOCK then o && negb n else n).
Proof.
  apply (sigprocmask_effect act_kern 0 72 128).
  - vm_compute. done.
  - lia.
  - done.
  - done.
  - by apply act_in_memory.
  - by apply act_in_memory.
  - right. lia.
Defined.
