(* ===== verification/SysFutex.v ===== *)
(** * The futex syscall (src/sys/futex.rs, the handler)

    [FUTEX_WAIT] checks the word, counts the caller in, sleeps on the entry's
    [Notify] and counts it out again; [FUTEX_WAKE] takes waiters off the count
    and signals their [Notify]. Sleeping hands the processor to the other
    threads of the process, so what happens meanwhile is a parameter: [park]
    gives the kernel state at the time the sleeper resumes and whether it was
    woken or its timeout expired, or says that it never resumes. *)

From S2P Require Import Prelude Word Errno GuestMem Text Path Host Vfs Fd Futex Kernel KernInv.

Definition FUTEX_WAIT : Z := 0.
Definition FUTEX_WAKE : Z := 1.
Definition FUTEX_CMD_MASK : Z := 63.
Definition INVALID_FUTEX_ADDR : Z := 4294967295.
Definition TIMESPEC_SIZE : Z := 16.

Definition set_futex_table (ps : ProcessState) (t : FutexTable) : ProcessState :=
  MkProcess (next_pid ps) (children ps) (child_event ps) t (signals_pending ps)
    (tgid_registry ps) (ps_tgid ps) (resolver ps).

(** How a sleep ends. *)
Inductive wakeup := Notified | TimedOut.

Section syscalls.
Context {W : Type}.
Context (park : kern W → Z → option Z → option (wakeup * kern W)).
Implicit Types k : kern W.

(** The timeout in nanoseconds; the sum wraps in a release build. *)
Definition decode_timespec k (ptr : Z) : result Z :=
  bs <-? guest_slice k ptr TIMESPEC_SIZE;
  let sec := from_le_bytes_i 64 (take 8 bs) in
  let nsec := from_le_bytes_i 64 (take 8 (drop 8 bs)) in
  if negb ((0 <=? nsec) && (nsec <? 1000000000)) || (sec <? 0) then Err (- EINVAL)
  else Ok (as_u64 (saturating_mul_u64 (as_u64 sec) 1000000000 + as_u64 nsec)).

Definition set_table k (t : FutexTable) : kern W := set_ps k (set_futex_table (k_ps k) t).

(** [release_waiter] of the syscall: the one of the table. *)
Definition sys_release_waiter k (uaddr : Z) : kern W :=
  set_table k (release_waiter (futex_table (k_ps k)) uaddr).

(** Phases 1 and 2: the error to return, or the [Notify] to sleep on and the
    timeout, with the caller counted in. *)
Definition futex_wait_begin k (uaddr val timeout_ptr : Z) : result (Z * option Z * kern W) :=
  bs <-? guest_slice k uaddr 4;
  if negb (from_le_bytes bs =? val) then Err (- EAGAIN)
  else
    deadline <-? (if timeout_ptr =? 0 then Ok None
                  else d <-? decode_timespec k timeout_ptr; Ok (Some d));
    let '(fresh, h) := match futex_table (k_ps k) !! uaddr with
                       | Some _ => (0, k_heap k)
                       | None => new_notify (k_heap k)
                       end in
    let '(notify, t) := register (futex_table (k_ps k)) fresh uaddr in
    Ok (notify, deadline, set_table (set_heap k h) t).

(** Phases 3 and 4. Without a deadline the sleep can only end by a
    notification. *)
Definition futex_wait k (uaddr val timeout_ptr : Z) : outcome (Z * kern W) :=
  match futex_wait_begin k uaddr val timeout_ptr with
  | Err e => Return (e, k)
  | Ok (notify, deadline, kw) =>
    match park kw notify deadline with
    | None => Hang
    | Some (ev, kw) =>
      let kw := sys_release_waiter kw uaddr in
      match deadline, ev with
      | Some _, TimedOut => Return (- ETIMEDOUT, kw)
      | _, _ => Return (0, kw)
      end
    end
  end.

Definition futex_wake k (uaddr val : Z) : Z * kern W :=
  match wake (futex_table (k_ps k)) uaddr val with
  | (None, _) => (0, k)
  | (Some (notify, to_wake), t) =>
    (to_wake, set_heap (set_table k t) (Nat.iter (Z.to_nat to_wake) (λ h, notify_one h notify) (k_heap k)))
  end.

Definition futex k (a : args) : outcome (Z * kern W) :=
  match u32_try_from (a0 a) with
  | None => Return (- EINVAL, k)
  | Some uaddr =>
    let cmd := Z.land (as_i32 (a1 a)) FUTEX_CMD_MASK in
    if uaddr =? INVALID_FUTEX_ADDR then Return (- EINVAL, k)
    else if cmd =? FUTEX_WAIT then futex_wait k uaddr (a2 a) (a3 a)
    else if cmd =? FUTEX_WAKE then Return (futex_wake k uaddr (as_i32 (a2 a)))
    else Return (- ENOSYS, k)
  end.

End syscalls.

(** ** Facts *)

Section facts.
Context {W : Type}.
Implicit Types k : kern W.

Lemma futex_wait_begin_Ok k uaddr val tp n d k' :
  futex_wait_begin k uaddr val tp = Ok (n, d, k') →
  (∃ bs, guest_slice k uaddr 4 = Ok bs ∧ from_le_bytes bs = val) ∧
  (tp = 0 ↔ d = None) ∧
  ∃ fresh, (n, futex_table (k_ps k')) = register (futex_table (k_ps k)) fresh uaddr.
Proof.
  unfold futex_wait_begin. intros (bs & Hbs & Hk)%result_bind_Ok.
  destruct (_ =? val) eqn:Hv in Hk; [|done]. simpl in Hk. to_prop.
  apply result_bind_Ok in Hk as (d' & Hd & Hk).
  assert (tp = 0 ↔ d' = None) as Hd'.
  { destruct (tp =? 0) eqn:E in Hd; to_prop; [by simplify_eq|].
    apply result_bind_Ok in Hd as (x & _ & [= <-]). done. }
  destruct (match futex_table (k_ps k) !! uaddr with Some _ => _ | None => _ end) as [fresh h].
  simpl in Hk. injection Hk as <- <- <-. split_and!; [by exists bs|done|]. by exists fresh.
Qed.

(** An error of the first phases is one of four, and leaves no trace. *)
Lemma futex_wait_begin_Err k uaddr val tp e :
  futex_wait_begin k uaddr val tp = Err e →
  (∃ m, k_memory k = Some (Shared m)) ∨ e = - EFAULT ∨ e = - EAGAIN ∨ e = - EINVAL.
Proof.
  unfold futex_wait_begin. destruct (guest_slice k uaddr 4) as [bs|e'] eqn:Hg; simpl.
  2:{ intros [= <-]. apply guest_slice_Err in Hg as [?|?]; auto. }
  destruct (negb _); [intros [= <-]; auto|].
  destruct (tp =? 0); simpl.
  { by destruct (match _ with Some _ => _ | None => _ end). }
  unfold decode_timespec. destruct (guest_slice k tp TIMESPEC_SIZE) as [ts|e'] eqn:Ht; simpl.
  2:{ intros [= <-]. apply guest_slice_Err in Ht as [?|?]; auto. }
  destruct (_ || _); simpl; [intros [= <-]; auto|].
  by destruct (match _ with Some _ => _ | None => _ end).
Qed.

Lemma futex_wake_table k uaddr val :
  futex_table (k_ps (futex_wake k uaddr val).2) = (wake (futex_table (k_ps k)) uaddr val).2 ∧
  (futex_wake k uaddr val).1 =
    match (wake (futex_table (k_ps k)) uaddr val).1 with Some (_, n) => n | None => 0 end.
Proof.
  unfold futex_wake, wake. destruct (_ !! _); [|done]. by split.
Qed.

(** ** Kernel invariant *)

Lemma futex_wait_begin_wf k uaddr val tp n d k' :
  kern_wf k → futex_wait_begin k uaddr val tp = Ok (n, d, k') → kern_wf k'.
Proof.
  intros Hk. unfold futex_wait_begin. intros (bs & Hbs & H)%result_bind_Ok.
  destruct (negb _) in H; [done|]. apply result_bind_Ok in H as (d' & Hd & H).
  destruct (match futex_table (k_ps k) !! uaddr with Some _ => _ | None => _ end) as [fresh h] eqn:E.
  assert (heap_wf h ∧ heap_le (k_heap k) h) as Hh.
  { destruct (_ !! uaddr); simplify_eq; [split; [by apply kw_heap|done]|].
    eapply new_notify_wf; [done|by apply kw_heap]. }
  simpl in H. injection H as <- <- <-.
  apply kern_wf_set_ps; [by apply kern_wf_set_heap|]. intros []. split; try done. by apply register_counts.
Qed.

Lemma notify_iter_wf n loc h :
  heap_wf h → heap_wf (Nat.iter n (λ h, notify_one h loc) h) ∧
              heap_le h (Nat.iter n (λ h, notify_one h loc) h).
Proof.
  intros Hh. induction n as [|n [IH1 IH2]]; [done|]. simpl.
  destruct (notify_one_wf _ loc IH1) as [? ?]. split; [done|by etransitivity].
Qed.

Lemma futex_wake_wf k uaddr val : kern_wf k → kern_wf (futex_wake k uaddr val).2.
Proof.
  intros Hk. unfold futex_wake.
  pose proof (wake_counts_ok _ uaddr val (po_futex _ (kw_ps _ Hk))) as Hw.
  destruct (wake _ _ _) as [[[n w]|] t]; [|done]. simpl.
  apply kern_wf_set_heap; [|apply notify_iter_wf; by apply kw_heap].
  apply kern_wf_set_ps; [done|]. intros []. split; try done. apply Hw.
Qed.

Lemma futex_preserves park :
  (∀ k n d ev k', kern_wf k → park k n d = Some (ev, k') → kern_wf k') → PreservesOut (futex (W:=W) park).
Proof.
  intros Hpark k a r k' Hk. unfold futex. destruct (u32_try_from _); [|by intros [= <- <-]].
  case_if; [by intros [= <- <-]|]. case_if.
  - unfold futex_wait. destruct (futex_wait_begin _ _ _ _) as [[[n d] kw]|e] eqn:E; [|by intros [= <- <-]].
    apply futex_wait_begin_wf in E; [|done]. destruct (park kw n d) as [[ev kw']|] eqn:Ep; [|done].
    apply Hpark in Ep; [|done]. assert (kern_wf (sys_release_waiter kw' z)) as Hr.
    { apply kern_wf_set_ps; [done|]. intros []. split; try done. by apply release_counts. }
    destruct d, ev; by intros [= <- <-] _.
  - case_if; [|by intros [= <- <-]]. intros Hr _. pose proof (futex_wake_wf k z (as_i32 (a2 a)) Hk) as Hw.
    injection Hr as Hr. by rewrite Hr in Hw.
Qed.

(** ** The threads of a process

    A process as its futex operations: the state a syscall runs on and the
    addresses on which threads sleep. A sleeper resumes at any time, because
    it was notified or because its timeout expired; any other step of a thread
    keeps the futex table. *)

Abbreviation process := (kern W * list Z)%type.

Inductive futex_step : process → process → Prop :=
  | fs_sleep k s uaddr val tp n d k' :
      futex_wait_begin k uaddr val tp = Ok (n, d, k') → futex_step (k, s) (k', uaddr :: s)
  | fs_resume k s s1 uaddr s2 :
      s = s1 ++ uaddr :: s2 → futex_step (k, s) (sys_release_waiter k uaddr, s1 ++ s2)
  | fs_wake k s uaddr val :
      futex_step (k, s) ((futex_wake k uaddr val).2, s)
  | fs_other k s k' :
      futex_table (k_ps k') = futex_table (k_ps k) → futex_step (k, s) (k', s).

(** How many threads sleep on an address. *)
Definition sleeping (s : list Z) (uaddr : Z) : Z := Z.of_nat (length (filter (.= uaddr) s)).

Definition futex_inv (p : process) : Prop :=
  counts_ok (futex_table (k_ps p.1)) ∧
  ∀ a, waiting (futex_table (k_ps p.1)) a ≤ sleeping p.2 a.

Lemma sleeping_cons x s a :
  sleeping (x :: s) a = (if bool_decide (x = a) then 1 else 0) + sleeping s a.
Proof. unfold sleeping. rewrite filter_cons. case_decide; case_bool_decide; simpl; naive_solver lia. Qed.

Lemma sleeping_app s1 s2 a : sleeping (s1 ++ s2) a = sleeping s1 a + sleeping s2 a.
Proof. unfold sleeping. rewrite filter_app, length_app. lia. Qed.

Lemma register_waiting t fresh uaddr a :
  waiting (register t fresh uaddr).2 a =
  if bool_decide (uaddr = a) then as_usize (waiting t a + 1) else waiting t a.
Proof.
  unfold waiting, register. simpl. case_bool_decide as E.
  - subst. rewrite lookup_insert_eq. simpl. by destruct (t !! a).
  - by rewrite lookup_insert_ne by done.
Qed.

Lemma waiting_range t a : counts_ok t → is_u 64 (waiting t a).
Proof. intros Ht. unfold waiting. destruct (t !! a) eqn:E; [by apply Ht in E|done]. Qed.

Lemma release_waiting t uaddr a :
  waiting (release_waiter t uaddr) a =
  if bool_decide (a = uaddr) then Z.max (waiting t a - 1) 0 else waiting t a.
Proof.
  unfold release_waiter. destruct (t !! uaddr) as [e|] eqn:E.
  - rewrite waiting_dec. unfold saturating_sub_usize. case_bool_decide; [|done]. subst.
    unfold waiting. by rewrite E.
  - case_bool_decide; [|done]. subst. unfold waiting. by rewrite E.
Qed.

Lemma futex_step_inv p p' : futex_step p p' → futex_inv p → futex_inv p'.
Proof.
  intros [k s uaddr val tp n d k' Hb|k s s1 uaddr s2 ->|k s uaddr val|k s k' Ht] [Hwf Hle]; simpl in *.
  - apply futex_wait_begin_Ok in Hb as (_ & _ & fresh & Hr).
    assert (futex_table (k_ps k') = (register (futex_table (k_ps k)) fresh uaddr).2) as Ht
      by by rewrite <- Hr.
    split; simpl; rewrite Ht; [by apply register_counts|]. intros a.
    rewrite register_waiting, sleeping_cons. specialize (Hle a). pose proof (waiting_range _ a Hwf) as [? _].
    case_bool_decide; [|lia]. unfold as_usize, wrapu.
    pose proof (Z.mod_le (waiting (futex_table (k_ps k)) a + 1) (2 ^ 64)). lia.
  - split; simpl; [by apply release_counts|]. intros a. rewrite release_waiting.
    specialize (Hle a). rewrite sleeping_app, sleeping_cons in Hle. rewrite sleeping_app.
    unfold sleeping in *. repeat case_bool_decide; try congruence; lia.
  - destruct (futex_wake_table k uaddr val) as [Ht _]. pose proof (wake_counts_ok _ uaddr val Hwf) as Hw. split; simpl; rewrite Ht.
    { destruct (wake _ _ _) as [[[? ?]|] ?]; [apply Hw|by subst]. }
    intros a. rewrite wake_waiting. specialize (Hle a). case_bool_decide; [|done]. subst.
    unfold wake. destruct (futex_table (k_ps k) !! uaddr) as [e|] eqn:E; simpl; [|lia].
    apply Hwf in E. unfold is_u in E. lia.
  - split; simpl; by rewrite Ht.
Qed.

Lemma futex_reachable_inv p0 p : futex_inv p0 → rtc futex_step p0 p → futex_inv p.
Proof. intros H0 Hs. induction Hs; eauto using futex_step_inv. Qed.

End facts.

(** ** Theorems *)

(** C16: over any interleaving of sleeps, resumptions, timeouts and wakes of
    the threads of a process, the table never counts more waiters on an
    address than there are threads asleep on it, so [FUTEX_WAKE] reports at
    most [val] threads and at most those that were asleep. *)
Theorem futex_wake_bounded {W} (k0 k : kern W) s uaddr val :
  futex_table (k_ps k0) = ∅ → rtc futex_step (k0, []) (k, s) →
  (∀ a, waiting (futex_table (k_ps k)) a ≤ sleeping s a) ∧
  0 ≤ (futex_wake k uaddr val).1 ≤ Z.min (Z.max val 0) (sleeping s uaddr).
Proof.
  intros H0 Hs. destruct (futex_reachable_inv (k0, []) (k, s)) as [Hwf Hle]; simpl in *.
  - split; simpl; rewrite H0; [by intros ? ? ?%lookup_empty_Some|].
    intros a. unfold waiting. by rewrite lookup_empty.
  - done.
  - split; [done|]. destruct (futex_wake_table k uaddr val) as [_ ->].
    specialize (Hle uaddr). unfold waiting in Hle. unfold wake.
    destruct (futex_table (k_ps k) !! uaddr) as [e|] eqn:E; simpl; [|lia].
    apply Hwf in E. unfold is_u in E. lia.
Qed.

(** [FUTEX_WAIT] on a matching word sleeps with the caller counted in
    once and, when nobody touched the table meanwhile, counts it out again on
    every way back: 0 after a notification, [-ETIMEDOUT] when there is a
    timeout and it expired, and every count as it was before the call; for a
    count below [usize::MAX]. *)
Theorem futex_wait_balanced {W} park (k k1 k2 : kern W) uaddr val tp n d ev :
  table_wf (futex_table (k_ps k)) → is_u 32 uaddr → uaddr ≠ INVALID_FUTEX_ADDR →
  futex_wait_begin k uaddr val tp = Ok (n, d, k1) → park k1 n d = Some (ev, k2) →
  futex_table (k_ps k2) = futex_table (k_ps k1) → waiting (futex_table (k_ps k)) uaddr < U64_MAX →
  ∃ k', futex park k (Args uaddr 0 val tp 0 0)
      = Return (match ev with TimedOut => if tp =? 0 then 0 else - ETIMEDOUT | Notified => 0 end, k') ∧
    waiting (futex_table (k_ps k1)) uaddr = waiting (futex_table (k_ps k)) uaddr + 1 ∧
    ∀ a, waiting (futex_table (k_ps k')) a = waiting (futex_table (k_ps k)) a.
Proof.
  intros Hwf Hu Hinv Hb Hp Ht Hmax. assert (0 ≤ waiting (futex_table (k_ps k)) uaddr) as H0.
  { unfold waiting. destruct (_ !! uaddr) eqn:E; [apply Hwf in E|]; lia. }
  assert (as_usize (waiting (futex_table (k_ps k)) uaddr + 1) = waiting (futex_table (k_ps k)) uaddr + 1) as Hs.
  { apply wrapu_id. unfold is_u, U64_MAX in *. lia. }
  unfold futex. simpl. rewrite u32_try_from_id by done.
  rewrite (proj2 (Z.eqb_neq _ _)) by done. unfold futex_wait. rewrite Hb, Hp.
  pose proof (futex_wait_begin_Ok _ _ _ _ _ _ _ Hb) as (_ & Hd & fresh & Hr).
  assert (futex_table (k_ps k1) = (register (futex_table (k_ps k)) fresh uaddr).2) as Ht1
    by by rewrite <- Hr.
  exists (sys_release_waiter k2 uaddr). split_and!.
  - destruct (tp =? 0) eqn:E; to_prop.
    + rewrite (proj1 Hd E). by destruct ev.
    + destruct d; [by destruct ev|]. by destruct E, Hd; auto.
  - rewrite Ht1, register_waiting. by rewrite bool_decide_true, Hs.
  - intros a. simpl. rewrite Ht, Ht1, release_waiting, register_waiting.
    case_bool_decide as Ha.
    + subst. rewrite bool_decide_true, Hs by done. lia.
    + by rewrite bool_decide_false by congruence.
Qed.

(** ** Witnesses *)

(** Two sleepers on address 64 (the memory is zero, so the word matches 0). *)
Definition slept_kern : kern NullHost :=
  match futex_wait_begin sample_kern 64 0 0 with
  | Ok (_, _, k1) => match futex_wait_begin k1 64 0 0 with Ok (_, _, k2) => k2 | Err _ => k1 end
  | Err _ => sample_kern
  end.

Lemma slept_reachable : rtc futex_step (sample_kern, []) (slept_kern, [64; 64]).
Proof.
  unfold slept_kern. destruct (futex_wait_begin sample_kern 64 0 0) as [[[n1 d1] k1]|] eqn:E1.
  2:{ exfalso. revert E1. by vm_compute. }
  destruct (futex_wait_begin k1 64 0 0) as [[[n2 d2] k2]|] eqn:E2.
  2:{ exfalso. revert E2. injection E1 as _ _ <-. by vm_compute. }
  eapply rtc_l; [by eapply fs_sleep|]. eapply rtc_l; [by eapply fs_sleep|]. apply rtc_refl.
Qed.

Lemma futex_wake_bounded_witness :
  (∀ a, waiting (futex_table (k_ps slept_kern)) a ≤ sleeping [64; 64] a) ∧
  0 ≤ (futex_wake slept_kern 64 9).1 ≤ 2.
Proof.
  apply (futex_wake_bounded sample_kern slept_kern [64; 64] 64 9).
  - reflexivity.
  - apply slept_reachable.
Defined.

Lemma futex_wait_balanced_witness :
  ∃ k1 k', futex_wait_begin sample_kern 64 0 0 = Ok (next_loc (k_heap sample_kern), None, k1) ∧
    futex (λ k _ _, Some (Notified, k)) sample_kern (Args 64 0 0 0 0 0) = Return (0, k') ∧
    waiting (futex_table (k_ps k1)) 64 = waiting (futex_table (k_ps sample_kern)) 64 + 1 ∧
    ∀ a, waiting (futex_table (k_ps k')) a = waiting (futex_table (k_ps sample_kern)) a.
Proof.
  destruct (futex_wait_begin sample_kern 64 0 0) as [[[n d] k1]|] eqn:E; [|exfalso; revert E; by vm_compute].
  assert (Hn : n = next_loc (k_heap sample_kern) ∧ d = None) by (injection E as <- <- _; by vm_compute).
  destruct Hn as [-> ->].
  destruct (futex_wait_balanced (λ k _ _, Some (Notified, k)) sample_kern k1 k1 64 0 0
    (next_loc (k_heap sample_kern)) None Notified) as (k' & Hf & Hw & Hall).
  - intros a e Ha. simpl in Ha. by apply lookup_empty_Some in Ha.
  - unfold is_u. lia.
  - done.
  - exact E.
  - reflexivity.
  - reflexivity.
  - by vm_compute.
  - exists k1, k'. by split_and!.
Defined.

(** A timeout of more than [u64::MAX] nanoseconds with a non-zero fraction
    saturates and then wraps: here to 4 nanoseconds. *)
Lemma timespec_wraps :
  decode_timespec (mem_put sample_kern 64 (to_le_bytes 8 (2 ^ 40) ++ to_le_bytes 8 5)) 64 = Ok 4.
Proof. vm_compute. reflexivity. Qed.
