(* ===== verification/SysProcess.v ===== *)
(** * Process syscalls (src/sys/process.rs)

    Exit, identity, [clone] and [fork] (which register a child without
    running it), [wait4], [prctl], [kill] and [tgkill], and what a child
    thread does to its parent's table when it ends.

    Two things the code leaves to its environment are parameters. [order] is
    the iteration order of the children's hash map. A blocked [wait4] hands
    the processor to the other threads: its [schedule] lists what they do to
    the state, step by step. It is resumed by a step that fires the [Notify]
    it is parked on, and by nothing else; one that is still parked when its
    schedule is used up never returns. Other threads act at the points where
    the code awaits, not between its check of the table and its sleep. *)

From S2P Require Import Prelude Word Errno GuestMem Text Path Host Vfs Fd Futex Kernel KernInv.

Definition WNOHANG : Z := 64.
Definition WUNTRACED : Z := 2.
Definition WCONTINUED : Z := 8.
Definition WAIT4_SUPPORTED_V1 : Z := WNOHANG.
Definition CLONE_CHILD_SETTID : Z := 16777216.
Definition CLONE_PARENT_SETTID : Z := 134217728.
Definition CLONE_VM : Z := 256.
Definition CLONE_THREAD : Z := 65536.
Definition CLONE_SUPPORTED_V2 : Z :=
  Z.lor (Z.lor CLONE_CHILD_SETTID CLONE_PARENT_SETTID) (Z.lor CLONE_VM CLONE_THREAD).
Definition PR_SET_NAME : Z := 15.
Definition PR_GET_NAME : Z := 16.
Definition PR_GET_DUMPABLE : Z := 3.
Definition PR_SET_DUMPABLE : Z := 4.
Definition PR_GET_NO_NEW_PRIVS : Z := 39.
Definition PR_SET_NO_NEW_PRIVS : Z := 38.

Abbreviation child_table := (gmap Z ChildExitStatus).

(** [ChildExitStatus::new] and [ChildExitStatus::reaped], with the location of
    their [Notify]. *)
Definition ChildExitStatus_new (code notify : Z) : ChildExitStatus := MkChild code false notify.
Definition ChildExitStatus_reaped (code notify : Z) : ChildExitStatus := MkChild code true notify.

Definition mark_exited (c : ChildExitStatus) : ChildExitStatus :=
  MkChild (exit_status c) true (child_notify c).

Definition set_children (ps : ProcessState) x : ProcessState :=
  MkProcess (next_pid ps) x (child_event ps) (futex_table ps) (signals_pending ps)
    (tgid_registry ps) (ps_tgid ps) (resolver ps).
Definition set_next_pid (ps : ProcessState) x : ProcessState :=
  MkProcess x (children ps) (child_event ps) (futex_table ps) (signals_pending ps)
    (tgid_registry ps) (ps_tgid ps) (resolver ps).
Definition set_signals_pending (ps : ProcessState) x : ProcessState :=
  MkProcess (next_pid ps) (children ps) (child_event ps) (futex_table ps) x
    (tgid_registry ps) (ps_tgid ps) (resolver ps).
Definition set_tgid_registry (ps : ProcessState) x : ProcessState :=
  MkProcess (next_pid ps) (children ps) (child_event ps) (futex_table ps) (signals_pending ps)
    x (ps_tgid ps) (resolver ps).

(** Fire a list of [Notify]s. *)
Definition notify_all (h : heap) (l : list Z) : heap := foldl notify_waiters h l.

Section syscalls.
Context {W : Type}.
Context (order : child_table → list (Z * ChildExitStatus)).
Implicit Types k : kern W.

(** ** Exit *)

Definition reap_all_children k : kern W :=
  let cs := children (k_ps k) in
  let drained := (λ e, child_notify e.2) <$> order cs in
  let k := set_ps k (set_children (k_ps k) (mark_exited <$> cs)) in
  set_heap k (notify_waiters (notify_all (k_heap k) drained) (child_event (k_ps k))).

Definition exit k (a : args) : Z * kern W :=
  (0, reap_all_children (set_exit_code k (Some (as_i32 (a0 a))))).

Definition exit_group k (a : args) : Z * kern W :=
  (0, reap_all_children (set_exit_code k (Some (as_i32 (a0 a))))).

(** ** Identity *)

Definition getpid k (_ : args) : Z * kern W := (k_tgid k, k).
Definition gettid k (_ : args) : Z * kern W := (k_tid k, k).
Definition set_tid_address k (_ : args) : Z * kern W := (k_tid k, k).
Definition set_robust_list : Z := 0.

(** ** clone and fork *)

(** [next_pid.fetch_add(1)], an [i32]. *)
Definition alloc_pid k : Z * kern W :=
  let pid := next_pid (k_ps k) in
  (pid, set_ps k (set_next_pid (k_ps k) (as_i32 (pid + 1)))).

Definition register_tid k (tid : Z) : kern W :=
  set_ps k (set_tgid_registry (k_ps k) ({[tid]} ∪ tgid_registry (k_ps k))).

(** Write a 4-byte value through the memory handle. *)
Definition write_i32_via (m : gmem) k (ptr v : Z) : result (kern W) :=
  p <-? guest_slice_mut_via m ptr 4;
  Ok (mem_put k p (to_le_bytes 4 v)).

Definition clone_syscall k (a : args) : Z * kern W :=
  let flags := a0 a in
  let ptid_ptr := a2 a in
  let ctid_ptr := a3 a in
  if negb (Z.land flags (Z.lnot CLONE_SUPPORTED_V2) =? 0) then (- EINVAL, k)
  else if Z.land flags (Z.lor CLONE_CHILD_SETTID CLONE_PARENT_SETTID) =? 0 then (- EINVAL, k)
  else
    let '(child_tid, k) := alloc_pid k in
    let k := register_tid k child_tid in
    let! m := memory k on k;
    let! kw := (if has flags CLONE_PARENT_SETTID then write_i32_via m k ptid_ptr child_tid else Ok k) on k;
    let! kw' := (if has flags CLONE_CHILD_SETTID then write_i32_via m kw ctid_ptr child_tid else Ok kw) on kw;
    (child_tid, kw').

Definition fork_syscall k (_ : args) : Z * kern W :=
  let '(child_pid, k) := alloc_pid k in
  let '(n, h) := new_notify (k_heap k) in
  let k := set_heap k h in
  let k := set_ps k (set_children (k_ps k)
             (<[child_pid := ChildExitStatus_new 0 n]> (children (k_ps k)))) in
  (child_pid, register_tid k child_pid).

Definition sched_yield : Z := 0.

(** ** wait4 *)

Definition try_reap k (pid : Z) : option (Z * Z * kern W) :=
  let cs := children (k_ps k) in
  let picked :=
    if 0 <? pid then
      let p := as_i32 pid in
      if match cs !! p with Some c => exited c | None => false end then Some p else None
    else fst <$> (snd <$> list_find (λ e, exited e.2 = true) (order cs)) in
  p ← picked;
  c ← cs !! p;
  Some (p, exit_status c, set_ps k (set_children (k_ps k) (delete p cs))).

Definition write_wstatus_and_return k (picked exit_code wstatus_ptr : Z) : Z * kern W :=
  let wstatus := Z.shiftl (Z.land exit_code 255) 8 in
  if wstatus_ptr =? 0 then (picked, k)
  else
    let! m := memory k on k;
    let! kw := write_i32_via m k wstatus_ptr wstatus on k;
    (picked, kw).

(** The [Notify] a sleeping [wait4] is parked on: the child's own, or the
    process-wide one when there is no such child or any child will do. *)
Definition wait_notify k (pid : Z) : Z :=
  if 0 <? pid then
    match children (k_ps k) !! as_i32 pid with
    | Some c => child_notify c
    | None => child_event (k_ps k)
    end
  else child_event (k_ps k).

(** The parked loop, asleep on [Notify] [n]: each entry of [schedule] is what
    the other threads do until the next moment this one could run. It does run
    only if they fired [n]; then it tries to reap, and parks again, on the
    [Notify] the table names by then, when there is nothing to reap. *)
Fixpoint wait_loop (schedule : list (kern W → kern W)) (n : Z) k (pid wstatus_ptr : Z) : outcome (Z * kern W) :=
  match schedule with
  | [] => Hang
  | others :: schedule =>
    let k' := others k in
    if fired [n] (k_heap k) (k_heap k') then
      match try_reap k' pid with
      | Some (p, code, kw) => Return (write_wstatus_and_return kw p code wstatus_ptr)
      | None => wait_loop schedule (wait_notify k' pid) k' pid wstatus_ptr
      end
    else wait_loop schedule n k' pid wstatus_ptr
  end.

Definition wait4_syscall (schedule : list (kern W → kern W)) k (a : args) : outcome (Z * kern W) :=
  let pid := a0 a in
  let wstatus_ptr := a1 a in
  let options := as_i32 (a2 a) in
  let wnohang := has options WNOHANG in
  if negb (Z.land options (Z.lnot WAIT4_SUPPORTED_V1) =? 0) then Return (- EINVAL, k)
  else if pid <? -1 then Return (- EINVAL, k)
  else if bool_decide (children (k_ps k) = ∅) then Return (- ECHILD, k)
  else match try_reap k pid with
  | Some (p, code, kw) => Return (write_wstatus_and_return kw p code wstatus_ptr)
  | None =>
    if wnohang then Return (0, k)
    else if (0 <? pid) && bool_decide (children (k_ps k) !! as_i32 pid = None)
    then Return (- ECHILD, k)
    else wait_loop schedule (wait_notify k pid) k pid wstatus_ptr
  end.

(** ** Scheduling, names, signals *)

Definition sched_getaffinity k (a : args) : Z * kern W :=
  let pid := a0 a in
  if negb (pid =? 0) && negb (pid =? 1) then (- ESRCH, k)
  else
    let to_write := Z.max (Z.min (a1 a) 8) 0 in
    if to_write =? 0 then (- EINVAL, k)
    else
      let! kw := guest_write k (a2 a) (1 :: replicate (Z.to_nat to_write - 1) 0) on k;
      (to_write, kw).

(** The name up to its NUL, padded with zeros to 16 bytes. *)
Definition comm_of (bs : bytes) : bytes :=
  let nlen := default 16%nat (position (λ b, b =? 0) bs) in
  take nlen bs ++ replicate (16 - nlen) 0.

Definition prctl k (a : args) : Z * kern W :=
  let option := as_i32 (a0 a) in
  let arg2 := a1 a in
  if option =? PR_SET_NAME then
    if arg2 =? 0 then (- EINVAL, k)
    else
      let! bs := guest_slice k arg2 16 on k;
      (0, set_comm k (comm_of bs))
  else if option =? PR_GET_NAME then
    if arg2 =? 0 then (- EINVAL, k)
    else
      let! p := guest_slice_mut k arg2 16 on k;
      (0, mem_put k p (k_comm k))
  else if option =? PR_GET_DUMPABLE then (0, k)
  else if option =? PR_SET_DUMPABLE then (0, k)
  else if option =? PR_GET_NO_NEW_PRIVS then (1, k)
  else if option =? PR_SET_NO_NEW_PRIVS then (0, k)
  else (- EINVAL, k).

Definition push_signal k (sig : Z) : kern W :=
  set_ps k (set_signals_pending (k_ps k) (signals_pending (k_ps k) ++ [as_i32 sig])).

Definition kill k (a : args) : Z * kern W :=
  let pid := a0 a in
  let sig := a1 a in
  if negb ((0 <=? sig) && (sig <=? 64)) then (- EINVAL, k)
  else if pid <? -1 then (- EINVAL, k)
  else if pid =? 0 then
    if negb (k_tgid k =? ps_tgid (k_ps k)) then (- ESRCH, k) else (0, push_signal k sig)
  else if 0 <? pid then
    if negb (as_i32 pid =? k_tgid k) then (- ESRCH, k) else (0, push_signal k sig)
  else (- EINVAL, k).

Definition tgkill k (a : args) : Z * kern W :=
  let sig := a2 a in
  if negb ((0 <=? sig) && (sig <=? 64)) then (- EINVAL, k)
  else
    let tgid := if a0 a =? 0 then k_tgid k else a0 a in
    let tid := if a1 a =? 0 then k_tid k else a1 a in
    if negb (as_i32 tgid =? k_tgid k) then (- ESRCH, k)
    else if negb (bool_decide (as_i32 tid ∈ tgid_registry (k_ps k))) then (- ESRCH, k)
    else (0, push_signal k sig).

End syscalls.

(** ** The end of a child thread

    These run on the child's thread and reach the parent through the shared
    children table and the parent's [child_event]. *)

(** The exit code reported for a child: what [_start] returned; after a trap
    the code it had passed to [exit], or 139. *)
Definition child_exit_code (start_result : option Z) (exit_code : option Z) : Z :=
  match start_result with
  | Some code => code
  | None => default 139 exit_code
  end.

(** The tail of [run_child], after [_start]. *)
Definition run_child_finish (cs : child_table) (h : heap) (child_event child_pid : Z)
    (start_result exit_code : option Z) : child_table * heap :=
  let '(n, h) := new_notify h in
  let cs := <[child_pid := ChildExitStatus_new 0 n]> cs in
  let code := child_exit_code start_result exit_code in
  match cs !! child_pid with
  | Some entry =>
    (<[child_pid := MkChild code true (child_notify entry)]> cs,
     notify_waiters (notify_waiters h (child_notify entry)) child_event)
  | None => (cs, notify_waiters h child_event)
  end.

(** [register_and_signal]: the child could not be started. *)
Definition register_and_signal (cs : child_table) (h : heap) (child_event child_pid code : Z)
    : child_table * heap :=
  match cs !! child_pid with
  | Some entry => (<[child_pid := MkChild code true (child_notify entry)]> cs,
                   notify_waiters h child_event)
  | None =>
    let '(n, h) := new_notify h in
    (<[child_pid := ChildExitStatus_reaped code n]> cs, notify_waiters h child_event)
  end.

(** ** Facts *)

Section facts.
Context {W : Type}.
Context (order : child_table → list (Z * ChildExitStatus)).
Context (order_perm : ∀ cs, order cs ≡ₚ map_to_list cs).
Implicit Types k : kern W.

(** Does [wait4(pid)] ask for child [p]? *)
Definition wanted (pid p : Z) : Prop := 0 < pid → p = as_i32 pid.

(** A child [wait4(pid)] can reap now. *)
Definition reapable k (pid p : Z) (c : ChildExitStatus) : Prop :=
  children (k_ps k) !! p = Some c ∧ exited c = true ∧ wanted pid p.

Lemma try_reap_Some k pid p code k' :
  try_reap order k pid = Some (p, code, k') →
  ∃ c, reapable k pid p c ∧ code = exit_status c ∧
       k' = set_ps k (set_children (k_ps k) (delete p (children (k_ps k)))).
Proof using order_perm.
  unfold try_reap. intros (p' & Hp & (c & Hc & [= -> <- <-])%bind_Some)%bind_Some.
  exists c. split; [|done]. destruct (0 <? pid) eqn:E; to_prop.
  - destruct (children (k_ps k) !! as_i32 pid) as [c'|] eqn:Hc'; simpl in Hp; [|done].
    destruct (exited c') eqn:He; [|done]. injection Hp as <-. by simplify_eq.
  - apply fmap_Some in Hp as ([p' c'] & (q & Hq & ->)%fmap_Some & Hp). simpl in Hp. subst.
    destruct q as [i [p1 c1]]. apply list_find_Some in Hq as (Hi & He & _). simpl in *.
    apply list_elem_of_lookup_2 in Hi. rewrite order_perm in Hi. apply elem_of_map_to_list in Hi.
    simplify_eq. split_and!; [done|done|]. unfold wanted. lia.
Qed.

Lemma try_reap_None k pid : try_reap order k pid = None ↔ ∀ p c, ¬ reapable k pid p c.
Proof using order_perm.
  split.
  - unfold try_reap. intros Hn p c (Hc & He & Hw). destruct (0 <? pid) eqn:E; to_prop.
    + specialize (Hw E). subst. rewrite Hc, He in Hn. simpl in Hn. by rewrite Hc in Hn.
    + destruct (list_find _ (order (children (k_ps k)))) as [[i [p1 c1]]|] eqn:Hf; simpl in Hn.
      * apply list_find_Some in Hf as (Hi & _ & _). apply list_elem_of_lookup_2 in Hi.
        rewrite order_perm in Hi. apply elem_of_map_to_list in Hi. by rewrite Hi in Hn.
      * apply list_find_None in Hf. rewrite Forall_forall in Hf. apply (Hf (p, c)); [|done].
        rewrite order_perm. by apply elem_of_map_to_list.
  - intros Hno. destruct (try_reap order k pid) as [[[p code] k']|] eqn:E; [|done].
    apply try_reap_Some in E as (c & Hc & _). by destruct (Hno p c).
Qed.

(** The status word of a reaped child, where a non-null writable pointer asks
    for it. *)
Lemma write_wstatus_Ok k p code ptr :
  ptr = 0 ∨ in_memory k ptr 4 →
  ∃ k', write_wstatus_and_return k p code ptr = (p, k') ∧ k_ps k' = k_ps k ∧
    (ptr ≠ 0 → guest_slice k' ptr 4 = Ok (to_le_bytes 4 (Z.shiftl (Z.land code 255) 8))).
Proof.
  intros Hp. unfold write_wstatus_and_return. destruct (ptr =? 0) eqn:E; to_prop.
  { by exists k. }
  destruct Hp as [|Hin]; [done|]. pose proof Hin as (m & Hm & _).
  pose proof (proj2 (memory_Ok k m) Hm) as Hmem. rewrite Hmem. unfold write_i32_via.
  rewrite (proj2 (guest_slice_mut_via_Ok k m ptr 4 ptr Hmem)) by done. simpl result_bind. cbv iota.
  eexists. split; [done|]. split; [unfold mem_put; by rewrite Hm|]. intros _.
  by apply (guest_slice_put_same k ptr (to_le_bytes 4 (Z.shiftl (Z.land code 255) 8))).
Qed.

(** ** Freshness of process ids *)

Record ps_wf (ps : ProcessState) : Prop := {
  pw_next : 2 ≤ next_pid ps;
  pw_children p : is_Some (children ps !! p) → 2 ≤ p < next_pid ps;
  pw_registry t : t ∈ tgid_registry ps → t < next_pid ps;
}.

Lemma fork_spec k a :
  ps_wf (k_ps k) → next_pid (k_ps k) < 2 ^ 31 - 1 →
  let r := next_pid (k_ps k) in
  ∃ k', fork_syscall k a = (r, k') ∧ 2 ≤ r ∧
    children (k_ps k) !! r = None ∧ r ∉ tgid_registry (k_ps k) ∧
    children (k_ps k') = <[r := ChildExitStatus_new 0 (next_loc (k_heap k))]> (children (k_ps k)) ∧
    tgid_registry (k_ps k') = {[r]} ∪ tgid_registry (k_ps k) ∧
    ps_wf (k_ps k').
Proof.
  intros [Hn Hc Hr] Hmax r. subst r. unfold fork_syscall. simpl. eexists. split; [done|].
  assert (as_i32 (next_pid (k_ps k) + 1) = next_pid (k_ps k) + 1) as Hi.
  { apply wraps_id; [lia|]. unfold is_i. lia. }
  split_and!; [done| | |done|done|].
  - apply eq_None_not_Some. intros Hs%Hc. lia.
  - intros Hin%Hr. lia.
  - split; simpl; rewrite Hi; [lia| |].
    + intros p. rewrite lookup_insert_is_Some'. intros [<-|Hs]; [lia|]. apply Hc in Hs. lia.
    + intros t. rewrite elem_of_union, elem_of_singleton. intros [->|Hin]; [lia|]. apply Hr in Hin. lia.
Qed.

(** ** Blocking waits *)

(** A [wait4(pid)] made in [k] has to sleep, on [Notify] [n]: a wanted child
    is there and none has exited. *)
Definition waits_on k (pid n : Z) : Prop :=
  (∃ p c, children (k_ps k) !! p = Some c ∧ wanted pid p) ∧
  (∀ p c, ¬ reapable k pid p c) ∧ wait_notify k pid = n.

(** Sleeping through states in which it would sleep on the same [Notify]
    leaves it parked there, whether it is woken or not. *)
Lemma wait_loop_sleeps sleeps schedule n k pid ptr :
  (∀ i, (i ≤ length sleeps)%nat → waits_on (foldl (λ k f, f k) k (take i sleeps)) pid n) →
  wait_loop order (sleeps ++ schedule) n k pid ptr =
  wait_loop order schedule n (foldl (λ k f, f k) k sleeps) pid ptr.
Proof using order_perm.
  revert k. induction sleeps as [|f sleeps IH]; intros k Hw; [done|].
  assert (∀ i, (i ≤ length sleeps)%nat → waits_on (foldl (λ k f, f k) (f k) (take i sleeps)) pid n) as Hw'.
  { intros i Hi. apply (Hw (S i)). simpl. lia. }
  destruct (Hw' 0%nat ltac:(lia)) as (_ & Hno & Hn). simpl in Hno, Hn. simpl.
  rewrite (proj2 (try_reap_None (f k) pid) Hno), Hn. case_match; by apply IH.
Qed.

(** It never ends when no wanted child ever has. *)
Lemma wait_loop_hangs schedule n k pid ptr :
  (∀ i, (i < length schedule)%nat →
     ∀ p c, ¬ reapable (foldl (λ k f, f k) k (take (S i) schedule)) pid p c) →
  wait_loop order schedule n k pid ptr = Hang.
Proof using order_perm.
  revert n k. induction schedule as [|g schedule IH]; intros n k Hno; [done|]. simpl.
  assert (try_reap order (g k) pid = None) as ->.
  { apply try_reap_None. apply (Hno 0%nat). simpl. lia. }
  case_match; apply IH; intros i Hi; apply (Hno (S i)); simpl; lia.
Qed.

(** A [wait4] with nothing to reap goes to sleep. *)
Lemma wait4_parks k schedule pid ptr :
  -1 ≤ pid → waits_on k pid (wait_notify k pid) →
  wait4_syscall order schedule k (Args pid ptr 0 0 0 0) =
  wait_loop order schedule (wait_notify k pid) k pid ptr.
Proof using order_perm.
  intros Hpid ((p & c & Hc & Hw) & Hno & _). unfold wait4_syscall. simpl a0. simpl a1. simpl a2.
  rewrite (proj2 (Z.ltb_ge _ _)) by lia.
  rewrite bool_decide_false by (intros E; by rewrite E, lookup_empty in Hc).
  rewrite (proj2 (try_reap_None k pid) Hno). simpl (negb _). simpl (has _ _). cbv iota.
  destruct (0 <? pid) eqn:E; [|done]. to_prop. rewrite bool_decide_false; [done|].
  rewrite <- Hw by done. by rewrite Hc.
Qed.

(** After an exit every wanted child can be reaped. *)
Lemma exit_reapable k pid a :
  (∃ p c, children (k_ps k) !! p = Some c ∧ wanted pid p) →
  ∃ p c, reapable (exit order k a).2 pid p c.
Proof.
  intros (p & c & Hc & Hw). exists p, (mark_exited c). split; [|done]. simpl. by rewrite lookup_fmap, Hc.
Qed.

Lemma wakes_notify_all h l : wakes (notify_all h l) = wakes h ++ (NotifyWaiters <$> l).
Proof.
  unfold notify_all. revert h. induction l as [|x l IH]; intros h; simpl; [by rewrite app_nil_r|].
  rewrite IH. simpl. by rewrite <- app_assoc.
Qed.

(** The end of a process fires the [Notify] of every child and the
    process-wide one: whichever a [wait4] is parked on. *)
Lemma exit_fires k pid a :
  fired [wait_notify k pid] (k_heap k) (k_heap (exit order k a).2) = true.
Proof using order_perm.
  simpl. unfold fired. rewrite wakes_notify_all, <- app_assoc, drop_app_length.
  simpl. rewrite orb_false_r. apply bool_decide_eq_true_2.
  unfold wait_notify. repeat case_match; try (apply elem_of_app; right; by apply list_elem_of_singleton).
  apply elem_of_app. left. apply list_elem_of_fmap_2, (list_elem_of_fmap_2 (λ e, child_notify e.2) _ (as_i32 pid, _)).
  rewrite order_perm. by apply elem_of_map_to_list.
Qed.

End facts.

(** ** Kernel invariant *)

Section invariant.
Context {W : Type}.
Context (order : child_table → list (Z * ChildExitStatus)).
Implicit Types k : kern W.

Lemma notify_all_wf h l : heap_wf h → heap_wf (notify_all h l) ∧ heap_le h (notify_all h l).
Proof.
  revert h. induction l as [|n l IH]; intros h Hh; simpl; [done|].
  destruct (notify_waiters_wf h n Hh) as [Hh1 ?]. destruct (IH _ Hh1) as [? ?].
  split; [done|by etransitivity].
Qed.

Lemma alloc_pid_wf k : kern_wf k → kern_wf (alloc_pid k).2.
Proof. intros Hk. apply kern_wf_set_ps; [done|]. intros []. split; try done. by apply wraps_range. Qed.
Lemma register_tid_wf k tid : kern_wf k → kern_wf (register_tid k tid).
Proof. intros Hk. apply kern_wf_set_ps; [done|]. intros []. by split. Qed.
Lemma push_signal_wf k sig : kern_wf k → kern_wf (push_signal k sig).
Proof. intros Hk. apply kern_wf_set_ps; [done|]. intros []. by split. Qed.

Lemma reap_all_children_wf k : kern_wf k → kern_wf (reap_all_children order k).
Proof.
  intros Hk. unfold reap_all_children. apply kern_wf_set_heap.
  { apply kern_wf_set_ps; [done|]. intros []. split; try done. simpl.
    intros pid c. rewrite lookup_fmap. intros (c' & Hc & _)%fmap_Some. by eapply po_children. }
  simpl. destruct (notify_all_wf (k_heap k) ((λ e, child_notify e.2) <$> order (children (k_ps k)))) as [H1 H2];
    [by apply kw_heap|].
  destruct (notify_waiters_wf _ (child_event (k_ps k)) H1) as [? ?]. split; [done|by etransitivity].
Qed.

#[export] Instance exit_preserves : Preserves (exit (W:=W) order).
Proof. intros k a r k' Hk [= <- <-]. by apply reap_all_children_wf, kern_wf_set_exit_code. Qed.
#[export] Instance exit_group_preserves : Preserves (exit_group (W:=W) order).
Proof. intros k a r k' Hk [= <- <-]. by apply reap_all_children_wf, kern_wf_set_exit_code. Qed.
#[export] Instance getpid_preserves : Preserves (getpid (W:=W)).
Proof. by intros k a r k' Hk [= <- <-]. Qed.
#[export] Instance gettid_preserves : Preserves (gettid (W:=W)).
Proof. by intros k a r k' Hk [= <- <-]. Qed.
#[export] Instance set_tid_address_preserves : Preserves (set_tid_address (W:=W)).
Proof. by intros k a r k' Hk [= <- <-]. Qed.

Lemma write_i32_via_wf k0 m k ptr v k' :
  memory k0 = Ok m → k_memory k = k_memory k0 ∨ (∃ p bs, k = mem_put k0 p bs) →
  kern_wf k → write_i32_via m k ptr v = Ok k' → kern_wf k'.
Proof.
  intros Hm0 Hk0 Hk. unfold write_i32_via. intros (p & Hp & [= <-])%result_bind_Ok.
  apply (guest_slice_mut_via_Ok _ _ _ _ _ Hm0) in Hp as [(m0 & Hm & ?) ->].
  apply kern_wf_mem_put; [done|]. destruct Hk0 as [He|(p & bs & ->)].
  - exists m0. by rewrite He.
  - unfold mem_put, in_memory. rewrite Hm. simpl. eexists. split; [done|]. done.
Qed.

#[export] Instance clone_preserves : Preserves (clone_syscall (W:=W)).
Proof.
  intros k a r k' Hk. unfold clone_syscall. case_if; [by intros [= <- <-]|]. case_if; [by intros [= <- <-]|].
  simpl. set (k1 := register_tid _ _). set (tid := next_pid (k_ps k)).
  assert (kern_wf k1) as Hk1 by by apply register_tid_wf, alloc_pid_wf.
  destruct (memory k1) as [m|e] eqn:Hm; [|by intros [= <- <-]].
  set (r1 := if has (a0 a) CLONE_PARENT_SETTID then _ else _).
  assert (∀ kw, r1 = Ok kw → kern_wf kw ∧ (k_memory kw = k_memory k1 ∨ ∃ p bs, kw = mem_put k1 p bs)) as Hr1.
  { intros kw. subst r1. destruct (has _ CLONE_PARENT_SETTID); [|intros [= <-]; by split; [|left]]. intros E1.
    split; [apply (write_i32_via_wf k1 m k1 _ _ _ Hm (or_introl eq_refl) Hk1 E1)|].
    unfold write_i32_via in E1. apply result_bind_Ok in E1 as (p & _ & [= <-]). eauto. }
  destruct r1 as [kw|e]; [|by intros [= <- <-]]. destruct (Hr1 kw eq_refl) as [Hkw Hd].
  destruct (has _ CLONE_CHILD_SETTID); [|by intros [= <- <-]].
  destruct (write_i32_via m kw _ _) eqn:E2; intros [= <- <-]; [by apply (write_i32_via_wf k1 m kw _ _ _ Hm Hd Hkw E2)|done].
Qed.

#[export] Instance fork_preserves : Preserves (fork_syscall (W:=W)).
Proof.
  intros k a r k' Hk [= <- <-]. apply register_tid_wf, kern_wf_set_ps.
  - apply kern_wf_set_heap; [by apply alloc_pid_wf|].
    apply (new_notify_wf (k_heap k) (next_loc (k_heap k))); [done|by apply kw_heap].
  - pose proof (po_next _ (kw_ps _ Hk)). intros []. split; try done. by apply map_Forall_insert_2.
Qed.

Lemma try_reap_wf k pid p code k' : kern_wf k → try_reap order k pid = Some (p, code, k') → kern_wf k'.
Proof.
  intros Hk. unfold try_reap. intros (x & _ & (c & _ & [= _ _ <-])%bind_Some)%bind_Some.
  apply kern_wf_set_ps; [done|]. intros []. split; try done. by apply map_Forall_delete.
Qed.

Lemma write_wstatus_wf k p code ptr r k' :
  kern_wf k → write_wstatus_and_return k p code ptr = (r, k') → kern_wf k'.
Proof.
  intros Hk. unfold write_wstatus_and_return. case_if; [by intros [= <- <-]|].
  destruct (memory k) as [m|] eqn:Hm; [|by intros [= <- <-]].
  destruct (write_i32_via _ _ _ _) eqn:E; intros [= <- <-]; [|done]. by apply (write_i32_via_wf k m k _ _ _ Hm (or_introl eq_refl) Hk E).
Qed.

Lemma wait_loop_wf schedule n k pid ptr r k' :
  Forall (λ f, ∀ k, kern_wf k → kern_wf (f k)) schedule → kern_wf k →
  wait_loop order schedule n k pid ptr = Return (r, k') → kern_wf k'.
Proof.
  intros Hs. revert n k. induction Hs as [|f schedule Hf Hs IH]; intros n k Hk; simpl; [done|].
  case_if; [|by eauto].
  destruct (try_reap order (f k) pid) as [[[p code] kw]|] eqn:E; [|by eauto].
  intros Hr. injection Hr as Hr. eapply write_wstatus_wf; [|done]. eapply try_reap_wf; [|done]. auto.
Qed.

Lemma wait4_preserves schedule :
  Forall (λ f, ∀ k, kern_wf k → kern_wf (f k)) schedule → PreservesOut (wait4_syscall (W:=W) order schedule).
Proof.
  intros Hs k a r k' Hk. unfold wait4_syscall. repeat (case_if; [by intros [= <- <-]|]).
  destruct (try_reap order k (a0 a)) as [[[p code] kw]|] eqn:E.
  { intros Hr _. injection Hr as Hr. eapply write_wstatus_wf; [|done]. by eapply try_reap_wf. }
  repeat (case_if; [by intros [= <- <-]|]). intros Hr _. by eapply wait_loop_wf.
Qed.

#[export] Instance sched_getaffinity_preserves : Preserves (sched_getaffinity (W:=W)).
Proof.
  intros k a r k' Hk. unfold sched_getaffinity. repeat (case_if; [by intros [= <- <-]|]).
  destruct (guest_write _ _ _) eqn:E; intros [= <- <-]; eauto with libos.
Qed.

Lemma length_comm_of bs : length bs = 16%nat → length (comm_of bs) = 16%nat.
Proof.
  intros Hl. unfold comm_of. rewrite length_app, length_take, length_replicate.
  destruct (position _ bs) as [n|] eqn:E; cbn [default from_option]; [apply position_Some in E as [? _]|]; lia.
Qed.

(** Byte [i] of a name: zero from the first NUL on. *)
Lemma comm_of_lookup bs i b :
  length bs = 16%nat → comm_of bs !! i = Some b →
  b = if existsb (λ x, x =? 0) (take (S i) bs) then 0 else default 0 (bs !! i).
Proof.
  intros Hl Hi. pose proof (length_comm_of bs Hl) as Hlen.
  assert (i < 16)%nat as Hlt by (apply lookup_lt_Some in Hi; lia).
  unfold comm_of in Hi. destruct (position _ bs) as [n|] eqn:E; cbn [default from_option id] in Hi.
  - pose proof (position_Some _ _ _ E) as (Hn & Hf & x & Hx & Hx0).
    destruct (decide (i < n)%nat).
    + rewrite lookup_app_l, lookup_take_lt in Hi by (rewrite ?length_take; lia).
      assert (existsb (λ x, x =? 0) (take (S i) bs) = false) as ->; [|by rewrite Hi].
      apply not_true_iff_false. intros (y & Hy & Hy0)%existsb_exists. rewrite Forall_forall in Hf. apply list_elem_of_In in Hy. rewrite (Hf y) in Hy0; [done|].
      apply list_elem_of_lookup in Hy as (j & Hj). apply lookup_take_Some in Hj as [Hj ?].
      apply list_elem_of_lookup. exists j. apply lookup_take_Some. split; [done|lia].
    + rewrite lookup_app_r, length_take in Hi by (rewrite length_take; lia).
      apply lookup_replicate in Hi as [-> _]. rewrite (proj2 (existsb_exists _ _)); [done|].
      exists x. split; [|done]. apply list_elem_of_In, list_elem_of_lookup. exists n.
      apply lookup_take_Some. split; [done|lia].
  - rewrite lookup_app_l, lookup_take_lt in Hi by (rewrite ?length_take; lia).
    apply position_None in E.
    assert (existsb (λ x, x =? 0) (take (S i) bs) = false) as ->; [|by rewrite Hi].
    apply not_true_iff_false. intros (y & Hy & Hy0)%existsb_exists. rewrite Forall_forall in E.
    apply list_elem_of_In in Hy. rewrite (E y) in Hy0; [done|]. apply list_elem_of_lookup in Hy as (j & [Hj _]%lookup_take_Some). by eapply list_elem_of_lookup_2.
Qed.

#[export] Instance prctl_preserves : Preserves (prctl (W:=W)).
Proof.
  intros k a r k' Hk. unfold prctl.
  repeat (case_if; try by intros [= <- <-]).
  - destruct (guest_slice _ _ _) as [bs|] eqn:E; intros [= <- <-]; [|done].
    apply kern_wf_set_comm; [done|]. apply length_comm_of. apply guest_slice_length in E. lia.
  - destruct (guest_slice_mut _ _ _) eqn:E; intros [= <- <-]; [|done].
    apply guest_slice_mut_Ok in E as [Hin ->]. apply kern_wf_mem_put; [done|].
    by rewrite (kw_comm _ Hk).
Qed.

#[export] Instance kill_preserves : Preserves (kill (W:=W)).
Proof.
  intros k a r k' Hk. unfold kill. repeat case_if; intros [= <- <-]; try done; by apply push_signal_wf.
Qed.
#[export] Instance tgkill_preserves : Preserves (tgkill (W:=W)).
Proof.
  intros k a r k' Hk. unfold tgkill. repeat case_match; intros [= <- <-]; try done; by apply push_signal_wf.
Qed.

End invariant.

(** ** Theorems *)

(** [fork] returns a process id nobody had, registers it as a live child
    that has not exited, touches no other child and keeps all ids below the
    next one, as long as the [i32] counter has not run out. *)
Theorem fork_fresh {W} (k : kern W) a :
  ps_wf (k_ps k) → next_pid (k_ps k) < 2 ^ 31 - 1 →
  ∃ r k' c, fork_syscall k a = (r, k') ∧ 2 ≤ r ∧
    children (k_ps k) !! r = None ∧ r ∉ tgid_registry (k_ps k) ∧
    children (k_ps k') !! r = Some c ∧ exited c = false ∧
    (∀ p, p ≠ r → children (k_ps k') !! p = children (k_ps k) !! p) ∧
    r ∈ tgid_registry (k_ps k') ∧ ps_wf (k_ps k').
Proof.
  intros Hps Hmax. destruct (fork_spec k a Hps Hmax) as (k' & Hf & H2 & Hn & Hr & Hc & Ht & Hwf).
  exists (next_pid (k_ps k)), k', (ChildExitStatus_new 0 (next_loc (k_heap k))).
  rewrite Hc, Ht. split_and!; try done.
  - by rewrite lookup_insert_eq.
  - intros p Hp. by rewrite lookup_insert_ne.
  - set_solver.
Qed.


(** C17: the exit of a process wakes its blocked [wait4]s. A [wait4] that
    has to sleep parks on one [Notify]; whatever other threads do meanwhile,
    as long as it would still have to sleep on that [Notify], it stays parked;
    and when another thread then calls [exit], that [Notify] is fired and
    [wait4] returns: a wanted child, its status stored, removed from the
    table, every other child kept and marked exited. [pid] may name a child
    or be 0 or -1 for any. *)
Theorem wait4_wakes_on_exit {W} order (k ks : kern W) sleeps a rest pid ptr :
  (∀ cs, order cs ≡ₚ map_to_list cs) → -1 ≤ pid →
  (∀ i, (i ≤ length sleeps)%nat →
     waits_on (foldl (λ k f, f k) k (take i sleeps)) pid (wait_notify k pid)) →
  foldl (λ k f, f k) k sleeps = ks → ptr = 0 ∨ in_memory ks ptr 4 →
  ∃ p c k', wait4_syscall order (sleeps ++ (λ k, (exit order k a).2) :: rest) k (Args pid ptr 0 0 0 0) = Return (p, k') ∧
    children (k_ps ks) !! p = Some c ∧ wanted pid p ∧
    children (k_ps k') = delete p (mark_exited <$> children (k_ps ks)) ∧
    (ptr ≠ 0 → guest_slice k' ptr 4 = Ok (to_le_bytes 4 (Z.shiftl (Z.land (exit_status c) 255) 8))).
Proof.
  intros Hord Hpid Hsl <- Hptr. pose proof (Hsl 0%nat ltac:(lia)) as Hw0. rewrite take_0 in Hw0.
  rewrite (wait4_parks order Hord k _ pid ptr Hpid Hw0), (wait_loop_sleeps order Hord) by done.
  pose proof (Hsl _ (le_n _)) as Hw. rewrite firstn_all in Hw. set (ks := foldl _ k sleeps) in *.
  destruct (exit_reapable order ks pid a (proj1 Hw)) as (p & c & Hrp). cbn [wait_loop].
  rewrite <- (proj2 (proj2 Hw)), (exit_fires order Hord ks pid a).
  destruct (try_reap order (exit order ks a).2 pid) as [[[p' code] k2]|] eqn:E.
  2:{ by destruct (proj1 (try_reap_None order Hord _ _) E p c). }
  apply (try_reap_Some _ Hord) in E as (c' & (Hc' & _ & Hw') & -> & ->).
  simpl in Hc'. rewrite lookup_fmap in Hc'. apply fmap_Some in Hc' as (c1 & Hc1 & ->).
  match goal with |- context [write_wstatus_and_return ?q _ _ _] =>
    destruct (write_wstatus_Ok q p' (exit_status (mark_exited c1)) ptr) as (k' & -> & Hps & Hs); [done|] end.
  exists p', c1, k'. rewrite Hps. by split_and!.
Qed.

(** [exit] records the code, marks every child exited with its own code
    and wakes the sleepers on each of them and on the process. *)
Theorem exit_ends_children {W} order (k : kern W) code k' :
  (∀ cs, order cs ≡ₚ map_to_list cs) → exit order k (Args code 0 0 0 0 0) = (0, k') →
  k_exit_code k' = Some (as_i32 code) ∧
  (∀ p, children (k_ps k') !! p = mark_exited <$> children (k_ps k) !! p) ∧
  (∀ p c, children (k_ps k) !! p = Some c → NotifyWaiters (child_notify c) ∈ wakes (k_heap k')) ∧
  NotifyWaiters (child_event (k_ps k)) ∈ wakes (k_heap k').
Proof.
  intros Hord [= <-]. simpl.
  rewrite wakes_notify_all. split_and!; [done| | |].
  - intros p. by rewrite lookup_fmap.
  - intros p c Hc. rewrite <- app_assoc. apply elem_of_app. right. apply elem_of_app. left.
    apply list_elem_of_fmap_2. apply (list_elem_of_fmap_2 (λ e, child_notify e.2) _ (p, c)). rewrite Hord.
    by apply elem_of_map_to_list.
  - apply elem_of_app. right. by apply list_elem_of_singleton.
Qed.

(** The thread name set with [PR_SET_NAME] is read back by [PR_GET_NAME]:
    the bytes up to the first NUL, then zeros up to 16. *)
Theorem prctl_name_roundtrip {W} (k : kern W) src dst bs :
  src ≠ 0 → dst ≠ 0 → guest_slice k src 16 = Ok bs → in_memory k dst 16 →
  ∃ k1 k2, prctl k (Args PR_SET_NAME src 0 0 0 0) = (0, k1) ∧
    prctl k1 (Args PR_GET_NAME dst 0 0 0 0) = (0, k2) ∧
    ∃ name, guest_slice k2 dst 16 = Ok name ∧ length name = 16%nat ∧
      (∀ i b, name !! i = Some b →
         b = if existsb (λ x, x =? 0) (take (S i) bs) then 0 else default 0 (bs !! i)).
Proof.
  intros Hs Hd Hbs Hin. unfold prctl. simpl. rewrite (proj2 (Z.eqb_neq src 0)) by done.
  rewrite (proj2 (Z.eqb_neq dst 0)) by done. rewrite Hbs. eexists. eexists. split; [done|].
  set (k1 := set_comm k (comm_of bs)). pose proof (guest_slice_length _ _ _ _ Hbs) as Hl.
  rewrite (proj2 (guest_slice_mut_Ok k1 dst 16 dst)) by done. split; [done|].
  assert (length (comm_of bs) = 16%nat) as Hc by (apply length_comm_of; lia).
  exists (comm_of bs). split_and!; [|done|].
  - assert (in_memory k1 dst (Z.of_nat (length (comm_of bs)))) as Hin1 by by rewrite Hc.
    pose proof (guest_slice_put_same _ _ _ Hin1) as Hg. by rewrite Hc in Hg.
  - intros i b. apply comm_of_lookup. lia.
Qed.

(** ** Witnesses *)

(** The sample kernel after one [fork]: child 2. *)
Definition forked : kern NullHost := (fork_syscall sample_kern (Args 0 0 0 0 0 0)).2.

Lemma sample_ps_wf : ps_wf (k_ps sample_kern).
Proof.
  split; simpl.
  - lia.
  - intros p [? Hp]. by rewrite lookup_empty in Hp.
  - intros t. rewrite elem_of_singleton. lia.
Qed.

Lemma fork_fresh_witness :
  ∃ r k' c, fork_syscall sample_kern (Args 0 0 0 0 0 0) = (r, k') ∧ 2 ≤ r ∧
    children (k_ps sample_kern) !! r = None ∧ r ∉ tgid_registry (k_ps sample_kern) ∧
    children (k_ps k') !! r = Some c ∧ exited c = false ∧
    (∀ p, p ≠ r → children (k_ps k') !! p = children (k_ps sample_kern) !! p) ∧
    r ∈ tgid_registry (k_ps k') ∧ ps_wf (k_ps k').
Proof.
  apply (fork_fresh sample_kern (Args 0 0 0 0 0 0)).
  - apply sample_ps_wf.
  - vm_compute. reflexivity.
Defined.

Lemma forked_in_memory ptr len : 0 ≤ ptr → 0 ≤ len → ptr + len ≤ 131072 → in_memory forked ptr len.
Proof. intros. eexists. split; [vm_compute; reflexivity|]. simpl. unfold U64_MAX. lia. Qed.


Lemma forked_live p c : ¬ reapable forked 2 p c.
Proof.
  intros (Hc & He & Hw). specialize (Hw ltac:(lia)). subst p. vm_compute in Hc. injection Hc as <-. done.
Qed.

(** Another thread forks a second child, then the process exits with 7. *)
Lemma wait4_wakes_on_exit_witness :
  let fork k := (fork_syscall k (Args 0 0 0 0 0 0)).2 in
  ∃ p c k', wait4_syscall map_to_list ([fork] ++ (λ k, (exit map_to_list k (Args 7 0 0 0 0 0)).2) :: []) forked
      (Args 2 64 0 0 0 0) = Return (p, k') ∧
    children (k_ps (fork forked)) !! p = Some c ∧ wanted 2 p ∧
    children (k_ps k') = delete p (mark_exited <$> children (k_ps (fork forked))) ∧
    (64 ≠ 0 → guest_slice k' 64 4 = Ok (to_le_bytes 4 (Z.shiftl (Z.land (exit_status c) 255) 8))).
Proof.
  intros fork. apply (wait4_wakes_on_exit map_to_list forked (fork forked) [fork] _ [] 2 64).
  - reflexivity.
  - lia.
  - assert (∀ k : kern NullHost, children (k_ps k) !! 2 = children (k_ps forked) !! 2 → waits_on k 2 (wait_notify forked 2)) as Hk.
    { intros k Hk. split_and!.
      - exists 2, (ChildExitStatus_new 0 (next_loc (k_heap sample_kern))). by rewrite Hk.
      - intros p c (Hc & He & Hw). pose proof (Hw ltac:(lia) : p = 2) as ->. rewrite Hk in Hc.
        by apply (forked_live 2 c).
      - unfold wait_notify. simpl (0 <? 2). cbv iota. change (as_i32 2) with 2. by rewrite Hk. }
    intros [|[|i]] Hi; [by apply Hk|by apply Hk|]. simpl in Hi. lia.
  - reflexivity.
  - right. by apply (forked_in_memory 64 4).
Defined.

Lemma exit_ends_children_witness :
  let k' := (exit map_to_list forked (Args 7 0 0 0 0 0)).2 in
  k_exit_code k' = Some 7 ∧
  (∀ p, children (k_ps k') !! p = mark_exited <$> children (k_ps forked) !! p) ∧
  (∀ p c, children (k_ps forked) !! p = Some c → NotifyWaiters (child_notify c) ∈ wakes (k_heap k')) ∧
  NotifyWaiters (child_event (k_ps forked)) ∈ wakes (k_heap k').
Proof.
  intros k'. apply (exit_ends_children map_to_list forked 7 k').
  - reflexivity.
  - reflexivity.
Defined.

(** "sh" at 64. *)
Definition name_kern : kern NullHost := mem_put sample_kern 64 [115; 104; 0; 9].

Lemma prctl_name_roundtrip_witness :
  ∃ k1 k2, prctl name_kern (Args PR_SET_NAME 64 0 0 0 0) = (0, k1) ∧
    prctl k1 (Args PR_GET_NAME 128 0 0 0 0) = (0, k2) ∧
    ∃ name, guest_slice k2 128 16 = Ok name ∧ length name = 16%nat ∧
      (∀ i b, name !! i = Some b →
         b = if existsb (λ x, x =? 0) (take (S i) [115; 104; 0; 9; 0; 0; 0; 0; 0; 0; 0; 0; 0; 0; 0; 0])
             then 0 else default 0 ([115; 104; 0; 9; 0; 0; 0; 0; 0; 0; 0; 0; 0; 0; 0; 0] !! i)).
Proof.
  apply (prctl_name_roundtrip name_kern 64 128).
  - done.
  - done.
  - vm_compute. reflexivity.
  - eexists. split; [vm_compute; reflexivity|]. simpl. unfold U64_MAX. lia.
Defined.

(** ** Deviations *)

(** A [wait4] parked on a child that another waiter reaps sleeps for good,
    whatever happens next, as long as that id is not used again: the loop
    does not repeat the [-ECHILD] check. *)
Lemma wait4_lost_child_hangs {W} order (k : kern W) schedule n pid ptr :
  (∀ cs, order cs ≡ₚ map_to_list cs) → 0 < pid →
  (∀ i, (i < length schedule)%nat →
     children (k_ps (foldl (λ k f, f k) k (take (S i) schedule))) !! as_i32 pid = None) →
  wait_loop order schedule n k pid ptr = Hang.
Proof.
  intros Hord Hpid Hno. apply (wait_loop_hangs order Hord). intros i Hi p c (Hc & _ & Hw).
  rewrite Hw in Hc by done. by rewrite Hno in Hc.
Qed.

(** With [WNOHANG] a [pid] that is no child's is 0, not [-ECHILD], in a
    process that has some child; without it, it is [-ECHILD]. *)
Lemma wait4_nohang_unknown :
  wait4_syscall map_to_list [] forked (Args 99 0 WNOHANG 0 0 0) = Return (0, forked) ∧
  wait4_syscall map_to_list [] forked (Args 99 0 0 0 0 0) = Return (- ECHILD, forked).
Proof. split; vm_compute; reflexivity. Qed.

(** The end of child 2's thread, seen from the parent. *)
Definition child2_ends (k : kern NullHost) : kern NullHost :=
  let '(cs, h) := run_child_finish (children (k_ps k)) (k_heap k) (child_event (k_ps k)) 2 (Some 0) None in
  set_heap (set_ps k (set_children (k_ps k) cs)) h.

(** The end of a child thread replaces the entry [fork] made, and with it the
    [Notify] a [wait4] on that child is parked on: that one is never
    notified, and the [wait4] sleeps on although its child has exited. *)
Lemma run_child_forgets_waiter :
  exited <$> children (k_ps (child2_ends forked)) !! 2 = Some true ∧
  wait4_syscall map_to_list [child2_ends] forked (Args 2 64 0 0 0 0) = Hang ∧
  ∃ k', wait4_syscall map_to_list [child2_ends] forked (Args (-1) 64 0 0 0 0) = Return (2, k').
Proof. split_and!; [vm_compute; reflexivity..|]. eexists. vm_compute. reflexivity. Qed.
