(* ===== verification/SysPoll.v ===== *)
(** * poll, ppoll and select (src/sys/poll.rs)

    A blocked [poll] hands the processor to the other threads. Its [schedule]
    lists what they do to the state, step by step, and whether its timer has
    expired by then. It goes on only when the timer has expired or a step
    fired one of the [Notify]s it is parked on; a poll that is still parked at
    the end of the schedule is [Hang]. *)

From S2P Require Import Prelude Word Errno GuestMem Text Path Host Vfs Udp Fd Futex Kernel KernInv SysFile.

Definition POLLIN : Z := 1.
Definition POLLPRI : Z := 2.
Definition POLLOUT : Z := 4.
Definition POLLERR : Z := 8.
Definition POLLHUP : Z := 16.
Definition POLLNVAL : Z := 32.
Definition POLLFD_SIZE : Z := 8.
Definition FD_SET_LONGS : Z := 16.

(** ** Readiness of one descriptor *)

Definition ready_pipe_read (events : Z) (has_data_or_eof : bool) : Z :=
  let r := if has_data_or_eof && has events POLLIN then POLLIN else 0 in
  if has events POLLOUT then Z.lor r POLLERR else r.

Definition ready_socket (events : Z) (s : SocketInner) : Z :=
  let is_listener := is_listening s in
  let has_stream := bool_decide (is_Some (stream s)) in
  let has_bound := bool_decide (is_Some (bound s)) in
  let r := if has events POLLIN then
             if has_stream then POLLIN else if is_listener then POLLNVAL else 0
           else 0 in
  if has events POLLOUT then
    if has_stream then Z.lor r POLLOUT else if has_bound then Z.lor r POLLNVAL else r
  else r.

Definition poll_one (h : heap) (t : FdTable) (fd events : Z) : Z :=
  match u32_try_from fd with
  | None => POLLNVAL
  | Some fd_u =>
    match get t fd_u with
    | Err _ => POLLNVAL
    | Ok (RStdin p) =>
      let c := pipe_at h (pr_pipe p) in
      ready_pipe_read events (negb (closed c) || negb (bool_decide (buf c = [])))
    | Ok (RStdout _) | Ok (RStderr _) => Z.land POLLOUT events
    | Ok (RFile _) => Z.lor POLLIN POLLOUT
    | Ok (RPipeRead p) =>
      let c := pipe_at h (pr_pipe p) in
      ready_pipe_read events (negb (bool_decide (buf c = [])) || closed c)
    | Ok (RPipeWrite _) => Z.land POLLOUT events
    | Ok (RSocket l) => ready_socket events (sock_at h l)
    | Ok (REpoll _) | Ok (REventFd _) => POLLNVAL
    end
  end.

(** The timer of a sleeping poll. *)
Inductive timer := Running | Expired.

Section syscalls.
Context {W : Type}.
Implicit Types k : kern W.

(** ** poll *)

(** Entry [i] of the guest's array: descriptor and requested events. *)
Definition poll_entry k (fds_ptr i : Z) : Z * Z :=
  match guest_slice k (fds_ptr + i * POLLFD_SIZE) POLLFD_SIZE with
  | Ok b => (from_le_bytes_i 32 (take 4 b), from_le_bytes_i 16 (take 2 (drop 4 b)))
  | Err _ => (0, POLLNVAL)
  end.

(** The [Notify]s the listed descriptors offer. *)
Definition poll_wakes k (es : list (Z * Z)) : list Z :=
  es ≫= λ e,
    match u32_try_from e.1 with
    | None => []
    | Some fd =>
      match get (k_fds k) fd with
      | Ok (RPipeRead p) => [pr_notify p]
      | Ok (RPipeWrite p) => [pw_notify p]
      | Ok (RSocket l) => [notify_read (sock_at (k_heap k) l)]
      | _ => []
      end
    end.

Definition readiness k (es : list (Z * Z)) : list Z :=
  (λ e, poll_one (k_heap k) (k_fds k) e.1 e.2) <$> es.

(** The [revents] fields, two bytes at offset 6 of each entry. *)
Fixpoint put_revents k (p : Z) (rs : list Z) : kern W :=
  match rs with
  | [] => k
  | r :: rs => put_revents (mem_put k (p + 6) (to_le_bytes 2 r)) (p + POLLFD_SIZE) rs
  end.

Definition count_ready (rs : list Z) : Z := Z.of_nat (length (filter (.≠ 0) rs)).

Definition write_revents k (fds_ptr : Z) (rs : list Z) : Z * kern W :=
  let! p := guest_slice_mut k fds_ptr (Z.of_nat (length rs) * POLLFD_SIZE) on k;
  (count_ready rs, put_revents k p rs).

(** Asleep in the [select!] over the timer (if there is one) and [wait_any]:
    the timer is looked at first; a fired [Notify] starts the next turn of the
    loop, which goes back to sleep when nothing is ready. *)
Fixpoint poll_park (schedule : list (timer * (kern W → kern W))) k (fds_ptr timeout_ms : Z)
    (es : list (Z * Z)) (wakes : list Z) : outcome (Z * kern W) :=
  match schedule with
  | [] => Hang
  | (t, others) :: schedule =>
    let k' := others k in
    let rs := readiness k' es in
    if (0 <? timeout_ms) && match t with Expired => true | Running => false end
    then Return (write_revents k' fds_ptr rs)
    else if fired wakes (k_heap k) (k_heap k') && existsb (λ r, negb (r =? 0)) rs
    then Return (write_revents k' fds_ptr rs)
    else poll_park schedule k' fds_ptr timeout_ms es wakes
  end.

(** The first turn of the loop. *)
Definition poll_loop (schedule : list (timer * (kern W → kern W))) k (fds_ptr timeout_ms : Z)
    (es : list (Z * Z)) (wakes : list Z) : outcome (Z * kern W) :=
  let rs := readiness k es in
  if existsb (λ r, negb (r =? 0)) rs then Return (write_revents k fds_ptr rs)
  else if timeout_ms =? 0 then Return (write_revents k fds_ptr rs)
  else poll_park schedule k fds_ptr timeout_ms es wakes.

Definition poll (schedule : list (timer * (kern W → kern W))) k (a : args) : outcome (Z * kern W) :=
  let fds_ptr := a0 a in
  let timeout_ms := a2 a in
  match usize_try_from (a1 a) with
  | None => Return (- EINVAL, k)
  | Some nfds =>
    if nfds =? 0 then Return (0, k)
    else match checked_mul_usize nfds POLLFD_SIZE with
    | None => Return (- EINVAL, k)
    | Some total =>
      match guest_slice_mut k fds_ptr (as_i64 total) with
      | Err e => Return (e, k)
      | Ok _ =>
        let es := poll_entry k fds_ptr <$> seqZ 0 nfds in
        poll_loop schedule k fds_ptr timeout_ms es (poll_wakes k es)
      end
    end
  end.

(** A [struct timespec] as milliseconds; the sum wraps in a release build. *)
Definition timespec_ms k (tsp : Z) : result Z :=
  if tsp =? 0 then Ok (-1)
  else
    b <-? guest_slice k tsp 16;
    let sec := from_le_bytes_i 64 (take 8 b) in
    let nsec := from_le_bytes_i 64 (take 8 (drop 8 b)) in
    if (sec <? 0) || (nsec <? 0) || negb ((0 <=? nsec) && (nsec <? 1000000000)) then Err (- EINVAL)
    else Ok (as_i64 (saturating_mul_i64 sec 1000 + nsec / 1000000)).

Definition ppoll (schedule : list (timer * (kern W → kern W))) k (a : args) : outcome (Z * kern W) :=
  match usize_try_from (a1 a) with
  | None => Return (- EINVAL, k)
  | Some nfds =>
    if nfds =? 0 then Return (0, k)
    else match timespec_ms k (a2 a) with
    | Err e => Return (e, k)
    | Ok timeout_ms => poll schedule k (Args (a0 a) (a1 a) timeout_ms 0 0 0)
    end
  end.

(** ** select *)

(** Bit [fd] of an [fd_set] that could be read. *)
Definition fd_isset (mask : option bytes) (fd : Z) : bool :=
  match mask with
  | None => false
  | Some b => Z.testbit (from_le_bytes (take 8 (drop (Z.to_nat (fd / 64) * 8) b))) (fd mod 64)
  end.

Definition read_fd_set k (set : Z) : option bytes :=
  if set =? 0 then None
  else match guest_slice k set (FD_SET_LONGS * 8) with Ok b => Some b | Err _ => None end.

(** The descriptors asked about, with the events to poll for. *)
Definition select_entries k (nfds readfds writefds : Z) : list (Z * Z) :=
  let rd := read_fd_set k readfds in
  let wr := read_fd_set k writefds in
  seqZ 0 nfds ≫= λ fd,
    if FD_SET_LONGS <=? fd / 64 then []
    else
      let in_r := fd_isset rd fd in
      let in_w := fd_isset wr fd in
      if in_r || in_w then [(fd, Z.lor (if in_r then POLLIN else 0) (if in_w then POLLOUT else 0))]
      else [].

Definition encode_pollfd (e : Z * Z) : bytes := to_le_bytes 4 e.1 ++ to_le_bytes 2 e.2 ++ to_le_bytes 2 0.

Definition set_fd_bit k (set fd : Z) : kern W :=
  if FD_SET_LONGS <=? fd / 64 then k
  else
    let p := set + fd / 64 * 8 in
    match guest_slice k p 8 with
    | Ok b => mem_put k p (to_le_bytes 8 (Z.lor (from_le_bytes b) (Z.shiftl 1 (fd mod 64))))
    | Err _ => k
    end.

Definition clear_fd_set k (set : Z) : kern W :=
  match guest_slice_mut k set (FD_SET_LONGS * 8) with
  | Ok p => mem_put k p (replicate 128 0)
  | Err _ => k
  end.

(** Set the bits of one polled descriptor. *)
Definition select_mark (readfds writefds : Z) k (e : Z * Z * Z) : kern W :=
  let '(fd, ev, revents) := e in
  if revents =? 0 then k
  else
    let k := if has revents POLLIN && has ev POLLIN && negb (readfds =? 0)
             then set_fd_bit k readfds fd else k in
    if has revents POLLOUT && has ev POLLOUT && negb (writefds =? 0)
    then set_fd_bit k writefds fd else k.

(** The last part of [select]: read the [revents] back and rebuild the sets. *)
Definition select_finish k (tmp_base : Z) (es : list (Z * Z)) (readfds writefds r : Z) : Z * kern W :=
  if r <? 0 then (r, k)
  else
    let! bs := guest_slice k tmp_base (Z.of_nat (length es) * POLLFD_SIZE) on k;
    let revents := imap (λ i e, (e, from_le_bytes_i 16 (take 2 (drop (i * 8 + 6) bs)))) es in
    let k := if readfds =? 0 then k else clear_fd_set k readfds in
    let k := if writefds =? 0 then k else clear_fd_set k writefds in
    (r, foldl (select_mark readfds writefds) k revents).

(** A [struct timeval] as milliseconds. *)
Definition timeval_ms k (ptr : Z) : result Z :=
  if ptr =? 0 then Ok (-1)
  else
    t <-? guest_slice k ptr 16;
    let sec := from_le_bytes_i 64 (take 8 t) in
    let usec := from_le_bytes_i 64 (take 8 (drop 8 t)) in
    if (sec <? 0) || (usec <? 0) then Err (- EINVAL)
    else Ok (as_i64 (sec * 1000 + usec / 1000)).

Definition select (schedule : list (timer * (kern W → kern W))) k (a : args) : outcome (Z * kern W) :=
  let readfds := a1 a in
  let writefds := a2 a in
  match i32_try_from (a0 a) with
  | None => Return (- EINVAL, k)
  | Some nfds =>
    if nfds <? 0 then Return (- EINVAL, k)
    else if nfds =? 0 then Return (0, k)
    else
      let es := select_entries k nfds readfds writefds in
      if bool_decide (es = []) then Return (0, k)
      else
        let tmp_base := 8192 in
        match guest_write k tmp_base (concat (encode_pollfd <$> es)) with
        | Err e => Return (e, k)
        | Ok kw =>
          match timeval_ms kw (a4 a) with
          | Err e => Return (e, kw)
          | Ok timeout_ms =>
            match poll schedule kw (Args tmp_base (Z.of_nat (length es)) timeout_ms 0 0 0) with
            | Return (r, kw) => Return (select_finish kw tmp_base es readfds writefds r)
            | Hang => Hang
            | Panic => Panic
            end
          end
        end
  end.

End syscalls.

#[local] Arguments to_le_bytes : simpl never.

(** ** Facts *)

Section facts.
Context {W : Type}.
Implicit Types k : kern W.

Lemma put_revents_state rs : ∀ k p,
  k_fds (put_revents k p rs) = k_fds k ∧ k_heap (put_revents k p rs) = k_heap k.
Proof.
  induction rs as [|r rs IH]; intros k p; simpl; [done|].
  destruct (IH (mem_put k (p + 6) (to_le_bytes 2 r)) (p + POLLFD_SIZE)) as [-> ->].
  unfold mem_put. by destruct (k_memory k) as [[]|].
Qed.

Lemma entry_in_memory k p n i len off :
  in_memory k p (n * 8) → 0 ≤ i < n → 0 ≤ off → 0 ≤ len → off + len ≤ 8 →
  in_memory k (p + i * 8 + off) len.
Proof. intros (m & ? & ? & ? & ? & ?) ????. exists m. split_and!; try done; lia. Qed.

Lemma put_revents_in_memory rs : ∀ k p q len,
  in_memory k p (Z.of_nat (length rs) * 8) →
  in_memory (put_revents k p rs) q len ↔ in_memory k q len.
Proof.
  induction rs as [|r rs IH]; intros k p q len Hin; simpl; [done|]. simpl in Hin.
  assert (in_memory k (p + 6) (Z.of_nat (length (to_le_bytes 2 r)))) as H6.
  { replace (p + 6) with (p + 0 * 8 + 6) by lia. eapply entry_in_memory; [done|simpl; lia..]. }
  rewrite IH; [by apply in_memory_put|]. apply in_memory_put; [done|]. unfold POLLFD_SIZE.
  destruct Hin as (m & ? & ? & ? & ? & ?). exists m. split_and!; try done; lia.
Qed.

(** What is outside the [revents] fields stays. *)
Lemma put_revents_frame rs : ∀ k p q len,
  in_memory k p (Z.of_nat (length rs) * 8) →
  (∀ i, 0 ≤ i < Z.of_nat (length rs) → disjoint_ranges (p + i * 8 + 6) 2 q len) →
  guest_slice (put_revents k p rs) q len = guest_slice k q len.
Proof.
  induction rs as [|r rs IH]; intros k p q len Hin Hd; simpl; [done|]. simpl in Hin.
  assert (in_memory k (p + 6) (Z.of_nat (length (to_le_bytes 2 r)))) as H6.
  { replace (p + 6) with (p + 0 * 8 + 6) by lia. eapply entry_in_memory; [done|simpl; lia..]. }
  assert (in_memory k (p + POLLFD_SIZE) (Z.of_nat (length rs) * 8)) as Hr.
  { unfold POLLFD_SIZE. destruct Hin as (m & ? & ? & ? & ? & ?). exists m. split_and!; try done; lia. }
  rewrite IH.
  - apply guest_slice_put_disjoint; [done|]. rewrite length_to_le_bytes.
    specialize (Hd 0). simpl length in Hd. replace (p + 0 * 8 + 6) with (p + 6) in Hd by lia. apply Hd. lia.
  - by apply in_memory_put.
  - intros i Hi. specialize (Hd (i + 1)). unfold POLLFD_SIZE.
    replace (p + 8 + i * 8 + 6) with (p + (i + 1) * 8 + 6) by lia. apply Hd. simpl length. lia.
Qed.

Lemma put_revents_at rs : ∀ k p i r,
  in_memory k p (Z.of_nat (length rs) * 8) → rs !! i = Some r →
  guest_slice (put_revents k p rs) (p + Z.of_nat i * 8 + 6) 2 = Ok (to_le_bytes 2 r).
Proof.
  induction rs as [|r0 rs IH]; intros k p i r Hin Hi; [done|]. simpl in Hin |- *.
  assert (in_memory k (p + 6) (Z.of_nat (length (to_le_bytes 2 r0)))) as H6.
  { replace (p + 6) with (p + 0 * 8 + 6) by lia. eapply entry_in_memory; [done|simpl; lia..]. }
  assert (in_memory (mem_put k (p + 6) (to_le_bytes 2 r0)) (p + POLLFD_SIZE) (Z.of_nat (length rs) * 8)) as Hr.
  { apply in_memory_put; [done|]. unfold POLLFD_SIZE.
    destruct Hin as (m & ? & ? & ? & ? & ?). exists m. split_and!; try done; lia. }
  destruct i as [|i]; simpl in Hi.
  - injection Hi as <-. replace (p + Z.of_nat 0 * 8 + 6) with (p + 6) by lia.
    rewrite put_revents_frame; [|done|intros j Hj; unfold POLLFD_SIZE; right; lia].
    by apply (guest_slice_put_same k (p + 6) (to_le_bytes 2 r0)).
  - replace (p + Z.of_nat (S i) * 8 + 6) with (p + POLLFD_SIZE + Z.of_nat i * 8 + 6)
      by (unfold POLLFD_SIZE; lia). by apply IH.
Qed.

Lemma put_revents_wf rs : ∀ k p,
  in_memory k p (Z.of_nat (length rs) * 8) → kern_wf k → kern_wf (put_revents k p rs).
Proof.
  induction rs as [|r rs IH]; intros k p Hin Hk; simpl; [done|]. simpl in Hin.
  assert (in_memory k (p + 6) (Z.of_nat (length (to_le_bytes 2 r)))) as H6.
  { replace (p + 6) with (p + 0 * 8 + 6) by lia. eapply entry_in_memory; [done|simpl; lia..]. }
  apply IH; [|by apply kern_wf_mem_put]. apply in_memory_put; [done|]. unfold POLLFD_SIZE.
  destruct Hin as (m & ? & ? & ? & ? & ?). exists m. split_and!; try done; lia.
Qed.

(** The report of a poll: the [revents] of every entry are its readiness,
    the rest of memory, the descriptors and the shared objects stay. *)
Record poll_report k k' (ptr : Z) (rs : list Z) : Prop := {
  pr_entry i r : rs !! i = Some r → guest_slice k' (ptr + Z.of_nat i * 8 + 6) 2 = Ok (to_le_bytes 2 r);
  pr_frame q len : (∀ i, 0 ≤ i < Z.of_nat (length rs) → disjoint_ranges (ptr + i * 8 + 6) 2 q len) →
                   guest_slice k' q len = guest_slice k q len;
  pr_mem q len : in_memory k' q len ↔ in_memory k q len;
  pr_fds : k_fds k' = k_fds k;
  pr_heap : k_heap k' = k_heap k;
}.

Lemma write_revents_spec k ptr rs :
  in_memory k ptr (Z.of_nat (length rs) * 8) →
  ∃ k', write_revents k ptr rs = (count_ready rs, k') ∧ poll_report k k' ptr rs.
Proof.
  intros Hin. unfold write_revents, POLLFD_SIZE. rewrite (proj2 (guest_slice_mut_Ok k ptr _ ptr)) by done.
  eexists. split; [done|]. destruct (put_revents_state rs k ptr). split; [| | |done|done].
  - intros i r. by apply put_revents_at.
  - intros q len. by apply put_revents_frame.
  - intros q len. by apply put_revents_in_memory.
Qed.

Lemma readiness_length k es : length (readiness k es) = length es.
Proof. apply length_fmap. Qed.

(** Something is ready. *)
Definition any_ready (rs : list Z) : Prop := ∃ r, r ∈ rs ∧ r ≠ 0.

Lemma existsb_ready rs : existsb (λ r, negb (r =? 0)) rs = true ↔ any_ready rs.
Proof.
  rewrite existsb_exists. split; intros (r & Hr & H0); exists r; rewrite <- list_elem_of_In in *; split; try done.
  - by to_prop.
  - apply negb_true_iff, Z.eqb_neq. done.
Qed.

Lemma not_ready_false rs : ¬ any_ready rs → existsb (λ r, negb (r =? 0)) rs = false.
Proof. intros Hn. apply not_true_iff_false. by rewrite existsb_ready. Qed.

(** What wakes a poll parked on [ws] up in one step of its schedule: the timer,
    or one of its [Notify]s when something is ready by then. *)
Definition wakes_parked (timeout : Z) (es : list (Z * Z)) (ws : list Z) k (s : timer * (kern W → kern W)) : Prop :=
  (0 < timeout ∧ s.1 = Expired) ∨
  (fired ws (k_heap k) (k_heap (s.2 k)) = true ∧ any_ready (readiness (s.2 k) es)).

(** The state after the first [n] steps of a schedule. *)
Definition after k (schedule : list (timer * (kern W → kern W))) (n : nat) : kern W :=
  foldl (λ k s, s.2 k) k (take n schedule).

Lemma poll_park_wakes s schedule k ptr timeout es ws :
  wakes_parked timeout es ws k s →
  poll_park (s :: schedule) k ptr timeout es ws = Return (write_revents (s.2 k) ptr (readiness (s.2 k) es)).
Proof.
  destruct s as [t f]. simpl. intros [[Ht Hx]|[Hf Hr]]; simpl in *.
  - subst t. by rewrite (proj2 (Z.ltb_lt _ _)) by done.
  - rewrite Hf, (proj2 (existsb_ready _) Hr). by case_match.
Qed.

Lemma poll_park_sleeps s schedule k ptr timeout es ws :
  ¬ wakes_parked timeout es ws k s →
  poll_park (s :: schedule) k ptr timeout es ws = poll_park schedule (s.2 k) ptr timeout es ws.
Proof.
  destruct s as [t f]. simpl. intros Hno. destruct ((0 <? timeout) && _) eqn:E1.
  { destruct Hno. left. destruct t; to_prop; by split. }
  destruct (fired _ _ _ && _) eqn:E2; [|done]. destruct Hno. right. to_prop. split; [done|]. by apply existsb_ready.
Qed.

(** A parked poll returns at the first step that wakes it. *)
Lemma poll_park_first schedule : ∀ k n ptr timeout es ws s,
  schedule !! n = Some s → wakes_parked timeout es ws (after k schedule n) s →
  (∀ m s, (m < n)%nat → schedule !! m = Some s → ¬ wakes_parked timeout es ws (after k schedule m) s) →
  let k1 := after k schedule (S n) in
  poll_park schedule k ptr timeout es ws = Return (write_revents k1 ptr (readiness k1 es)).
Proof.
  induction schedule as [|[ts f] schedule IH]; intros k n ptr timeout es ws s Hn Hw Hno; [done|].
  destruct n as [|n]; simpl in Hn.
  - injection Hn as <-. by rewrite poll_park_wakes.
  - rewrite poll_park_sleeps by (apply (Hno 0%nat); [lia|done]).
    apply (IH (f k) n ptr timeout es ws s Hn Hw). intros m s' Hm Hs. apply (Hno (S m)); [lia|done].
Qed.

(** It hangs when none does. *)
Lemma poll_park_hangs schedule : ∀ k ptr timeout es ws,
  (∀ m s, schedule !! m = Some s → ¬ wakes_parked timeout es ws (after k schedule m) s) →
  poll_park schedule k ptr timeout es ws = Hang.
Proof.
  induction schedule as [|[ts f] schedule IH]; intros k ptr timeout es ws Hno; [done|].
  rewrite poll_park_sleeps by by apply (Hno 0%nat). apply IH. intros m s Hs. by apply (Hno (S m)).
Qed.

(** The [Notify] that the resource of a descriptor can be waited for on. *)
Inductive offers (h : heap) : Resource → Z → Prop :=
  | offers_read p : offers h (RPipeRead p) (pr_notify p)
  | offers_write p : offers h (RPipeWrite p) (pw_notify p)
  | offers_socket l : offers h (RSocket l) (notify_read (sock_at h l)).

(** A step of another thread fires the [Notify] of a descriptor that was in
    the polled array, as the table had it in [k0] when the call was made. *)
Definition fires_polled (k0 : kern W) (es : list (Z * Z)) k k' : Prop :=
  ∃ fd events r n, (fd, events) ∈ es ∧ table (k_fds k0) !! fd = Some r ∧ offers (k_heap k0) r n ∧
    NotifyWaiters n ∈ drop (length (wakes (k_heap k))) (wakes (k_heap k')).

(** What a poll called in [k0] is woken by in one step of its schedule. *)
Definition wakes_poll (k0 : kern W) (timeout : Z) (es : list (Z * Z)) k (s : timer * (kern W → kern W)) : Prop :=
  (0 < timeout ∧ s.1 = Expired) ∨ (fires_polled k0 es k (s.2 k) ∧ any_ready (readiness (s.2 k) es)).

Lemma elem_of_poll_wakes (k0 : kern W) es n :
  kern_wf k0 →
  n ∈ poll_wakes k0 es ↔
  ∃ fd events r, (fd, events) ∈ es ∧ table (k_fds k0) !! fd = Some r ∧ offers (k_heap k0) r n.
Proof.
  intros Hk. unfold poll_wakes. rewrite list_elem_of_bind. split.
  - intros ([fd ev] & Hn & He). simpl in Hn. destruct (u32_try_from fd) as [fd'|] eqn:Ef; [|by apply elem_of_nil in Hn].
    apply u32_try_from_Some in Ef as [<- _]. destruct (get (k_fds k0) fd) as [r|] eqn:Eg; [|by apply elem_of_nil in Hn].
    apply get_Ok in Eg. exists fd, ev, r. split; [done|]. split; [done|].
    destruct r; first [by apply elem_of_nil in Hn | apply list_elem_of_singleton in Hn as ->; constructor].
  - intros (fd & ev & r & He & Ht & Ho). exists (fd, ev). split; [|done]. simpl.
    assert (is_u 32 fd) as Hu.
    { destruct (kw_fds _ Hk) as [? Hr]. specialize (Hr fd (mk_is_Some _ _ Ht)). unfold is_u, U32_MAX in *. lia. }
    rewrite u32_try_from_id by done. rewrite (proj2 (get_Ok _ _ _) Ht).
    destruct Ho; by apply list_elem_of_singleton.
Qed.

Lemma wakes_poll_parked (k0 : kern W) timeout es k s :
  kern_wf k0 → wakes_poll k0 timeout es k s ↔ wakes_parked timeout es (poll_wakes k0 es) k s.
Proof.
  intros Hk. unfold wakes_poll, wakes_parked, fires_polled, fired.
  rewrite existsb_exists. setoid_rewrite bool_decide_eq_true. setoid_rewrite <- list_elem_of_In.
  setoid_rewrite elem_of_poll_wakes; [|done]. naive_solver.
Qed.

(** The entry of [poll]: the array is in memory. *)
Lemma poll_start schedule k ptr nfds timeout :
  kern_wf k → 0 < nfds → in_memory k ptr (nfds * 8) →
  poll schedule k (Args ptr nfds timeout 0 0 0) =
  let es := poll_entry k ptr <$> seqZ 0 nfds in
  poll_loop schedule k ptr timeout es (poll_wakes k es).
Proof.
  intros Hk Hn Hin. pose proof Hin as (m & Hm & ? & ? & ? & Hmax).
  destruct (kw_mem _ Hk m Hm) as [Hs _]. unfold poll. simpl a0. simpl a1. simpl a2.
  rewrite usize_try_from_id by (unfold is_u, U64_MAX in *; lia).
  rewrite (proj2 (Z.eqb_neq _ _)) by lia. unfold checked_mul_usize.
  change (nfds * POLLFD_SIZE) with (nfds * 8).
  rewrite (proj2 (Z.leb_le _ _)) by lia.
  rewrite (wraps_id 64) by (unfold is_i; lia).
  by rewrite (proj2 (guest_slice_mut_Ok k ptr _ ptr)) by done.
Qed.

Lemma write_revents_wf k ptr rs r k' : kern_wf k → write_revents k ptr rs = (r, k') → kern_wf k'.
Proof.
  intros Hk. unfold write_revents, POLLFD_SIZE. destruct (guest_slice_mut _ _ _) eqn:E; intros [= <- <-]; [|done].
  apply guest_slice_mut_Ok in E as [Hin ->]. by apply put_revents_wf.
Qed.

Abbreviation good_schedule := (Forall (λ s : timer * (kern W → kern W), ∀ k, kern_wf k → kern_wf (s.2 k))).

Lemma poll_loop_wf schedule : good_schedule schedule → ∀ k ptr timeout es wakes r k',
  kern_wf k → poll_loop schedule k ptr timeout es wakes = Return (r, k') → kern_wf k'.
Proof.
  intros Hs k ptr timeout es ws r k' Hk. unfold poll_loop.
  do 2 (case_if; [intros Hr; injection Hr as Hr; by eapply write_revents_wf|]).
  clear -Hs Hk. revert k Hk. induction Hs as [|[e f] schedule Hf Hs IH]; intros k Hk; simpl; [done|].
  specialize (Hf k Hk). simpl in Hf.
  repeat case_match; try done; first [by apply IH|intros Hr; injection Hr as Hr; (eapply write_revents_wf; [|exact Hr]); done].
Qed.

Lemma poll_wf schedule k a r k' :
  good_schedule schedule → kern_wf k → poll schedule k a = Return (r, k') → kern_wf k'.
Proof.
  intros Hs Hk. unfold poll. destruct (usize_try_from _); [|by intros [= <- <-]].
  case_if; [by intros [= <- <-]|]. destruct (checked_mul_usize _ _); [|by intros [= <- <-]].
  destruct (guest_slice_mut _ _ _); [|by intros [= <- <-]]. by eapply poll_loop_wf.
Qed.

Lemma poll_preserves schedule : good_schedule schedule → PreservesOut (poll (W:=W) schedule).
Proof. intros Hs k a r k' Hk Hr _. by eapply poll_wf. Qed.

Lemma ppoll_preserves schedule : good_schedule schedule → PreservesOut (ppoll (W:=W) schedule).
Proof.
  intros Hs k a r k' Hk. unfold ppoll. destruct (usize_try_from _); [|by intros [= <- <-]].
  case_if; [by intros [= <- <-]|]. destruct (timespec_ms _ _); [|by intros [= <- <-]].
  intros Hr _. by eapply poll_wf.
Qed.

Lemma set_fd_bit_wf k set fd : kern_wf k → kern_wf (set_fd_bit k set fd).
Proof.
  intros Hk. unfold set_fd_bit. case_if; [done|].
  destruct (guest_slice _ _ _) eqn:E; [|done]. apply guest_slice_Ok in E as [Hin _].
  by apply kern_wf_mem_put.
Qed.

Lemma clear_fd_set_wf k set : kern_wf k → kern_wf (clear_fd_set k set).
Proof.
  intros Hk. unfold clear_fd_set. destruct (guest_slice_mut _ _ _) eqn:E; [|done].
  apply guest_slice_mut_Ok in E as [Hin ->]. by apply kern_wf_mem_put.
Qed.

Lemma select_finish_wf k base es rd wr r r' k' :
  kern_wf k → select_finish k base es rd wr r = (r', k') → kern_wf k'.
Proof.
  intros Hk. unfold select_finish. case_if; [by intros [= <- <-]|].
  destruct (guest_slice _ _ _) as [bs|]; intros [= <- <-]; [|done].
  set (k1 := if rd =? 0 then k else clear_fd_set k _).
  assert (kern_wf k1) as Hk1 by (subst k1; case_if; [done|by apply clear_fd_set_wf]).
  set (k2 := if wr =? 0 then k1 else clear_fd_set k1 _).
  assert (kern_wf k2) as Hk2 by (subst k2; case_if; [done|by apply clear_fd_set_wf]).
  generalize (imap (λ i e, (e, from_le_bytes_i 16 (take 2 (drop (i * 8 + 6) bs)))) es) as l.
  intros l. clearbody k2. revert k2 Hk2. clear. induction l as [|[[fd ev] rv] l IH]; intros k2 Hk2; simpl; [done|].
  apply IH. unfold select_mark. repeat case_if; repeat apply set_fd_bit_wf; done.
Qed.

Lemma select_preserves schedule : good_schedule schedule → PreservesOut (select (W:=W) schedule).
Proof.
  intros Hs k a r k' Hk. unfold select. destruct (i32_try_from _); [|by intros [= <- <-]].
  case_if; [by intros [= <- <-]|]. case_if; [by intros [= <- <-]|]. case_bool_decide; [by intros [= <- <-]|].
  destruct (guest_write _ _ _) as [kw|] eqn:E; [|by intros [= <- <-]].
  apply kern_wf_guest_write in E; [|done]. destruct (timeval_ms _ _); [|by intros [= <- <-]].
  destruct (poll _ _ _) as [[r' k1]| |] eqn:Ep; [|done|done]. apply poll_wf in Ep; [|done|done].
  intros Hr _. injection Hr as Hr. by eapply select_finish_wf.
Qed.

End facts.

(** ** Theorems *)

(** [poll] that does not have to wait. With the array in memory, if some
    descriptor is ready or the timeout is zero, the call returns the number of
    ready descriptors at once, stores the readiness of every entry in its
    [revents] and changes nothing else. *)
Theorem poll_reports {W} schedule (k : kern W) ptr nfds timeout :
  kern_wf k → 0 < nfds → in_memory k ptr (nfds * 8) →
  let rs := readiness k (poll_entry k ptr <$> seqZ 0 nfds) in
  any_ready rs ∨ timeout = 0 →
  ∃ k', poll schedule k (Args ptr nfds timeout 0 0 0) = Return (count_ready rs, k') ∧
    poll_report k k' ptr rs.
Proof.
  intros Hk Hn Hin rs Hnow. rewrite poll_start by done. simpl. fold rs.
  assert (Z.of_nat (length rs) = nfds) as Hl.
  { subst rs. rewrite readiness_length, length_fmap, length_seqZ. lia. }
  destruct (write_revents_spec k ptr rs) as (k' & Hw & Hrep); [by rewrite Hl|].
  exists k'. split; [|done]. rewrite <- Hw.
  unfold poll_loop. fold rs.
  destruct Hnow as [Hr| ->]; [by rewrite (proj2 (existsb_ready rs) Hr)|by destruct (existsb _ rs)].
Qed.

(** C23: a [poll] that has to wait returns as soon as it can. It returns
    when its timer expires, and when another thread fires one of the
    [Notify]s of the polled descriptors and some descriptor is then ready:
    given a schedule with such a step, it returns at the first one, with the
    count and the report of that moment. (The [Notify]s are those of the pipes
    and sockets named in the array when the call was made.) *)
Theorem poll_wakes_up {W} schedule (k : kern W) ptr nfds timeout n s :
  kern_wf k → 0 < nfds → in_memory k ptr (nfds * 8) → timeout ≠ 0 →
  let es := poll_entry k ptr <$> seqZ 0 nfds in
  let k1 := after k schedule (S n) in
  let rs := readiness k1 es in
  ¬ any_ready (readiness k es) → in_memory k1 ptr (nfds * 8) →
  schedule !! n = Some s → wakes_poll k timeout es (after k schedule n) s →
  (∀ m s, (m < n)%nat → schedule !! m = Some s →
     ¬ wakes_poll k timeout es (after k schedule m) s) →
  ∃ k', poll schedule k (Args ptr nfds timeout 0 0 0) = Return (count_ready rs, k') ∧
    poll_report k1 k' ptr rs.
Proof.
  intros Hk Hn Hin Ht es k1 rs Hnr Hin1 Hs Hw Hno. rewrite poll_start by done. cbv zeta. fold es.
  unfold poll_loop. rewrite not_ready_false by done. rewrite (proj2 (Z.eqb_neq _ _)) by done.
  rewrite (poll_park_first schedule k n ptr timeout es _ s Hs); [|by apply wakes_poll_parked|].
  2: { intros m s' Hm Hs'. rewrite <- wakes_poll_parked by done. by apply Hno. }
  fold k1. fold rs.
  assert (Z.of_nat (length rs) = nfds) as Hl.
  { subst rs es. rewrite readiness_length, length_fmap, length_seqZ. lia. }
  destruct (write_revents_spec k1 ptr rs) as (k' & -> & Hrep); [by rewrite Hl|]. by exists k'.
Qed.

(** ** Witnesses *)

(** The read end of an empty pipe (3) and its write end (4), polled for
    reading and for writing. *)
Definition polled : kern NullHost :=
  let '(rd, wr, h) := make_pipe (k_heap sample_kern) in
  let t := (insert (insert (k_fds sample_kern) (RPipeRead rd)).2 (RPipeWrite wr)).2 in
  mem_put (set_fds (set_heap sample_kern h) t) 64 (encode_pollfd (3, POLLIN) ++ encode_pollfd (4, POLLOUT)).

Lemma polled_wf : kern_wf polled.
Proof.
  unfold polled. destruct (make_pipe (k_heap sample_kern)) as [[rd wr] h] eqn:E.
  destruct (make_pipe_wf _ _ _ _ E (kw_heap _ sample_kern_wf)) as (Hh & Hle & Hrd & He & _).
  apply kern_wf_mem_put.
  - destruct (insert (k_fds sample_kern) (RPipeRead rd)) as [fd1 t1] eqn:E1.
    assert (kern_wf (set_fds (set_heap sample_kern h) t1)) as H1.
    { eapply (kern_wf_insert (set_heap sample_kern h)); [| |exact E1|].
      - apply kern_wf_set_heap; [apply sample_kern_wf|done].
      - done.
      - injection E1 as _ <-. by vm_compute. }
    change ((fd1, t1).2) with t1. destruct (insert t1 (RPipeWrite wr)) as [fd2 t2] eqn:E2.
    apply (kern_wf_insert (set_fds (set_heap sample_kern h) t1) (RPipeWrite wr) fd2 t2); [done| |done|].
    + simpl. by rewrite <- He.
    + injection E1 as _ <-. injection E2 as _ <-. by vm_compute.
  - exists (zero_mem 131072). split_and!; try done.
Qed.

Lemma polled_in_memory ptr len : 0 ≤ ptr → 0 ≤ len → ptr + len ≤ 131072 → in_memory polled ptr len.
Proof. intros. eexists. split; [vm_compute; reflexivity|]. simpl. unfold U64_MAX. lia. Qed.

Lemma poll_reports_witness :
  ∃ k', poll [] polled (Args 64 2 (-1) 0 0 0) = Return (1, k') ∧ poll_report polled k' 64 [0; POLLOUT].
Proof.
  apply (poll_reports [] polled 64 2 (-1)).
  - apply polled_wf.
  - lia.
  - by apply polled_in_memory.
  - left. exists POLLOUT. split; [|done]. right. left.
Defined.

(** Both ends, the write end for no event of its own, and another thread that
    writes four bytes to the pipe. *)
Definition waiting_kern : kern NullHost :=
  mem_put polled 64 (encode_pollfd (3, POLLIN) ++ encode_pollfd (4, 0)).

Lemma waiting_in_memory ptr len : 0 ≤ ptr → 0 ≤ len → ptr + len ≤ 131072 → in_memory waiting_kern ptr len.
Proof. intros. apply in_memory_put; [|by apply polled_in_memory]. by apply polled_in_memory. Qed.

Definition other_write (k : kern NullHost) : kern NullHost := (write (λ k _, (- ENOSYS, k)) k (Args 4 256 4 0 0 0)).2.

Lemma poll_wakes_up_witness :
  ∃ k', poll [(Running, id); (Running, other_write)] waiting_kern (Args 64 2 (-1) 0 0 0) = Return (1, k') ∧
    poll_report (other_write waiting_kern) k' 64 [POLLIN; 0].
Proof.
  apply (poll_wakes_up [(Running, id); (Running, other_write)] waiting_kern 64 2 (-1) 1%nat (Running, other_write)).
  - apply kern_wf_mem_put; [apply polled_wf|]. by apply polled_in_memory.
  - lia.
  - by apply (waiting_in_memory 64 16).
  - lia.
  - intros (r & Hr & H0). vm_compute in Hr. apply elem_of_cons in Hr as [-> |Hr]; [done|].
    apply elem_of_cons in Hr as [-> |[]%elem_of_nil]. done.
  - eexists. split; [vm_compute; reflexivity|]. simpl. unfold U64_MAX. lia.
  - reflexivity.
  - right. split.
    + eexists 4, 0, _, _. split; [right; left|]. split; [vm_compute; reflexivity|].
      split; [apply offers_write|]. vm_compute. left.
    + exists POLLIN. split; [|done]. vm_compute. left.
  - intros [|m] s Hm Hs [[? _]|[(fd & ev & r & n & _ & _ & _ & Hf) _]]; [lia| |lia|lia]. injection Hs as <-.
    vm_compute in Hf. by apply elem_of_nil in Hf.
Defined.

(** ** Deviations *)

(** A regular file is reported readable and writable whatever was asked. *)
Lemma poll_file_ignores_events h t fd l events :
  u32_try_from fd = Some fd → get t fd = Ok (RFile l) → poll_one h t fd events = Z.lor POLLIN POLLOUT.
Proof. intros Hf Hg. unfold poll_one. by rewrite Hf, Hg. Qed.

(** Standard input is reported readable while it is open and empty, and not
    at its end. *)
Lemma poll_stdin_inverted h t p :
  get t 0 = Ok (RStdin p) → buf (pipe_at h (pr_pipe p)) = [] →
  poll_one h t 0 POLLIN = if closed (pipe_at h (pr_pipe p)) then 0 else POLLIN.
Proof. intros Hg Hb. unfold poll_one. simpl. rewrite Hg, Hb. by destruct (closed _). Qed.

(** A [poll] on the read end of a pipe sleeps through a write to the pipe,
    which fires the write end's [Notify]: the pipe is readable by then, and
    without a timeout the poll never returns. *)
Lemma poll_misses_write :
  let k := mem_put polled 64 (encode_pollfd (3, POLLIN)) in
  readiness (other_write k) [(3, POLLIN)] = [POLLIN] ∧
  poll [(Running, other_write)] k (Args 64 1 (-1) 0 0 0) = Hang.
Proof. split; vm_compute; reflexivity. Qed.
