(* ===== verification/SysSelect.v ===== *)
(** * What select reports

    [select] turns its two descriptor sets into a [pollfd] array at guest
    address 8192, polls it and turns the answers back into sets. The theorem
    compares the sets it leaves with what [poll] reports for the same
    descriptors: [select_sets_are_poll]. *)

From S2P Require Import Prelude Word Errno GuestMem Text Path Host Vfs Fd Kernel KernInv SysPoll.

#[local] Arguments to_le_bytes : simpl never.

Lemma testbit_one j : j ≠ 0 → Z.testbit 1 j = false.
Proof.
  intros Hj. destruct (decide (j < 0)); [by apply Z.testbit_neg_r|]. apply Z.bits_above_log2; [done|]. simpl. lia.
Qed.

Section bits.
Context {W : Type}.
Implicit Types k : kern W.

(** Bit [fd] of the set at [set], read from the word it is in. *)
Definition bit_at k (set fd : Z) : bool :=
  match guest_slice k (set + fd / 64 * 8) 8 with
  | Ok b => Z.testbit (from_le_bytes b) (fd mod 64)
  | Err _ => false
  end.

Lemma fd_word fd : 0 ≤ fd < 1024 → 0 ≤ fd / 64 < 16 ∧ 0 ≤ fd mod 64 < 64.
Proof. intros. pose proof (Z.mod_pos_bound fd 64). split; [split; [apply Z.div_pos|apply Z.div_lt_upper_bound]|]; lia. Qed.

Lemma word_in_memory k set fd : in_memory k set 128 → 0 ≤ fd < 1024 → in_memory k (set + fd / 64 * 8) 8.
Proof.
  intros (m & ? & ? & ? & ? & ?) [? ?]%fd_word. exists m. split_and!; try done; lia.
Qed.

Lemma isset_bit k set fd :
  set ≠ 0 → in_memory k set 128 → 0 ≤ fd < 1024 → fd_isset (read_fd_set k set) fd = bit_at k set fd.
Proof.
  intros Hs Hin Hfd. pose proof (fd_word fd Hfd) as [? ?]. unfold fd_isset, read_fd_set, bit_at.
  rewrite (proj2 (Z.eqb_neq _ _) Hs).
  destruct (guest_slice k set (FD_SET_LONGS * 8)) as [b|e] eqn:E.
  - rewrite (guest_slice_sub k set (FD_SET_LONGS * 8) b) by (done || unfold FD_SET_LONGS; lia).
    do 4 f_equal. lia.
  - exfalso. destruct (guest_slice_mut_slice k set (FD_SET_LONGS * 8)) as [[bs Hbs] _].
    + exists set. by apply guest_slice_mut_Ok.
    + congruence.
Qed.

(** Setting a bit. *)
Lemma set_fd_bit_put k set fd b :
  0 ≤ fd < 1024 → guest_slice k (set + fd / 64 * 8) 8 = Ok b →
  set_fd_bit k set fd =
  mem_put k (set + fd / 64 * 8) (to_le_bytes 8 (Z.lor (from_le_bytes b) (Z.shiftl 1 (fd mod 64)))).
Proof.
  intros [Hw _]%fd_word Hb. unfold set_fd_bit, FD_SET_LONGS. rewrite (proj2 (Z.leb_gt _ _)) by lia. by rewrite Hb.
Qed.

Lemma in_memory_slice k p n : in_memory k p n → ∃ b, guest_slice k p n = Ok b.
Proof. intros Hin. apply guest_slice_mut_slice. exists p. by apply guest_slice_mut_Ok. Qed.

Lemma set_fd_bit_in_memory k set fd q n :
  in_memory k set 128 → 0 ≤ fd < 1024 → in_memory (set_fd_bit k set fd) q n ↔ in_memory k q n.
Proof.
  intros Hin Hfd. pose proof (word_in_memory _ _ _ Hin Hfd) as Hw. destruct (in_memory_slice _ _ _ Hw) as [b Hb].
  rewrite (set_fd_bit_put _ _ _ _ Hfd Hb). by apply in_memory_put.
Qed.

Lemma set_fd_bit_frame k set fd q n :
  in_memory k set 128 → 0 ≤ fd < 1024 → disjoint_ranges set 128 q n →
  guest_slice (set_fd_bit k set fd) q n = guest_slice k q n.
Proof.
  intros Hin Hfd Hd. pose proof (word_in_memory _ _ _ Hin Hfd) as Hw. destruct (in_memory_slice _ _ _ Hw) as [b Hb].
  rewrite (set_fd_bit_put _ _ _ _ Hfd Hb). apply guest_slice_put_disjoint; [done|].
  apply fd_word in Hfd as [? ?]. rewrite length_to_le_bytes. unfold disjoint_ranges in *. lia.
Qed.

Lemma set_fd_bit_bits k set fd fd' :
  in_memory k set 128 → 0 ≤ fd < 1024 → 0 ≤ fd' < 1024 →
  bit_at (set_fd_bit k set fd) set fd' = bool_decide (fd' = fd) || bit_at k set fd'.
Proof.
  intros Hin Hfd Hfd'. pose proof (word_in_memory _ _ _ Hin Hfd) as Hw. destruct (in_memory_slice _ _ _ Hw) as [b Hb].
  rewrite (set_fd_bit_put _ _ _ _ Hfd Hb). unfold bit_at.
  pose proof (fd_word _ Hfd) as [? ?]. pose proof (fd_word _ Hfd') as [? ?].
  destruct (decide (fd' / 64 = fd / 64)) as [He|Hne].
  - rewrite He. set (p := set + fd / 64 * 8) in *. set (v := Z.lor _ _).
    pose proof (guest_slice_put_same k p (to_le_bytes 8 v) Hw) as Hs.
    change (Z.of_nat (length (to_le_bytes 8 v))) with 8 in Hs. rewrite Hs, Hb.
    rewrite from_to_le_bytes, Z.mod_pow2_bits_low by lia. subst v. rewrite Z.lor_spec, Z.shiftl_spec by lia.
    rewrite orb_comm. f_equal. case_bool_decide as Hf; [subst; by rewrite Z.sub_diag|].
    apply testbit_one. pose proof (Z.div_mod fd 64). pose proof (Z.div_mod fd' 64). lia.
  - rewrite bool_decide_false by congruence. cbn [orb]. rewrite guest_slice_put_disjoint; [done..|].
    rewrite length_to_le_bytes. unfold disjoint_ranges. lia.
Qed.

Lemma clear_fd_set_put k set : in_memory k set 128 → clear_fd_set k set = mem_put k set (replicate 128 0).
Proof. intros Hin. unfold clear_fd_set. by rewrite (proj2 (guest_slice_mut_Ok k set (FD_SET_LONGS * 8) set)). Qed.

Lemma clear_bits k set fd : in_memory k set 128 → 0 ≤ fd < 1024 → bit_at (clear_fd_set k set) set fd = false.
Proof.
  intros Hin Hfd. rewrite clear_fd_set_put by done. pose proof (fd_word _ Hfd) as [? ?]. unfold bit_at.
  rewrite (guest_slice_sub _ set 128 (replicate 128 0)); [|by apply (guest_slice_put_same k set (replicate 128 0))|lia..].
  rewrite drop_replicate, take_replicate. replace (Nat.min _ _) with 8%nat by lia. apply Z.testbit_0_l.
Qed.

Lemma clear_in_memory k set q n : in_memory k set 128 → in_memory (clear_fd_set k set) q n ↔ in_memory k q n.
Proof. intros Hin. rewrite clear_fd_set_put by done. by apply in_memory_put. Qed.

Lemma clear_frame k set q n :
  in_memory k set 128 → disjoint_ranges set 128 q n → guest_slice (clear_fd_set k set) q n = guest_slice k q n.
Proof. intros Hin Hd. rewrite clear_fd_set_put by done. by apply guest_slice_put_disjoint. Qed.

(** A set that does not overlap another keeps its bits when that changes. *)
Lemma bit_at_frame k k' s t fd :
  (∀ q n, disjoint_ranges t 128 q n → guest_slice k' q n = guest_slice k q n) →
  disjoint_ranges t 128 s 128 → 0 ≤ fd < 1024 → bit_at k' s fd = bit_at k s fd.
Proof.
  intros Hf Hd [? ?]%fd_word. unfold bit_at. rewrite Hf; [done|]. unfold disjoint_ranges in *. lia.
Qed.

(** ** The marks *)

(** Set bit [fd] of one set if wanted; a null set is none. *)
Definition mark_one k (set : Z) (want : bool) (fd : Z) : kern W :=
  if want && negb (set =? 0) then set_fd_bit k set fd else k.

Lemma select_mark_ones rd wr k fd ev r :
  select_mark rd wr k (fd, ev, r) =
  mark_one (mark_one k rd (has r POLLIN && has ev POLLIN) fd) wr (has r POLLOUT && has ev POLLOUT) fd.
Proof. unfold select_mark, mark_one. destruct (r =? 0) eqn:E; [|done]. to_prop. by subst. Qed.

(** Both sets are in memory and apart. *)
Record sets_ok k (rd wr : Z) : Prop := {
  sk_rd : rd ≠ 0 → in_memory k rd 128;
  sk_wr : wr ≠ 0 → in_memory k wr 128;
  sk_apart : rd ≠ 0 → wr ≠ 0 → disjoint_ranges rd 128 wr 128;
}.

Lemma sets_ok_swap k rd wr : sets_ok k rd wr → sets_ok k wr rd.
Proof. intros [? ? Hd]. split; try done. intros ? ?. destruct (Hd ltac:(done) ltac:(done)); [by right|by left]. Qed.

Lemma mark_one_in_memory k rd wr w fd q n :
  sets_ok k rd wr → 0 ≤ fd < 1024 → in_memory (mark_one k rd w fd) q n ↔ in_memory k q n.
Proof. intros Hs Hfd. unfold mark_one. case_if; [|done]. apply set_fd_bit_in_memory; [by apply Hs|done]. Qed.

Lemma mark_one_sets k rd wr w fd : sets_ok k rd wr → 0 ≤ fd < 1024 → sets_ok (mark_one k rd w fd) rd wr.
Proof.
  intros Hs Hfd. pose proof Hs as [Hr Hw Hd].
  split; [intros Hne|intros Hne|done]; apply (mark_one_in_memory k rd wr); auto.
Qed.

Lemma mark_one_bits k rd wr w fd fd' :
  sets_ok k rd wr → 0 ≤ fd < 1024 → 0 ≤ fd' < 1024 →
  (rd ≠ 0 → bit_at (mark_one k rd w fd) rd fd' = (bool_decide (fd' = fd) && w) || bit_at k rd fd') ∧
  (wr ≠ 0 → bit_at (mark_one k rd w fd) wr fd' = bit_at k wr fd').
Proof.
  intros [Hr Hw Hd] Hfd Hfd'. unfold mark_one. split; intros Hne.
  - rewrite (proj2 (Z.eqb_neq _ _) Hne). destruct w; cbn [andb negb]; [|by rewrite andb_false_r].
    rewrite andb_true_r. by apply set_fd_bit_bits; [apply Hr|..].
  - case_if; [|done]. specialize (Hr ltac:(done)).
    eapply bit_at_frame; [intros q n ?; by apply set_fd_bit_frame|by apply Hd|done].
Qed.

(** The entries that set the bit of a descriptor. *)
Definition marks (bit fd' : Z) (l : list (Z * Z * Z)) : bool :=
  existsb (λ e, bool_decide (fd' = e.1.1) && (has e.2 bit && has e.1.2 bit)) l.

Lemma select_marks_bits l rd wr : ∀ k fd',
  sets_ok k rd wr → Forall (λ e, 0 ≤ e.1.1 < 1024) l → 0 ≤ fd' < 1024 →
  let k' := foldl (select_mark rd wr) k l in
  (rd ≠ 0 → bit_at k' rd fd' = marks POLLIN fd' l || bit_at k rd fd') ∧
  (wr ≠ 0 → bit_at k' wr fd' = marks POLLOUT fd' l || bit_at k wr fd') ∧
  (∀ q n, in_memory k' q n ↔ in_memory k q n).
Proof.
  induction l as [|[[fd ev] r] l IH]; intros k fd' Hs Hl Hfd'; [done|]. apply Forall_cons in Hl as [Hfd Hl].
  cbn [foldl marks existsb fst snd] in *. rewrite select_mark_ones. set (k1 := mark_one k rd _ fd).
  set (k2 := mark_one k1 wr _ fd).
  assert (sets_ok k1 rd wr) as Hs1 by by apply mark_one_sets.
  assert (sets_ok k2 rd wr) as Hs2 by (apply sets_ok_swap, mark_one_sets; [by apply sets_ok_swap|done]).
  destruct (IH k2 fd' Hs2 Hl Hfd') as (Hr & Hw & Hm).
  destruct (mark_one_bits k rd wr (has r POLLIN && has ev POLLIN) fd fd' Hs Hfd Hfd') as [Hb1 Hb2].
  destruct (mark_one_bits k1 wr rd (has r POLLOUT && has ev POLLOUT) fd fd' (sets_ok_swap _ _ _ Hs1) Hfd Hfd') as [Hb3 Hb4].
  fold k1 in Hb1, Hb2. fold k2 in Hb3, Hb4. split_and!.
  - intros Hne. rewrite Hr, Hb4, Hb1 by done. fold (marks POLLIN fd' l). rewrite orb_assoc. f_equal. apply orb_comm.
  - intros Hne. rewrite Hw, Hb3, Hb2 by done. fold (marks POLLOUT fd' l). rewrite orb_assoc. f_equal. apply orb_comm.
  - intros q n. rewrite Hm. unfold k2. rewrite (mark_one_in_memory k1 wr rd); [|by apply sets_ok_swap|done].
    by apply (mark_one_in_memory k rd wr).
Qed.

End bits.

(** ** The scratch array *)

Section scratch.
Context {W : Type}.
Implicit Types k : kern W.

(** The events a descriptor is polled for. *)
Definition select_events k (rd wr fd : Z) : Z :=
  Z.lor (if fd_isset (read_fd_set k rd) fd then POLLIN else 0)
        (if fd_isset (read_fd_set k wr) fd then POLLOUT else 0).

Lemma select_entries_elem k nfds rd wr fd ev :
  (fd, ev) ∈ select_entries k nfds rd wr ↔
  0 ≤ fd < nfds ∧ fd < 1024 ∧ ev = select_events k rd wr fd ∧
  (fd_isset (read_fd_set k rd) fd = true ∨ fd_isset (read_fd_set k wr) fd = true).
Proof.
  assert (∀ x, 0 ≤ x → 16 ≤ x / 64 ↔ 1024 ≤ x) as Hdiv.
  { intros x Hx. split; intros ?.
    - destruct (decide (1024 ≤ x)); [done|]. pose proof (Z.div_lt_upper_bound x 64 16). lia.
    - apply Z.div_le_lower_bound; lia. }
  unfold select_entries. rewrite list_elem_of_bind. split.
  - intros (x & Hin & Hx). apply elem_of_seqZ in Hx. unfold FD_SET_LONGS in Hin.
    destruct (16 <=? x / 64) eqn:E; to_prop; [by apply elem_of_nil in Hin|].
    destruct (_ || _) eqn:Eo; [|by apply elem_of_nil in Hin].
    apply list_elem_of_singleton in Hin as [= -> ->]. pose proof (Hdiv x). to_prop. split_and!; [lia..|done|done].
  - intros (Hfd & Hlt & -> & Hor). exists fd. split; [|apply elem_of_seqZ; lia].
    unfold FD_SET_LONGS. rewrite (proj2 (Z.leb_gt 16 _)) by (pose proof (Hdiv fd); lia).
    rewrite (proj2 (orb_true_iff _ _) Hor). apply list_elem_of_singleton. done.
Qed.

Lemma select_events_has k rd wr fd :
  has (select_events k rd wr fd) POLLIN = fd_isset (read_fd_set k rd) fd ∧
  has (select_events k rd wr fd) POLLOUT = fd_isset (read_fd_set k wr) fd.
Proof. unfold select_events. by destruct (fd_isset _ _), (fd_isset _ _). Qed.

Lemma poll_one_i16 k rd wr h t fd : is_i 16 (poll_one h t fd (select_events k rd wr fd)).
Proof.
  unfold select_events, poll_one, ready_pipe_read, ready_socket.
  destruct (fd_isset _ _), (fd_isset _ _); repeat case_match; split; by vm_compute.
Qed.

Lemma length_encode_pollfd e : length (encode_pollfd e) = 8%nat.
Proof. done. Qed.

(** Polling the scratch array is polling the entries written to it. *)
Lemma scratch_entries k base es :
  in_memory k base (Z.of_nat (length es) * 8) → Forall (λ e, is_i 32 e.1 ∧ is_i 16 e.2) es →
  poll_entry (mem_put k base (concat (encode_pollfd <$> es))) base <$> seqZ 0 (Z.of_nat (length es)) = es.
Proof.
  intros Hin Hes. set (bs := concat (encode_pollfd <$> es)).
  assert (Z.of_nat (length bs) = Z.of_nat (length es) * 8) as Hbl.
  { subst bs. rewrite (length_concat_records encode_pollfd 8) by apply length_encode_pollfd. lia. }
  apply list_eq. intros i. rewrite list_lookup_fmap.
  destruct (es !! i) as [[fd ev]|] eqn:Ei.
  - pose proof (lookup_lt_Some _ _ _ Ei) as Hi. rewrite lookup_seqZ_lt by lia. cbn [fmap option_fmap option_map].
    f_equal. unfold poll_entry, POLLFD_SIZE.
    rewrite (guest_slice_sub _ base (Z.of_nat (length bs)) bs);
      [|apply guest_slice_put_same; by rewrite Hbl|lia..].
    replace (Z.to_nat (base + (0 + Z.of_nat i) * 8 - base)) with (i * 8)%nat by lia. change (Z.to_nat 8) with 8%nat.
    subst bs. rewrite (concat_record encode_pollfd 8 es i (fd, ev) length_encode_pollfd Ei).
    rewrite Forall_lookup in Hes. apply Hes in Ei as [Hf He]. cbn [fst snd] in Hf, He.
    unfold encode_pollfd. cbn [fst snd].
    rewrite take_app_le by (rewrite length_to_le_bytes; lia). rewrite take_ge by (rewrite length_to_le_bytes; lia).
    rewrite drop_app_length' by (by rewrite length_to_le_bytes).
    rewrite take_app_le by (rewrite length_to_le_bytes; lia). rewrite take_ge by (rewrite length_to_le_bytes; lia).
    f_equal; [by apply (from_to_le_bytes_s 4); [lia|]|by apply (from_to_le_bytes_s 2); [lia|]].
  - apply lookup_ge_None in Ei. by rewrite lookup_ge_None_2 by (rewrite length_seqZ; lia).
Qed.

(** Reading the answers back. *)
Lemma revents_back k1 k2 base (es : list (Z * Z)) rs bs :
  poll_report k1 k2 base rs → length rs = length es → Forall (is_i 16) rs →
  guest_slice k2 base (Z.of_nat (length es) * POLLFD_SIZE) = Ok bs →
  imap (λ i e, (e, from_le_bytes_i 16 (take 2 (drop (i * 8 + 6) bs)))) es = zip es rs.
Proof.
  intros Hrep Hl Hrs Hbs. apply list_eq. intros i. rewrite list_lookup_imap, lookup_zip_with.
  destruct (es !! i) as [e|] eqn:Ei; [|done]. pose proof (lookup_lt_Some _ _ _ Ei) as Hi. cbn.
  destruct (rs !! i) as [r|] eqn:Er; [|apply lookup_ge_None in Er; lia]. cbn. do 2 f_equal.
  pose proof (pr_entry _ _ _ _ Hrep i r Er) as He.
  rewrite (guest_slice_sub k2 base _ bs _ _ Hbs) in He by (unfold POLLFD_SIZE; lia).
  replace (Z.to_nat (base + Z.of_nat i * 8 + 6 - base)) with (i * 8 + 6)%nat in He by lia.
  injection He as He. change (Z.to_nat 2) with 2%nat in He. rewrite He. rewrite Forall_lookup in Hrs.
  by apply (from_to_le_bytes_s 2); [lia|eapply Hrs].
Qed.

(** The sets [select_finish] leaves. *)
Lemma select_finish_sets k1 k2 base es rs rd wr r bs :
  poll_report k1 k2 base rs → length rs = length es → Forall (is_i 16) rs →
  Forall (λ e, 0 ≤ e.1 < 1024) es → guest_slice k2 base (Z.of_nat (length es) * POLLFD_SIZE) = Ok bs →
  sets_ok k2 rd wr → 0 ≤ r →
  ∃ k', select_finish k2 base es rd wr r = (r, k') ∧
  ∀ fd, 0 ≤ fd < 1024 →
    (rd ≠ 0 → fd_isset (read_fd_set k' rd) fd = marks POLLIN fd (zip es rs)) ∧
    (wr ≠ 0 → fd_isset (read_fd_set k' wr) fd = marks POLLOUT fd (zip es rs)).
Proof.
  intros Hrep Hl Hrs Hes Hbs Hs Hr. unfold select_finish. rewrite (proj2 (Z.ltb_ge r 0)), Hbs by lia.
  rewrite (revents_back k1 k2 base es rs bs) by done.
  set (ka := if rd =? 0 then k2 else clear_fd_set k2 rd). set (kb := if wr =? 0 then ka else clear_fd_set ka wr).
  assert (∀ q n, in_memory ka q n ↔ in_memory k2 q n) as Hma.
  { intros q n. subst ka. case_if; [done|]. apply clear_in_memory. by apply Hs. }
  assert (∀ q n, in_memory kb q n ↔ in_memory k2 q n) as Hmb.
  { intros q n. subst kb. rewrite <- Hma. case_if; [done|]. apply clear_in_memory, Hma. by apply Hs. }
  assert (sets_ok kb rd wr) as Hsb by (destruct Hs; split; [intros ?; apply Hmb; auto..|done]).
  eexists. split; [done|]. intros fd Hfd.
  assert (Forall (λ e, 0 ≤ e.1.1 < 1024) (zip es rs)) as Hz.
  { apply Forall_forall. intros [e x] Hin%elem_of_zip_l. by apply (proj1 (Forall_forall _ _) Hes). }
  destruct (select_marks_bits (zip es rs) rd wr kb fd Hsb Hz Hfd) as (Hbr & Hbw & Hm). split; intros Hne.
  - rewrite isset_bit; [|done|apply Hm, Hsb; done|done]. rewrite Hbr by done.
    enough (bit_at kb rd fd = false) as -> by apply orb_false_r. subst kb. case_if.
    + subst ka. rewrite (proj2 (Z.eqb_neq _ _) Hne). apply clear_bits; [by apply Hs|done].
    + erewrite bit_at_frame; [|intros q n ?; apply clear_frame; [apply Hma; by apply Hs|done]| |done].
      * subst ka. rewrite (proj2 (Z.eqb_neq _ _) Hne). apply clear_bits; [by apply Hs|done].
      * apply (sk_apart _ _ _ (sets_ok_swap _ _ _ Hs)); done.
  - rewrite isset_bit; [|done|apply Hm, Hsb; done|done]. rewrite Hbw by done.
    enough (bit_at kb wr fd = false) as -> by apply orb_false_r. subst kb.
    rewrite (proj2 (Z.eqb_neq _ _) Hne). apply clear_bits; [apply Hma; by apply Hs|done].
Qed.

End scratch.

Section select.
Context {W : Type}.
Implicit Types k : kern W.

(** Which descriptors are marked, in closed form. *)
Lemma marks_entries k nfds rd wr bit fd :
  bit = POLLIN ∨ bit = POLLOUT → 0 ≤ fd < 1024 →
  let es := select_entries k nfds rd wr in
  marks bit fd (zip es (readiness k es)) =
  (fd <? nfds) && has (select_events k rd wr fd) bit &&
  has (poll_one (k_heap k) (k_fds k) fd (select_events k rd wr fd)) bit.
Proof.
  intros Hbit Hfd es. apply eq_true_iff_eq. unfold marks. rewrite existsb_exists, !andb_true_iff.
  pose proof (select_events_has k rd wr fd) as [Hrd Hwr]. split.
  - intros ([[x ev] r] & Hin & Hc). rewrite <- list_elem_of_In in Hin. cbn [fst snd] in Hc. to_prop.
    apply list_elem_of_lookup in Hin as [i Hi]. apply lookup_zip_with_Some in Hi as (e & r' & Hz & He & Hr).
    injection Hz as <- <-.
    unfold readiness in Hr. rewrite list_lookup_fmap, He in Hr. injection Hr as <-. cbn [fst snd] in *.
    apply list_elem_of_lookup_2, select_entries_elem in He as (? & ? & -> & _). subst.
    split_and!; [apply Z.ltb_lt; lia|done|done].
  - intros [[Hn Hev] Hr]. to_prop. assert ((fd, select_events k rd wr fd) ∈ es) as He.
    { apply select_entries_elem. split_and!; [lia..|done|]. destruct Hbit; subst bit; [left|right]; congruence. }
    apply list_elem_of_lookup in He as [i Hi].
    exists ((fd, select_events k rd wr fd), poll_one (k_heap k) (k_fds k) fd (select_events k rd wr fd)).
    split; [|cbn [fst snd]; by rewrite bool_decide_true, Hr, Hev].
    rewrite <- list_elem_of_In. apply list_elem_of_lookup. exists i. apply lookup_zip_with_Some.
    eexists _, _. split_and!; [done|done|]. unfold readiness. by rewrite list_lookup_fmap, Hi.
Qed.

Lemma select_entries_ranges k nfds rd wr :
  Forall (λ e, 0 ≤ e.1 < 1024) (select_entries k nfds rd wr) ∧
  Forall (λ e, is_i 32 e.1 ∧ is_i 16 e.2) (select_entries k nfds rd wr) ∧
  Forall (is_i 16) (readiness k (select_entries k nfds rd wr)).
Proof.
  split_and!.
  - apply Forall_forall. intros [fd ev] (? & ? & _)%select_entries_elem. simpl. lia.
  - apply Forall_forall. intros [fd ev] (? & ? & -> & _)%select_entries_elem. simpl. split; [unfold is_i; lia|].
    unfold select_events. destruct (fd_isset _ _), (fd_isset _ _); split; by vm_compute.
  - apply Forall_forall. unfold readiness. intros r ([fd ev] & -> & He)%list_elem_of_fmap.
    apply select_entries_elem in He as (_ & _ & -> & _). apply poll_one_i16.
Qed.

End select.

(** ** Theorems *)

(** C24: [select] reports what [poll] reports. With the two sets in memory and
    apart, if some descriptor asked about is ready or the timeout is zero, the
    call returns at once, with the number of descriptors [poll] finds ready.
    Afterwards the bit of a descriptor is set in the read set exactly when it
    was set before, the descriptor is below [nfds] and [poll] reports [POLLIN]
    for it, and likewise for the write set and [POLLOUT]. *)
Theorem select_sets_are_poll {W} schedule (k : kern W) nfds rd wr except tp x timeout :
  kern_wf k → 0 < nfds < 2 ^ 31 → sets_ok k rd wr →
  let es := select_entries k nfds rd wr in
  let scratch := mem_put k 8192 (concat (encode_pollfd <$> es)) in
  let rs := readiness k es in
  let ready fd := poll_one (k_heap k) (k_fds k) fd (select_events k rd wr fd) in
  es ≠ [] → in_memory k 8192 (Z.of_nat (length es) * 8) →
  timeval_ms scratch tp = Ok timeout → any_ready rs ∨ timeout = 0 →
  ∃ k', select schedule k (Args nfds rd wr except tp x) = Return (count_ready rs, k') ∧
    ∀ fd, 0 ≤ fd < 1024 →
      (rd ≠ 0 → fd_isset (read_fd_set k' rd) fd =
         (fd <? nfds) && fd_isset (read_fd_set k rd) fd && has (ready fd) POLLIN) ∧
      (wr ≠ 0 → fd_isset (read_fd_set k' wr) fd =
         (fd <? nfds) && fd_isset (read_fd_set k wr) fd && has (ready fd) POLLOUT).
Proof.
  intros Hk Hn Hs es scratch rs ready Hne Hin Ht Hnow.
  destruct (select_entries_ranges k nfds rd wr) as (Hes & Hesi & Hrsi). fold es rs in Hes, Hesi, Hrsi.
  assert (Z.of_nat (length (concat (encode_pollfd <$> es))) = Z.of_nat (length es) * 8) as Hbl.
  { rewrite (length_concat_records encode_pollfd 8) by apply length_encode_pollfd. lia. }
  assert (kern_wf scratch) as Hkw by (apply kern_wf_mem_put; [done|by rewrite Hbl]).
  assert (∀ q n, in_memory scratch q n ↔ in_memory k q n) as Hmem by (intros; apply in_memory_put; by rewrite Hbl).
  assert (k_fds scratch = k_fds k ∧ k_heap scratch = k_heap k) as [Hfds Hheap].
  { unfold scratch, mem_put. by destruct (k_memory k) as [[]|]. }
  assert (0 < Z.of_nat (length es)) as Hlen by (destruct es; [done|simpl; lia]).
  unfold select. cbn [a0 a1 a2 a4]. unfold i32_try_from.
  rewrite (proj2 (andb_true_iff _ _)) by lia. rewrite (proj2 (Z.ltb_ge nfds 0)), (proj2 (Z.eqb_neq nfds 0)) by lia.
  fold es. rewrite bool_decide_false by done.
  rewrite (proj2 (guest_write_Ok k 8192 _ scratch)) by (split; [by rewrite Hbl|done]). rewrite Ht.
  pose proof (poll_reports schedule scratch 8192 (Z.of_nat (length es)) timeout Hkw Hlen) as Hp.
  unfold scratch in Hp at 3. rewrite scratch_entries in Hp by done. cbv zeta in Hp.
  assert (readiness scratch es = rs) as Hrs by (unfold rs, readiness; by rewrite Hfds, Hheap).
  rewrite Hrs in Hp. destruct Hp as (k2 & -> & Hrep); [by apply Hmem|done|].
  assert (∀ q n, in_memory k2 q n ↔ in_memory k q n) as Hm2 by (intros; by rewrite (pr_mem _ _ _ _ Hrep), Hmem).
  destruct (in_memory_slice k2 8192 (Z.of_nat (length es) * POLLFD_SIZE)) as [bs Hbs]; [by apply Hm2|].
  destruct (select_finish_sets scratch k2 8192 es rs rd wr (count_ready rs) bs) as (k' & Hfin & Hsets); try done.
  - apply readiness_length.
  - destruct Hs. split; [intros ?; apply Hm2; auto..|done].
  - unfold count_ready. lia.
  - exists k'. split; [by rewrite Hfin|]. intros fd Hfd. destruct (Hsets fd Hfd) as [Hr Hw].
    pose proof (select_events_has k rd wr fd) as [Her Hew].
    split; intros H0; [rewrite Hr, <- Her by done|rewrite Hw, <- Hew by done]; apply marks_entries; auto.
Qed.

(** ** Witnesses *)

(** The two ends of an empty pipe: the read end (3) in the set at 256, the
    write end (4) in the set at 512. *)
Definition selecting : kern NullHost := mem_put (mem_put polled 256 [8]) 512 [16].

Lemma selecting_in_memory ptr len : 0 ≤ ptr → 0 ≤ len → ptr + len ≤ 131072 → in_memory selecting ptr len.
Proof. intros. eexists. split; [vm_compute; reflexivity|]. simpl. unfold U64_MAX. lia. Qed.

Lemma selecting_wf : kern_wf selecting.
Proof.
  apply kern_wf_mem_put; [apply kern_wf_mem_put; [apply polled_wf|by apply polled_in_memory]|].
  apply in_memory_put; by apply polled_in_memory.
Qed.

Lemma select_sets_are_poll_witness :
  ∃ k', select [] selecting (Args 5 256 512 0 0 0) = Return (1, k') ∧
    ∀ fd, 0 ≤ fd < 1024 →
      (256 ≠ 0 → fd_isset (read_fd_set k' 256) fd =
         (fd <? 5) && fd_isset (read_fd_set selecting 256) fd &&
         has (poll_one (k_heap selecting) (k_fds selecting) fd (select_events selecting 256 512 fd)) POLLIN) ∧
      (512 ≠ 0 → fd_isset (read_fd_set k' 512) fd =
         (fd <? 5) && fd_isset (read_fd_set selecting 512) fd &&
         has (poll_one (k_heap selecting) (k_fds selecting) fd (select_events selecting 256 512 fd)) POLLOUT).
Proof.
  apply (select_sets_are_poll [] selecting 5 256 512 0 0 0 (-1)).
  - apply selecting_wf.
  - lia.
  - split; [intros _; by apply selecting_in_memory..|]. intros _ _. left. lia.
  - by vm_compute.
  - apply selecting_in_memory; vm_compute; congruence.
  - reflexivity.
  - left. exists POLLOUT. split; [|done]. vm_compute. right. left.
Defined.

(** ** Deviations *)

(** A descriptor that is not open is counted although no bit is left for it,
    and one that is ready in both sets is counted once: the count is that of
    [poll], not the number of bits. *)
Lemma select_counts_closed :
  match select [] (mem_put sample_kern 256 [128]) (Args 8 256 0 0 0 0) with
  | Return (r, k') => r = 1 ∧ fd_isset (read_fd_set k' 256) 7 = false
  | _ => False
  end.
Proof. vm_compute. done. Qed.
