(* ===== verification/SysEpoll.v ===== *)
(** * epoll (src/sys/epoll.rs)

    The interest list of an instance is a hash map; [order] is the order in
    which it is iterated. A wait that finds nothing ready sleeps once: [park]
    is what the other threads do to the state meanwhile, or [None] when the
    sleep never ends. *)

From S2P Require Import Prelude Word Errno GuestMem Text Path Host Vfs Udp Fd Futex Kernel KernInv SysPoll.

Definition EPOLL_CTL_ADD : Z := 1.
Definition EPOLL_CTL_MOD : Z := 3.
Definition EPOLL_CTL_DEL : Z := 2.
Definition EPOLLIN : Z := 1.
Definition EPOLLPRI : Z := 2.
Definition EPOLLOUT : Z := 4.
Definition EPOLLERR : Z := 8.
Definition EPOLLHUP : Z := 16.
Definition EPOLL_EVENT_SIZE : Z := 12.

(** Readiness of a descriptor in epoll's terms. *)
Definition compute_revents (h : heap) (t : FdTable) (fd requested : Z) : Z :=
  let want_in := has requested EPOLLIN in
  let want_out := has requested EPOLLOUT in
  let out_if b := if want_out then if b : bool then EPOLLOUT else EPOLLERR else 0 in
  match get t fd with
  | Err _ => Z.lor EPOLLERR EPOLLHUP
  | Ok (RSocket l) =>
    let s := sock_at h l in
    let has_stream := bool_decide (is_Some (stream s)) in
    let r := if want_in
             then if has_stream then EPOLLIN else if is_listening s then EPOLLIN else EPOLLERR
             else 0 in
    Z.lor r (out_if has_stream)
  | Ok (RPipeRead p) | Ok (RStdin p) =>
    let c := pipe_at h (pr_pipe p) in
    if want_in && (negb (bool_decide (buf c = [])) || closed c) then EPOLLIN else 0
  | Ok (RPipeWrite _) | Ok (RStdout _) | Ok (RStderr _) => if want_out then EPOLLOUT else 0
  | Ok (RFile _) => Z.lor (if want_in then EPOLLIN else 0) (if want_out then EPOLLOUT else 0)
  | Ok (REventFd _) => if want_in then EPOLLIN else 0
  | Ok (REpoll _) => EPOLLERR
  end.

(** Does a wait on these [Notify]s end, given the notifications that arrive
    while it runs? Up to four are raced; more are raced four at a time, one
    batch after the other. *)
Fixpoint batch_fires (batch evs : list Z) : option (list Z) :=
  match evs with
  | [] => None
  | e :: evs => if bool_decide (e ∈ batch) then Some evs else batch_fires batch evs
  end.

Fixpoint wait_batches (fuel : nat) (ns evs : list Z) : bool :=
  match ns, fuel with
  | [], _ => true
  | _, O => false
  | _, S fuel =>
    match batch_fires (take 4 ns) evs with
    | Some evs => wait_batches fuel (drop 4 ns) evs
    | None => false
    end
  end.

Definition wait_any (ns evs : list Z) : bool :=
  match ns with [] => false | _ => wait_batches (length ns) ns evs end.

(** One [struct epoll_event]. *)
Definition encode_event (e : EpollEntry * Z) : bytes :=
  to_le_bytes 4 e.2 ++ to_le_bytes 8 (ee_data e.1).

Definition decode_event (bs : bytes) : Z * Z :=
  (from_le_bytes (take 4 bs), from_le_bytes (take 8 (drop 4 bs))).

Section syscalls.
Context {W : Type}.
Context (order : gmap Z EpollEntry → list EpollEntry).
Implicit Types k : kern W.

Definition epoll_create1 k (_ : args) : Z * kern W :=
  let '(n, h) := new_notify (k_heap k) in
  let '(fd, t) := insert (k_fds k) (REpoll (MkEpoll ∅ n None)) in
  (fd, set_fds (set_heap k h) t).

(** The [Notify] pair of a watched descriptor; a placeholder unless it is a
    socket. *)
Definition target_wakes k (fd : Z) : Z * Z * kern W :=
  match get (k_fds k) fd with
  | Ok (RSocket l) => (notify_read (sock_at (k_heap k) l), notify_write (sock_at (k_heap k) l), k)
  | _ => let '(n, h) := new_notify (k_heap k) in (n, n, set_heap k h)
  end.

(** Which [Notify] an entry is woken by. *)
Definition pick_wake (events wake_read wake_write cancel : Z) : Z :=
  if has events EPOLLIN then wake_read
  else if has events EPOLLOUT then wake_write
  else cancel.

(** Replace the interest list of an instance and cancel a pending wait. *)
Definition put_entries k (epfd : Z) (e : EpollInner) (m : gmap Z EpollEntry) : kern W :=
  let k := set_fds k (put (k_fds k) epfd (REpoll (MkEpoll m (cancel e) (self_event_fd e)))) in
  set_heap k (notify_waiters (k_heap k) (cancel e)).

Definition epoll_ctl k (a : args) : Z * kern W :=
  match u32_try_from (a0 a) with
  | None => (- EBADF, k)
  | Some epfd =>
    let op := as_i32 (a1 a) in
    match u32_try_from (a2 a) with
    | None => (- EBADF, k)
    | Some fd =>
      match get (k_fds k) epfd with
      | Err e => (e, k)
      | Ok (REpoll e) =>
        let contains_fd := bool_decide (is_Some (entries e !! fd)) in
        let '(wake_read, wake_write, k) := target_wakes k fd in
        if (op =? EPOLL_CTL_ADD) || (op =? EPOLL_CTL_MOD) then
          let! event := guest_slice k (a3 a) EPOLL_EVENT_SIZE on k;
          let '(events, data) := decode_event event in
          if (op =? EPOLL_CTL_ADD) && contains_fd then (- EEXIST, k)
          else if (op =? EPOLL_CTL_MOD) && negb contains_fd then (- ENOENT, k)
          else
            let wake := pick_wake events wake_read wake_write (cancel e) in
            (0, put_entries k epfd e (<[fd := MkEpollEntry fd events data wake]> (entries e)))
        else if op =? EPOLL_CTL_DEL then
          if negb contains_fd then (- ENOENT, k)
          else (0, put_entries k epfd e (delete fd (entries e)))
        else (- EINVAL, k)
      | Ok _ => (- EBADF, k)
      end
    end
  end.

(** Entries with something to report, in iteration order. *)
Definition snapshot_readiness k (m : gmap Z EpollEntry) : list (EpollEntry * Z) :=
  filter (λ e, e.2 ≠ 0)
    ((λ e, (e, compute_revents (k_heap k) (k_fds k) (ee_fd e) (ee_events e))) <$> order m).

Definition pack_events k (events_ptr maxevents : Z) (ready : list (EpollEntry * Z)) : Z * kern W :=
  let count := Z.min (Z.of_nat (length ready)) maxevents in
  let bs := concat (encode_event <$> take (Z.to_nat count) ready) in
  let! kw := guest_write k events_ptr bs on k;
  (count, kw).

Definition epoll_wait (park : option (kern W → kern W)) k (a : args) : outcome (Z * kern W) :=
  match u32_try_from (a0 a) with
  | None => Return (- EBADF, k)
  | Some epfd =>
    let events_ptr := a1 a in
    match usize_try_from (a2 a) with
    | None => Return (- EINVAL, k)
    | Some maxevents =>
      let timeout_ms := a3 a in
      if maxevents =? 0 then Return (- EINVAL, k)
      else match guest_slice_mut k events_ptr (as_i64 (as_usize (maxevents * EPOLL_EVENT_SIZE))) with
      | Err e => Return (e, k)
      | Ok _ =>
        match get (k_fds k) epfd with
        | Err e => Return (e, k)
        | Ok (REpoll ep) =>
          let m := entries ep in
          if bool_decide (m = ∅) then
            if 0 <? timeout_ms then
              match park with Some sleep => Return (0, sleep k) | None => Hang end
            else Return (0, k)
          else
            let immediate := snapshot_readiness k m in
            if negb (bool_decide (immediate = [])) then Return (pack_events k events_ptr maxevents immediate)
            else match park with
            | None => Hang
            | Some sleep =>
              let k := sleep k in
              Return (pack_events k events_ptr maxevents (snapshot_readiness k m))
            end
        | Ok _ => Return (- EBADF, k)
        end
      end
    end
  end.

Definition epoll_pwait (park : option (kern W → kern W)) k (a : args) : outcome (Z * kern W) :=
  match u32_try_from (a0 a) with
  | None => Return (- EBADF, k)
  | Some epfd =>
    match usize_try_from (a2 a) with
    | None => Return (- EINVAL, k)
    | Some maxevents =>
      if maxevents =? 0 then Return (- EINVAL, k)
      else match timespec_ms k (a3 a) with
      | Err e => Return (e, k)
      | Ok timeout_ms => epoll_wait park k (Args epfd (a1 a) maxevents timeout_ms 0 0)
      end
    end
  end.

End syscalls.

(** ** Facts *)

(** What a guest sees of an instance: the events and the data word of each
    watched descriptor. *)
Definition watched {W} (k : kern W) (epfd : Z) : option (gmap Z (Z * Z)) :=
  match table (k_fds k) !! epfd with
  | Some (REpoll e) => Some ((λ x, (ee_events x, ee_data x)) <$> entries e)
  | _ => None
  end.

(** The event a guest passed, or the error of reading it. *)
Definition passed_event {W} (k : kern W) (ptr : Z) : result (Z * Z) :=
  bs <-? guest_slice k ptr 12;
  Ok (decode_event bs).

(** The interest list as a finite map: what [epoll_ctl] does to it. Only adding
    and modifying look at the event. *)
Definition ctl_spec (op fd : Z) (ev : result (Z * Z)) (m : gmap Z (Z * Z)) : Z * gmap Z (Z * Z) :=
  if op =? EPOLL_CTL_ADD then
    match ev, m !! fd with Err e, _ => (e, m) | _, Some _ => (- EEXIST, m) | Ok ev, None => (0, <[fd := ev]> m) end
  else if op =? EPOLL_CTL_MOD then
    match ev, m !! fd with Err e, _ => (e, m) | Ok ev, Some _ => (0, <[fd := ev]> m) | _, None => (- ENOENT, m) end
  else if op =? EPOLL_CTL_DEL then
    match m !! fd with Some _ => (0, delete fd m) | None => (- ENOENT, m) end
  else (- EINVAL, m).

Section facts.
Context {W : Type}.
Context (order : gmap Z EpollEntry → list EpollEntry).
Implicit Types k : kern W.

Lemma target_wakes_state k fd wr ww k' :
  target_wakes k fd = (wr, ww, k') →
  k_fds k' = k_fds k ∧ k_memory k' = k_memory k ∧
  (kern_wf k → kern_wf k').
Proof.
  unfold target_wakes. intros Ht.
  assert (∀ n h, new_notify (k_heap k) = (n, h) → kern_wf k → kern_wf (set_heap k h)) as Hn.
  { intros n h Hn Hk. apply kern_wf_set_heap; [done|]. eapply new_notify_wf; [done|by apply kw_heap]. }
  destruct (get (k_fds k) fd) as [[]|]; simplify_eq/=; split_and!; try done; eauto.
Qed.

Lemma watched_put k epfd e m :
  watched (put_entries k epfd e m) epfd = Some ((λ x, (ee_events x, ee_data x)) <$> m).
Proof. unfold watched, put_entries. simpl. by rewrite lookup_insert_eq. Qed.

Lemma put_entries_other k epfd e m fd :
  fd ≠ epfd → get (k_fds (put_entries k epfd e m)) fd = get (k_fds k) fd.
Proof. intros. unfold get, put_entries. simpl. by rewrite lookup_insert_ne. Qed.

(** [epoll_ctl] implements [ctl_spec]. *)
Lemma epoll_ctl_refines k epfd op fd ptr m :
  is_u 32 epfd → is_u 32 fd → as_i32 op = op → watched k epfd = Some m →
  let '(r, m') := ctl_spec op fd (passed_event k ptr) m in
  ∃ k', epoll_ctl k (Args epfd op fd ptr 0 0) = (r, k') ∧ watched k' epfd = Some m' ∧
    (∀ x, x ≠ epfd → get (k_fds k') x = get (k_fds k) x) ∧ k_memory k' = k_memory k.
Proof.
  intros He Hf Ho Hw. unfold watched in Hw.
  destruct (table (k_fds k) !! epfd) as [[]|] eqn:Ht; simplify_eq/=.
  unfold epoll_ctl. simpl a0. simpl a1. simpl a2. simpl a3. rewrite !u32_try_from_id, Ho by done.
  rewrite (proj2 (get_Ok _ _ _) Ht).
  destruct (target_wakes k fd) as [[wr ww] k1] eqn:Etw.
  destruct (target_wakes_state _ _ _ _ _ Etw) as (Hf1 & Hm1 & _).
  assert (guest_slice k1 ptr EPOLL_EVENT_SIZE = guest_slice k ptr 12) as Hbs1.
  { unfold guest_slice, memory. by rewrite Hm1. }
  assert (watched k1 epfd = Some ((λ x, (ee_events x, ee_data x)) <$> entries e)) as Hk1.
  { unfold watched. by rewrite Hf1, Ht. }
  assert (∀ m', k_memory (put_entries k1 epfd e m') = k_memory k) as Hmp by done.
  assert (∀ m' x, x ≠ epfd → get (k_fds (put_entries k1 epfd e m')) x = get (k_fds k) x) as Hpo.
  { intros m' x Hx. rewrite put_entries_other by done. by rewrite Hf1. }
  assert (∀ x, x ≠ epfd → get (k_fds k1) x = get (k_fds k) x) as Hpo1 by by rewrite Hf1.
  rewrite Hbs1. unfold ctl_spec, passed_event. rewrite lookup_fmap.
  assert (bool_decide (is_Some (entries e !! fd)) = match entries e !! fd with Some _ => true | None => false end)
    as -> by (destruct (entries e !! fd); case_bool_decide; naive_solver eauto using is_Some_None).
  assert (op = EPOLL_CTL_ADD → (op =? EPOLL_CTL_MOD) = false) as Hx by (intros ->; done).
  destruct (op =? EPOLL_CTL_ADD) eqn:E1; [rewrite Hx by (by to_prop)|];
    (destruct (guest_slice k ptr 12) as [bs|err]; [destruct (decode_event bs) as [ev data] eqn:Ed|]);
    destruct (op =? EPOLL_CTL_MOD), (op =? EPOLL_CTL_DEL), (entries e !! fd);
    simpl; rewrite ?Ed; simpl; eexists; (split; [done|]); (split; [|by auto]);
    rewrite ?watched_put, ?fmap_insert, ?fmap_delete; done.
Qed.

(** ** Waiting *)

Context (order_perm : ∀ m, order m ≡ₚ (map_to_list m).*2).

Lemma snapshot_readiness_elem k m x r :
  (x, r) ∈ snapshot_readiness order k m ↔
  (∃ fd, m !! fd = Some x) ∧ r = compute_revents (k_heap k) (k_fds k) (ee_fd x) (ee_events x) ∧ r ≠ 0.
Proof using order_perm.
  unfold snapshot_readiness. rewrite list_elem_of_filter, list_elem_of_fmap. split.
  - intros (Hr & y & [= <- ->] & Hy). rewrite order_perm in Hy. split; [|done].
    apply list_elem_of_fmap in Hy as ([fd z] & -> & Hz). exists fd. by apply elem_of_map_to_list.
  - intros ([fd Hx] & -> & Hr). split; [done|]. exists x. split; [done|]. rewrite order_perm.
    apply (list_elem_of_fmap_2 snd _ (fd, x)). by apply elem_of_map_to_list.
Qed.

Lemma snapshot_readiness_nodup k e :
  epoll_ok e → NoDup ((λ p, ee_fd p.1) <$> snapshot_readiness order k (entries e)).
Proof using order_perm.
  intros Hok. unfold snapshot_readiness.
  assert (NoDup (ee_fd <$> order (entries e))) as Hnd.
  { rewrite order_perm. rewrite <- list_fmap_compose.
    assert ((ee_fd ∘ snd) <$> map_to_list (entries e) = fst <$> map_to_list (entries e)) as ->.
    { apply list_fmap_ext. intros i [fd x] Hi. simpl. apply Hok. apply elem_of_map_to_list.
      by eapply list_elem_of_lookup_2. }
    apply NoDup_fst_map_to_list. }
  revert Hnd. generalize (order (entries e)) as l. induction l as [|x l IH]; simpl; [done|].
  intros [Hx Hnd]%NoDup_cons. rewrite filter_cons. case_decide; [|by apply IH]. simpl. constructor; [|by apply IH].
  intros ([y r] & Hy & Hin)%list_elem_of_fmap. apply list_elem_of_filter in Hin as [_ Hin].
  apply list_elem_of_fmap in Hin as (z & [= -> _] & Hz). simpl in Hy. destruct Hx. rewrite Hy.
  by apply list_elem_of_fmap_2.
Qed.

Lemma length_encode_event e : length (encode_event e) = 12%nat.
Proof. done. Qed.

(** What [pack_events] stores: the first [maxevents] ready entries, 12 bytes
    each. *)
Lemma pack_events_spec k ptr maxevents ready :
  0 ≤ maxevents → in_memory k ptr (maxevents * 12) →
  let evs := take (Z.to_nat maxevents) ready in
  ∃ k', pack_events k ptr maxevents ready = (Z.of_nat (length evs), k') ∧
    (∀ i e, evs !! i = Some e → guest_slice k' (ptr + Z.of_nat i * 12) 12 = Ok (encode_event e)) ∧
    k_fds k' = k_fds k.
Proof.
  intros Hm Hin evs. unfold pack_events.
  set (count := Z.min _ _).
  assert (take (Z.to_nat count) ready = evs) as ->.
  { subst evs count. destruct (decide (maxevents ≤ Z.of_nat (length ready))).
    - by rewrite Z.min_r.
    - rewrite Z.min_l by lia. rewrite !take_ge by lia. done. }
  assert (count = Z.of_nat (length evs)) as -> by (subst evs count; rewrite length_take; lia).
  pose proof (length_concat_records encode_event 12 evs length_encode_event) as Hl.
  set (bs := concat (encode_event <$> evs)) in *.
  assert (in_memory k ptr (Z.of_nat (length bs))) as Hb.
  { apply (in_memory_le k ptr (maxevents * 12)); [done|]. rewrite Hl. subst evs. rewrite length_take. lia. }
  rewrite (proj2 (guest_write_Ok k ptr bs (mem_put k ptr bs))) by done.
  eexists. split; [done|]. split.
  - intros i e He. pose proof (lookup_lt_Some _ _ _ He) as Hi.
    rewrite (guest_slice_sub _ _ _ _ _ _ (guest_slice_put_same k ptr bs Hb)) by lia.
    f_equal. rewrite <- (concat_record encode_event 12 evs i e length_encode_event He).
    fold bs. f_equal. f_equal. lia.
  - unfold mem_put. by destruct Hb as (m & -> & _).
Qed.

End facts.

(** ** Kernel invariant *)

Section invariant.
Context {W : Type}.
Context (order : gmap Z EpollEntry → list EpollEntry).
Implicit Types k : kern W.

#[export] Instance epoll_create1_preserves : PreservesFd (epoll_create1 (W:=W)).
Proof.
  intros k a r k' Hk. unfold epoll_create1. destruct (new_notify (k_heap k)) as [n h] eqn:En.
  destruct (insert _ _) as [fd t] eqn:Ei. intros [= <- <-] Hn.
  eapply (kern_wf_insert (set_heap k h)); [| |exact Ei|done].
  - apply kern_wf_set_heap; [done|]. eapply new_notify_wf; [done|by apply kw_heap].
  - intros x y Hx. simpl in Hx. by rewrite lookup_empty in Hx.
Qed.

Lemma put_entries_wf k epfd e m :
  kern_wf k → get (k_fds k) epfd = Ok (REpoll e) → (∀ fd x, m !! fd = Some x → ee_fd x = fd) →
  kern_wf (put_entries k epfd e m).
Proof.
  intros Hk He Hm. unfold put_entries. apply kern_wf_set_heap.
  - apply kern_wf_put; [done| |done]. apply get_Ok in He. rewrite He. by eexists.
  - apply notify_waiters_wf. simpl. by apply (kw_heap k).
Qed.

#[export] Instance epoll_ctl_preserves : Preserves (epoll_ctl (W:=W)).
Proof.
  intros k a r k' Hk. unfold epoll_ctl. destruct (u32_try_from (a0 a)) as [epfd|]; [|by intros [= <- <-]].
  destruct (u32_try_from (a2 a)) as [fd|]; [|by intros [= <- <-]].
  destruct (get (k_fds k) epfd) as [res|] eqn:Hg; [|by intros [= <- <-]].
  destruct res as [| | | | | | |e|]; try by intros [= <- <-].
  pose proof (kern_wf_get _ _ _ Hk Hg) as Hok. simpl in Hok.
  destruct (target_wakes k fd) as [[wr ww] k1] eqn:Et.
  destruct (target_wakes_state _ _ _ _ _ Et) as (Hf1 & _ & Hk1). specialize (Hk1 Hk). rewrite <- Hf1 in Hg.
  case_if.
  - destruct (guest_slice _ _ _) as [evb|]; [|by intros [= <- <-]]. destruct (decode_event evb) as [ev data].
    repeat (case_if; [by intros [= <- <-]|]). intros [= <- <-]. apply put_entries_wf; [done|done|].
    intros x y. rewrite lookup_insert_Some. intros [[<- <-]|[_ ?]]; [done|by apply Hok].
  - case_if; [|by intros [= <- <-]]. case_if; [by intros [= <- <-]|]. intros [= <- <-].
    apply put_entries_wf; [done|done|]. intros x y. rewrite lookup_delete_Some. intros [_ ?]. by apply Hok.
Qed.

Lemma pack_events_wf k ptr n ready r k' : kern_wf k → pack_events k ptr n ready = (r, k') → kern_wf k'.
Proof.
  intros Hk. unfold pack_events. destruct (guest_write _ _ _) eqn:E; intros [= <- <-]; eauto with libos.
Qed.

Lemma epoll_wait_wf park k a r k' :
  (∀ f, park = Some f → ∀ k, kern_wf k → kern_wf (f k)) → kern_wf k →
  epoll_wait order park k a = Return (r, k') → kern_wf k'.
Proof.
  intros Hp Hk. unfold epoll_wait. destruct (u32_try_from (a0 a)) as [epfd|]; [|by intros [= <- <-]].
  destruct (usize_try_from (a2 a)) as [n|]; [|by intros [= <- <-]]. case_if; [by intros [= <- <-]|].
  destruct (guest_slice_mut _ _ _); [|by intros [= <- <-]].
  destruct (get (k_fds k) epfd) as [res|] eqn:Hg; [|by intros [= <- <-]].
  destruct res as [| | | | | | |e|]; try by intros [= <- <-].
  case_bool_decide.
  - case_if; [|by intros [= <- <-]]. destruct park as [f|]; [|done]. intros [= <- <-]. by apply (Hp f).
  - case_if.
    + intros Hr. injection Hr as Hr. by eapply pack_events_wf.
    + destruct park as [f|]; [|done]. intros Hr. injection Hr as Hr.
      eapply pack_events_wf; [|exact Hr]. by apply (Hp f).
Qed.

Lemma epoll_wait_preserves park :
  (∀ f, park = Some f → ∀ k, kern_wf k → kern_wf (f k)) → PreservesOut (epoll_wait (W:=W) order park).
Proof. intros Hp k a r k' Hk Hr _. by eapply epoll_wait_wf. Qed.

Lemma epoll_pwait_preserves park :
  (∀ f, park = Some f → ∀ k, kern_wf k → kern_wf (f k)) → PreservesOut (epoll_pwait (W:=W) order park).
Proof.
  intros Hp k a r k' Hk. unfold epoll_pwait. destruct (u32_try_from (a0 a)) as [epfd|]; [|by intros [= <- <-]].
  destruct (usize_try_from (a2 a)) as [n|]; [|by intros [= <- <-]]. case_if; [by intros [= <- <-]|].
  destruct (timespec_ms _ _); [|by intros [= <- <-]]. intros Hr _. by eapply epoll_wait_wf.
Qed.

End invariant.

(** ** Theorems *)

(** C25: the interest list of an epoll instance behaves as a finite map from
    descriptor numbers to an event mask and a data word. [epoll_ctl] adds a
    number that is not there (else [-EEXIST]), modifies and deletes one that is
    (else [-ENOENT]), and any other operation is [-EINVAL]; adding and
    modifying with an event that cannot be read fail with the error of reading
    it, deleting ignores the event. An error changes nothing, and no other
    descriptor and no memory is touched. The number need not be an open
    descriptor ([epoll_add_unbound]). *)
Theorem epoll_ctl_map {W} (k : kern W) epfd op fd ptr m :
  is_u 32 epfd → is_u 32 fd → as_i32 op = op → watched k epfd = Some m →
  let '(r, m') := ctl_spec op fd (passed_event k ptr) m in
  ∃ k', epoll_ctl k (Args epfd op fd ptr 0 0) = (r, k') ∧ watched k' epfd = Some m' ∧
    (∀ x, x ≠ epfd → get (k_fds k') x = get (k_fds k) x) ∧ k_memory k' = k_memory k.
Proof. apply epoll_ctl_refines. Qed.

(** C22: [epoll_wait] with something ready returns at once, with at least one
    and at most [maxevents] events. Every event is for a different watched
    descriptor, carries the data word it was registered with and its current
    non-empty readiness; when they all fit, no ready descriptor is missing. *)
Theorem epoll_wait_reports {W} order park (k : kern W) epfd ptr maxevents timeout e :
  (∀ m, order m ≡ₚ (map_to_list m).*2) → kern_wf k → is_u 32 epfd →
  get (k_fds k) epfd = Ok (REpoll e) → 0 < maxevents → in_memory k ptr (maxevents * 12) →
  let revents x := compute_revents (k_heap k) (k_fds k) (ee_fd x) (ee_events x) in
  (∃ fd x, entries e !! fd = Some x ∧ revents x ≠ 0) →
  ∃ k' evs, epoll_wait order park k (Args epfd ptr maxevents timeout 0 0)
      = Return (Z.of_nat (length evs), k') ∧
    (0 < Z.of_nat (length evs) ≤ maxevents) ∧ NoDup (ee_fd <$> evs) ∧
    (∀ i x, evs !! i = Some x → entries e !! ee_fd x = Some x ∧ revents x ≠ 0 ∧
       guest_slice k' (ptr + Z.of_nat i * 12) 12 = Ok (to_le_bytes 4 (revents x) ++ to_le_bytes 8 (ee_data x))) ∧
    (Z.of_nat (length evs) < maxevents → ∀ fd x, entries e !! fd = Some x → revents x ≠ 0 → x ∈ evs).
Proof.
  intros Hord Hk He Hg Hmax Hin revents (fd0 & x0 & Hx0 & Hr0).
  pose proof (kern_wf_get _ _ _ Hk Hg) as Hok. simpl in Hok.
  pose proof Hin as (m & Hm & ? & ? & ? & ?). destruct (kw_mem _ Hk m Hm) as [Hsz _].
  set (ready := snapshot_readiness order k (entries e)).
  assert ((x0, revents x0) ∈ ready) as Hin0 by (apply (snapshot_readiness_elem order Hord); eauto).
  destruct (pack_events_spec k ptr maxevents ready) as (k' & Hp & Hev & _); [lia|done|].
  set (evs := take (Z.to_nat maxevents) ready) in *.
  assert (∀ x r, (x, r) ∈ ready → entries e !! ee_fd x = Some x ∧ r = revents x ∧ revents x ≠ 0) as Hready.
  { intros x r Hx. apply (snapshot_readiness_elem order Hord) in Hx as ([fd Hfd] & -> & Hnz).
    split_and!; try done. by rewrite (Hok _ _ Hfd). }
  assert (ready ≠ []) as Hne by (intros E; rewrite E in Hin0; by apply elem_of_nil in Hin0).
  exists k', (fst <$> evs). rewrite !length_fmap. split; [|split; [|split; [|split]]].
  - unfold epoll_wait. simpl a0. simpl a1. simpl a2. simpl a3. rewrite u32_try_from_id by done.
    rewrite usize_try_from_id by (unfold is_u; lia). rewrite (proj2 (Z.eqb_neq maxevents 0)) by lia.
    change (maxevents * EPOLL_EVENT_SIZE) with (maxevents * 12).
    rewrite (wrapu_id 64), (wraps_id 64) by (unfold is_u, is_i; lia).
    rewrite (proj2 (guest_slice_mut_Ok k ptr _ ptr)), Hg by done.
    rewrite bool_decide_false by (intros E; by rewrite E, lookup_empty in Hx0). fold ready.
    rewrite bool_decide_false by done. simpl. by rewrite Hp.
  - subst evs. rewrite length_take. destruct ready; [done|]. simpl length. lia.
  - rewrite <- list_fmap_compose. subst evs. rewrite fmap_take.
    eapply sublist_NoDup; [apply (snapshot_readiness_nodup order Hord k e Hok)|]. apply sublist_take.
  - intros i x. rewrite list_lookup_fmap. intros ([x' r] & Hx & ->)%fmap_Some. simpl.
    destruct (Hready x' r) as (? & -> & ?).
    { subst evs. apply lookup_take_Some in Hx as [Hx _]. by eapply list_elem_of_lookup_2. }
    split_and!; try done. by rewrite (Hev i _ Hx).
  - intros Hlt fd x Hx Hnz. apply (list_elem_of_fmap_2 fst _ (x, revents x)). subst evs.
    rewrite length_take in Hlt. rewrite take_ge by lia.
    apply (snapshot_readiness_elem order Hord). eauto.
Qed.

(** ** Witnesses *)

(** The sample kernel with an epoll instance (3) and an event to register at
    64: [EPOLLOUT] with data 77. *)
Definition epolled : kern NullHost :=
  mem_put (epoll_create1 sample_kern (Args 0 0 0 0 0 0)).2 64 (to_le_bytes 4 EPOLLOUT ++ to_le_bytes 8 77).

Lemma epolled_in_memory ptr len : 0 ≤ ptr → 0 ≤ len → ptr + len ≤ 131072 → in_memory epolled ptr len.
Proof. intros. eexists. split; [vm_compute; reflexivity|]. simpl. unfold U64_MAX. lia. Qed.

Lemma epolled_wf : kern_wf epolled.
Proof.
  apply kern_wf_mem_put.
  - destruct (epoll_create1 sample_kern (Args 0 0 0 0 0 0)) as [r k'] eqn:E.
    apply (epoll_create1_preserves sample_kern (Args 0 0 0 0 0 0) r k' sample_kern_wf E).
    injection E as _ <-. by vm_compute.
  - exists (zero_mem 131072). split_and!; try done.
Qed.

Lemma epoll_ctl_map_witness :
  ∃ k', epoll_ctl epolled (Args 3 EPOLL_CTL_ADD 1 64 0 0) = (0, k') ∧
    watched k' 3 = Some {[1 := (EPOLLOUT, 77)]} ∧
    (∀ x, x ≠ 3 → get (k_fds k') x = get (k_fds epolled) x) ∧ k_memory k' = k_memory epolled.
Proof.
  pose proof (epoll_ctl_map epolled 3 EPOLL_CTL_ADD 1 64 ∅) as Hc.
  assert (E : ctl_spec EPOLL_CTL_ADD 1 (passed_event epolled 64) ∅ = (0, {[1 := (EPOLLOUT, 77)]}))
    by (vm_compute; reflexivity).
  rewrite E in Hc. apply Hc.
  - unfold is_u. lia.
  - unfold is_u. lia.
  - reflexivity.
  - vm_compute. reflexivity.
Defined.

(** ... and with standard output (1) registered. *)
Definition watching : kern NullHost := (epoll_ctl epolled (Args 3 EPOLL_CTL_ADD 1 64 0 0)).2.

Definition watching_epoll : EpollInner :=
  match get (k_fds watching) 3 with Ok (REpoll e) => e | _ => MkEpoll ∅ 0 None end.

Lemma epoll_wait_reports_witness :
  let revents x := compute_revents (k_heap watching) (k_fds watching) (ee_fd x) (ee_events x) in
  ∃ k' evs, epoll_wait (λ m, (map_to_list m).*2) None watching (Args 3 128 4 (-1) 0 0)
      = Return (Z.of_nat (length evs), k') ∧
    (0 < Z.of_nat (length evs) ≤ 4) ∧ NoDup (ee_fd <$> evs) ∧
    (∀ i x, evs !! i = Some x → entries watching_epoll !! ee_fd x = Some x ∧ revents x ≠ 0 ∧
       guest_slice k' (128 + Z.of_nat i * 12) 12
       = Ok (to_le_bytes 4 (revents x) ++ to_le_bytes 8 (ee_data x))) ∧
    (Z.of_nat (length evs) < 4 →
       ∀ fd x, entries watching_epoll !! fd = Some x → revents x ≠ 0 → x ∈ evs).
Proof.
  apply (epoll_wait_reports (λ m, (map_to_list m).*2) None watching 3 128 4 (-1) watching_epoll).
  - reflexivity.
  - unfold watching. destruct (epoll_ctl epolled (Args 3 EPOLL_CTL_ADD 1 64 0 0)) as [r k'] eqn:E.
    exact (epoll_ctl_preserves epolled (Args 3 EPOLL_CTL_ADD 1 64 0 0) r k' epolled_wf E).
  - unfold is_u. lia.
  - vm_compute. reflexivity.
  - lia.
  - eexists. split; [vm_compute; reflexivity|]. by vm_compute.
  - exists 1. eexists. split; [vm_compute; reflexivity|]. by vm_compute.
Defined.

(** ** Deviations *)

(** Five watched descriptors: the notification of one of the first four does
    not end the wait. *)
Lemma wait_any_five_misses : wait_any [10; 11; 12; 13; 14] [10] = false.
Proof. reflexivity. Qed.

(** Registering a descriptor that is not open succeeds. *)
Lemma epoll_add_unbound :
  get (k_fds epolled) 99 = Err (- EBADF) ∧ (epoll_ctl epolled (Args 3 EPOLL_CTL_ADD 99 64 0 0)).1 = 0.
Proof. split; vm_compute; reflexivity. Qed.

(** A pipe end is registered with a placeholder nobody notifies. *)
Lemma epoll_pipe_never_notified {W} (k : kern W) fd p wr ww k' :
  get (k_fds k) fd = Ok (RPipeRead p) → target_wakes k fd = (wr, ww, k') →
  wr = next_loc (k_heap k) ∧ next_loc (k_heap k') = wr + 1.
Proof. intros Hg. unfold target_wakes. rewrite Hg. by intros [= <- <- <-]. Qed.
