(* ===== verification/SysReady.v ===== *)
(** * Readiness and transfer

    What [poll] and [epoll] announce and what [read] and [write] then do, for
    the ends of a pipe: a read end is announced exactly when a read of it does
    not come back with [-EAGAIN], a write end always, and a write makes every
    read end of the pipe ready. *)

From S2P Require Import Prelude Word Errno GuestMem Text Path Host Vfs Udp Fd Futex Kernel KernInv SysFile SysFileInv SysFileSpec.
From S2P Require Import SysEventfd SysPoll SysEpoll.

Section readiness.
Context {W : Type} `{Host W}.
Context (recvfrom sendto : kern W → args → Z * kern W).
Implicit Types k : kern W.

(** What the two calls announce of a descriptor asked about [bit], which is
    the same bit for both. *)
Definition poll_says k (fd bit : Z) : bool := has (poll_one (k_heap k) (k_fds k) fd bit) bit.
Definition epoll_says k (fd bit : Z) : bool := has (compute_revents (k_heap k) (k_fds k) fd bit) bit.

(** Something queued, or the end of the stream. *)
Definition readable k (l : Z) : bool :=
  let c := pipe_at (k_heap k) l in negb (bool_decide (buf c = [])) || closed c.

(** The read end of a pipe, standard input excepted. *)
Definition pipe_end k (fd l : Z) : Prop := ∃ x, pr_pipe x = l ∧ get (k_fds k) fd = Ok (RPipeRead x).

Lemma epoll_reader k fd l : reads_from k fd l → epoll_says k fd EPOLLIN = readable k l.
Proof.
  intros (x & <- & [Hx|Hx]); unfold epoll_says, compute_revents, readable; rewrite Hx;
    by destruct (negb _ || closed _).
Qed.

Lemma poll_reader k fd l : is_u 32 fd → pipe_end k fd l → poll_says k fd POLLIN = readable k l.
Proof.
  intros Hf (x & <- & Hx). unfold poll_says, poll_one, readable. rewrite u32_try_from_id, Hx by done.
  by destruct (negb _ || closed _).
Qed.

Lemma says_writer k fd l :
  is_u 32 fd → writes_to k fd l → poll_says k fd POLLOUT = true ∧ epoll_says k fd EPOLLOUT = true.
Proof.
  intros Hf (x & _ & Hx). unfold poll_says, epoll_says, poll_one, compute_revents.
  rewrite u32_try_from_id by done. by destruct Hx as [->|[->| ->]].
Qed.

(** A read of an end with nothing queued. *)
Lemma read_empty_fd k fd ptr len l :
  is_u 32 fd → reads_from k fd l → in_memory k ptr len → 0 < len → buf (pipe_at (k_heap k) l) = [] →
  (read recvfrom k (rw_args fd ptr len)).1 = if closed (pipe_at (k_heap k) l) then 0 else - EAGAIN.
Proof.
  intros Hf (x & <- & Hx) Hin Hlen He. rewrite (read_is_read_pipe recvfrom k fd ptr len x) by done.
  unfold read_pipe, finish_read. rewrite He, take_nil. simpl. by destruct (closed _), (p_nonblock _).
Qed.

End readiness.

(** ** Theorems *)

(** C21: what is announced can be done. For a descriptor that reads from a
    pipe, [epoll] announces [EPOLLIN] exactly when a read of any length comes
    back with data or the end of the stream, and otherwise the read is
    [-EAGAIN]; [poll] says the same of every read end but standard input. For a
    descriptor that writes to the pipe both announce that it is writable, a
    write then takes all bytes, and afterwards every descriptor that reads from
    the pipe is announced. *)
Theorem readiness_matches_io {W} `{Host W} recvfrom sendto (k : kern W) rfd wfd l ptr len src n bs :
  is_u 32 rfd → is_u 32 wfd → reads_from k rfd l → writes_to k wfd l →
  0 < len → in_memory k ptr len → guest_slice k src n = Ok bs → bs ≠ [] →
  let r := (read recvfrom k (rw_args rfd ptr len)).1 in
  epoll_says k rfd EPOLLIN = bool_decide (0 ≤ r) ∧ (r < 0 → r = - EAGAIN) ∧
  (pipe_end k rfd l → poll_says k rfd POLLIN = epoll_says k rfd EPOLLIN) ∧
  poll_says k wfd POLLOUT = true ∧ epoll_says k wfd EPOLLOUT = true ∧
  ∃ k', write sendto k (rw_args wfd src n) = (Z.of_nat (length bs), k') ∧
    epoll_says k' rfd EPOLLIN = true ∧ (pipe_end k rfd l → poll_says k' rfd POLLIN = true).
Proof.
  intros Hr Hw Hrd Hwr Hlen Hin Hs Hne r. destruct (says_writer k wfd l Hw Hwr) as [Hpo Heo].
  destruct (write_pipe_fd sendto k wfd src n l bs Hw Hwr Hs Hne) as (k' & Hk' & Hb & _ & _ & Hf & _).
  assert (readable k' l = true) as Hr'.
  { unfold readable. rewrite Hb, bool_decide_false; [done|]. by intros [_ ?]%app_eq_nil. }
  assert (readable k l = bool_decide (0 ≤ r) ∧ (r < 0 → r = - EAGAIN)) as [Hrr Hneg].
  { destruct (decide (buf (pipe_at (k_heap k) l) = [])) as [He|He]; unfold readable.
    - subst r. rewrite (read_empty_fd recvfrom k rfd ptr len l), bool_decide_true by done.
      by destruct (closed (pipe_at (k_heap k) l)).
    - rewrite (bool_decide_false (buf _ = [])) by done. destruct (read_pipe_fd recvfrom k rfd ptr len l) as (k2 & Hk2 & _); [done..|].
      subst r. rewrite Hk2. simpl. rewrite bool_decide_true by lia. split; [done|lia]. }
  rewrite (epoll_reader k rfd l Hrd). split_and!; try done.
  - by apply poll_reader.
  - exists k'. split; [done|]. split.
    + rewrite (epoll_reader k' rfd l); [done|]. destruct Hrd as (x & ? & ?). exists x. by rewrite Hf.
    + intros (x & ? & ?). rewrite (poll_reader k' rfd l); [done..|]. exists x. by rewrite Hf.
Qed.

(** ** Witness *)

Lemma readiness_matches_io_witness :
  epoll_says piped_kern 3 EPOLLIN = false ∧ poll_says piped_kern 4 POLLOUT = true ∧
  ∃ k', write no_socket piped_kern (rw_args 4 16 3) = (3, k') ∧ poll_says k' 3 POLLIN = true.
Proof.
  destruct (readiness_matches_io no_socket no_socket piped_kern 3 4 piped_loc 64 2 16 3 [7; 8; 9])
    as (He & _ & _ & Hp & _ & k' & Hk' & _ & Hp').
  - by apply is_u32_lit.
  - by apply is_u32_lit.
  - apply piped_reads.
  - apply piped_writes.
  - lia.
  - by apply piped_in_memory.
  - vm_compute. reflexivity.
  - done.
  - split; [vm_compute; reflexivity|]. split; [done|]. exists k'. split; [done|]. apply Hp'.
    eexists. split; [|vm_compute; reflexivity]. reflexivity.
Defined.

(** ** Deviations *)

(** [epoll] announces an event counter that has nothing to read. *)
Lemma epoll_announces_empty_eventfd :
  let k := (SysEventfd.eventfd2 sample_kern (Args 0 2048 0 0 0 0)).2 in
  epoll_says k 3 EPOLLIN = true ∧ (read no_socket k (rw_args 3 0 8)).1 = - EAGAIN.
Proof. by vm_compute. Qed.
