(* ===== verification/SysMisc.v ===== *)
(** * Identity, random, ioctl and time syscalls
      (src/sys/identity.rs, random.rs, ioctl.rs, time.rs)

    Small handlers that report fixed values or the host's clock and random
    bytes. A call that sleeps takes what the other threads do meanwhile as
    [sleep], a function of the requested nanoseconds. *)

From S2P Require Import Prelude Word Errno GuestMem Text Path Host Vfs Fd.
From S2P Require Import Futex Kernel KernInv SysPath SysEventfd SysFile SysFileInv.

(** ** Identity *)

Definition UID : Z := 1000.
Definition UTSNAME_SIZE : Z := 390.
Definition UTSNAME_FIELD : nat := 65.
Definition RLIMIT64_SIZE : Z := 16.

Definition getuid : Z := UID.
Definition geteuid : Z := UID.
Definition getgid : Z := UID.
Definition getegid : Z := UID.
Definition getppid : Z := 1.
Definition setsid : Z := - EPERM.
Definition getsid : Z := 1.

(** A name and its zero padding. *)
Definition utsname_field (name : bytes) : bytes := name ++ replicate (UTSNAME_FIELD - length name) 0.

(** "Linux", "edge-libos", "6.0.0", "#1 wasm32", "wasm32", "(none)". *)
Definition utsname : list bytes :=
  [[76; 105; 110; 117; 120]; [101; 100; 103; 101; 45; 108; 105; 98; 111; 115]; [54; 46; 48; 46; 48];
   [35; 49; 32; 119; 97; 115; 109; 51; 50]; [119; 97; 115; 109; 51; 50]; [40; 110; 111; 110; 101; 41]].

(** ** random.rs *)

Definition GRND_NONBLOCK : Z := 1.
Definition GRND_RANDOM : Z := 2.
Definition MAX_LEN : Z := 4096.

(** ** ioctl.rs *)

Definition FIONBIO : Z := 21537.
Definition FIONREAD : Z := 21531.
Definition TIOCGWINSZ : Z := 21523.
Definition WINSIZE_SIZE : Z := 8.

(** ** time.rs *)

Definition SYSINFO_SIZE : Z := 128.
Definition TMS_SIZE : Z := 32.
Definition TIMER_ABSTIME : Z := 1.
Definition CLOCK_REALTIME : Z := 0.
Definition CLOCK_MONOTONIC : Z := 1.
Definition CLOCK_MONOTONIC_RAW : Z := 4.
Definition CLOCK_PROCESS_CPUTIME_ID : Z := 2.
Definition CLOCK_THREAD_CPUTIME_ID : Z := 3.

Definition is_monotonic (clockid : Z) : bool :=
  (clockid =? CLOCK_MONOTONIC) || (clockid =? CLOCK_MONOTONIC_RAW) ||
  (clockid =? CLOCK_PROCESS_CPUTIME_ID) || (clockid =? CLOCK_THREAD_CPUTIME_ID).

Definition known_clock (clockid : Z) : bool := (clockid =? CLOCK_REALTIME) || is_monotonic clockid.

Definition encode_pair (x y : Z) : bytes := to_le_bytes 8 x ++ to_le_bytes 8 y.

(** A requested [struct timespec] that is in range. *)
Definition parse_timespec (b : bytes) : option (Z * Z) :=
  let sec := from_le_bytes_i 64 (take 8 b) in
  let nsec := from_le_bytes_i 64 (take 8 (drop 8 b)) in
  if (nsec <? 0) || negb ((0 <=? nsec) && (nsec <? 1000000000)) || (sec <? 0) then None
  else Some (sec, nsec).

Definition sleep_ns (sec nsec : Z) : Z := as_u64 (saturating_mul_u64 (as_u64 sec) 1000000000 + as_u64 nsec).

Section syscalls.
Context {W : Type} `{Host W}.
Context (sleep : Z → kern W → kern W).
Implicit Types k : kern W.

Definition uname k (a : args) : Z * kern W :=
  let! kw := guest_write k (a0 a) (concat (utsname_field <$> utsname)) on k;
  (0, kw).

Definition prlimit64 k (a : args) : Z * kern W :=
  let pid := a0 a in
  let old_limit_ptr := a3 a in
  if negb (pid =? 0) && negb (pid =? 1) then (- EPERM, k)
  else if old_limit_ptr =? 0 then (0, k)
  else
    let! kw := guest_write k old_limit_ptr (encode_pair U64_MAX U64_MAX) on k;
    (0, kw).

Definition getrlimit k (a : args) : Z * kern W := prlimit64 k (Args 0 (a0 a) 0 (a1 a) 0 0).

Definition getgroups k (a : args) : Z * kern W :=
  if a0 a <? 0 then (- EINVAL, k)
  else if a0 a =? 0 then (0, k)
  else if a1 a =? 0 then (- EOPNOTSUPP, k)
  else (0, k).

Definition getrandom k (a : args) : Z * kern W :=
  let flags := as_u32 (a2 a) in
  if negb (Z.land flags (U32_MAX - Z.lor GRND_NONBLOCK GRND_RANDOM) =? 0) then (- ENOSYS, k)
  else match usize_try_from (a1 a) with
  | None => (- EINVAL, k)
  | Some len =>
    if MAX_LEN <? len then (- EINVAL, k)
    else if len =? 0 then (0, k)
    else
      let '(tmp, w) := rng_fill (k_host k) (Z.to_nat len) in
      let k := set_host k w in
      let! m := memory k on k;
      let! p := guest_slice_mut_via m (a0 a) len on k;
      (len, mem_put k p tmp)
  end.

Definition ioctl k (a : args) : Z * kern W :=
  let fd := as_u32 (a0 a) in
  let op := as_u32 (a1 a) in
  let arg := a2 a in
  if op =? FIONBIO then
    let! r := get (k_fds k) fd on k;
    match r with
    | RFile _ | RSocket _ => (0, set_heap k (set_nonblock (k_heap k) r (negb (arg =? 0))))
    | _ => (- EBADF, k)
    end
  else if op =? FIONREAD then
    if arg =? 0 then (0, k)
    else
      let! kw := guest_write k arg (to_le_bytes 4 0) on k;
      (0, kw)
  else if op =? TIOCGWINSZ then
    if arg =? 0 then (- EINVAL, k)
    else
      let! kw := guest_write k arg (concat (to_le_bytes 2 <$> [24; 80; 0; 0])) on k;
      (0, kw)
  else (- ENOTTY, k).

(** Seconds and nanoseconds of a clock. *)
Definition compute_time k (clockid : Z) : option (Z * Z) :=
  if clockid =? CLOCK_REALTIME then
    let t := now (k_host k) in Some (t / 1000000000, t mod 1000000000)
  else if is_monotonic clockid then
    let total_ns := elapsed (k_host k) in
    Some (as_i64 (total_ns / 1000000000), as_i64 (total_ns mod 1000000000))
  else None.

Definition clock_gettime k (a : args) : Z * kern W :=
  let? (sec, nsec) := compute_time k (a0 a) else (- EINVAL, k);
  let! kw := guest_write k (a1 a) (encode_pair sec nsec) on k;
  (0, kw).

Definition clock_getres k (a : args) : Z * kern W :=
  if negb (known_clock (a0 a)) then (- EINVAL, k)
  else if a1 a =? 0 then (0, k)
  else
    let! kw := guest_write k (a1 a) (encode_pair 0 1) on k;
    (0, kw).

(** The remainder is always zero. *)
Definition write_rem k (rem : Z) : Z * kern W :=
  if rem =? 0 then (0, k)
  else
    let! kw := guest_write k rem (encode_pair 0 0) on k;
    (0, kw).

Definition clock_nanosleep k (a : args) : Z * kern W :=
  let clockid := a0 a in
  if negb (known_clock clockid) then (- EINVAL, k)
  else
    let! b := guest_slice k (a2 a) 16 on k;
    let? (sec, nsec) := parse_timespec b else (- EINVAL, k);
    if has (as_i32 (a1 a)) TIMER_ABSTIME then
      let? (cur_sec, cur_nsec) := compute_time k clockid else (- EINVAL, k);
      let cur_total := cur_sec * 1000000000 + cur_nsec in
      let req_total := sec * 1000000000 + nsec in
      if req_total <=? cur_total then (0, k)
      else (0, sleep (as_u64 (req_total - cur_total)) k)
    else write_rem (sleep (sleep_ns sec nsec) k) (a3 a).

(** Microseconds of the wall clock plus those of the time since start. *)
Definition gettimeofday k (a : args) : Z * kern W :=
  let total_us := elapsed (k_host k) / 1000 in
  let epoch := now (k_host k) / 1000 in
  let sec := Z.quot epoch 1000000 in
  let usec := Z.rem epoch 1000000 + total_us mod 1000000 in
  let sec := if 1000000 <=? usec then sec + 1 else sec in
  let usec := Z.rem usec 1000000 in
  let! kw := guest_write k (a0 a) (encode_pair sec usec) on k;
  (0, kw).

Definition nanosleep k (a : args) : Z * kern W :=
  let! b := guest_slice k (a0 a) 16 on k;
  let? (sec, nsec) := parse_timespec b else (- EINVAL, k);
  write_rem (sleep (sleep_ns sec nsec) k) (a1 a).

(** Uptime 1 at 0, a GiB of memory at 32 and 40, one process at 104. *)
Definition sysinfo_bytes : bytes :=
  to_le_bytes 8 1 ++ replicate 24 0 ++ to_le_bytes 8 (2 ^ 30) ++ to_le_bytes 8 (2 ^ 30) ++
  replicate 56 0 ++ to_le_bytes 8 1 ++ replicate 16 0.

Definition sysinfo k (a : args) : Z * kern W :=
  if a0 a =? 0 then (- EFAULT, k)
  else
    let! kw := guest_write k (a0 a) sysinfo_bytes on k;
    (0, kw).

Definition times k (a : args) : Z * kern W :=
  if a0 a =? 0 then (- EFAULT, k)
  else
    let! kw := guest_write k (a0 a) (replicate 32 0) on k;
    (0, kw).

(** ** Invariant *)

Context (sleep_ok : ∀ n k, kern_wf k → kern_wf (sleep n k)).

Ltac write_case :=
  repeat match goal with
  | |- context [guest_write ?k ?p ?b] => destruct (guest_write k p b) eqn:?
  | |- (_, _) = (_, _) → _ => intros [= <- <-]
  end; eauto with libos.

#[export] Instance uname_preserves : Preserves uname.
Proof. intros k a r k' Hk. unfold uname. write_case. Qed.
#[export] Instance prlimit64_preserves : Preserves prlimit64.
Proof. intros k a r k' Hk. unfold prlimit64. repeat case_if; write_case. Qed.
#[export] Instance getrlimit_preserves : Preserves getrlimit.
Proof. intros k a r k' Hk Hr. by apply (prlimit64_preserves _ _ _ _ Hk Hr). Qed.
#[export] Instance getgroups_preserves : Preserves getgroups.
Proof. intros k a r k' Hk. unfold getgroups. repeat case_if; write_case. Qed.

#[export] Instance getrandom_preserves `{!HostLaws W} : Preserves getrandom.
Proof.
  intros k a r k' Hk. unfold getrandom. case_if; [by intros [= <- <-]|].
  destruct (usize_try_from _) as [len|] eqn:El; [|by intros [= <- <-]].
  repeat (case_if; [by intros [= <- <-]|]).
  destruct (rng_fill _ _) as [tmp w] eqn:Er. apply rng_fill_length in Er as [Hlen _].
  assert (kern_wf (set_host k w)) as Hk1 by by apply kern_wf_set_host.
  destruct (memory _) as [m|] eqn:Hm; [|by intros [= <- <-]].
  destruct (guest_slice_mut_via _ _ _) eqn:Ep; intros [= <- <-]; [|done].
  apply (guest_slice_mut_via_Ok _ _ _ _ _ Hm) in Ep as [Hin ->]. apply kern_wf_mem_put; [done|].
  rewrite Hlen. destruct Hin as (m' & ? & ? & ? & ? & ?). rewrite Z2Nat.id by done. by exists m'.
Qed.

#[export] Instance ioctl_preserves : Preserves ioctl.
Proof.
  intros k a r k' Hk. unfold ioctl. repeat case_if; try by write_case.
  destruct (get _ _) as [res|] eqn:Hg; [|by intros [= <- <-]].
  pose proof (set_nonblock_wf (k_heap k) res (negb (a2 a =? 0)) (kw_heap _ Hk) (kern_wf_get _ _ _ Hk Hg)) as Hs.
  destruct res; intros [= <- <-]; try done; by apply kern_wf_set_heap.
Qed.

#[export] Instance clock_gettime_preserves : Preserves clock_gettime.
Proof. intros k a r k' Hk. unfold clock_gettime. destruct (compute_time _ _) as [[]|]; write_case. Qed.
#[export] Instance clock_getres_preserves : Preserves clock_getres.
Proof. intros k a r k' Hk. unfold clock_getres. repeat case_if; write_case. Qed.

Lemma write_rem_wf k rem r k' : kern_wf k → write_rem k rem = (r, k') → kern_wf k'.
Proof. intros Hk. unfold write_rem. case_if; write_case. Qed.

Lemma clock_nanosleep_preserves : Preserves clock_nanosleep.
Proof using sleep_ok.
  intros k a r k' Hk. unfold clock_nanosleep. case_if; [by intros [= <- <-]|].
  destruct (guest_slice _ _ _); [|by intros [= <- <-]].
  destruct (parse_timespec _) as [[sec nsec]|]; [|by intros [= <- <-]].
  case_if; [|intros Hr; eapply write_rem_wf; [|exact Hr]; auto].
  destruct (compute_time _ _) as [[cs cn]|]; [|by intros [= <- <-]].
  case_if; intros [= <- <-]; auto.
Qed.

#[export] Instance gettimeofday_preserves : Preserves gettimeofday.
Proof. intros k a r k' Hk. unfold gettimeofday. write_case. Qed.

Lemma nanosleep_preserves : Preserves nanosleep.
Proof using sleep_ok.
  intros k a r k' Hk. unfold nanosleep. destruct (guest_slice _ _ _); [|by intros [= <- <-]].
  destruct (parse_timespec _) as [[sec nsec]|]; [|by intros [= <- <-]].
  intros Hr; eapply write_rem_wf; [|exact Hr]; auto.
Qed.

#[export] Instance sysinfo_preserves : Preserves sysinfo.
Proof. intros k a r k' Hk. unfold sysinfo. case_if; write_case. Qed.
#[export] Instance times_preserves : Preserves times.
Proof. intros k a r k' Hk. unfold times. case_if; write_case. Qed.

End syscalls.

(** ** Clocks *)

Section clocks.
Context {W : Type} `{Host W}.
Implicit Types k : kern W.

Lemma guest_write_spec k ptr bs :
  in_memory k ptr (Z.of_nat (length bs)) →
  ∃ k', guest_write k ptr bs = Ok k' ∧ guest_slice k' ptr (Z.of_nat (length bs)) = Ok bs.
Proof.
  intros Hin. exists (mem_put k ptr bs). split; [by apply guest_write_Ok|by apply guest_slice_put_same].
Qed.

(** The reported time of day is the wall clock plus the part of the uptime
    below one second. *)
Lemma gettimeofday_value k ptr tz :
  in_memory k ptr 16 → 0 ≤ now (k_host k) →
  ∃ k' sec usec, gettimeofday k (Args ptr tz 0 0 0 0) = (0, k') ∧
    guest_slice k' ptr 16 = Ok (encode_pair sec usec) ∧ 0 ≤ usec < 1000000 ∧
    sec * 1000000 + usec = now (k_host k) / 1000 + (elapsed (k_host k) / 1000) mod 1000000.
Proof.
  intros Hin Hnow. unfold gettimeofday. simpl a0. cbv zeta.
  set (e := now (k_host k) / 1000). set (u := elapsed (k_host k) / 1000).
  assert (0 ≤ e) as He by (apply Z.div_pos; lia).
  pose proof (Z.mod_pos_bound u 1000000 ltac:(lia)) as Hu.
  pose proof (Z.rem_bound_pos e 1000000 He ltac:(lia)) as Hr.
  pose proof (Z.quot_rem' e 1000000) as Hq.
  set (s := if 1000000 <=? Z.rem e 1000000 + u mod 1000000 then Z.quot e 1000000 + 1 else Z.quot e 1000000).
  set (v := Z.rem (Z.rem e 1000000 + u mod 1000000) 1000000).
  destruct (guest_write_spec k ptr (encode_pair s v)) as (k' & -> & Hg); [done|].
  exists k', s, v. split; [done|]. split; [done|].
  assert (v = (Z.rem e 1000000 + u mod 1000000) - (if 1000000 <=? Z.rem e 1000000 + u mod 1000000 then 1000000 else 0)) as Hv.
  { subst v. rewrite Z.rem_mod_nonneg by lia. case_if.
    - symmetry. apply Z.mod_unique with 1; lia.
    - rewrite Z.mod_small; lia. }
  subst s. case_if; lia.
Qed.

(** A monotonic clock reports the time since start, split exactly. *)
Lemma clock_gettime_monotonic k clockid ptr :
  is_monotonic clockid = true → in_memory k ptr 16 → 0 ≤ elapsed (k_host k) ≤ I64_MAX →
  ∃ k' sec nsec, clock_gettime k (Args clockid ptr 0 0 0 0) = (0, k') ∧
    guest_slice k' ptr 16 = Ok (encode_pair sec nsec) ∧ 0 ≤ nsec < 1000000000 ∧
    sec * 1000000000 + nsec = elapsed (k_host k).
Proof.
  intros Hc Hin He. set (t := elapsed (k_host k)) in *.
  pose proof (Z.mod_pos_bound t 1000000000 ltac:(lia)) as Hm.
  pose proof (Z.div_mod t 1000000000 ltac:(lia)) as Hd.
  assert (0 ≤ t / 1000000000 ≤ t) as Hdiv by (split; [apply Z.div_pos; lia|apply Z.div_le_upper_bound; lia]).
  unfold clock_gettime, compute_time. simpl a0. simpl a1. fold t.
  assert ((clockid =? CLOCK_REALTIME) = false) as ->.
  { apply Z.eqb_neq. intros ->. by vm_compute in Hc. }
  rewrite Hc, !(wraps_id 64) by (unfold is_i, I64_MAX in *; lia).
  destruct (guest_write_spec k ptr (encode_pair (t / 1000000000) (t mod 1000000000))) as (k' & -> & Hg); [done|].
  exists k', (t / 1000000000), (t mod 1000000000). split_and!; try done; lia.
Qed.

End clocks.
