(* ===== verification/SysSocket.v ===== *)
(** * Socket syscalls (src/sys/socket.rs)

    Creating, binding, listening, accepting, connecting, transferring data,
    options and names, for IPv4, IPv6 and UNIX sockets. The host's sockets are
    those of [Net].

    A call that awaits the network hands the thread to others: [park] is what
    they do to the state until the await completes, and the call then goes on
    from there. Handles the source drops are closed by the host and leave no
    trace here. *)

From S2P Require Import Prelude Word Errno GuestMem Text Path Host Vfs Udp Net Fd Sock Kernel.

Definition AF_UNIX : Z := 1.
Definition AF_INET : Z := 2.
Definition AF_INET6 : Z := 10.
Definition SOCK_STREAM : Z := 1.
Definition SOCK_DGRAM : Z := 2.
Definition SOCK_NONBLOCK : Z := 2048.
Definition SOCKADDR_IN_SIZE : Z := 16.
Definition SOCKADDR_IN6_SIZE : Z := 28.
Definition SOCKADDR_UN_SIZE : Z := 110.
Definition SOL_SOCKET : Z := 1.
Definition IPPROTO_TCP : Z := 6.
Definition SO_REUSEADDR : Z := 2.
Definition SO_TYPE : Z := 3.
Definition SO_ERROR : Z := 4.
Definition SO_KEEPALIVE : Z := 9.
Definition SO_ACCEPTCONN : Z := 30.
Definition SO_DOMAIN : Z := 39.
Definition TCP_NODELAY : Z := 1.
Definition SHUT_RD : Z := 0.
Definition SHUT_WR : Z := 1.
Definition SHUT_RDWR : Z := 2.
Definition MSG_PEEK : Z := 2.
Definition MSG_DONTWAIT : Z := 64.
Definition MSGHDR_SIZE : Z := 32.

(** ** Addresses in guest memory *)

(** [u16::to_be_bytes] and [u16::from_be_bytes]. *)
Definition to_be_bytes (n : nat) (x : Z) : bytes := rev (to_le_bytes n x).
Definition from_be_bytes (bs : bytes) : Z := from_le_bytes (rev bs).

(** [struct sockaddr_in] and [struct sockaddr_in6] as the kernel writes
    them. *)
Definition encode_in (port : Z) (ip : bytes) : bytes :=
  to_le_bytes 2 AF_INET ++ to_be_bytes 2 port ++ ip ++ replicate 8 0.
Definition encode_in6 (port : Z) (ip : bytes) : bytes :=
  to_le_bytes 2 AF_INET6 ++ to_be_bytes 2 port ++ replicate 4 0 ++ ip ++ replicate 4 0.

(** [struct sockaddr_un]: the name and its terminator have to fit the 108
    bytes of [sun_path], or the index of the terminator is out of range and
    the code panics. *)
Definition encode_un (name : option bytes) : option bytes :=
  match name with
  | None => Some (to_le_bytes 2 AF_UNIX ++ replicate 108 0)
  | Some p =>
    if 108 <=? Z.of_nat (length p) then None
    else Some (to_le_bytes 2 AF_UNIX ++ p ++ replicate (108 - length p) 0)
  end.

(** The length reported with it. *)
Definition un_len (name : option bytes) : Z :=
  match name with None => 2 | Some p => as_u32 (2 + Z.of_nat (length p) + 1) end.

(** [Path::to_str] and [SocketAddr::from_pathname]. *)
Definition to_str (p : bytes) : option bytes := if utf8_valid p then Some p else None.
Definition from_pathname (p : bytes) : option bytes :=
  if existsb (λ b, b =? 0) p || (108 <=? Z.of_nat (length p)) then None else Some p.

(** The name in the 108 bytes of [sun_path]: up to the first NUL. *)
Definition un_path (sun_path : bytes) : bytes :=
  take (default (length sun_path) (position (λ b, b =? 0) sun_path)) sun_path.

Section syscalls.
Context {W : Type} `{Host W} `{Net W}.
Context (park : kern W → kern W).
Implicit Types k : kern W.

Definition parse_sockaddr k (addr_ptr addr_len : Z) : result SockAddr :=
  if (addr_ptr =? 0) || (addr_len =? 0) then Err (- EDESTADDRREQ)
  else
    len <-? result_of_option (- EINVAL) (usize_try_from addr_len);
    header <-? guest_slice k addr_ptr 2;
    let fam := from_le_bytes header in
    if fam =? AF_INET then
      if len <? SOCKADDR_IN_SIZE then Err (- EINVAL)
      else
        b <-? guest_slice k addr_ptr SOCKADDR_IN_SIZE;
        Ok (SockV4 (from_be_bytes (take 2 (drop 2 b))) (take 4 (drop 4 b)))
    else if fam =? AF_INET6 then
      if len <? SOCKADDR_IN6_SIZE then Err (- EINVAL)
      else
        b <-? guest_slice k addr_ptr SOCKADDR_IN6_SIZE;
        Ok (SockV6 (from_be_bytes (take 2 (drop 2 b))) (take 16 (drop 8 b)))
    else if fam =? AF_UNIX then
      if len <? 3 then Err (- EINVAL)
      else
        b <-? guest_slice k addr_ptr SOCKADDR_UN_SIZE;
        let sun_path := drop 2 b in
        if bool_decide (head sun_path = Some 0) then Err (- EOPNOTSUPP)
        else
          let name := un_path sun_path in
          if utf8_valid name then Ok (SockUnix name) else Err (- EINVAL)
    else Err (- EAFNOSUPPORT).

(** [if let Ok(buf) = guest_slice_mut(ptr, bs.len()) { buf.copy_from_slice(bs) }],
    skipped for a null pointer. *)
Definition put_opt k (ptr : Z) (bs : bytes) : kern W :=
  if ptr =? 0 then k
  else match guest_write k ptr bs with Ok kw => kw | Err _ => k end.

(** A UNIX name written to an optional pointer. *)
Definition put_un k (ptr : Z) (name : option bytes) : outcome (kern W) :=
  if ptr =? 0 then Return k
  else match guest_slice_mut k ptr SOCKADDR_UN_SIZE with
  | Err _ => Return k
  | Ok p => match encode_un name with Some bs => Return (mem_put k p bs) | None => Panic end
  end.

(** An optional output pointer is checked before anything is done. *)
Definition check_out k (ptr len : Z) : result unit :=
  if ptr =? 0 then Ok tt else _ <-? guest_slice_mut k ptr len; Ok tt.

(** ** Socket objects behind descriptors *)

Definition put_sock k (l : Z) (s : SocketInner) : kern W := set_heap k (set_sock (k_heap k) l s).

(** The socket a descriptor stands for; [-EBADF] when it is something else. *)
Definition get_sock k (fd : Z) : result (Z * SocketInner) :=
  r <-? get (k_fds k) fd;
  match r with RSocket l => Ok (l, sock_at (k_heap k) l) | _ => Err (- EBADF) end.

(** [if let Ok(Resource::Socket(s)) = fds.get_mut(fd) { ... }]. *)
Definition on_sock k (fd : Z) (f : SocketInner → SocketInner) : kern W :=
  match get_sock k fd with Ok (l, s) => put_sock k l (f s) | Err _ => k end.

(** A new socket object under a new descriptor. *)
Definition insert_sock k (mk : Z → Z → SocketInner) : Z * kern W :=
  let '(nr, h) := new_notify (k_heap k) in
  let '(nw, h) := new_notify h in
  let '(l, h) := new_sock h (mk nr nw) in
  let '(fd, t) := insert (k_fds k) (RSocket l) in
  (fd, set_fds (set_heap k h) t).

(** ** socket, socketpair *)

Definition socket_kind (fam sock_type : Z) : result SocketKind :=
  if (fam =? AF_INET) || (fam =? AF_INET6) || (fam =? AF_UNIX) then
    if sock_type =? SOCK_STREAM then Ok SkStream
    else if sock_type =? SOCK_DGRAM then Ok SkDatagram
    else Err (- EPROTONOSUPPORT)
  else Err (- EAFNOSUPPORT).

Definition socket k (a : args) : Z * kern W :=
  let fam := as_i32 (a0 a) in
  let type_and_flags := as_i32 (a1 a) in
  let nonblock := has type_and_flags SOCK_NONBLOCK in
  let! kd := socket_kind fam (Z.land type_and_flags 15) on k;
  insert_sock k (λ nr nw,
    if fam =? AF_UNIX then new_unix nr nw kd nonblock
    else
      let si := SocketInner_new nr nw kd nonblock in
      if fam =? AF_INET6 then sock_set_v6 si else si).

Definition socketpair k (a : args) : Z * kern W :=
  let sock_type := Z.land (as_i32 (a1 a)) 15 in
  let sv_ptr := a3 a in
  if negb (as_i32 (a0 a) =? AF_UNIX) then (- EAFNOSUPPORT, k)
  else if negb (sock_type =? SOCK_STREAM) && negb (sock_type =? SOCK_DGRAM) then (- EPROTONOSUPPORT, k)
  else if sv_ptr =? 0 then (- EFAULT, k)
  else
    let! _ := guest_slice_mut k sv_ptr 8 on k;
    match unix_pair (k_host k) with
    | (NetErr _, w) => (- EIO, set_host k w)
    | (NetOk (a_stream, b_stream), w) =>
      let k := set_host k w in
      let kd := if sock_type =? SOCK_DGRAM then SkDatagram else SkStream in
      let mk st := λ nr nw, sock_set_stream_unix (new_unix nr nw kd false) (Some st) in
      let '(a_fd, k) := insert_sock k (mk a_stream) in
      let '(b_fd, k) := insert_sock k (mk b_stream) in
      match guest_write k sv_ptr (to_le_bytes 4 a_fd ++ to_le_bytes 4 b_fd) with
      | Ok kw => (0, kw)
      | Err _ => (0, k)
      end
    end.

(** ** bind, listen *)

(** Remove a stale socket inode before binding: [None] to go on, or what
    [bind] returns. *)
Definition unlink_stale k (path : bytes) : option Z * kern W :=
  match fs_metadata (k_host k) (components path) with
  | IoOk m =>
    if bool_decide (md_type m = FtSocket) then
      match fs_remove_file (k_host k) (components path) with
      | (IoOk _, w) => (None, set_host k w)
      | (IoErr NotFound, w) => (Some 0, set_host k w)
      | (IoErr _, w) => (Some (- EADDRINUSE), set_host k w)
      end
    else (Some (- EADDRINUSE), k)
  | IoErr NotFound => (None, k)
  | IoErr PermissionDenied => (Some (- EACCES), k)
  | IoErr _ => (Some (- EIO), k)
  end.

Definition set_unix_listener (s : SocketInner) (path : bytes) (l : handle) : SocketInner :=
  let s := sock_set_bound s (Some (SockUnix path)) in
  match unix s with
  | Some u => sock_set_unix s (Some (MkUnix (Some path) (Some l) (ux_stream u) (ux_dgram u) (ux_peer_addr u)))
  | None => s
  end.

(** Bind the host listener and install it. *)
Definition install_unix_listener k (fd : Z) (path : bytes) : Z * kern W :=
  match unix_bind (k_host k) path with
  | (NetErr e, w) =>
    (match e with NetAddrInUse => - EADDRINUSE | NetNotFound => - ENOENT | _ => - EIO end,
     set_host k w)
  | (NetOk l, w) =>
    let k := set_host k w in
    let! (loc, s) := get_sock k fd on k;
    (0, put_sock k loc (set_unix_listener s path l))
  end.

Definition bind_unix k (fd : Z) (path : bytes) : Z * kern W :=
  let is_unix := match get_sock k fd with Ok (_, s) => family_unix s | Err _ => false end in
  if negb is_unix then (- EOPNOTSUPP, k)
  else match unlink_stale k path with
  | (Some r, k) => (r, k)
  | (None, k) => install_unix_listener k fd path
  end.

Definition sockaddr_of (a : SocketAddr) : SockAddr :=
  match a with SAv4 port ip => SockV4 port ip | SAv6 port ip => SockV6 port ip end.

(** The UDP state of a socket, made on the first use. *)
Definition udp_state (h : heap) (s : SocketInner) : UdpSocketState * heap :=
  match udp s with
  | Some u => (u, h)
  | None =>
    let '(nr, h) := new_notify h in
    let '(nw, h) := new_notify h in
    (Udp.new nr nw (if family_v6 s then V6 else V4) (ipv6_v6only s) (so_reuseaddr s), h)
  end.

Definition bind_udp k (loc : Z) (s : SocketInner) (addr : SockAddr) : Z * kern W :=
  match as_std addr with
  | None => (- EINVAL, k)
  | Some std_addr =>
    let mismatch := match addr with
                    | SockV4 _ _ => family_v6 s
                    | SockV6 _ _ => negb (family_v6 s)
                    | SockUnix _ => false
                    end in
    if mismatch then (- EINVAL, k)
    else
      let '(u, h) := udp_state (k_heap k) s in
      let k := set_heap k h in
      let '(r, u, w) := ensure_bound u (k_host k) std_addr in
      let k := set_host k w in
      let s := sock_set_udp s (Some u) in
      match r with
      | Err e => (e, put_sock k loc s)
      | Ok _ =>
        match local_addr u with
        | None => (- EIO, put_sock k loc s)
        | Some actual => (0, put_sock k loc (sock_set_bound s (Some (sockaddr_of actual))))
        end
      end
  end.

Definition bind k (a : args) : Z * kern W :=
  match u32_try_from (a0 a) with
  | None => (- EBADF, k)
  | Some fd =>
    let! addr := parse_sockaddr k (a1 a) (a2 a) on k;
    match addr with
    | SockUnix path => bind_unix k fd path
    | _ =>
      let! (loc, s) := get_sock k fd on k;
      match kind s with
      | SkDatagram => bind_udp k loc s addr
      | SkStream => (0, put_sock k loc (sock_set_bound s (Some addr)))
      end
    end
  end.

Definition listen k (a : args) : Z * kern W :=
  match u32_try_from (a0 a) with
  | None => (- EBADF, k)
  | Some fd =>
    let backlog := a1 a in
    if backlog <? 0 then (- EINVAL, k)
    else
      let! (loc, s) := get_sock k fd on k;
      match bound s with
      | None => (- EDESTADDRREQ, k)
      | Some _ => (0, put_sock k loc (sock_set_listen_backlog s (Some (as_i32 backlog))))
      end
  end.

(** ** accept *)

Definition set_listener_if_none (l : handle) (acceptor : bool) (s : SocketInner) : SocketInner :=
  match listener s with
  | Some _ => s
  | None =>
    let s := sock_set_listener s (Some l) in
    if acceptor then sock_set_is_acceptor s true else s
  end.

(** The host listener is bound on the first accept: [None] to go on, or what
    [accept4] returns. *)
Definition ensure_listener k (fd : Z) (addr : SocketAddr) : option Z * kern W :=
  match get_sock k fd with
  | Err e => (Some e, k)
  | Ok (_, s) =>
    match listener s with
    | Some _ => (None, k)
    | None =>
      let k := park k in
      match tcp_bind (k_host k) addr with
      | (NetErr _, w) => (Some (- EADDRINUSE), set_host k w)
      | (NetOk l, w) =>
        let k := set_host k w in
        match get_sock k fd with
        | Err e => (Some e, k)
        | Ok (loc, s) => (None, put_sock k loc (set_listener_if_none l true s))
        end
      end
    end
  end.

(** Write the peer's address back; [false] for an IPv6 peer. *)
Definition put_peer k (addr_ptr : Z) (peer : SocketAddr) : bool * kern W :=
  if addr_ptr =? 0 then (true, k)
  else match guest_slice_mut k addr_ptr 16 with
  | Err _ => (true, k)
  | Ok p =>
    match peer with
    | SAv4 port ip => (true, mem_put k p (encode_in port ip))
    | SAv6 _ _ => (false, k)
    end
  end.

(** The listener is taken out while the call waits and put back after. *)
Definition accept_tcp k (fd addr_ptr addrlen_ptr : Z) (nonblock : bool) (kd : SocketKind) : Z * kern W :=
  let! (loc, s) := get_sock k fd on k;
  match listener s with
  | None => (- EINVAL, k)
  | Some l =>
    let k := park (put_sock k loc (sock_set_listener s None)) in
    match tcp_accept (k_host k) l with
    | (NetErr _, w) => (- EIO, set_host k w)
    | (NetOk (st, peer), w) =>
      let k := set_host k w in
      let '(ok, k) := put_peer k addr_ptr peer in
      if negb ok then (- EOPNOTSUPP, k)
      else
        let k := put_opt k addrlen_ptr (to_le_bytes 4 16) in
        let k := on_sock k fd (set_listener_if_none l false) in
        insert_sock k (λ nr nw, sock_set_peer_addr (from_accepted nr nw st kd nonblock) (Some peer))
    end
  end.

Definition take_unix_listener k (fd : Z) : result handle * kern W :=
  match get_sock k fd with
  | Err e => (Err e, k)
  | Ok (loc, s) =>
    if negb (is_listening s) then (Err (- EINVAL), k)
    else match unix s with
    | None => (Err (- EINVAL), k)
    | Some u =>
      match ux_listener u with
      | None => (Err (- EINVAL), k)
      | Some l =>
        match unix_listener_clone (k_host k) l with
        | (NetOk c, w) => (Ok c, set_host k w)
        | (NetErr _, w) =>
          let u := MkUnix (ux_path u) None (ux_stream u) (ux_dgram u) (ux_peer_addr u) in
          (Err (- ENOMEM), put_sock (set_host k w) loc (sock_set_unix s (Some u)))
        end
      end
    end
  end.

Definition accept4_unix k (fd addr_ptr addrlen_ptr : Z) (nonblock : bool) : outcome (Z * kern W) :=
  match check_out k addr_ptr SOCKADDR_UN_SIZE with
  | Err e => Return (e, k)
  | Ok _ =>
    match check_out k addrlen_ptr 4 with
    | Err e => Return (e, k)
    | Ok _ =>
      match take_unix_listener k fd with
      | (Err e, k) => Return (e, k)
      | (Ok l, k) =>
        let k := park k in
        match unix_accept (k_host k) l with
        | (NetErr _, w) => Return (- EIO, set_host k w)
        | (NetOk (st, peer), w) =>
          let k := set_host k w in
          let name := peer ≫= to_str in
          match put_un k addr_ptr name with
          | Return k =>
            let k := put_opt k addrlen_ptr (to_le_bytes 4 (un_len name)) in
            Return (insert_sock k (λ nr nw,
              let s := sock_set_stream_unix (new_unix nr nw SkStream nonblock) (Some st) in
              sock_set_peer_addr_unix s (peer ≫= from_pathname)))
          | Hang => Hang
          | Panic => Panic
          end
        end
      end
    end
  end.

Definition accept4 k (a : args) : outcome (Z * kern W) :=
  match u32_try_from (a0 a) with
  | None => Return (- EBADF, k)
  | Some fd =>
    let addr_ptr := a1 a in
    let addrlen_ptr := a2 a in
    let sock_nonblock := has (as_i32 (a3 a)) SOCK_NONBLOCK in
    match check_out k addr_ptr 16 with
    | Err e => Return (e, k)
    | Ok _ =>
      match check_out k addrlen_ptr 4 with
      | Err e => Return (e, k)
      | Ok _ =>
        match get_sock k fd with
        | Err e => Return (e, k)
        | Ok (_, s) =>
          if family_unix s then accept4_unix k fd addr_ptr addrlen_ptr sock_nonblock
          else if negb (is_listening s) then Return (- EINVAL, k)
          else match bound s with
          | None => Return (- EINVAL, k)
          | Some (SockV6 _ _) | Some (SockUnix _) => Return (- EOPNOTSUPP, k)
          | Some (SockV4 port ip) =>
            match ensure_listener k fd (SAv4 port ip) with
            | (Some e, k) => Return (e, k)
            | (None, k) =>
              Return (accept_tcp k fd addr_ptr addrlen_ptr (sock_nonblock || s_nonblock s) (kind s))
            end
          end
        end
      end
    end
  end.

Definition accept k (a : args) : outcome (Z * kern W) := accept4 k (Args (a0 a) (a1 a) (a2 a) 0 0 0).

(** ** connect *)

Definition connect_unix k (fd : Z) (path : bytes) : Z * kern W :=
  let! (_, s) := get_sock k fd on k;
  if negb (family_unix s) then (- EOPNOTSUPP, k)
  else match stream_unix s with
  | Some _ => (- EISCONN, k)
  | None =>
    let k := park k in
    match unix_connect (k_host k) path with
    | (NetErr e, w) => (match e with NetNotFound => - ECONNREFUSED | _ => - EIO end, set_host k w)
    | (NetOk st, w) =>
      let k := set_host k w in
      let! (loc, s) := get_sock k fd on k;
      let s := sock_set_bound s (Some (SockUnix path)) in
      let s := sock_set_stream_unix s (Some st) in
      let s := match from_pathname path with Some sa => sock_set_peer_addr_unix s (Some sa) | None => s end in
      (0, put_sock k loc s)
    end
  end.

Definition connect_errno (e : NetErrorKind) : Z :=
  match e with
  | NetConnectionRefused => ECONNREFUSED
  | NetAddrInUse => EADDRINUSE
  | NetTimedOut => ETIMEDOUT
  | _ => EIO
  end.

Definition connect_v4 k (fd : Z) (addr : SockAddr) : Z * kern W :=
  match addr with
  | SockV6 _ _ | SockUnix _ => (- EOPNOTSUPP, k)
  | SockV4 port ip =>
    let target := SAv4 port ip in
    let! (_, s) := get_sock k fd on k;
    match stream s with
    | Some _ => (- EISCONN, k)
    | None =>
      let k := park k in
      match tcp_connect (k_host k) target with
      | (NetErr e, w) =>
        let errno := connect_errno e in
        (- errno, on_sock (set_host k w) fd (λ s, sock_set_last_error s (as_i32 errno)))
      | (NetOk st, w) =>
        let k := set_host k w in
        let! (loc, s) := get_sock k fd on k;
        (0, put_sock k loc (sock_set_peer_addr (sock_set_stream s (Some st)) (Some target)))
      end
    end
  end.

Definition connect k (a : args) : Z * kern W :=
  match u32_try_from (a0 a) with
  | None => (- EBADF, k)
  | Some fd =>
    let! addr := parse_sockaddr k (a1 a) (a2 a) on k;
    match addr with SockUnix path => connect_unix k fd path | _ => connect_v4 k fd addr end
  end.

(** ** Transferring data *)

(** The stream of a TCP or of a UNIX socket. *)
Definition stream_of (unx : bool) (s : SocketInner) : option handle :=
  if unx then stream_unix s else stream s.
Definition set_stream_of (unx : bool) (s : SocketInner) (x : option handle) : SocketInner :=
  if unx then sock_set_stream_unix s x else sock_set_stream s x.

(** The stream is taken out of the socket for the time of the transfer;
    [shut] is the answer when that direction was shut down. *)
Definition take_stream k (fd : Z) (unx : bool) (bit shut : Z) : result handle * kern W :=
  match get_sock k fd with
  | Err e => (Err e, k)
  | Ok (loc, s) =>
    if has (shutdown_flags s) bit then (Err shut, k)
    else match stream_of unx s with
    | None => (Err (- ENOTCONN), k)
    | Some st => (Ok st, put_sock k loc (set_stream_of unx s None))
    end
  end.

(** ... and put back unless there is one again. *)
Definition restore_stream k (fd : Z) (unx : bool) (st : handle) : kern W :=
  on_sock k fd (λ s, match stream_of unx s with None => set_stream_of unx s (Some st) | Some _ => s end).

Definition send_bytes k (fd : Z) (unx : bool) (bs : bytes) : Z * kern W :=
  match take_stream k fd unx 2 (- EPIPE) with
  | (Err e, k) => (e, k)
  | (Ok st, k) =>
    let k := park k in
    let '(res, w) := stream_write (k_host k) st bs in
    let k := restore_stream (set_host k w) fd unx st in
    (match res with NetOk n => n | NetErr _ => - EIO end, k)
  end.

Definition recv_bytes k (fd : Z) (unx : bool) (len : Z) : result bytes * kern W :=
  match take_stream k fd unx 1 0 with
  | (Err e, k) => (Err e, k)
  | (Ok st, k) =>
    let k := park k in
    let '(res, w) := stream_read (k_host k) st len in
    let k := restore_stream (set_host k w) fd unx st in
    (match res with NetOk bs => Ok bs | NetErr _ => Err (- EIO) end, k)
  end.

Definition sendto k (a : args) : Z * kern W :=
  match u32_try_from (a0 a) with
  | None => (- EBADF, k)
  | Some fd =>
    let! (_, s) := get_sock k fd on k;
    match usize_try_from (a2 a) with
    | None => (- EFAULT, k)
    | Some _ =>
      let! bs := guest_slice k (a1 a) (a2 a) on k;
      send_bytes k fd (family_unix s) bs
    end
  end.

Definition recvfrom_unix k (fd buf_ptr buf_len : Z) : Z * kern W :=
  match usize_try_from buf_len with
  | None => (- EFAULT, k)
  | Some len =>
    if len =? 0 then (- EINVAL, k)
    else
      let! _ := guest_slice_mut k buf_ptr buf_len on k;
      match recv_bytes k fd true len with
      | (Err e, k) => (e, k)
      | (Ok bs, k) =>
        let n := Z.of_nat (length bs) in
        if 0 <? n then let! kw := guest_write k buf_ptr bs on k; (n, kw)
        else (n, k)
      end
  end.

Definition recvfrom k (a : args) : Z * kern W :=
  match u32_try_from (a0 a) with
  | None => (- EBADF, k)
  | Some fd =>
    let buf_ptr := a1 a in
    let addr_ptr := a4 a in
    let addrlen_ptr := a5 a in
    let! (_, s) := get_sock k fd on k;
    if family_unix s then recvfrom_unix k fd buf_ptr (a2 a)
    else match usize_try_from (a2 a) with
    | None => (- EFAULT, k)
    | Some len =>
      if len =? 0 then (- EINVAL, k)
      else
        let! _ := guest_slice_mut k buf_ptr (a2 a) on k;
        let! _ := check_out k addr_ptr 16 on k;
        let! _ := check_out k addrlen_ptr 4 on k;
        match recv_bytes k fd false len with
        | (Err e, k) => (e, k)
        | (Ok bs, k) =>
          let! kw := guest_write k buf_ptr bs on k;
          let kw := put_opt kw addr_ptr (encode_in 0 [127; 0; 0; 1]) in
          let kw := put_opt kw addrlen_ptr (to_le_bytes 4 16) in
          (Z.of_nat (length bs), kw)
        end
    end
  end.

(** ** Options *)

Definition set_option (level optname : Z) (s : SocketInner) : SocketInner :=
  if (level =? SOL_SOCKET) && (optname =? SO_REUSEADDR) then sock_set_so_reuseaddr s true
  else if (level =? SOL_SOCKET) && (optname =? SO_KEEPALIVE) then sock_set_so_keepalive s true
  else if (level =? IPPROTO_TCP) && (optname =? TCP_NODELAY) then sock_set_tcp_nodelay s true
  else s.

Definition setsockopt k (a : args) : Z * kern W :=
  match u32_try_from (a0 a) with
  | None => (- EBADF, k)
  | Some fd =>
    let! _ := (if negb (a3 a =? 0) && (0 <? a4 a) then _ <-? guest_slice k (a3 a) (a4 a); Ok tt
               else Ok tt) on k;
    let! (loc, s) := get_sock k fd on k;
    (0, put_sock k loc (set_option (as_i32 (a1 a)) (as_i32 (a2 a)) s))
  end.

(** The value of an option, and the socket after it was read. *)
Definition get_option (level optname : Z) (s : SocketInner) : Z * SocketInner :=
  let b2z (b : bool) := if b then 1 else 0 in
  if level =? SOL_SOCKET then
    if optname =? SO_TYPE then (1, s)
    else if optname =? SO_DOMAIN then (2, s)
    else if optname =? SO_ERROR then (last_error s, sock_set_last_error s 0)
    else if optname =? SO_ACCEPTCONN then (b2z (is_acceptor s), s)
    else if optname =? SO_REUSEADDR then (b2z (so_reuseaddr s), s)
    else if optname =? SO_KEEPALIVE then (b2z (so_keepalive s), s)
    else (0, s)
  else if (level =? IPPROTO_TCP) && (optname =? TCP_NODELAY) then (b2z (tcp_nodelay s), s)
  else (0, s).

Definition getsockopt k (a : args) : Z * kern W :=
  match u32_try_from (a0 a) with
  | None => (- EBADF, k)
  | Some fd =>
    let optval_ptr := a3 a in
    if optval_ptr =? 0 then (- EFAULT, k)
    else match get_sock k fd with
    | Err _ => (- EBADF, k)
    | Ok (loc, s) =>
      let '(value, s) := get_option (as_i32 (a1 a)) (as_i32 (a2 a)) s in
      let k := put_sock k loc s in
      let! kw := guest_write k optval_ptr (to_le_bytes 4 (as_u32 value)) on k;
      (0, put_opt kw (a4 a) (to_le_bytes 4 4))
    end
  end.

(** ** Names *)

(** A UNIX name as the result of [getsockname] and [getpeername]. *)
Definition return_un k (addr_ptr addrlen_ptr : Z) (name : option bytes) : outcome (Z * kern W) :=
  match put_un k addr_ptr name with
  | Return k => Return (0, put_opt k addrlen_ptr (to_le_bytes 4 (un_len name)))
  | Hang => Hang
  | Panic => Panic
  end.

(** The address [getsockname] reports for an IP socket. *)
Definition local_name (s : SocketInner) : result SocketAddr :=
  match bound s with
  | Some (SockV4 port ip) => Ok (SAv4 port ip)
  | Some (SockV6 port ip) => Ok (SAv6 port ip)
  | Some (SockUnix _) => Err (- EINVAL)
  | None => Ok (default (SAv4 0 [0; 0; 0; 0]) (peer_addr s))
  end.

Definition getsockname k (a : args) : outcome (Z * kern W) :=
  match u32_try_from (a0 a) with
  | None => Return (- EBADF, k)
  | Some fd =>
    let addr_ptr := a1 a in
    let addrlen_ptr := a2 a in
    if addr_ptr =? 0 then Return (- EFAULT, k)
    else match get_sock k fd with
    | Err e => Return (e, k)
    | Ok (_, s) =>
      let size := if family_unix s then SOCKADDR_UN_SIZE else SOCKADDR_IN6_SIZE in
      match guest_slice_mut k addr_ptr size with
      | Err e => Return (e, k)
      | Ok p =>
        match check_out k addrlen_ptr 4 with
        | Err e => Return (e, k)
        | Ok _ =>
          if family_unix s then
            let name := match bound s with Some (SockUnix path) => to_str path | _ => None end in
            return_un k addr_ptr addrlen_ptr name
          else match local_name s with
          | Err e => Return (e, k)
          | Ok (SAv4 port ip) =>
            Return (0, put_opt (mem_put k p (encode_in port ip)) addrlen_ptr (to_le_bytes 4 16))
          | Ok (SAv6 port ip) =>
            Return (0, put_opt (mem_put k p (encode_in6 port ip)) addrlen_ptr (to_le_bytes 4 28))
          end
        end
      end
    end
  end.

Definition getpeername k (a : args) : outcome (Z * kern W) :=
  match u32_try_from (a0 a) with
  | None => Return (- EBADF, k)
  | Some fd =>
    let addr_ptr := a1 a in
    let addrlen_ptr := a2 a in
    if addr_ptr =? 0 then Return (- EFAULT, k)
    else match get_sock k fd with
    | Err e => Return (e, k)
    | Ok (_, s) =>
      let size := if family_unix s then SOCKADDR_UN_SIZE else SOCKADDR_IN_SIZE in
      match guest_slice_mut k addr_ptr size with
      | Err e => Return (e, k)
      | Ok p =>
        match check_out k addrlen_ptr 4 with
        | Err e => Return (e, k)
        | Ok _ =>
          if family_unix s then
            match peer_addr_unix s with
            | None => Return (- ENOTCONN, k)
            | Some peer => return_un k addr_ptr addrlen_ptr (to_str peer)
            end
          else match peer_addr s with
          | None => Return (- ENOTCONN, k)
          | Some (SAv6 _ _) => Return (- EINVAL, k)
          | Some (SAv4 port ip) =>
            Return (0, put_opt (mem_put k p (encode_in port ip)) addrlen_ptr (to_le_bytes 4 16))
          end
        end
      end
    end
  end.

(** ** shutdown *)

Definition shutdown k (a : args) : Z * kern W :=
  match u32_try_from (a0 a) with
  | None => (- EBADF, k)
  | Some fd =>
    let how := as_i32 (a1 a) in
    if negb ((how =? SHUT_RD) || (how =? SHUT_WR) || (how =? SHUT_RDWR)) then (- EINVAL, k)
    else
      let mask := if how =? SHUT_RD then 1 else if how =? SHUT_WR then 2 else 3 in
      let! (loc, s) := get_sock k fd on k;
      let s' := sock_set_shutdown_flags s (Z.lor (shutdown_flags s) mask) in
      if has mask 2 then
        let k := put_sock k loc (sock_set_stream s' None) in
        match stream s with
        | None => (0, k)
        | Some st => let k := park k in (0, set_host k (stream_shutdown (k_host k) st))
        end
      else (0, put_sock k loc s')
  end.

(** ** sendmsg, recvmsg *)

(** A [u32] field of [struct msghdr]. *)
Definition msg_field (mhdr : bytes) (off : nat) : Z := from_le_bytes (take 4 (drop off mhdr)).

(** The [(base, len)] pairs of an iovec array. *)
Fixpoint iov_spans (n : nat) (bs : bytes) : list (Z * Z) :=
  match n with
  | O => []
  | S n => (from_le_bytes (take 4 bs), from_le_bytes (take 4 (drop 4 bs))) :: iov_spans n (drop 8 bs)
  end.

Fixpoint gather k (iovs : list (Z * Z)) : result bytes :=
  match iovs with
  | [] => Ok []
  | (base, len) :: iovs =>
    data <-? (if negb (base =? 0) && (0 <? len) then guest_slice k base len else Ok []);
    rest <-? gather k iovs;
    Ok (data ++ rest)
  end.

(** The payload of a message. *)
Definition read_msghdr_iov k (msghdr_ptr : Z) : result bytes :=
  mhdr <-? guest_slice k msghdr_ptr MSGHDR_SIZE;
  let iov_ptr := msg_field mhdr 8 in
  let iov_count := msg_field mhdr 12 in
  if (iov_count <=? 0) || (iov_ptr =? 0) then Ok []
  else
    iov_bytes <-? guest_slice k iov_ptr (iov_count * 8);
    gather k (iov_spans (Z.to_nat iov_count) iov_bytes).

(** [MSG_DONTWAIT] sets the non-blocking flag; the old one is returned. *)
Definition dontwait k (fd flags : Z) : option bool * kern W :=
  if has flags MSG_DONTWAIT then
    match get_sock k fd with
    | Ok (loc, s) => (Some (s_nonblock s), put_sock k loc (sock_set_nonblock s true))
    | Err _ => (None, k)
    end
  else (None, k).

Definition restore_nonblock k (fd : Z) (was_nonblock : option bool) : kern W :=
  match was_nonblock with
  | Some prev => on_sock k fd (λ s, sock_set_nonblock s prev)
  | None => k
  end.

Definition sendmsg k (a : args) : Z * kern W :=
  match u32_try_from (a0 a) with
  | None => (- EBADF, k)
  | Some fd =>
    match get_sock k fd with
    | Err _ => (- EBADF, k)
    | Ok _ =>
      let! payload := read_msghdr_iov k (a1 a) on k;
      if bool_decide (payload = []) then (0, k)
      else
        let '(was_nonblock, k) := dontwait k fd (as_i32 (a2 a)) in
        match take_stream k fd false 2 (- EPIPE) with
        | (Err e, k) => (e, k)
        | (Ok st, k) =>
          let k := park k in
          let '(res, w) := stream_write (k_host k) st payload in
          let k := restore_stream (set_host k w) fd false st in
          let k := restore_nonblock k fd was_nonblock in
          (match res with NetOk n => n | NetErr _ => - EIO end, k)
        end
    end
  end.

(** Scatter the received bytes over the spans; a span that cannot be written
    swallows its share. *)
Fixpoint copy_bytes_to_spans k (spans : list (Z * Z)) (data : bytes) : kern W :=
  match spans with
  | [] => k
  | (base, len) :: spans =>
    if bool_decide (data = []) || (len =? 0) then copy_bytes_to_spans k spans data
    else
      let n := Nat.min (length data) (Z.to_nat len) in
      let k := match guest_write k base (take n data) with Ok kw => kw | Err _ => k end in
      copy_bytes_to_spans k spans (drop n data)
  end.

(** [msg_controllen] is reported as 0. *)
Definition write_back_msghdr k (msghdr_ptr : Z) : kern W :=
  match guest_write k (msghdr_ptr + 20) (to_le_bytes 4 0) with Ok kw => kw | Err _ => k end.

Definition total_cap (spans : list (Z * Z)) : Z :=
  foldl (λ c sp, Z.min (c + sp.2) U64_MAX) 0 spans.

(** Take bytes off the peek buffer. *)
Definition drain_peek k (fd cap : Z) : bytes * kern W :=
  match get_sock k fd with
  | Err _ => ([], k)
  | Ok (loc, s) =>
    let n := Z.to_nat cap in
    (take n (peek_buf s), put_sock k loc (sock_set_peek_buf s (drop n (peek_buf s))))
  end.

(** Deliver [data] to the guest and finish the call. *)
Definition recvmsg_deliver k (fd msghdr_ptr : Z) (spans : list (Z * Z)) (was_nonblock : option bool)
    (data : bytes) : Z * kern W :=
  let k := copy_bytes_to_spans k spans data in
  let k := write_back_msghdr k msghdr_ptr in
  (Z.of_nat (length data), restore_nonblock k fd was_nonblock).

Definition recvmsg_stream k (fd msghdr_ptr : Z) (spans : list (Z * Z)) (is_peek : bool)
    (was_nonblock : option bool) : Z * kern W :=
  match take_stream k fd false 1 0 with
  | (Err e, k) => (e, k)
  | (Ok st, k) =>
    let k := park k in
    let '(res, w) := stream_read (k_host k) st (total_cap spans) in
    let k := restore_stream (set_host k w) fd false st in
    match res with
    | NetErr _ => (- EIO, restore_nonblock k fd was_nonblock)
    | NetOk data =>
      let k := if is_peek then on_sock k fd (λ s, sock_set_peek_buf s (peek_buf s ++ data)) else k in
      recvmsg_deliver k fd msghdr_ptr spans was_nonblock data
    end
  end.

Definition recvmsg k (a : args) : Z * kern W :=
  match u32_try_from (a0 a) with
  | None => (- EBADF, k)
  | Some fd =>
    let msghdr_ptr := a1 a in
    let flags_in := as_i32 (a2 a) in
    match get_sock k fd with
    | Err _ => (- EBADF, k)
    | Ok _ =>
      let! mhdr := guest_slice k msghdr_ptr MSGHDR_SIZE on k;
      let iov_ptr := msg_field mhdr 8 in
      let iov_count := msg_field mhdr 12 in
      if (iov_count <=? 0) || (iov_ptr =? 0) then (- EINVAL, k)
      else
        let! iov_bytes := guest_slice k iov_ptr (iov_count * 8) on k;
        let spans := iov_spans (Z.to_nat iov_count) iov_bytes in
        if total_cap spans =? 0 then (0, k)
        else
          let '(was_nonblock, k) := dontwait k fd flags_in in
          let '(peeked, k) := drain_peek k fd (total_cap spans) in
          if bool_decide (peeked = []) then
            recvmsg_stream k fd msghdr_ptr spans (has flags_in MSG_PEEK) was_nonblock
          else recvmsg_deliver k fd msghdr_ptr spans was_nonblock peeked
    end
  end.

End syscalls.
