(* ===== verification/SysSocketInv.v ===== *)
(** * Socket syscalls keep the kernel invariant

    One [Preserves] instance per handler of [SysSocket], provided the other
    threads keep the invariant while a call waits. *)

From S2P Require Import Prelude Word Errno GuestMem Text Path Host Vfs Udp Net Fd Sock Kernel KernInv SysSocket.

Section invariant.
Context {W : Type} `{Host W} `{Net W}.
Context (park : kern W → kern W) (park_wf : ∀ k, kern_wf k → kern_wf (park k)).
Implicit Types k : kern W.

(** ** Socket objects *)

Lemma get_sock_Ok k fd l s :
  get_sock k fd = Ok (l, s) ↔ get (k_fds k) fd = Ok (RSocket l) ∧ s = sock_at (k_heap k) l.
Proof.
  unfold get_sock. rewrite result_bind_Ok. split.
  - intros (r & Hg & Hr). destruct r; try done. by injection Hr as <- <-.
  - intros [Hg ->]. by eexists.
Qed.

Lemma get_sock_exists k fd l s : kern_wf k → get_sock k fd = Ok (l, s) → is_Some (socks (k_heap k) !! l).
Proof. intros Hk [Hg _]%get_sock_Ok. by use_res Hk Hg. Qed.

Lemma get_sock_ok k fd l s : kern_wf k → get_sock k fd = Ok (l, s) → sock_ok s.
Proof. intros Hk [_ ->]%get_sock_Ok. by apply sock_at_ok, kw_heap. Qed.

Lemma put_sock_wf k l s :
  kern_wf k → is_Some (socks (k_heap k) !! l) → sock_ok s → kern_wf (put_sock k l s).
Proof. intros Hk Hl Hs. apply kern_wf_set_heap; [done|]. apply set_sock_wf; [exact (kw_heap _ Hk)|done|done]. Qed.

Lemma on_sock_wf k fd f : kern_wf k → (∀ s, sock_ok s → sock_ok (f s)) → kern_wf (on_sock k fd f).
Proof.
  intros Hk Hf. unfold on_sock. destruct (get_sock k fd) as [[l s]|] eqn:E; [|done].
  apply put_sock_wf; [done|by eapply get_sock_exists|]. apply Hf. by eapply get_sock_ok.
Qed.

Lemma new_sock_wf h s l h' :
  new_sock h s = (l, h') → heap_wf h → sock_ok s → heap_wf h' ∧ heap_le h h' ∧ is_Some (socks h' !! l).
Proof.
  intros [= <- <-] [Hp Hf Hs Ho] Hok. split_and!; [split|split|]; simpl; auto; try intros l'.
  - intros Hl. apply Hp in Hl. lia.
  - intros Hl. apply Hf in Hl. lia.
  - rewrite lookup_insert_is_Some'. intros [<-|Hl]; [lia|]. apply Hs in Hl. lia.
  - intros s'. rewrite lookup_insert_Some. intros [[_ <-]|[_ ?]]; eauto.
  - rewrite lookup_insert_is_Some'. tauto.
  - rewrite lookup_insert_eq. by eexists.
Qed.

Lemma insert_sock_wf k mk fd k' :
  kern_wf k → (∀ nr nw, sock_ok (mk nr nw)) → insert_sock k mk = (fd, k') →
  3 ≤ next_fd (k_fds k') → kern_wf k'.
Proof.
  intros Hk Hmk. unfold insert_sock.
  destruct (new_notify (k_heap k)) as [nr h1] eqn:E1. destruct (new_notify h1) as [nw h2] eqn:E2.
  destruct (new_sock h2 _) as [l h3] eqn:E3. destruct (insert _ _) as [fd' t] eqn:Ei.
  intros [= <- <-] Hn.
  destruct (new_notify_wf _ _ _ E1 (kw_heap _ Hk)) as [Hh1 Hle1].
  destruct (new_notify_wf _ _ _ E2 Hh1) as [Hh2 Hle2].
  destruct (new_sock_wf _ _ _ _ E3 Hh2 (Hmk _ _)) as (Hh3 & Hle3 & Hl).
  apply (kern_wf_insert (set_heap k h3) (RSocket l) fd' t); [|exact Hl|exact Ei|done].
  apply kern_wf_set_heap; [done|]. split; [done|]. by do 2 (etransitivity; [eassumption|]).
Qed.

(** ** Output *)

Lemma put_opt_wf k ptr bs : kern_wf k → kern_wf (put_opt k ptr bs).
Proof.
  intros Hk. unfold put_opt. case_if; [done|]. destruct (guest_write k ptr bs) eqn:E; eauto with libos.
Qed.

Lemma encode_un_length name bs : encode_un name = Some bs → length bs = 110%nat.
Proof.
  unfold encode_un. destruct name as [p|]; [|by intros [= <-]]. case_if; [done|]. intros [= <-].
  cbn [length]. rewrite length_app, length_replicate. lia.
Qed.

Lemma put_un_wf k ptr name k' : kern_wf k → put_un k ptr name = Return k' → kern_wf k'.
Proof.
  intros Hk. unfold put_un. case_if; [by intros [= <-]|].
  destruct (guest_slice_mut k ptr _) as [p|] eqn:E; [|by intros [= <-]].
  destruct (encode_un name) as [bs|] eqn:Eb; [|done]. intros [= <-].
  apply guest_slice_mut_Ok in E as [Hin ->]. apply kern_wf_mem_put; [done|].
  by rewrite (encode_un_length _ _ Eb).
Qed.

Lemma insert_sock_next k mk fd k' :
  insert_sock k mk = (fd, k') → next_fd (k_fds k') = as_u32 (next_fd (k_fds k) + 1).
Proof. intros [= <- <-]. done. Qed.

(** [next_fd] has not wrapped before a later insert if it has not after. *)
Lemma next_fd_unwrapped k n : kern_wf k → n = as_u32 (next_fd (k_fds k) + 1) → 3 ≤ as_u32 (n + 1) → 3 ≤ n.
Proof.
  intros Hk -> Hn. destruct (kw_fds _ Hk) as [Hb _].
  destruct (decide (next_fd (k_fds k) = U32_MAX)) as [He|]; [|rewrite as_u32_small by lia; lia].
  rewrite He in Hn. vm_compute in Hn. by destruct Hn.
Qed.

End invariant.

#[export] Hint Resolve get_sock_exists put_opt_wf : libos.

(** The field of a socket that a setter leaves alone, or the path of a UNIX
    state whose handles were changed. *)
Ltac same_field :=
  first [reflexivity | match goal with H : unix _ = _ |- _ => simpl; rewrite H; reflexivity end].

(** A socket whose addresses are untouched, or set to well-formed ones. *)
Ltac solve_sock_ok :=
  repeat match goal with
  | |- ∀ _, _ => intro; cbv beta zeta
  | H : get_sock ?k _ = Ok (_, ?s), Hk : kern_wf ?k |- _ =>
    lazymatch goal with Hs : sock_ok s |- _ => fail | _ => pose proof (get_sock_ok _ _ _ _ Hk H) end
  | |- sock_ok (set_stream_of _ _ _) => unfold set_stream_of
  | |- sock_ok (set_listener_if_none _ _ _) => unfold set_listener_if_none
  | |- sock_ok (match ?x with _ => _ end) => destruct x
  | |- sock_ok (if ?b then _ else _) => destruct b
  | |- sock_ok (SocketInner_new _ _ _ _) => apply sock_ok_new
  end;
  match goal with
  | H : sock_ok ?s |- sock_ok _ => first [exact H | apply (sock_ok_same s); [exact H|same_field..]]
  | |- sock_ok _ => by split
  end.

(** Follow a handler to its answer, closing the branches that change
    nothing. *)
Ltac sock_call :=
  repeat first
    [ progress simplify_eq/=
    | assumption
    | match goal with
      | |- kern_wf (put_opt _ _ _) => apply put_opt_wf
      | |- kern_wf (set_host _ _) => apply kern_wf_set_host
      | |- kern_wf (on_sock _ _ _) => apply on_sock_wf; [|solve [solve_sock_ok]]
      | H : guest_write _ _ _ = Ok ?k |- kern_wf ?k => eapply kern_wf_guest_write; [|exact H]
      | H : get_sock ?k _ = Ok (?l, _) |- kern_wf (put_sock ?k ?l _) =>
        apply put_sock_wf; [|eapply get_sock_exists; [|exact H]|try solve [solve_sock_ok]]
      end
    | done
    | case_match; to_prop ].

Section handlers.
Context {W : Type} `{Host W} `{Net W} `{!NetLaws W}.
Context (park : kern W → kern W) (park_wf : ∀ k, kern_wf k → kern_wf (park k)).
Implicit Types k : kern W.

#[export] Instance socket_preserves : PreservesFd (socket (W:=W)).
Proof.
  intros k a r k' Hk. unfold socket. destruct (socket_kind _ _); [|by intros [= <- <-]].
  intros Hi Hn. eapply insert_sock_wf; [done| |exact Hi|done]. solve_sock_ok.
Qed.

#[export] Instance listen_preserves : Preserves (listen (W:=W)).
Proof. intros k a r k' Hk. unfold listen. intros Hr. sock_call. Qed.

#[export] Instance setsockopt_preserves : Preserves (setsockopt (W:=W)).
Proof. intros k a r k' Hk. unfold setsockopt, set_option. intros Hr. sock_call. Qed.

Lemma get_option_ok level name s v s' : get_option level name s = (v, s') → sock_ok s → sock_ok s'.
Proof. unfold get_option. intros Hg Hs. run_handler; solve_sock_ok. Qed.

#[export] Instance getsockopt_preserves : Preserves (getsockopt (W:=W)).
Proof.
  intros k a r k' Hk. unfold getsockopt. destruct (u32_try_from (a0 a)) as [fd|]; [|by intros [= <- <-]].
  case_if; [by intros [= <- <-]|]. destruct (get_sock k fd) as [[l s]|] eqn:Eg; [|by intros [= <- <-]].
  destruct (get_option _ _ s) as [v s'] eqn:Eo.
  assert (kern_wf (put_sock k l s')) as Hk1.
  { apply put_sock_wf; [done|by eapply get_sock_exists|]. eapply get_option_ok; [done|by eapply get_sock_ok]. }
  intros Hr. sock_call.
Qed.

#[export] Instance socketpair_preserves : PreservesFd (socketpair (W:=W)).
Proof.
  intros k a r k' Hk. unfold socketpair. do 3 (case_if; [by intros [= <- <-]|]).
  destruct (guest_slice_mut k _ _); [|by intros [= <- <-]].
  destruct (unix_pair (k_host k)) as [[[sa sb]|e] w]; [|intros [= <- <-] _; by apply kern_wf_set_host].
  cbv zeta. destruct (insert_sock (set_host k w) _) as [afd k1] eqn:E1.
  destruct (insert_sock k1 _) as [bfd k2] eqn:E2. intros Hr Hn.
  assert (kern_wf k2 → kern_wf k') as Hlast by (intros Hk2; sock_call).
  assert (3 ≤ next_fd (k_fds k2)) as Hn2.
  { destruct (guest_write k2 _ _) as [kw|] eqn:E; injection Hr as <- <-; [|done].
    apply guest_write_Ok in E as [(m & Hm & _) ->]. unfold mem_put in Hn. by rewrite Hm in Hn. }
  pose proof (insert_sock_next _ _ _ _ E1) as H1. pose proof (insert_sock_next _ _ _ _ E2) as H2.
  apply Hlast. eapply (insert_sock_wf k1); [| |exact E2|done]; [|solve_sock_ok].
  eapply (insert_sock_wf (set_host k w)); [| |exact E1|]; [|solve_sock_ok|].
  - by apply kern_wf_set_host.
  - eapply (next_fd_unwrapped k); [done|exact H1|by rewrite <- H2].
Qed.

Lemma unlink_stale_wf k path r k' : kern_wf k → unlink_stale k path = (r, k') → kern_wf k'.
Proof. intros Hk. unfold unlink_stale. intros Hr. sock_call. Qed.

Lemma set_unix_listener_ok s path l :
  sock_ok s → (length path < 108)%nat → sock_ok (set_unix_listener s path l).
Proof.
  intros [Hb Hp Hu Hq Hx] Hl. unfold set_unix_listener. simpl. destruct (unix s) eqn:E; split; simpl; try done.
  all: try by intros ? [= <-]. by rewrite E.
Qed.

Lemma udp_state_wf h s u h' : heap_wf h → udp_state h s = (u, h') → heap_wf h' ∧ heap_le h h'.
Proof.
  intros Hh. unfold udp_state. destruct (udp s); [by intros [= <- <-]|].
  destruct (new_notify h) as [nr h1] eqn:E1. destruct (new_notify h1) as [nw h2] eqn:E2.
  intros [= <- <-]. destruct (new_notify_wf _ _ _ E1 Hh) as [Hh1 ?].
  destruct (new_notify_wf _ _ _ E2 Hh1) as [Hh2 ?]. split; [done|by transitivity h1].
Qed.

Lemma parse_sockaddr_len k ptr len a :
  parse_sockaddr k ptr len = Ok a → match a with SockUnix _ => True | _ => sockaddr_len a end.
Proof.
  unfold parse_sockaddr. case_if; [done|]. intros (n & _ & Hn)%result_bind_Ok.
  apply result_bind_Ok in Hn as (hd & _ & Hn).
  case_if; [case_if; [done|]|case_if; [case_if; [done|]|case_if; [case_if; [done|]|done]]];
    apply result_bind_Ok in Hn as (b & Hb & Hn); pose proof (guest_slice_length _ _ _ _ Hb) as Hl;
    [injection Hn as <-..|]; simpl; [| |by run_handler];
    rewrite length_take, length_drop; unfold SOCKADDR_IN_SIZE, SOCKADDR_IN6_SIZE in Hl; lia.
Qed.

Lemma from_pathname_len p q : from_pathname p = Some q → (length q < 108)%nat.
Proof. unfold from_pathname. case_if; [done|]. intros [= <-]. to_prop. lia. Qed.

Lemma inet_ok_len a : inet_ok a → inet_len a.
Proof. destruct a; simpl; tauto. Qed.

Lemma udp_local_addr_len (w : W) h a : net_err to_eio (udp_local_addr w h) = Ok a → inet_len a.
Proof using NetLaws0.
  destruct (udp_local_addr w h) eqn:El; [|done]. intros [= <-]. by eapply inet_ok_len, udp_local_addr_ok.
Qed.

Lemma ensure_bound_ok u w req r u' w' :
  (∀ a, u_bound_addr u = Some a → inet_len a) → ensure_bound u w req = (r, u', w') →
  ∀ a, u_bound_addr u' = Some a → inet_len a.
Proof using NetLaws0.
  intros Hu. unfold ensure_bound. destruct (u_socket u); [by intros [= <- <- <-]|].
  destruct (udp_materialize u w req) as [[[sock addr]|e] w1] eqn:E; intros [= <- <- <-]; [|done].
  simpl. intros a [= <-]. revert E. unfold udp_materialize. intros E.
  run_handler; by eapply udp_local_addr_len.
Qed.

Lemma bind_udp_wf k loc s addr r k' :
  kern_wf k → is_Some (socks (k_heap k) !! loc) → sock_ok s → bind_udp k loc s addr = (r, k') → kern_wf k'.
Proof using NetLaws0.
  intros Hk Hl Hs. unfold bind_udp. destruct (as_std addr); [|by intros [= <- <-]].
  match goal with |- context [if ?b then (- EINVAL, k) else _] => destruct b end; [by intros [= <- <-]|].
  destruct (udp_state _ s) as [u h] eqn:Eu. destruct (udp_state_wf _ _ _ _ (kw_heap _ Hk) Eu) as [Hh Hle].
  assert (∀ a, u_bound_addr u = Some a → inet_len a) as Hu.
  { revert Eu. unfold udp_state. destruct (udp s) as [u0|] eqn:Es; [|by intros [= <- <-]].
    intros [= <- <-] a. by eapply so_udp. }
  destruct (ensure_bound u _ _) as [[res u'] w] eqn:Eb. pose proof (ensure_bound_ok _ _ _ _ _ _ Hu Eb) as Hu'.
  set (k1 := set_host (set_heap k h) w).
  assert (kern_wf k1) as Hk1 by (apply kern_wf_set_host, kern_wf_set_heap; done).
  assert (is_Some (socks (k_heap k1) !! loc)) as Hl1 by by apply (hl_socks _ _ Hle).
  assert (sock_ok (sock_set_udp s (Some u'))) as Hs' by (destruct Hs; split; simpl; naive_solver).
  destruct res; [destruct (local_addr u') as [b|] eqn:El|]; intros [= <- <-]; apply put_sock_wf; try done.
  destruct Hs'. split; simpl; [|done..]. intros x [= <-]. apply Hu' in El. by destruct b.
Qed.

#[export] Instance bind_preserves : Preserves (bind (W:=W)).
Proof using NetLaws0.
  intros k a r k' Hk. unfold bind. destruct (u32_try_from (a0 a)) as [fd|]; [|by intros [= <- <-]].
  destruct (parse_sockaddr _ _ _) as [addr|] eqn:Ea; [|by intros [= <- <-]].
  apply parse_sockaddr_len in Ea.
  assert (∀ ad, sockaddr_len ad → (let! (loc, s) := get_sock k fd on k;
      match kind s with
      | SkStream => (0, put_sock k loc (sock_set_bound s (Some ad)))
      | SkDatagram => bind_udp k loc s ad
      end) = (r, k') → kern_wf k') as Hip.
  { intros ad Had. destruct (get_sock k fd) as [[l s]|] eqn:Eg; [|by intros [= <- <-]].
    pose proof (get_sock_exists _ _ _ _ Hk Eg). pose proof (get_sock_ok _ _ _ _ Hk Eg) as Hs.
    destruct (kind s).
    - intros [= <- <-]. apply put_sock_wf; [done..|]. destruct Hs. split; simpl; naive_solver.
    - by apply bind_udp_wf. }
  destruct addr; [by apply Hip|by apply Hip|]. clear Hip. unfold bind_unix, install_unix_listener.
  match goal with |- context [if ?b then (- EOPNOTSUPP, k) else _] => destruct b end; [by intros [= <- <-]|].
  destruct (unlink_stale k p) as [o k1] eqn:E1. apply unlink_stale_wf in E1; [|done].
  destruct o; [by intros [= <- <-]|]. intros Hr. sock_call; try by apply kern_wf_set_host.
  match goal with Hg : get_sock _ _ = Ok _ |- _ => apply get_sock_ok in Hg; [|by apply kern_wf_set_host] end.
  match goal with Hb : unix_bind _ _ = _ |- _ => apply unix_bind_path in Hb end. by apply set_unix_listener_ok.
Qed.

(** ** Calls that wait *)

Lemma take_stream_wf k fd unx bit shut r k' :
  kern_wf k → take_stream k fd unx bit shut = (r, k') → kern_wf k'.
Proof. intros Hk. unfold take_stream. intros Hr. sock_call. Qed.

Lemma restore_stream_wf k fd unx st : kern_wf k → kern_wf (restore_stream k fd unx st).
Proof. intros Hk. apply on_sock_wf; [done|]. solve_sock_ok. Qed.

Lemma send_bytes_wf k fd unx bs r k' :
  kern_wf k → send_bytes park k fd unx bs = (r, k') → kern_wf k'.
Proof using park_wf.
  intros Hk. unfold send_bytes. destruct (take_stream _ _ _ _ _) as [x k1] eqn:E.
  apply take_stream_wf in E; [|done]. destruct x; [|by intros [= <- <-]].
  destruct (stream_write _ _ _) as [res w]. intros [= <- <-].
  by apply restore_stream_wf, kern_wf_set_host, park_wf.
Qed.

Lemma recv_bytes_wf k fd unx n r k' :
  kern_wf k → recv_bytes park k fd unx n = (r, k') → kern_wf k'.
Proof using park_wf.
  intros Hk. unfold recv_bytes. destruct (take_stream _ _ _ _ _) as [x k1] eqn:E.
  apply take_stream_wf in E; [|done]. destruct x; [|by intros [= <- <-]].
  destruct (stream_read _ _ _) as [res w]. intros [= <- <-].
  by apply restore_stream_wf, kern_wf_set_host, park_wf.
Qed.

Lemma sendto_preserves : Preserves (sendto park).
Proof using park_wf.
  intros k a r k' Hk. unfold sendto. intros Hr. sock_call. by eapply send_bytes_wf.
Qed.

Lemma recvfrom_unix_wf k fd ptr len r k' :
  kern_wf k → recvfrom_unix park k fd ptr len = (r, k') → kern_wf k'.
Proof using park_wf.
  intros Hk. unfold recvfrom_unix. destruct (usize_try_from len) as [n|]; [|by intros [= <- <-]].
  case_if; [by intros [= <- <-]|]. destruct (guest_slice_mut _ _ _); [|by intros [= <- <-]].
  destruct (recv_bytes _ _ _ _ _) as [x k1] eqn:E. apply recv_bytes_wf in E; [|done].
  intros Hr. sock_call.
Qed.

Lemma recvfrom_preserves : Preserves (recvfrom park).
Proof using park_wf.
  intros k a r k' Hk. unfold recvfrom. destruct (u32_try_from (a0 a)) as [fd|]; [|by intros [= <- <-]].
  destruct (get_sock k fd) as [[l s]|]; [|by intros [= <- <-]].
  destruct (family_unix s); [by apply recvfrom_unix_wf|].
  destruct (usize_try_from (a2 a)) as [n|]; [|by intros [= <- <-]].
  case_if; [by intros [= <- <-]|]. destruct (guest_slice_mut _ _ _); [|by intros [= <- <-]].
  do 2 (destruct (check_out _ _ _); [|by intros [= <- <-]]).
  destruct (recv_bytes _ _ _ _ _) as [x k1] eqn:E. apply recv_bytes_wf in E; [|done].
  intros Hr. sock_call.
Qed.

Lemma shutdown_preserves : Preserves (shutdown park).
Proof using park_wf.
  intros k a r k' Hk. unfold shutdown. destruct (u32_try_from (a0 a)) as [fd|]; [|by intros [= <- <-]].
  case_if; [by intros [= <- <-]|]. destruct (get_sock k fd) as [[l s]|] eqn:Eg; [|by intros [= <- <-]].
  assert (∀ s', sock_ok s' → kern_wf (put_sock k l s')) as Hp by (intros; apply put_sock_wf; [done|by eapply get_sock_exists|done]).
  cbv zeta. case_if; [|intros [= <- <-]; apply Hp; solve_sock_ok].
  destruct (stream s); intros [= <- <-]; [|apply Hp; solve_sock_ok].
  apply kern_wf_set_host, park_wf, Hp. solve_sock_ok.
Qed.

Lemma connect_preserves : Preserves (connect park).
Proof using park_wf NetLaws0.
  intros k a r k' Hk. pose proof (park_wf k Hk) as Hpk. unfold connect, connect_unix, connect_v4.
  destruct (u32_try_from (a0 a)) as [fd|]; [|by intros [= <- <-]].
  destruct (parse_sockaddr _ _ _) as [addr|] eqn:Ea; [|by intros [= <- <-]].
  apply parse_sockaddr_len in Ea. intros Hr. sock_call; try by apply kern_wf_set_host.
  all: match goal with Hp : kern_wf ?kp, Hg : get_sock (set_host ?kp ?w) _ = Ok _ |- _ =>
         destruct (get_sock_ok _ _ _ _ (kern_wf_set_host _ w Hp) Hg) end.
  all: try match goal with Hb : unix_connect _ _ = _ |- _ => apply unix_connect_path in Hb end.
  all: split; simpl in *; try done; try by intros ? [= <-].
  intros ? [= <-]. by eapply from_pathname_len.
Qed.

Lemma return_un_wf k ptr lptr name r k' :
  kern_wf k → return_un k ptr lptr name = Return (r, k') → kern_wf k'.
Proof.
  intros Hk. unfold return_un. destruct (put_un k ptr name) as [k1| |] eqn:E; [|done|done].
  apply put_un_wf in E; [|done]. intros [= <- <-]. by apply put_opt_wf.
Qed.

Lemma length_encode_in port ip : length ip = 4%nat → length (encode_in port ip) = 16%nat.
Proof. intros Hl. unfold encode_in. rewrite !length_app, Hl. done. Qed.

Lemma length_encode_in6 port ip : length ip = 16%nat → length (encode_in6 port ip) = 28%nat.
Proof. intros Hl. unfold encode_in6. rewrite !length_app, Hl. done. Qed.

(** An address stored in a buffer that was checked to hold it. *)
Lemma put_addr_wf k ptr size p bs :
  kern_wf k → guest_slice_mut k ptr size = Ok p → Z.of_nat (length bs) ≤ size → kern_wf (mem_put k p bs).
Proof.
  intros Hk [Hin ->]%guest_slice_mut_Ok Hle. apply kern_wf_mem_put; [done|].
  eapply in_memory_le; [done|lia].
Qed.

Lemma local_name_len s a : sock_ok s → local_name s = Ok a → inet_len a.
Proof.
  intros [Hb Hp _]. unfold local_name. destruct (bound s) as [[port ip|port ip|]|]; simpl.
  - intros [= <-]. by apply (Hb _ eq_refl).
  - intros [= <-]. by apply (Hb _ eq_refl).
  - done.
  - intros [= <-]. destruct (peer_addr s) as [x|]; [by apply Hp|done].
Qed.

#[export] Instance getsockname_preserves : PreservesOut (getsockname (W:=W)).
Proof.
  intros k a r k' Hk Hr _. revert Hr. unfold getsockname.
  destruct (u32_try_from (a0 a)) as [fd|]; [|by intros [= <- <-]]. case_if; [by intros [= <- <-]|].
  destruct (get_sock k fd) as [[l s]|] eqn:Eg; [|by intros [= <- <-]].
  pose proof (get_sock_ok _ _ _ _ Hk Eg) as Hs.
  destruct (guest_slice_mut _ _ _) as [p|] eqn:Ep; [|by intros [= <- <-]].
  destruct (check_out _ _ _); [|by intros [= <- <-]].
  destruct (family_unix s); [by apply return_un_wf|].
  destruct (local_name s) as [b|] eqn:El; [|by intros [= <- <-]]. apply local_name_len in El; [|done].
  destruct b; intros [= <- <-]; apply put_opt_wf; (eapply put_addr_wf; [done|exact Ep|]);
    rewrite ?length_encode_in, ?length_encode_in6 by done; done.
Qed.

#[export] Instance getpeername_preserves : PreservesOut (getpeername (W:=W)).
Proof.
  intros k a r k' Hk Hr _. revert Hr. unfold getpeername.
  destruct (u32_try_from (a0 a)) as [fd|]; [|by intros [= <- <-]]. case_if; [by intros [= <- <-]|].
  destruct (get_sock k fd) as [[l s]|] eqn:Eg; [|by intros [= <- <-]].
  pose proof (get_sock_ok _ _ _ _ Hk Eg) as Hs.
  destruct (guest_slice_mut _ _ _) as [p|] eqn:Ep; [|by intros [= <- <-]].
  destruct (check_out _ _ _); [|by intros [= <- <-]].
  destruct (family_unix s).
  - destruct (peer_addr_unix s); [by apply return_un_wf|by intros [= <- <-]].
  - destruct (peer_addr s) as [[port ip|]|] eqn:El; [|by intros [= <- <-]..].
    apply (so_peer _ Hs) in El. intros [= <- <-]. apply put_opt_wf.
    eapply put_addr_wf; [done|exact Ep|]. by rewrite length_encode_in.
Qed.

Lemma ensure_listener_wf k fd addr r k' :
  kern_wf k → ensure_listener park k fd addr = (r, k') → kern_wf k'.
Proof using park_wf.
  intros Hk. unfold ensure_listener. destruct (get_sock k fd) as [[l s]|]; [|by intros [= <- <-]].
  destruct (listener s); [by intros [= <- <-]|]. pose proof (park_wf k Hk) as Hpk.
  destruct (tcp_bind _ addr) as [[h|e] w]; pose proof (kern_wf_set_host _ w Hpk) as Hkw; [|by intros [= <- <-]].
  destruct (get_sock (set_host _ w) fd) as [[l' s']|] eqn:Eg; intros [= <- <-]; [|done].
  apply put_sock_wf; [done|by eapply get_sock_exists|]. solve_sock_ok.
Qed.

Lemma put_peer_wf k ptr peer ok k' : kern_wf k → inet_len peer → put_peer k ptr peer = (ok, k') → kern_wf k'.
Proof.
  intros Hk Hp. unfold put_peer. case_if; [by intros [= <- <-]|].
  destruct (guest_slice_mut k ptr 16) as [p|] eqn:E; [|by intros [= <- <-]].
  destruct peer; intros [= <- <-]; [|done]. eapply put_addr_wf; [done|exact E|].
  by rewrite length_encode_in.
Qed.

Lemma accept_tcp_wf k fd ap lp nb kd r k' :
  kern_wf k → accept_tcp park k fd ap lp nb kd = (r, k') → 3 ≤ next_fd (k_fds k') → kern_wf k'.
Proof using park_wf NetLaws0.
  intros Hk. unfold accept_tcp. destruct (get_sock k fd) as [[l s]|] eqn:Eg; [|by intros [= <- <-]].
  destruct (listener s) as [hl|]; [|by intros [= <- <-]].
  set (k1 := park _).
  assert (kern_wf k1) as Hk1.
  { apply park_wf, put_sock_wf; [done|by eapply get_sock_exists|solve_sock_ok]. }
  destruct (tcp_accept _ hl) as [[[st peer]|e] w] eqn:Et;
    [|intros [= <- <-] _; by apply kern_wf_set_host].
  apply tcp_accept_addr, inet_ok_len in Et. destruct (put_peer _ ap peer) as [ok k2] eqn:Ep.
  apply put_peer_wf in Ep; [|by apply kern_wf_set_host|done]. case_if; [by intros [= <- <-]|].
  intros Hi. eapply insert_sock_wf; [| |exact Hi].
  - apply on_sock_wf; [by apply put_opt_wf|solve_sock_ok].
  - intros nr nw. split; simpl; naive_solver.
Qed.

Lemma take_unix_listener_wf k fd r k' : kern_wf k → take_unix_listener k fd = (r, k') → kern_wf k'.
Proof.
  intros Hk. unfold take_unix_listener. destruct (get_sock k fd) as [[l s]|] eqn:Eg; [|by intros [= <- <-]].
  case_if; [by intros [= <- <-]|]. destruct (unix s) as [u|] eqn:Eu; [|by intros [= <- <-]].
  destruct (ux_listener u) as [hl|]; [|by intros [= <- <-]].
  destruct (unix_listener_clone _ hl) as [[c|e] w]; intros [= <- <-]; [by apply kern_wf_set_host|].
  pose proof (get_sock_exists _ _ _ _ Hk Eg).
  apply put_sock_wf; [by apply kern_wf_set_host|done|solve_sock_ok].
Qed.

Lemma accept4_unix_wf k fd ap lp nb r k' :
  kern_wf k → accept4_unix park k fd ap lp nb = Return (r, k') → 3 ≤ next_fd (k_fds k') → kern_wf k'.
Proof using park_wf.
  intros Hk. unfold accept4_unix. do 2 (destruct (check_out _ _ _); [|by intros [= <- <-]]).
  destruct (take_unix_listener k fd) as [x k1] eqn:E1. apply take_unix_listener_wf in E1; [|done].
  destruct x as [hl|]; [|by intros [= <- <-]]. pose proof (park_wf k1 E1) as Hpk.
  destruct (unix_accept _ hl) as [[[st peer]|e] w]; pose proof (kern_wf_set_host _ w Hpk) as Hkw;
    [|by intros [= <- <-]].
  destruct (put_un _ ap _) as [k2| |] eqn:Ep; [|done|done]. apply put_un_wf in Ep; [|done].
  intros Hi%Return_inj. eapply insert_sock_wf; [| |exact Hi]; [by apply put_opt_wf|].
  intros nr nw. split; simpl; try done. destruct peer as [p|]; [|done]. simpl. intros q. apply from_pathname_len.
Qed.

Lemma accept4_preserves : PreservesOut (accept4 park).
Proof using park_wf NetLaws0.
  intros k a r k' Hk. unfold accept4. destruct (u32_try_from (a0 a)) as [fd|]; [|by intros [= <- <-]].
  do 2 (destruct (check_out _ _ _); [|by intros [= <- <-]]).
  destruct (get_sock k fd) as [[l s]|]; [|by intros [= <- <-]].
  destruct (family_unix s); [by apply accept4_unix_wf|]. case_if; [by intros [= <- <-]|].
  destruct (bound s) as [[port ip| |]|]; try by intros [= <- <-].
  destruct (ensure_listener _ _ _ _) as [o k1] eqn:E1. apply ensure_listener_wf in E1; [|done].
  destruct o; [by intros [= <- <-]|]. intros Hr%Return_inj. by eapply accept_tcp_wf.
Qed.

Lemma accept_preserves : PreservesOut (accept park).
Proof using park_wf NetLaws0. intros k a r k' Hk Ha. exact (accept4_preserves k _ r k' Hk Ha). Qed.

(** ** Messages *)

Lemma dontwait_wf k fd flags r k' : kern_wf k → dontwait k fd flags = (r, k') → kern_wf k'.
Proof. intros Hk. unfold dontwait. intros Hr. sock_call. Qed.

Lemma restore_nonblock_wf k fd was : kern_wf k → kern_wf (restore_nonblock k fd was).
Proof. intros Hk. destruct was; [|done]. apply on_sock_wf; [done|solve_sock_ok]. Qed.

Lemma sendmsg_preserves : Preserves (sendmsg park).
Proof using park_wf.
  intros k a r k' Hk. unfold sendmsg. destruct (u32_try_from (a0 a)) as [fd|]; [|by intros [= <- <-]].
  destruct (get_sock k fd); [|by intros [= <- <-]].
  destruct (read_msghdr_iov _ _) as [bs|]; [|by intros [= <- <-]]. case_if; [by intros [= <- <-]|].
  destruct (dontwait k fd _) as [was k1] eqn:E1. apply dontwait_wf in E1; [|done].
  destruct (take_stream _ _ _ _ _) as [x k2] eqn:E2. apply take_stream_wf in E2; [|done].
  destruct x; [|by intros [= <- <-]]. destruct (stream_write _ _ _) as [res w]. intros [= <- <-].
  by apply restore_nonblock_wf, restore_stream_wf, kern_wf_set_host, park_wf.
Qed.

Lemma copy_bytes_to_spans_wf spans : ∀ k data, kern_wf k → kern_wf (copy_bytes_to_spans k spans data).
Proof.
  induction spans as [|[base len] spans IH]; intros k data Hk; simpl; [done|].
  case_if; [by apply IH|]. apply IH. destruct (guest_write _ _ _) eqn:E; eauto with libos.
Qed.

Lemma recvmsg_deliver_wf k fd ptr spans was data r k' :
  kern_wf k → recvmsg_deliver k fd ptr spans was data = (r, k') → kern_wf k'.
Proof.
  intros Hk [= <- <-]. apply restore_nonblock_wf. unfold write_back_msghdr.
  pose proof (copy_bytes_to_spans_wf spans k data Hk). destruct (guest_write _ _ _) eqn:E; eauto with libos.
Qed.

Lemma recvmsg_preserves : Preserves (recvmsg park).
Proof using park_wf.
  intros k a r k' Hk. unfold recvmsg. destruct (u32_try_from (a0 a)) as [fd|]; [|by intros [= <- <-]].
  destruct (get_sock k fd); [|by intros [= <- <-]].
  destruct (guest_slice _ _ _) as [mh|]; [|by intros [= <- <-]]. cbv zeta. case_if; [by intros [= <- <-]|].
  destruct (guest_slice _ _ _) as [iov|]; [|by intros [= <- <-]]. case_if; [by intros [= <- <-]|].
  destruct (dontwait k fd _) as [was k1] eqn:E1. apply dontwait_wf in E1; [|done].
  destruct (drain_peek k1 fd _) as [pk k2] eqn:E2.
  assert (kern_wf k2) as Hk2 by (revert E2; unfold drain_peek; intros; sock_call).
  case_if; [|by apply recvmsg_deliver_wf]. unfold recvmsg_stream.
  destruct (take_stream _ _ _ _ _) as [x k3] eqn:E3. apply take_stream_wf in E3; [|done].
  destruct x as [st|]; [|by intros [= <- <-]]. destruct (stream_read _ _ _) as [res w].
  assert (kern_wf (restore_stream (set_host (park k3) w) fd false st)) as Hk4
    by by apply restore_stream_wf, kern_wf_set_host, park_wf.
  destruct res; [|intros [= <- <-]; by apply restore_nonblock_wf].
  apply recvmsg_deliver_wf. case_if; [|done]. apply on_sock_wf; [done|solve_sock_ok].
Qed.

End handlers.
