(* ===== verification/SysSocketSpec.v ===== *)
(** * What the socket syscalls do

    Addresses survive the trip through guest memory, a stream is received in
    order and without loss through [recvmsg] and its peek buffer, and a
    direction that was shut down stays so. The theorems follow one thread:
    nobody else touches the state while a call waits ([park] is the identity). *)

From S2P Require Import Prelude Word Errno GuestMem Text Path Host Vfs Udp Net Fd Sock Kernel KernInv.
From S2P Require Import SysSocket SysSocketInv.

(** ** Addresses *)

(** An address a guest can pass and read back: 16-bit port, the right number
    of bytes; a UNIX name is non-empty UTF-8 without NUL, and it and its
    terminator fit. *)
Definition sockaddr_ok (a : SockAddr) : Prop :=
  match a with
  | SockV4 port ip => is_u 16 port ∧ length ip = 4%nat
  | SockV6 port ip => is_u 16 port ∧ length ip = 16%nat
  | SockUnix p => p ≠ [] ∧ (length p < 108)%nat ∧ Forall (λ b, b ≠ 0) p ∧ utf8_valid p = true
  end.

(** Its bytes. *)
Definition encode_sockaddr (a : SockAddr) : bytes :=
  match a with
  | SockV4 port ip => encode_in port ip
  | SockV6 port ip => encode_in6 port ip
  | SockUnix p => default [] (encode_un (Some p))
  end.

Lemma length_encode_sockaddr a :
  sockaddr_ok a →
  Z.of_nat (length (encode_sockaddr a)) =
  match a with SockV4 _ _ => SOCKADDR_IN_SIZE | SockV6 _ _ => SOCKADDR_IN6_SIZE | SockUnix _ => SOCKADDR_UN_SIZE end.
Proof.
  destruct a; cbn [sockaddr_ok encode_sockaddr].
  - intros [_ Hl]. by rewrite length_encode_in.
  - intros [_ Hl]. by rewrite length_encode_in6.
  - intros (_ & Hl & _ & _). unfold encode_un. case_if; [lia|].
    unfold SOCKADDR_UN_SIZE. simpl. rewrite length_app, length_replicate. lia.
Qed.

Lemma port_be port : is_u 16 port → from_be_bytes (to_be_bytes 2 port) = port.
Proof.
  intros Hp. unfold from_be_bytes, to_be_bytes. rewrite rev_involutive.
  by apply (from_to_le_bytes_u 2).
Qed.

Lemma position_app_first {A} (f : A → bool) p x q :
  Forall (λ b, f b = false) p → f x = true → position f (p ++ x :: q) = Some (length p).
Proof.
  induction 1 as [|y p Hy _ IH]; intros Hx; simpl; [by rewrite Hx|]. rewrite Hy. by rewrite IH.
Qed.

Lemma un_path_padded p n : Forall (λ b, b ≠ 0) p → (0 < n)%nat → un_path (p ++ replicate n 0) = p.
Proof.
  intros Hp Hn. unfold un_path. destruct n as [|n]; [lia|]. simpl replicate.
  rewrite (position_app_first _ p 0); [simpl; by rewrite take_app_length| |done].
  eapply Forall_impl; [exact Hp|]. simpl. intros b Hb. by apply Z.eqb_neq.
Qed.

Section specs.
Context {W : Type}.
Implicit Types k : kern W.

Lemma guest_slice_prefix k ptr len bs n :
  guest_slice k ptr len = Ok bs → 0 ≤ n ≤ len → guest_slice k ptr n = Ok (take (Z.to_nat n) bs).
Proof.
  intros Hs Hn. rewrite (guest_slice_sub _ _ _ _ ptr n Hs) by lia. by rewrite Z.sub_diag.
Qed.

(** Parsing what was encoded. *)
Lemma parse_encoded k ptr len a :
  sockaddr_ok a → guest_slice k ptr (Z.of_nat (length (encode_sockaddr a))) = Ok (encode_sockaddr a) →
  ptr ≠ 0 → is_u 64 len → Z.of_nat (length (encode_sockaddr a)) ≤ len →
  parse_sockaddr k ptr len = Ok a.
Proof.
  intros Ha Hs Hp Hu Hlen. rewrite length_encode_sockaddr in Hs, Hlen by done. unfold parse_sockaddr.
  assert (0 < len) as Hpos by (unfold SOCKADDR_IN_SIZE, SOCKADDR_IN6_SIZE, SOCKADDR_UN_SIZE in *; destruct a; lia).
  rewrite (proj2 (Z.eqb_neq ptr 0)), (proj2 (Z.eqb_neq len 0)) by lia. cbn [orb].
  rewrite (usize_try_from_id len Hu). cbn [result_of_option result_bind].
  destruct a as [port ip|port ip|p]; cbn [encode_sockaddr] in *;
    rewrite (guest_slice_prefix _ _ _ _ 2 Hs) by done; cbn [result_bind].
  - destruct Ha as [Hport Hip].
    change (from_le_bytes (take (Z.to_nat 2) (encode_in port ip))) with AF_INET. rewrite Z.eqb_refl.
    rewrite (proj2 (Z.ltb_ge _ _)) by done. rewrite Hs. cbn [result_bind].
    do 2 f_equal; [exact (port_be port Hport)|].
    change (take 4 (ip ++ replicate 8 0) = ip). rewrite take_app_le by lia. by rewrite take_ge by lia.
  - destruct Ha as [Hport Hip].
    change (from_le_bytes (take (Z.to_nat 2) (encode_in6 port ip))) with AF_INET6.
    change (AF_INET6 =? AF_INET) with false. rewrite Z.eqb_refl. cbv iota.
    rewrite (proj2 (Z.ltb_ge _ _)) by done. rewrite Hs. cbn [result_bind].
    do 2 f_equal; [exact (port_be port Hport)|].
    change (take 16 (ip ++ replicate 4 0) = ip). rewrite take_app_le by lia. by rewrite take_ge by lia.
  - destruct Ha as (Hne & Hl & Hnz & Hv). unfold encode_un in *.
    rewrite (proj2 (Z.leb_gt _ _)) in * by lia. cbn [default from_option id] in *.
    match goal with |- context [from_le_bytes ?x] => change (from_le_bytes x) with AF_UNIX end.
    change (AF_UNIX =? AF_INET) with false. change (AF_UNIX =? AF_INET6) with false.
    rewrite Z.eqb_refl. cbv iota. rewrite (proj2 (Z.ltb_ge _ 3)) by (unfold SOCKADDR_UN_SIZE in *; lia).
    rewrite Hs. cbn [result_bind]. cbv zeta.
    change (drop 2 (to_le_bytes 2 AF_UNIX ++ ?x)) with x.
    rewrite un_path_padded by (done || lia). rewrite Hv.
    rewrite bool_decide_eq_false_2; [done|]. destruct p as [|b p]; [done|].
    apply Forall_cons in Hnz as [? _]. simpl. congruence.
Qed.

(** An IP address read from guest memory is well formed. *)
Lemma parse_sockaddr_ok k ptr len a :
  mem_wf k → parse_sockaddr k ptr len = Ok a → (∀ p, a ≠ SockUnix p) → sockaddr_ok a.
Proof.
  intros Hk Hp Hnu. pose proof (parse_sockaddr_len _ _ _ _ Hp) as Hl. revert Hp. unfold parse_sockaddr.
  case_if; [done|]. intros (n & _ & Hn)%result_bind_Ok. apply result_bind_Ok in Hn as (hd & _ & Hn).
  assert (∀ len b, guest_slice k ptr len = Ok b → 4 ≤ len → is_u 16 (from_be_bytes (take 2 (drop 2 b)))) as Hport.
  { intros m b Hb Hm. pose proof (guest_slice_length _ _ _ _ Hb) as Hlen.
    apply guest_slice_ok in Hb; [|done]. unfold from_be_bytes, is_u.
    pose proof (from_le_bytes_range (rev (take 2 (drop 2 b)))) as Hr.
    rewrite length_rev, length_take, length_drop in Hr. replace (2 `min` (length b - 2))%nat with 2%nat in Hr by lia.
    apply Hr, Forall_rev, Forall_take, Forall_drop, Hb. }
  case_if; [case_if; [done|]|case_if; [case_if; [done|]|case_if; [case_if; [done|]|done]]];
    apply result_bind_Ok in Hn as (b & Hb & Hn).
  - injection Hn as <-. split; [by eapply Hport|done].
  - injection Hn as <-. split; [by eapply Hport|done].
  - run_handler. by destruct (Hnu _ eq_refl).
Qed.

Lemma sock_at_set h l s : sock_at (set_sock h l s) l = s.
Proof. unfold sock_at. simpl. by rewrite lookup_insert_eq. Qed.

Lemma get_sock_put k fd l s s' :
  get_sock k fd = Ok (l, s) → get_sock (put_sock k l s') fd = Ok (l, s').
Proof.
  intros [Hg _]%get_sock_Ok. apply get_sock_Ok. split; [done|]. symmetry. apply sock_at_set.
Qed.

Lemma check_out_Ok k ptr len : in_memory k ptr len → check_out k ptr len = Ok tt.
Proof.
  intros Hin. unfold check_out. case_if; [done|].
  by rewrite (proj2 (guest_slice_mut_Ok k ptr len ptr)).
Qed.

Lemma put_opt_in k ptr bs :
  in_memory k ptr (Z.of_nat (length bs)) → ptr ≠ 0 → put_opt k ptr bs = mem_put k ptr bs.
Proof.
  intros Hin Hp. unfold put_opt. rewrite (proj2 (Z.eqb_neq _ _)) by done.
  by rewrite (proj2 (guest_write_Ok k ptr bs (mem_put k ptr bs))).
Qed.

Lemma getsockname_inet k fd l s out outlen a :
  is_u 32 fd → get_sock k fd = Ok (l, s) → family_unix s = false → bound s = Some a →
  sockaddr_ok a → (∀ p, a ≠ SockUnix p) → in_memory k out 28 → out ≠ 0 →
  in_memory k outlen 4 → outlen ≠ 0 →
  getsockname k (Args fd out outlen 0 0 0) =
  Return (0, mem_put (mem_put k out (encode_sockaddr a)) outlen
               (to_le_bytes 4 (Z.of_nat (length (encode_sockaddr a))))).
Proof.
  intros Hf Hg Hu Hb Ha Hnu Hin Ho Hin' Hol. unfold getsockname. cbn [a0 a1 a2].
  rewrite (u32_try_from_id _ Hf). rewrite (proj2 (Z.eqb_neq out 0)) by done. rewrite Hg, Hu.
  rewrite (proj2 (guest_slice_mut_Ok k out SOCKADDR_IN6_SIZE out)) by done.
  rewrite check_out_Ok by done. unfold local_name. rewrite Hb.
  assert (∀ bs n, (length bs ≤ 28)%nat → put_opt (mem_put k out bs) outlen (to_le_bytes 4 n) =
    mem_put (mem_put k out bs) outlen (to_le_bytes 4 n)) as Hput.
  { intros bs n Hbs. apply put_opt_in; [|done]. rewrite length_to_le_bytes.
    apply in_memory_put; [|done]. eapply in_memory_le; [exact Hin|lia]. }
  pose proof (length_encode_sockaddr a Ha) as Hlen.
  destruct a as [port ip|port ip|p]; [| |by destruct (Hnu p)]; cbn [encode_sockaddr] in *;
    unfold SOCKADDR_IN_SIZE, SOCKADDR_IN6_SIZE in Hlen; rewrite Hput by lia; by rewrite Hlen.
Qed.

(** ** Scattered buffers *)

Definition sdisj (x y : Z * Z) : Prop := disjoint_ranges x.1 x.2 y.1 y.2.

Definition span_ok k (sp : Z * Z) : Prop := sp.1 ≠ 0 ∧ 0 ≤ sp.2 ∧ in_memory k sp.1 sp.2.

(** The parts of the spans that [n] bytes fill. *)
Fixpoint fill (spans : list (Z * Z)) (n : nat) : list (Z * Z) :=
  match spans with
  | [] => []
  | (base, len) :: spans =>
    let m := Nat.min n (Z.to_nat len) in (base, Z.of_nat m) :: fill spans (n - m)
  end.

(** A write that is skipped when it is out of bounds. *)
Definition try_write k (p : Z) (bs : bytes) : kern W :=
  match guest_write k p bs with Ok kw => kw | Err _ => k end.

Lemma try_write_cases k p bs :
  (in_memory k p (Z.of_nat (length bs)) ∧ try_write k p bs = mem_put k p bs) ∨ try_write k p bs = k.
Proof.
  unfold try_write. destruct (guest_write k p bs) as [kw|] eqn:E; [|by right].
  apply guest_write_Ok in E as [? ->]. by left.
Qed.

Lemma try_write_slice k p bs q n :
  disjoint_ranges p (Z.of_nat (length bs)) q n → guest_slice (try_write k p bs) q n = guest_slice k q n.
Proof.
  intros Hd. destruct (try_write_cases k p bs) as [[Hin ->]| ->]; [|done].
  by apply guest_slice_put_disjoint.
Qed.

Lemma try_write_in_memory k p bs q n : in_memory (try_write k p bs) q n ↔ in_memory k q n.
Proof. destruct (try_write_cases k p bs) as [[Hin ->]| ->]; [by apply in_memory_put|done]. Qed.

Lemma try_write_state k p bs :
  k_fds (try_write k p bs) = k_fds k ∧ k_heap (try_write k p bs) = k_heap k ∧
  k_host (try_write k p bs) = k_host k.
Proof.
  destruct (try_write_cases k p bs) as [[Hin ->]| ->]; [|done]. destruct Hin as (m & Hm & _).
  unfold mem_put. by rewrite Hm.
Qed.

Lemma copy_spans_cons k base len spans data :
  copy_bytes_to_spans k ((base, len) :: spans) data =
  let n := Nat.min (length data) (Z.to_nat len) in
  if bool_decide (data = []) || (len =? 0) then copy_bytes_to_spans k spans data
  else copy_bytes_to_spans (try_write k base (take n data)) spans (drop n data).
Proof. done. Qed.

Lemma copy_spans_slice spans : ∀ k data q n,
  Forall (λ sp, 0 ≤ sp.2 ∧ disjoint_ranges sp.1 sp.2 q n) spans →
  guest_slice (copy_bytes_to_spans k spans data) q n = guest_slice k q n.
Proof.
  induction spans as [|[base len] spans IH]; intros k data q n Hs; [done|].
  apply Forall_cons in Hs as [[Hlen Hd] Hs]. rewrite copy_spans_cons. cbv zeta.
  destruct (_ || _); [by apply IH|]. rewrite IH by done. apply try_write_slice.
  simpl in *. rewrite length_take. unfold disjoint_ranges in *. lia.
Qed.

Lemma copy_spans_state spans : ∀ k data,
  let k' := copy_bytes_to_spans k spans data in
  k_fds k' = k_fds k ∧ k_heap k' = k_heap k ∧ k_host k' = k_host k.
Proof.
  induction spans as [|[base len] spans IH]; intros k data; [done|]. rewrite copy_spans_cons. cbv zeta.
  destruct (_ || _); [by apply IH|]. destruct (IH (try_write k base (take (length data `min` Z.to_nat len) data))
    (drop (length data `min` Z.to_nat len) data)) as (-> & -> & ->). apply try_write_state.
Qed.

Lemma gather_ext k k' iovs :
  Forall (λ sp, guest_slice k' sp.1 sp.2 = guest_slice k sp.1 sp.2) iovs → gather k' iovs = gather k iovs.
Proof.
  induction 1 as [|[base len] iovs Hs _ IH]; [done|]. simpl in *. by rewrite Hs, IH.
Qed.

Lemma fill_nil_gather k spans : gather k (fill spans 0) = Ok [].
Proof.
  induction spans as [|[base len] spans IH]; [done|]. simpl. rewrite andb_false_r. simpl. by rewrite IH.
Qed.

(** What is scattered is what a gather of the filled parts returns. *)
Lemma scatter_gather spans : ∀ k data,
  Forall (span_ok k) spans → pairwise sdisj spans →
  Z.of_nat (length data) ≤ zsum (snd <$> spans) →
  gather (copy_bytes_to_spans k spans data) (fill spans (length data)) = Ok data.
Proof.
  induction spans as [|[base len] spans IH]; intros k data Hok Hd Hlen.
  { rewrite fmap_nil, zsum_nil in Hlen. destruct data; [done|simpl in Hlen; lia]. }
  apply Forall_cons in Hok as [(Hb & Hl & Hin) Hok]. destruct Hd as [Hd Hds]. simpl in Hb, Hl, Hin.
  rewrite fmap_cons, zsum_cons in Hlen. cbn [snd] in Hlen. rewrite copy_spans_cons. cbv zeta.
  destruct (decide (data = [])) as [->|Hne].
  { cbn [length]. rewrite fill_nil_gather. done. }
  rewrite (bool_decide_eq_false_2 _ Hne). cbn [orb fill].
  set (n := Nat.min (length data) (Z.to_nat len)).
  destruct (decide (len = 0)) as [->|Hlz].
  { assert (n = 0%nat) as -> by (unfold n; lia). rewrite Nat.sub_0_r. simpl. rewrite andb_false_r. simpl.
    rewrite IH by (done || lia). done. }
  rewrite (proj2 (Z.eqb_neq _ _)) by done.
  assert (length data ≠ 0)%nat as Hnz by by destruct data.
  assert (0 ≤ zsum (snd <$> spans)) as Hsum.
  { apply zsum_nonneg, Forall_fmap. eapply Forall_impl; [exact Hok|]. by intros sp (_ & ? & _). }
  assert (0 < n)%nat as Hn by (unfold n; lia).
  cbn [gather]. rewrite (proj2 (Z.eqb_neq _ _)) by done. rewrite (proj2 (Z.ltb_lt _ _)) by lia. cbn [negb andb].
  assert (length (take n data) = n) as Hn' by (rewrite length_take; lia).
  assert (in_memory k base (Z.of_nat (length (take n data)))) as Hin1
    by (eapply in_memory_le; [exact Hin|lia]).
  rewrite copy_spans_slice.
  2:{ apply Forall_forall. intros sp Hsp. rewrite Forall_forall in Hok, Hd.
      destruct (Hok _ Hsp) as (_ & ? & _). specialize (Hd _ Hsp). unfold sdisj, disjoint_ranges in *. simpl in *. lia. }
  assert (try_write k base (take n data) = mem_put k base (take n data)) as Htw.
  { unfold try_write. by rewrite (proj2 (guest_write_Ok k base _ _) (conj Hin1 eq_refl)). }
  rewrite Htw. replace (Z.of_nat n) with (Z.of_nat (length (take n data))) by lia.
  rewrite guest_slice_put_same by done. cbn [result_bind].
  replace (length data - n)%nat with (length (drop n data)) by by rewrite length_drop.
  rewrite IH; [cbn [result_bind]; by rewrite take_drop| |done|rewrite length_drop; unfold n; lia].
  eapply Forall_impl; [exact Hok|]. intros sp (? & ? & ?). split_and!; [done|done|]. by apply in_memory_put.
Qed.

(** ** Receiving messages *)

(** The buffers a message header names. *)
Definition msg_spans k (msghdr_ptr : Z) : result (list (Z * Z)) :=
  mhdr <-? guest_slice k msghdr_ptr MSGHDR_SIZE;
  let iov_ptr := msg_field mhdr 8 in
  let iov_count := msg_field mhdr 12 in
  if (iov_count <=? 0) || (iov_ptr =? 0) then Err (- EINVAL)
  else
    iov_bytes <-? guest_slice k iov_ptr (iov_count * 8);
    Ok (iov_spans (Z.to_nat iov_count) iov_bytes).

Lemma get_sock_state k k' fd : k_fds k' = k_fds k → k_heap k' = k_heap k → get_sock k' fd = get_sock k fd.
Proof. unfold get_sock. by intros -> ->. Qed.

(** The parts of a socket that a transfer depends on. *)
Record same_stream (s s' : SocketInner) : Prop := {
  ss_stream : stream s' = stream s;
  ss_flags : shutdown_flags s' = shutdown_flags s;
}.

(** What a finished [recvmsg] leaves. *)
Record received k' (fd l : Z) (s s' : SocketInner) (spans : list (Z * Z)) (data : bytes) : Prop := {
  rc_sock : get_sock k' fd = Ok (l, s');
  rc_stream : same_stream s s';
  rc_nonblock : s_nonblock s' = s_nonblock s;
  rc_data : gather k' (fill spans (length data)) = Ok data;
}.

Lemma restore_nonblock_sock k fd l s was :
  get_sock k fd = Ok (l, s) →
  get_sock (restore_nonblock k fd was) fd =
    Ok (l, match was with Some b => sock_set_nonblock s b | None => s end) ∧
  k_host (restore_nonblock k fd was) = k_host k ∧
  ∀ q n, guest_slice (restore_nonblock k fd was) q n = guest_slice k q n.
Proof.
  intros Hg. destruct was; [|done]. unfold restore_nonblock, on_sock. rewrite Hg.
  split_and!; [by eapply get_sock_put|done|done].
Qed.

Lemma fill_disjoint p c spans : ∀ n,
  Forall (λ sp, 0 ≤ sp.2 ∧ disjoint_ranges p c sp.1 sp.2) spans →
  Forall (λ sp, disjoint_ranges p c sp.1 sp.2) (fill spans n).
Proof.
  induction spans as [|[base len] spans IH]; intros n Hs; [by constructor|].
  apply Forall_cons in Hs as [[Hl Hd] Hs]. simpl in *. constructor; [|by apply IH].
  simpl. unfold disjoint_ranges in *. lia.
Qed.

Lemma recvmsg_deliver_spec k fd l s ptr spans was data :
  get_sock k fd = Ok (l, s) → Forall (span_ok k) spans → pairwise sdisj spans →
  Forall (λ sp, disjoint_ranges (ptr + 20) 4 sp.1 sp.2) spans →
  Z.of_nat (length data) ≤ zsum (snd <$> spans) →
  ∃ k', recvmsg_deliver k fd ptr spans was data = (Z.of_nat (length data), k') ∧
    get_sock k' fd = Ok (l, match was with Some b => sock_set_nonblock s b | None => s end) ∧
    k_host k' = k_host k ∧ gather k' (fill spans (length data)) = Ok data.
Proof.
  intros Hg Hok Hd Hdm Hlen. unfold recvmsg_deliver. set (k1 := copy_bytes_to_spans k spans data).
  change (write_back_msghdr k1 ptr) with (try_write k1 (ptr + 20) (to_le_bytes 4 0)).
  set (k2 := try_write k1 _ _). eexists. split; [done|].
  destruct (copy_spans_state spans k data) as (Hf1 & Hh1 & Hw1).
  destruct (try_write_state k1 (ptr + 20) (to_le_bytes 4 0)) as (Hf2 & Hh2 & Hw2).
  assert (get_sock k2 fd = Ok (l, s)) as Hg2.
  { rewrite <- Hg. apply get_sock_state; [etransitivity; [exact Hf2|exact Hf1]|etransitivity; [exact Hh2|exact Hh1]]. }
  destruct (restore_nonblock_sock k2 fd l s was Hg2) as (Hg3 & Hw3 & Hs3).
  split_and!; [exact Hg3| |].
  - rewrite Hw3. etransitivity; [exact Hw2|exact Hw1].
  - rewrite <- (scatter_gather spans k data Hok Hd Hlen). fold k1. apply gather_ext.
    eapply Forall_impl; [apply (fill_disjoint (ptr + 20) 4 spans (length data))|].
    + rewrite Forall_forall in Hok, Hdm |- *. intros sp Hsp. destruct (Hok _ Hsp) as (_ & ? & _). eauto.
    + intros sp Hsp. rewrite Hs3. by apply try_write_slice.
Qed.

Lemma on_sock_state k fd f : k_host (on_sock k fd f) = k_host k ∧ k_memory (on_sock k fd f) = k_memory k.
Proof. unfold on_sock. destruct (get_sock k fd) as [[l s]|]; done. Qed.

Lemma span_ok_mem k k' spans :
  k_memory k' = k_memory k → Forall (span_ok k) spans → Forall (span_ok k') spans.
Proof.
  intros Hm Hs. eapply Forall_impl; [exact Hs|]. intros sp (? & ? & ?). split_and!; [done|done|].
  unfold in_memory in *. by rewrite Hm.
Qed.

Lemma total_cap_le (spans : list (Z * Z)) c :
  Forall (λ sp, 0 ≤ sp.2) spans → foldl (λ c sp, Z.min (c + sp.2) U64_MAX) c spans ≤ c + zsum (snd <$> spans).
Proof.
  intros Hs. revert c. induction Hs as [|sp spans Hsp _ IH]; intros c.
  - rewrite fmap_nil, zsum_nil. simpl. lia.
  - rewrite fmap_cons, zsum_cons. simpl. specialize (IH (Z.min (c + sp.2) U64_MAX)). lia.
Qed.

Lemma span_total_cap k spans : Forall (span_ok k) spans → total_cap spans ≤ zsum (snd <$> spans).
Proof.
  intros Hs. apply (total_cap_le spans 0). eapply Forall_impl; [exact Hs|]. by intros sp (_ & ? & _).
Qed.

Lemma dontwait_sock k fd l s flags was k1 :
  get_sock k fd = Ok (l, s) → dontwait k fd flags = (was, k1) →
  ∃ s1, get_sock k1 fd = Ok (l, s1) ∧ same_stream s s1 ∧ peek_buf s1 = peek_buf s ∧
    k_host k1 = k_host k ∧ k_memory k1 = k_memory k ∧
    s_nonblock (match was with Some b => sock_set_nonblock s1 b | None => s1 end) = s_nonblock s.
Proof.
  intros Hg. unfold dontwait. rewrite Hg. destruct (has flags MSG_DONTWAIT); intros [= <- <-].
  - eexists. split_and!; [by eapply get_sock_put|by split|done..].
  - exists s. by split_and!.
Qed.

(** [recvmsg] once its header is read. *)
Lemma recvmsg_started `{Net W} park k fd l s ptr flags spans :
  is_u 32 fd → get_sock k fd = Ok (l, s) → msg_spans k ptr = Ok spans → 0 < total_cap spans →
  recvmsg park k (Args fd ptr flags 0 0 0) =
  let '(was, k1) := dontwait k fd (as_i32 flags) in
  let '(peeked, k2) := drain_peek k1 fd (total_cap spans) in
  if bool_decide (peeked = []) then recvmsg_stream park k2 fd ptr spans (has (as_i32 flags) MSG_PEEK) was
  else recvmsg_deliver k2 fd ptr spans was peeked.
Proof.
  intros Hf Hg (mh & Hmh & Hms)%result_bind_Ok Hcap.
  destruct ((msg_field mh 12 <=? 0) || (msg_field mh 8 =? 0)) eqn:Ebad; [done|].
  apply result_bind_Ok in Hms as (iov & Hiov & [= <-]). unfold recvmsg. cbn [a0 a1 a2].
  rewrite (u32_try_from_id _ Hf), Hg, Hmh. cbv zeta. rewrite Ebad, Hiov.
  by rewrite (proj2 (Z.eqb_neq _ _)) by lia.
Qed.

Section stream.
Context `{StreamNet W}.

(** Reading from the host's stream, with nothing in the peek buffer. *)
Lemma recvmsg_stream_spec k fd l s st ptr spans peek was :
  get_sock k fd = Ok (l, s) → stream s = Some st → has (shutdown_flags s) 1 = false →
  open_stream (k_host k) st → Forall (span_ok k) spans → pairwise sdisj spans →
  Forall (λ sp, disjoint_ranges (ptr + 20) 4 sp.1 sp.2) spans → 0 < total_cap spans →
  ∃ data k' s', recvmsg_stream (λ k, k) k fd ptr spans peek was = (Z.of_nat (length data), k') ∧
    get_sock k' fd = Ok (l, match was with Some b => sock_set_nonblock s' b | None => s' end) ∧
    same_stream s s' ∧ s_nonblock s' = s_nonblock s ∧
    gather k' (fill spans (length data)) = Ok data ∧ open_stream (k_host k') st ∧
    pending (k_host k) st = data ++ pending (k_host k') st ∧ (data = [] → pending (k_host k) st = []) ∧
    peek_buf s' = if peek then peek_buf s ++ data else peek_buf s.
Proof.
  intros Hg Hst Hfl Hop Hok Hd Hdm Hcap. unfold recvmsg_stream, take_stream. rewrite Hg, Hfl.
  cbn [stream_of]. rewrite Hst. set (k1 := put_sock k l _).
  destruct (stream_read_law (k_host k) st (total_cap spans) Hop Hcap) as (data & w' & Hr & Hop' & Hpd & Hlen & Hnil).
  change (k_host k1) with (k_host k). rewrite Hr.
  set (k2 := restore_stream _ fd false st).
  assert (get_sock k2 fd = Ok (l, sock_set_stream (sock_set_stream s None) (Some st))) as Hg2.
  { unfold k2, restore_stream, on_sock.
    assert (get_sock (set_host k1 w') fd = Ok (l, sock_set_stream s None)) as Hg1
      by (by eapply (get_sock_put k)).
    rewrite Hg1. by eapply get_sock_put. }
  destruct (on_sock_state (set_host k1 w') fd
    (λ s, match stream_of false s with None => set_stream_of false s (Some st) | Some _ => s end)) as [Hw2 Hm2].
  fold (restore_stream (set_host k1 w') fd false st) in Hw2, Hm2. fold k2 in Hw2, Hm2.
  set (s2 := sock_set_stream _ (Some st)) in Hg2.
  set (k3 := if peek then _ else k2).
  set (s3 := if peek then sock_set_peek_buf s2 (peek_buf s2 ++ data) else s2).
  assert (get_sock k3 fd = Ok (l, s3) ∧ k_host k3 = w' ∧ k_memory k3 = k_memory k) as (Hg3 & Hw3 & Hm3).
  { unfold k3, s3. destruct peek; [|done]. unfold on_sock. rewrite Hg2.
    split_and!; [by eapply get_sock_put|done|done]. }
  destruct (recvmsg_deliver_spec k3 fd l s3 ptr spans was data) as (k' & Hdel & Hg' & Hw' & Hga); try done.
  { by eapply span_ok_mem. }
  { pose proof (span_total_cap _ _ Hok). lia. }
  exists data, k', s3. rewrite Hw', Hw3. split_and!; try done.
  - unfold s3. destruct peek; split; simpl; congruence.
  - unfold s3. by destruct peek.
  - unfold s3. by destruct peek.
Qed.

End stream.

(** ** Shutting down *)

Lemma has_lor f m b : has m b = true → has (Z.lor f m) b = true.
Proof.
  unfold has. rewrite !negb_true_iff, !Z.eqb_neq, Z.land_lor_distr_l, Z.lor_eq_0_iff. tauto.
Qed.

Lemma take_stream_shut k fd l s unx bit shut :
  get_sock k fd = Ok (l, s) → has (shutdown_flags s) bit = true →
  take_stream k fd unx bit shut = (Err shut, k).
Proof. intros Hg Hf. unfold take_stream. by rewrite Hg, Hf. Qed.

Section shut.
Context `{Net W}.

Lemma sendto_shut park k fd l s ptr len bs :
  is_u 32 fd → get_sock k fd = Ok (l, s) → has (shutdown_flags s) 2 = true →
  guest_slice k ptr len = Ok bs → sendto park k (Args fd ptr len 0 0 0) = (- EPIPE, k).
Proof.
  intros Hf Hg Hsh Hs. unfold sendto. cbn [a0 a1 a2]. rewrite (u32_try_from_id _ Hf), Hg.
  pose proof Hs as [(m & _ & ? & ? & ? & ?) _]%guest_slice_Ok.
  rewrite usize_try_from_id by (unfold is_u, U64_MAX in *; lia).
  rewrite Hs. unfold send_bytes. by rewrite (take_stream_shut _ _ _ _ _ _ _ Hg Hsh).
Qed.

Lemma recvfrom_shut park k fd l s ptr len :
  is_u 32 fd → get_sock k fd = Ok (l, s) → has (shutdown_flags s) 1 = true →
  in_memory k ptr len → 0 < len → recvfrom park k (Args fd ptr len 0 0 0) = (0, k).
Proof.
  intros Hf Hg Hsh Hin Hl. pose proof Hin as (m & _ & ? & ? & ? & ?).
  unfold recvfrom, recvfrom_unix. cbn [a0 a1 a2 a4 a5]. rewrite (u32_try_from_id _ Hf), Hg.
  rewrite usize_try_from_id by (unfold is_u, U64_MAX in *; lia). rewrite (proj2 (Z.eqb_neq _ _)) by lia.
  rewrite (proj2 (guest_slice_mut_Ok k ptr len ptr)) by done. unfold recv_bytes.
  rewrite !(take_stream_shut _ _ _ _ _ _ _ Hg Hsh). by destruct (family_unix s).
Qed.

End shut.

End specs.

(** ** Theorems *)

(** C26: the address a TCP socket is bound to is the address it reports. After
    [bind] with a [sockaddr_in] or [sockaddr_in6], [getsockname] stores that
    address and its size, and parsing what it stored gives the address
    back. *)
Theorem bind_getsockname {W} `{Host W} `{Net W} (k : kern W) fd l s ptr len a out outlen :
  is_u 32 fd → get_sock k fd = Ok (l, s) → kind s = SkStream → family_unix s = false →
  mem_wf k → parse_sockaddr k ptr len = Ok a → (∀ p, a ≠ SockUnix p) →
  in_memory k out 28 → out ≠ 0 → in_memory k outlen 4 → outlen ≠ 0 → disjoint_ranges outlen 4 out 28 →
  let n := Z.of_nat (length (encode_sockaddr a)) in
  ∃ k1 k2, bind k (Args fd ptr len 0 0 0) = (0, k1) ∧
    getsockname k1 (Args fd out outlen 0 0 0) = Return (0, k2) ∧
    guest_slice k2 out n = Ok (encode_sockaddr a) ∧
    guest_slice k2 outlen 4 = Ok (to_le_bytes 4 n) ∧
    parse_sockaddr k2 out n = Ok a.
Proof.
  intros Hf Hg Hkd Hu Hm Hp Hnu Hin Ho Hin' Hol Hd n.
  pose proof (parse_sockaddr_ok _ _ _ _ Hm Hp Hnu) as Ha. pose proof (length_encode_sockaddr a Ha) as Hlen.
  set (s1 := sock_set_bound s (Some a)). set (k1 := put_sock k l s1).
  assert (Z.of_nat (length (encode_sockaddr a)) ≤ 28) as Hle.
  { rewrite Hlen. destruct a; [done|done|by destruct (Hnu p)]. }
  assert (in_memory k1 out (Z.of_nat (length (encode_sockaddr a)))) as Hout
    by (eapply in_memory_le; [exact Hin|lia]).
  exists k1. eexists. split_and!.
  - unfold bind. cbn [a0 a1 a2]. rewrite (u32_try_from_id _ Hf), Hp, Hg, Hkd.
    destruct a; [done|done|by destruct (Hnu p)].
  - apply (getsockname_inet k1 fd l s1); try done. by eapply get_sock_put.
  - rewrite guest_slice_put_disjoint.
    + by apply guest_slice_put_same.
    + by apply in_memory_put.
    + rewrite length_to_le_bytes. unfold disjoint_ranges in *. subst n. lia.
  - apply (guest_slice_put_same (mem_put k1 out _) outlen (to_le_bytes 4 n)). by apply in_memory_put.
  - apply parse_encoded; try done.
    + rewrite guest_slice_put_disjoint.
      * by apply guest_slice_put_same.
      * by apply in_memory_put.
      * rewrite length_to_le_bytes. unfold disjoint_ranges in *. lia.
    + unfold is_u. subst n. lia.
Qed.

(** C20: a message stream is received in order and without loss. Without
    [MSG_PEEK], [recvmsg] delivers the front of the peeked bytes followed by
    the stream's, to the buffers of the message in their order, and leaves
    exactly the rest; it returns 0 only when there is nothing left. With
    [MSG_PEEK] and nothing peeked before, what is delivered stays to be read
    again. The socket's stream and its non-blocking flag are as before. *)
Theorem recvmsg_in_order {W} `{StreamNet W} (k : kern W) fd l s st ptr flags spans :
  is_u 32 fd → get_sock k fd = Ok (l, s) → stream s = Some st → has (shutdown_flags s) 1 = false →
  open_stream (k_host k) st → msg_spans k ptr = Ok spans → Forall (span_ok k) spans →
  pairwise sdisj spans → Forall (λ sp, disjoint_ranges (ptr + 20) 4 sp.1 sp.2) spans →
  0 < total_cap spans →
  ∃ data k' s', recvmsg (λ k, k) k (Args fd ptr flags 0 0 0) = (Z.of_nat (length data), k') ∧
    received k' fd l s s' spans data ∧ open_stream (k_host k') st ∧
    (data = [] → peek_buf s ++ pending (k_host k) st = []) ∧
    (has (as_i32 flags) MSG_PEEK = false →
       peek_buf s ++ pending (k_host k) st = data ++ peek_buf s' ++ pending (k_host k') st) ∧
    (has (as_i32 flags) MSG_PEEK = true → peek_buf s = [] →
       peek_buf s' = data ∧ pending (k_host k) st = peek_buf s' ++ pending (k_host k') st).
Proof.
  intros Hf Hg Hst Hfl Hop Hms Hok Hd Hdm Hcap.
  rewrite (recvmsg_started _ _ _ _ _ _ _ _ Hf Hg Hms Hcap).
  destruct (dontwait k fd (as_i32 flags)) as [was k1] eqn:Edw.
  destruct (dontwait_sock _ _ _ _ _ _ _ Hg Edw) as (s1 & Hg1 & [Hss1 Hsf1] & Hpk1 & Hw1 & Hm1 & Hnb1).
  unfold drain_peek. rewrite Hg1, Hpk1. set (n := Z.to_nat (total_cap spans)).
  set (s2 := sock_set_peek_buf s1 _). set (k2 := put_sock k1 l s2).
  assert (get_sock k2 fd = Ok (l, s2)) as Hg2 by by eapply get_sock_put.
  assert (Forall (span_ok k2) spans) as Hok2 by by apply (span_ok_mem k).
  assert (∀ s', s_nonblock s' = s_nonblock s1 →
    s_nonblock (match was with Some b => sock_set_nonblock s' b | None => s' end) = s_nonblock s) as Hnb.
  { intros s' Hs'. rewrite <- Hnb1. by destruct was. }
  case_bool_decide as Hpk.
  - assert (peek_buf s = []) as Hpe.
    { destruct (peek_buf s); [done|]. unfold n in Hpk. destruct (Z.to_nat (total_cap spans)) eqn:E; [lia|done]. }
    destruct (recvmsg_stream_spec k2 fd l s2 st ptr spans (has (as_i32 flags) MSG_PEEK) was)
      as (data & k' & s' & Hr & Hg' & [Hst' Hfl'] & Hnb' & Hga & Hop' & Hpd & Hnil & Hpk').
    { done. }
    { simpl. congruence. }
    { simpl. congruence. }
    { change (k_host k2) with (k_host k1). congruence. }
    1-4: done.
    change (k_host k2) with (k_host k1) in *. rewrite Hw1 in Hpd, Hnil.
    exists data, k', (match was with Some b => sock_set_nonblock s' b | None => s' end).
    assert (peek_buf (match was with Some b => sock_set_nonblock s' b | None => s' end) = peek_buf s') as ->
      by by destruct was.
    rewrite Hpk'. cbn [peek_buf s2 sock_set_peek_buf]. rewrite Hpe, drop_nil.
    split_and!; [done| |done|done| |].
    + split; [done| |by apply Hnb|done]. split; destruct was; simpl in *; congruence.
    + intros ->. done.
    + intros ->. done.
  - destruct (recvmsg_deliver_spec k2 fd l s2 ptr spans was (take n (peek_buf s)))
      as (k' & Hr & Hg' & Hw' & Hga); [done..| |].
    { pose proof (span_total_cap _ _ Hok). rewrite length_take. unfold n. lia. }
    change (k_host k2) with (k_host k1) in *. rewrite Hw1 in Hw'.
    exists (take n (peek_buf s)), k', (match was with Some b => sock_set_nonblock s2 b | None => s2 end).
    assert (peek_buf (match was with Some b => sock_set_nonblock s2 b | None => s2 end) = drop n (peek_buf s)) as ->
      by by destruct was.
    rewrite Hw'. split_and!; [done| |done|done| |].
    + split; [done| |by apply Hnb|done]. split; destruct was; simpl in *; congruence.
    + intros _. by rewrite app_assoc, take_drop.
    + intros _ Hpe. by rewrite Hpe, take_nil in Hpk.
Qed.

(** [shutdown] closes the directions it was asked to close. It returns 0;
    from then on, on every descriptor of that socket, [sendto] fails with
    [-EPIPE] when writing was shut down and [recvfrom] returns the end of file
    when reading was, both without touching the host or the state. *)
Theorem shutdown_effect {W} `{Net W} (k : kern W) fd l s how :
  is_u 32 fd → get_sock k fd = Ok (l, s) → how ∈ [SHUT_RD; SHUT_WR; SHUT_RDWR] →
  ∃ k1 s1, shutdown (λ k, k) k (Args fd how 0 0 0 0) = (0, k1) ∧ get_sock k1 fd = Ok (l, s1) ∧
    ∀ park fd' ptr len, is_u 32 fd' → get_sock k1 fd' = Ok (l, s1) → in_memory k1 ptr len →
      (how ≠ SHUT_RD → sendto park k1 (Args fd' ptr len 0 0 0) = (- EPIPE, k1)) ∧
      (how ≠ SHUT_WR → 0 < len → recvfrom park k1 (Args fd' ptr len 0 0 0) = (0, k1)).
Proof.
  intros Hf Hg Hhow. set (mask := if how =? SHUT_RD then 1 else if how =? SHUT_WR then 2 else 3).
  assert (∃ k1 s1, shutdown (λ k, k) k (Args fd how 0 0 0 0) = (0, k1) ∧ get_sock k1 fd = Ok (l, s1) ∧
    shutdown_flags s1 = Z.lor (shutdown_flags s) mask) as (k1 & s1 & Hs & Hg1 & Hfl).
  { unfold shutdown. cbn [a0 a1]. rewrite (u32_try_from_id _ Hf), Hg.
    assert (as_i32 how = how) as -> by (by repeat (apply elem_of_cons in Hhow as [->|Hhow]; [done|]); apply elem_of_nil in Hhow).
    replace (negb _) with false by (by repeat (apply elem_of_cons in Hhow as [->|Hhow]; [done|]); apply elem_of_nil in Hhow).
    cbv zeta. fold mask. set (s' := sock_set_shutdown_flags s _).
    destruct (has mask 2); [|exists (put_sock k l s'), s'; split_and!; [done|by eapply get_sock_put|done]].
    exists (match stream s with
            | None => put_sock k l (sock_set_stream s' None)
            | Some st => set_host (put_sock k l (sock_set_stream s' None)) (stream_shutdown (k_host k) st)
            end), (sock_set_stream s' None).
    destruct (stream s); split_and!; try done; by eapply (get_sock_put k). }
  exists k1, s1. split_and!; [done|done|]. intros park fd' ptr len Hf' Hg' Hin.
  pose proof Hin as (m & Hm & _). split.
  - intros Hr. eapply sendto_shut; [done..| |].
    + rewrite Hfl. apply has_lor. unfold mask. rewrite (proj2 (Z.eqb_neq _ _) Hr). by destruct (how =? SHUT_WR).
    + apply guest_slice_Ok. split; [done|]. intros m' Hm'. simplify_eq. reflexivity.
  - intros Hw Hl. eapply recvfrom_shut; [done..| |done|done].
    rewrite Hfl. apply has_lor. unfold mask. rewrite (proj2 (Z.eqb_neq _ _) Hw). by destruct (how =? SHUT_RD).
Qed.

(** ** Witnesses *)

(** A TCP socket as descriptor 3 and the address 127.0.0.1:8080 at 64. *)
Definition tcp_kern : kern NullHost :=
  mem_put (socket sample_kern (Args AF_INET SOCK_STREAM 0 0 0 0)).2 64 (encode_in 8080 [127; 0; 0; 1]).
Definition tcp_sock : SocketInner := SocketInner_new 7 8 SkStream false.

Lemma tcp_in_memory ptr len : 0 ≤ ptr → 0 ≤ len → ptr + len ≤ 131072 → in_memory tcp_kern ptr len.
Proof. intros. eexists. split; [reflexivity|]. unfold U64_MAX. simpl. lia. Qed.

Lemma tcp_get_sock : get_sock tcp_kern 3 = Ok (9, tcp_sock).
Proof. vm_compute. reflexivity. Qed.

Lemma bind_getsockname_witness :
  ∃ k1 k2, bind tcp_kern (Args 3 64 16 0 0 0) = (0, k1) ∧
    getsockname k1 (Args 3 256 512 0 0 0) = Return (0, k2) ∧
    guest_slice k2 256 16 = Ok (encode_in 8080 [127; 0; 0; 1]) ∧
    guest_slice k2 512 4 = Ok (to_le_bytes 4 16) ∧
    parse_sockaddr k2 256 16 = Ok (SockV4 8080 [127; 0; 0; 1]).
Proof.
  apply (bind_getsockname tcp_kern 3 9 tcp_sock 64 16 (SockV4 8080 [127; 0; 0; 1]) 256 512);
    try done; try (apply tcp_in_memory; lia).
  - apply mem_put_wf; [exact sample_mem_wf| |repeat constructor; done].
    eexists. split; [reflexivity|]. vm_compute. split_and!; done.
  - right. lia.
Defined.

(** A connected TCP socket as descriptor 3 with five bytes to receive, and a
    message header at 128 that names a buffer of two bytes at 300 and one of
    ten at 400. *)
Definition inbox_kern : kern Inbox :=
  let k := attach_memory (new_inner [] [] sample_vfs (replicate 32 0) (MkInbox [1; 2; 3; 4; 5] [])) (zero_mem 131072) in
  let k := mem_put k 64 (encode_in 8080 [127; 0; 0; 1]) in
  let k := (socket k (Args AF_INET SOCK_STREAM 0 0 0 0)).2 in
  let k := (connect (λ k, k) k (Args 3 64 16 0 0 0)).2 in
  let k := mem_put k 128 (replicate 8 0 ++ to_le_bytes 4 200 ++ to_le_bytes 4 2 ++ replicate 16 0) in
  mem_put k 200 (to_le_bytes 4 300 ++ to_le_bytes 4 2 ++ to_le_bytes 4 400 ++ to_le_bytes 4 10).
Definition inbox_sock : SocketInner :=
  sock_set_peer_addr (sock_set_stream tcp_sock (Some 8)) (Some (SAv4 8080 [127; 0; 0; 1])).
Definition inbox_spans : list (Z * Z) := [(300, 2); (400, 10)].

Lemma inbox_in_memory ptr len : 0 ≤ ptr → 0 ≤ len → ptr + len ≤ 131072 → in_memory inbox_kern ptr len.
Proof. intros. eexists. split; [reflexivity|]. unfold U64_MAX. simpl. lia. Qed.

Lemma recvmsg_in_order_witness :
  ∃ data k' s', recvmsg (λ k, k) inbox_kern (Args 3 128 0 0 0 0) = (Z.of_nat (length data), k') ∧
    received k' 3 9 inbox_sock s' inbox_spans data ∧ open_stream (k_host k') 8 ∧
    (data = [] → peek_buf inbox_sock ++ pending (k_host inbox_kern) 8 = []) ∧
    (has (as_i32 0) MSG_PEEK = false →
       peek_buf inbox_sock ++ pending (k_host inbox_kern) 8 = data ++ peek_buf s' ++ pending (k_host k') 8) ∧
    (has (as_i32 0) MSG_PEEK = true → peek_buf inbox_sock = [] →
       peek_buf s' = data ∧ pending (k_host inbox_kern) 8 = peek_buf s' ++ pending (k_host k') 8).
Proof.
  apply (recvmsg_in_order inbox_kern 3 9 inbox_sock 8 128 0 inbox_spans).
  - vm_compute. split; congruence.
  - vm_compute. reflexivity.
  - vm_compute. reflexivity.
  - vm_compute. reflexivity.
  - exact I.
  - vm_compute. reflexivity.
  - repeat apply Forall_cons_2; [split_and!..|constructor]; cbn [fst snd]; [lia|lia| |lia|lia|];
      apply inbox_in_memory; lia.
  - split; [|by split]. apply Forall_singleton. left. simpl. lia.
  - repeat apply Forall_cons_2; [left; simpl; lia..|constructor].
  - vm_compute. reflexivity.
Defined.

Lemma shutdown_effect_witness :
  ∃ k1 s1, shutdown (λ k, k) tcp_kern (Args 3 SHUT_WR 0 0 0 0) = (0, k1) ∧ get_sock k1 3 = Ok (9, s1) ∧
    ∀ park fd' ptr len, is_u 32 fd' → get_sock k1 fd' = Ok (9, s1) → in_memory k1 ptr len →
      (SHUT_WR ≠ SHUT_RD → sendto park k1 (Args fd' ptr len 0 0 0) = (- EPIPE, k1)) ∧
      (SHUT_WR ≠ SHUT_WR → 0 < len → recvfrom park k1 (Args fd' ptr len 0 0 0) = (0, k1)).
Proof.
  apply (shutdown_effect tcp_kern 3 9 tcp_sock SHUT_WR); [done|apply tcp_get_sock|].
  apply elem_of_cons. right. apply elem_of_cons. by left.
Defined.

(** ** Deviations *)

(** The path of a UNIX socket is used as it is: the root and the working
    directory of the sandbox play no part in what [bind] does. *)
Lemma install_ignores_root {W} `{Net W} (k : kern W) v fd path :
  install_unix_listener (set_vfs k v) fd path =
  ((install_unix_listener k fd path).1, set_vfs (install_unix_listener k fd path).2 v).
Proof.
  unfold install_unix_listener. change (k_host (set_vfs k v)) with (k_host k).
  destruct (unix_bind (k_host k) path) as [[l|e] w]; [|done].
  change (get_sock (set_host (set_vfs k v) w) fd) with (get_sock (set_host k w) fd).
  by destruct (get_sock (set_host k w) fd) as [[]|].
Qed.

Lemma unix_bind_ignores_root {W} `{Host W} `{Net W} (k : kern W) v fd path :
  bind_unix (set_vfs k v) fd path = ((bind_unix k fd path).1, set_vfs (bind_unix k fd path).2 v).
Proof.
  unfold bind_unix, unlink_stale. change (get_sock (set_vfs k v) fd) with (get_sock k fd).
  change (k_host (set_vfs k v)) with (k_host k). destruct (negb _); [done|].
  destruct (fs_metadata _ _) as [m|[]]; try done; try apply (install_ignores_root k).
  destruct (bool_decide _); [|done].
  destruct (fs_remove_file _ _) as [[[]|[]] w]; try done. apply (install_ignores_root (set_host k w)).
Qed.

(** When the stale socket disappears before it can be removed, [bind] returns
    0 without binding. *)
Lemma unix_bind_race {W} `{Host W} `{Net W} (k : kern W) fd l s path m w :
  get_sock k fd = Ok (l, s) → family_unix s = true →
  fs_metadata (k_host k) (components path) = IoOk m → md_type m = FtSocket →
  fs_remove_file (k_host k) (components path) = (IoErr NotFound, w) →
  bind_unix k fd path = (0, set_host k w).
Proof.
  intros Hg Hu Hm Ht Hr. unfold bind_unix, unlink_stale. rewrite Hg, Hu, Hm.
  by rewrite (bool_decide_eq_true_2 _ Ht), Hr.
Qed.

(** A second peek consumes: the bytes that were peeked twice are not received
    any more. *)
Lemma peek_twice_loses :
  let recv flags k := (recvmsg (λ k, k) k (Args 3 128 flags 0 0 0)).2 in
  let k := recv MSG_PEEK (recv MSG_PEEK inbox_kern) in
  in_queue (k_host k) = [4; 5] ∧ peek_buf (sock_at (k_heap k) 9) = [].
Proof. vm_compute. done. Qed.

(** [recvfrom] does not look at the peeked bytes. *)
Lemma peek_then_recvfrom_skips :
  let k := (recvmsg (λ k, k) inbox_kern (Args 3 128 MSG_PEEK 0 0 0)).2 in
  guest_slice (recvfrom (λ k, k) k (Args 3 600 2 0 0 0)).2 600 2 = Ok [4; 5].
Proof. vm_compute. reflexivity. Qed.

(** After [shutdown(SHUT_WR)] the connection can no longer be read. *)
Lemma shutdown_wr_ends_reading :
  let k := (shutdown (λ k, k) inbox_kern (Args 3 SHUT_WR 0 0 0 0)).2 in
  (recvfrom (λ k, k) k (Args 3 600 2 0 0 0)).1 = - ENOTCONN.
Proof. vm_compute. reflexivity. Qed.

(** [sendmsg(MSG_DONTWAIT)] on a socket that is not connected leaves it
    non-blocking. *)
Lemma sendmsg_leaves_nonblock :
  let k := mem_put tcp_kern 128 (replicate 8 0 ++ to_le_bytes 4 200 ++ to_le_bytes 4 1 ++ replicate 16 0) in
  let k := mem_put k 200 (to_le_bytes 4 300 ++ to_le_bytes 4 2) in
  let '(r, k) := sendmsg (λ k, k) k (Args 3 128 MSG_DONTWAIT 0 0 0) in
  r = - ENOTCONN ∧ s_nonblock (sock_at (k_heap k) 9) = true.
Proof. vm_compute. done. Qed.

(** Switching an option off switches it on, and a datagram socket is reported
    as a stream. *)
Lemma setsockopt_off_is_on :
  let k := (setsockopt tcp_kern (Args 3 SOL_SOCKET SO_REUSEADDR 512 4 0)).2 in
  guest_slice tcp_kern 512 4 = Ok (to_le_bytes 4 0) ∧ so_reuseaddr (sock_at (k_heap k) 9) = true.
Proof. vm_compute. done. Qed.

Lemma so_type_always_stream s : get_option SOL_SOCKET SO_TYPE s = (1, s).
Proof. done. Qed.
