(* ===== verification/SysResolver.v ===== *)
(** * Name resolution (src/sys/resolver.rs)

    The private syscall behind [getaddrinfo]: read the query from guest
    memory, answer it from the cache or ask the backend, filter the addresses
    by family and denylist, and lay them out as a linked list of [addrinfo]
    nodes at [RESOLVER_SCRATCH_BASE]. The call can wait for the backend:
    [park] is what other threads do to the state meanwhile.

    [answer_list] is what a guest sees when it walks the list; the theorems
    show that it is exactly the permitted addresses. *)

From S2P Require Import Prelude Word Errno GuestMem Text Parse Path Host Vfs Udp Net Fd Sock Resolver Kernel KernInv.
From S2P Require Import SysSocket SysSocketInv SysSocketSpec.

Definition ADDRINFO_SIZE : nat := 32.
Definition MAX_RESOLVER_SCRATCH_BYTES : Z := 4096.
Definition RESOLVER_SCRATCH_BASE : Z := 8192.
Definition AI_NUMERICHOST : Z := 4.
Definition AI_NUMERICSERV : Z := 1024.
Definition EAI_BADFLAGS : Z := - 1.
Definition EAI_NONAME : Z := - 2.
Definition EAI_AGAIN : Z := - 3.
Definition EAI_FAIL : Z := - 4.
Definition EAI_FAMILY : Z := - 6.
Definition EAI_SOCKTYPE : Z := - 7.
Definition EAI_SERVICE : Z := - 8.
Definition EAI_MEMORY : Z := - 10.
Definition EAI_SYSTEM : Z := - 11.

(** ** Filtering *)

Definition family_matches (family : Z) (ip : IpAddr) : bool :=
  if family =? 2 then is_ipv4 ip else if family =? 10 then is_ipv6 ip else true.

Definition filter_addrs (addrs : list IpAddr) (family : Z) (deny : list IpAddr) : list IpAddr :=
  List.filter (λ ip, negb (bool_decide (ip ∈ deny))) (List.filter (family_matches family) addrs).

(** ** The answer in guest memory *)

Definition sockaddr_size (ip : IpAddr) : nat := if is_ipv4 ip then 16 else 28.

(** First pass: where each node and its socket address start, and where the
    payload ends. *)
Fixpoint layout (cursor : nat) (addrs : list IpAddr) : list (IpAddr * (nat * nat)) * nat :=
  match addrs with
  | [] => ([], cursor)
  | ip :: addrs =>
    let sock := (cursor + ADDRINFO_SIZE)%nat in
    let '(l, e) := layout (sock + sockaddr_size ip) addrs in
    ((ip, (cursor, sock)) :: l, e)
  end.

(** The eight words of [struct addrinfo]. *)
Definition addrinfo_bytes (ai_flags ai_socktype ai_protocol : Z) (ip : IpAddr) (sock next : nat) : bytes :=
  to_le_bytes 4 ai_flags ++
  to_le_bytes 4 (if is_ipv4 ip then 2 else 10) ++
  to_le_bytes 4 ai_socktype ++
  to_le_bytes 4 ai_protocol ++
  to_le_bytes 4 (Z.of_nat (sockaddr_size ip)) ++
  to_le_bytes 4 (Z.of_nat sock) ++
  to_le_bytes 4 0 ++
  to_le_bytes 4 (Z.of_nat next).

Definition sockaddr_bytes (port : Z) (ip : IpAddr) : bytes :=
  match ip with IpV4 o => encode_in port o | IpV6 o => encode_in6 port o end.

(** Second pass: the headers, each with the offset of the next one. *)
Fixpoint write_nodes (ai_flags ai_socktype ai_protocol : Z) (l : list (IpAddr * (nat * nat)))
    (out : bytes) : bytes :=
  match l with
  | [] => out
  | (ip, (off, sock)) :: l =>
    let next := match l with [] => 0%nat | (_, (off', _)) :: _ => off' end in
    write_nodes ai_flags ai_socktype ai_protocol l
      (list_inserts off (addrinfo_bytes ai_flags ai_socktype ai_protocol ip sock next) out)
  end.

(** Third pass: the socket addresses. *)
Fixpoint write_socks (port : Z) (l : list (IpAddr * (nat * nat))) (out : bytes) : bytes :=
  match l with
  | [] => out
  | (ip, (_, sock)) :: l => write_socks port l (list_inserts sock (sockaddr_bytes port ip) out)
  end.

(** The payload and the offset of the first node. *)
Definition marshal_addrinfo_into_vec (addrs : list IpAddr) (ai_flags ai_socktype ai_protocol port : Z)
    : bytes * Z :=
  let '(l, cursor) := layout 0 addrs in
  match l with
  | [] => ([], 0)
  | (_, (head_off, _)) :: _ =>
    let out := replicate cursor 0 in
    let out := write_nodes ai_flags ai_socktype ai_protocol l out in
    (write_socks port l out, Z.of_nat head_off)
  end.

(** ** The query *)

Record query := MkQuery {
  q_node : bytes;
  q_flags : Z;
  q_family : Z;
  q_socktype : Z;
  q_protocol : Z;
  q_port : Z;
}.

Section syscalls.
Context {W : Type} `{Host W} `{Dns W}.
Context (park : kern W → kern W).
Context (order : gmap bytes CacheEntry → list (bytes * CacheEntry)).
Implicit Types k : kern W.

(** The name, at most 256 bytes; a null pointer is the empty name. *)
Definition read_node k (ptr : Z) : result bytes :=
  if ptr =? 0 then Ok []
  else match guest_str k ptr 256 with Ok s => Ok s | Err _ => Err EAI_SYSTEM end.

(** Flags, family, socket type and protocol. *)
Definition read_hints k (ptr : Z) : result (Z * Z * Z * Z) :=
  if ptr =? 0 then Ok (0, 0, 0, 0)
  else match guest_slice k ptr (Z.of_nat ADDRINFO_SIZE) with
  | Err _ => Err EAI_SYSTEM
  | Ok h =>
    let ai_flags := as_i32 (msg_field h 0) in
    let ai_family := as_i32 (msg_field h 4) in
    let ai_socktype := as_i32 (msg_field h 8) in
    let ai_protocol := as_i32 (msg_field h 12) in
    if has ai_flags (Z.lor AI_NUMERICHOST AI_NUMERICSERV) then Err EAI_BADFLAGS
    else if negb ((ai_family =? 0) || (ai_family =? 2) || (ai_family =? 10)) then Err EAI_FAMILY
    else if negb (between 0 2 ai_socktype) then Err EAI_SOCKTYPE
    else Ok (ai_flags, ai_family, ai_socktype, ai_protocol)
  end.

Definition read_service k (ptr : Z) : result Z :=
  if ptr =? 0 then Ok 0
  else match guest_str k ptr 64 with
  | Err _ => Err EAI_SYSTEM
  | Ok svc => result_of_option EAI_SERVICE (parse_u16 svc)
  end.

Definition read_query k (a : args) : result query :=
  let node_ptr := as_u32 (a0 a) in
  let service_ptr := as_u32 (a2 a) in
  if (node_ptr =? 0) && (service_ptr =? 0) then Err EAI_NONAME
  else
    node <-? read_node k node_ptr;
    hints <-? read_hints k (as_u32 (a4 a));
    port <-? read_service k service_ptr;
    let '(ai_flags, ai_family, ai_socktype, ai_protocol) := hints in
    Ok (MkQuery node ai_flags ai_family (if ai_socktype =? 0 then 1 else ai_socktype) ai_protocol port).

(** ** The handler *)

Definition set_resolver k (s : ResolverState) : kern W :=
  let ps := k_ps k in
  set_ps k (MkProcess (next_pid ps) (children ps) (child_event ps) (futex_table ps)
              (signals_pending ps) (tgid_registry ps) (ps_tgid ps) s).

Definition attach_resolver_config k (cfg : ResolverConfig) : kern W :=
  set_resolver k (set_config (resolver (k_ps k)) cfg).

Definition attach_resolver_backend k (b : handle) : kern W :=
  set_resolver k (set_backend (resolver (k_ps k)) b).

Definition marshal_and_return k (addrs : list IpAddr) (q : query) (deny : list IpAddr) (res_ptr_ptr : Z)
    : Z * kern W :=
  let filtered := filter_addrs addrs (q_family q) deny in
  if bool_decide (filtered = []) then (EAI_NONAME, k)
  else
    let '(bs, head_off) :=
      marshal_addrinfo_into_vec filtered (q_flags q) (q_socktype q) (q_protocol q) (q_port q) in
    if MAX_RESOLVER_SCRATCH_BYTES <? Z.of_nat (length bs) then (EAI_MEMORY, k)
    else match guest_write k RESOLVER_SCRATCH_BASE bs with
    | Err _ => (EAI_SYSTEM, k)
    | Ok kw =>
      match guest_write kw res_ptr_ptr (to_le_bytes 4 head_off) with
      | Err _ => (EAI_SYSTEM, kw)
      | Ok kw => (Z.of_nat (length filtered), kw)
      end
    end.

(** An entry counts while it is younger than the TTL, for ever when that is
    0. *)
Definition cached k (node : bytes) : option (list IpAddr) :=
  let s := resolver (k_ps k) in
  e ← cache s !! node;
  if (ttl_ms s =? 0) || (Z.max 0 (elapsed (k_host k) - inserted e) <? ttl_ms s * 1000000)
  then Some (addrs e) else None.

(** The backend, made on the first use. *)
Definition get_backend k : option (handle * kern W) :=
  let s := resolver (k_ps k) in
  match backend s with
  | Some b => Some (b, k)
  | None =>
    match backend_new (k_host k) with
    | (None, _) => None
    | (Some b, w) => Some (b, set_resolver (set_host k w) (set_backend s b))
    end
  end.

Definition resolve k (a : args) : outcome (Z * kern W) :=
  let res_ptr_ptr := as_u32 (a5 a) in
  match read_query k a with
  | Err e => Return (e, k)
  | Ok q =>
    match cached k (q_node q) with
    | Some l => Return (marshal_and_return k l q (denylist (resolver (k_ps k))) res_ptr_ptr)
    | None =>
      match get_backend k with
      | None => Panic
      | Some (b, k) =>
        let t := timeout_ms (resolver (k_ps k)) in
        let k := park k in
        match lookup_ip (k_host k) b t (q_node q) with
        | (Elapsed, w) => Return (EAI_AGAIN, set_host k w)
        | (LookupFailed, w) => Return (EAI_FAIL, set_host k w)
        | (Looked l, w) =>
          let k := set_host k w in
          let k := set_resolver k (cache_insert order (resolver (k_ps k)) (q_node q) l (elapsed w)) in
          Return (marshal_and_return k l q (denylist (resolver (k_ps k))) res_ptr_ptr)
        end
      end
    end
  end.

End syscalls.

(** ** What the guest sees *)

Record ainfo := MkAinfo {
  ai_flags : Z;
  ai_family : Z;
  ai_socktype : Z;
  ai_protocol : Z;
  ai_addr : SockAddr;
}.

(** Walk the list that starts at an offset of the scratch area, at most [fuel]
    nodes: the header, and the socket address it points to as the socket
    syscalls parse it. *)
Fixpoint answer_list {W} (fuel : nat) (k : kern W) (off : Z) : option (list ainfo) :=
  match fuel with
  | O => None
  | S fuel =>
    match guest_slice k (RESOLVER_SCRATCH_BASE + off) (Z.of_nat ADDRINFO_SIZE) with
    | Err _ => None
    | Ok h =>
      match parse_sockaddr k (RESOLVER_SCRATCH_BASE + msg_field h 20) (msg_field h 16) with
      | Err _ => None
      | Ok sa =>
        let node := MkAinfo (as_i32 (msg_field h 0)) (as_i32 (msg_field h 4)) (as_i32 (msg_field h 8))
                      (as_i32 (msg_field h 12)) sa in
        if msg_field h 28 =? 0 then Some [node]
        else (cons node) <$> answer_list fuel k (msg_field h 28)
      end
    end
  end.

Definition ip_sockaddr (port : Z) (ip : IpAddr) : SockAddr :=
  match ip with IpV4 o => SockV4 port o | IpV6 o => SockV6 port o end.

Definition ainfo_of (q : query) (ip : IpAddr) : ainfo :=
  MkAinfo (q_flags q) (if is_ipv4 ip then 2 else 10) (q_socktype q) (q_protocol q)
    (ip_sockaddr (q_port q) ip).

Record query_ok (q : query) : Prop := {
  qo_flags : is_i 32 (q_flags q);
  qo_socktype : is_i 32 (q_socktype q);
  qo_protocol : is_i 32 (q_protocol q);
  qo_port : is_u 16 (q_port q);
}.

(** ** The three passes are one concatenation *)

Section marshal.
Context (flags socktype protocol port : Z).

Definition node_size (ip : IpAddr) : nat := ADDRINFO_SIZE + sockaddr_size ip.

Definition payload_size (l : list IpAddr) : nat := sum_list_with node_size l.

Lemma payload_size_cons ip l : payload_size (ip :: l) = (node_size ip + payload_size l)%nat.
Proof. done. Qed.

Definition next_off (c : nat) (l : list IpAddr) : nat := match l with [] => 0 | _ => c end.

(** The nodes from offset [c] on, their addresses still zero... *)
Fixpoint headers (c : nat) (l : list IpAddr) : bytes :=
  match l with
  | [] => []
  | ip :: l =>
    let c' := (c + node_size ip)%nat in
    addrinfo_bytes flags socktype protocol ip (c + ADDRINFO_SIZE) (next_off c' l) ++
    replicate (sockaddr_size ip) 0 ++ headers c' l
  end.

(** ... and with them. *)
Fixpoint payload (c : nat) (l : list IpAddr) : bytes :=
  match l with
  | [] => []
  | ip :: l =>
    let c' := (c + node_size ip)%nat in
    addrinfo_bytes flags socktype protocol ip (c + ADDRINFO_SIZE) (next_off c' l) ++
    sockaddr_bytes port ip ++ payload c' l
  end.

Lemma length_addrinfo_bytes ip sock next :
  length (addrinfo_bytes flags socktype protocol ip sock next) = ADDRINFO_SIZE.
Proof. unfold addrinfo_bytes. by rewrite !length_app, !length_to_le_bytes. Qed.

Lemma length_sockaddr_bytes ip : ip_ok ip → length (sockaddr_bytes port ip) = sockaddr_size ip.
Proof.
  destruct ip as [o|o]; cbn [ip_ok sockaddr_bytes]; intros Ho; unfold sockaddr_size; cbn [is_ipv4].
  - pose proof (length_encode_in port o Ho) as H. unfold SOCKADDR_IN_SIZE in H. lia.
  - pose proof (length_encode_in6 port o Ho) as H. unfold SOCKADDR_IN6_SIZE in H. lia.
Qed.

Lemma layout_cons c ip l :
  layout c (ip :: l) =
  ((ip, (c, (c + ADDRINFO_SIZE)%nat)) :: (layout (c + node_size ip) l).1, (layout (c + node_size ip) l).2).
Proof. cbn [layout]. unfold node_size. rewrite Nat.add_assoc. by destruct (layout _ l). Qed.

Lemma layout_next c l :
  match (layout c l).1 with [] => 0%nat | (_, (off, _)) :: _ => off end = next_off c l.
Proof. destruct l; [done|]. by rewrite layout_cons. Qed.

Lemma layout_end l : ∀ c, (layout c l).2 = (c + payload_size l)%nat.
Proof.
  induction l as [|ip l IH]; intros c; [simpl; lia|].
  rewrite layout_cons. cbn [snd]. rewrite IH, payload_size_cons. lia.
Qed.

Lemma inserts_segment (pre seg old post : bytes) :
  length old = length seg → list_inserts (length pre) seg (pre ++ old ++ post) = pre ++ seg ++ post.
Proof.
  intros Hl. rewrite <- (Nat.add_0_r (length pre)), list_inserts_app_r. by rewrite list_inserts_0_r.
Qed.

Lemma write_nodes_headers l : ∀ pre,
  write_nodes flags socktype protocol (layout (length pre) l).1 (pre ++ replicate (payload_size l) 0)
  = pre ++ headers (length pre) l.
Proof.
  induction l as [|ip l IH]; intros pre; [done|].
  rewrite layout_cons. cbn [fst write_nodes headers]. rewrite layout_next.
  set (c' := (length pre + node_size ip)%nat). set (hd := addrinfo_bytes _ _ _ _ _ _).
  assert (replicate (payload_size (ip :: l)) 0 =
    replicate ADDRINFO_SIZE 0 ++ replicate (sockaddr_size ip) 0 ++ replicate (payload_size l) 0) as ->.
  { by rewrite <- !replicate_add. }
  rewrite inserts_segment by (unfold hd; by rewrite length_addrinfo_bytes, length_replicate).
  specialize (IH (pre ++ hd ++ replicate (sockaddr_size ip) 0)).
  assert (length (pre ++ hd ++ replicate (sockaddr_size ip) 0) = c') as Hc'.
  { unfold c', hd, node_size. rewrite !length_app, length_addrinfo_bytes, length_replicate. lia. }
  rewrite Hc', <- !app_assoc in IH. exact IH.
Qed.

Lemma write_socks_payload l : ∀ pre, Forall ip_ok l →
  write_socks port (layout (length pre) l).1 (pre ++ headers (length pre) l) = pre ++ payload (length pre) l.
Proof.
  induction l as [|ip l IH]; intros pre Hl; [done|]. apply Forall_cons in Hl as [Hip Hl].
  rewrite layout_cons. cbn [fst write_socks headers payload].
  set (c' := (length pre + node_size ip)%nat). set (hd := addrinfo_bytes _ _ _ _ _ _).
  assert (length pre + ADDRINFO_SIZE = length (pre ++ hd))%nat as ->.
  { unfold hd. by rewrite length_app, length_addrinfo_bytes. }
  rewrite (app_assoc pre hd), inserts_segment
    by (rewrite length_replicate; symmetry; by apply length_sockaddr_bytes).
  specialize (IH ((pre ++ hd) ++ sockaddr_bytes port ip) Hl).
  assert (length ((pre ++ hd) ++ sockaddr_bytes port ip) = c') as Hc'.
  { unfold c', hd, node_size. rewrite !length_app, length_addrinfo_bytes, length_sockaddr_bytes by done. lia. }
  rewrite Hc', <- !app_assoc in IH. rewrite <- !app_assoc. exact IH.
Qed.

Lemma marshal_payload l :
  Forall ip_ok l → marshal_addrinfo_into_vec l flags socktype protocol port = (payload 0 l, 0).
Proof.
  intros Hl. unfold marshal_addrinfo_into_vec.
  pose proof (write_nodes_headers l []) as Hn. pose proof (write_socks_payload l [] Hl) as Hs.
  pose proof (layout_end l 0) as He. destruct l as [|ip l]; [done|].
  change (@length Z []) with 0%nat in Hn, Hs. rewrite layout_cons in *. cbn [fst snd app] in Hn, Hs, He.
  rewrite He. cbv zeta. cbn [fst snd]. change (0 + payload_size ?x)%nat with (payload_size x). by rewrite Hn, Hs.
Qed.

Lemma length_payload l : ∀ c, Forall ip_ok l → length (payload c l) = payload_size l.
Proof.
  induction l as [|ip l IH]; intros c Hl; [done|]. apply Forall_cons in Hl as [Hip Hl]. cbn [payload].
  rewrite !length_app, length_addrinfo_bytes, length_sockaddr_bytes, IH by done.
  rewrite payload_size_cons. unfold node_size. lia.
Qed.

End marshal.

(** ** Walking the answer *)

Section walk.
Context {W : Type}.
Implicit Types k : kern W.

Lemma guest_slice_segment k p (pre seg post bs : bytes) :
  guest_slice k p (Z.of_nat (length bs)) = Ok bs → bs = pre ++ seg ++ post →
  guest_slice k (p + Z.of_nat (length pre)) (Z.of_nat (length seg)) = Ok seg.
Proof.
  intros Hs Hbs. assert (length bs = length pre + (length seg + length post))%nat as Hl
    by (rewrite Hbs, !length_app; done).
  rewrite (guest_slice_sub _ _ _ _ _ _ Hs) by lia. f_equal.
  replace (Z.to_nat (p + Z.of_nat (length pre) - p)) with (length pre) by lia.
  rewrite Nat2Z.id, Hbs, drop_app_length. by rewrite take_app_length.
Qed.

(** The words of a header. *)
Lemma addrinfo_fields flags socktype protocol ip (sock next : nat) :
  (Z.of_nat sock < 2 ^ 32) → (Z.of_nat next < 2 ^ 32) →
  is_i 32 flags → is_i 32 socktype → is_i 32 protocol →
  let h := addrinfo_bytes flags socktype protocol ip sock next in
  as_i32 (msg_field h 0) = flags ∧ as_i32 (msg_field h 4) = (if is_ipv4 ip then 2 else 10) ∧
  as_i32 (msg_field h 8) = socktype ∧ as_i32 (msg_field h 12) = protocol ∧
  msg_field h 16 = Z.of_nat (sockaddr_size ip) ∧ msg_field h 20 = Z.of_nat sock ∧
  msg_field h 28 = Z.of_nat next.
Proof.
  intros Hs Hn Hf Ht Hp h.
  assert (∀ x, as_i32 (from_le_bytes (to_le_bytes 4 x)) = wraps 32 x) as Hi.
  { intros x. rewrite from_to_le_bytes. apply (wraps_mod 32). }
  assert (∀ n : nat, Z.of_nat n < 2 ^ 32 → from_le_bytes (to_le_bytes 4 (Z.of_nat n)) = Z.of_nat n) as Hu.
  { intros n Hlt. apply (from_to_le_bytes_u 4). split; [lia|done]. }
  split_and!.
  - change (as_i32 (from_le_bytes (to_le_bytes 4 flags)) = flags). rewrite Hi. by apply wraps_id.
  - change (as_i32 (from_le_bytes (to_le_bytes 4 (if is_ipv4 ip then 2 else 10))) = (if is_ipv4 ip then 2 else 10)).
    by destruct (is_ipv4 ip).
  - change (as_i32 (from_le_bytes (to_le_bytes 4 socktype)) = socktype). rewrite Hi. by apply wraps_id.
  - change (as_i32 (from_le_bytes (to_le_bytes 4 protocol)) = protocol). rewrite Hi. by apply wraps_id.
  - change (from_le_bytes (to_le_bytes 4 (Z.of_nat (sockaddr_size ip))) = Z.of_nat (sockaddr_size ip)).
    apply Hu. by destruct ip.
  - by apply Hu.
  - by apply Hu.
Qed.

Lemma encode_ip_sockaddr port ip : encode_sockaddr (ip_sockaddr port ip) = sockaddr_bytes port ip.
Proof. by destruct ip. Qed.

Lemma ip_sockaddr_ok port ip : is_u 16 port → ip_ok ip → sockaddr_ok (ip_sockaddr port ip).
Proof. by destruct ip. Qed.

Lemma answer_list_payload k q l : ∀ pre bs,
  query_ok q → Forall ip_ok l → l ≠ [] →
  guest_slice k RESOLVER_SCRATCH_BASE (Z.of_nat (length bs)) = Ok bs →
  bs = pre ++ payload (q_flags q) (q_socktype q) (q_protocol q) (q_port q) (length pre) l →
  Z.of_nat (length bs) ≤ MAX_RESOLVER_SCRATCH_BYTES →
  answer_list (length l) k (Z.of_nat (length pre)) = Some (ainfo_of q <$> l).
Proof.
  induction l as [|ip l IH]; intros pre bs Hq Hl Hne Hs Hbs Hmax; [done|].
  pose proof Hl as Hl'. apply Forall_cons in Hl as [Hip Hl].
  pose proof Hbs as Hbs'. cbn [payload] in Hbs'.
  set (c' := (length pre + node_size ip)%nat) in *. set (hd := addrinfo_bytes _ _ _ _ _ _) in *.
  set (sa := sockaddr_bytes (q_port q) ip) in *.
  set (rest := payload _ _ _ _ c' l) in *.
  assert (length hd = ADDRINFO_SIZE) as Hhd by apply length_addrinfo_bytes.
  assert (length sa = sockaddr_size ip) as Hsa by by apply length_sockaddr_bytes.
  assert (length bs = length pre + (ADDRINFO_SIZE + (sockaddr_size ip + length rest)))%nat as Hlen
    by (rewrite Hbs', !length_app; lia).
  unfold MAX_RESOLVER_SCRATCH_BYTES in Hmax.
  assert (Z.of_nat (length pre + ADDRINFO_SIZE) < 2 ^ 32) as Hb1 by lia.
  assert (Z.of_nat (next_off c' l) < 2 ^ 32) as Hb2 by (unfold next_off, c', node_size; destruct l; lia).
  destruct (addrinfo_fields (q_flags q) (q_socktype q) (q_protocol q) ip _ _ Hb1 Hb2
    (qo_flags _ Hq) (qo_socktype _ Hq) (qo_protocol _ Hq)) as (F0 & F4 & F8 & F12 & F16 & F20 & F28).
  fold hd in F0, F4, F8, F12, F16, F20, F28.
  cbn [length answer_list].
  rewrite <- Hhd, (guest_slice_segment _ _ _ _ _ _ Hs Hbs'). cbv iota. rewrite F20, F16, F28.
  rewrite (parse_encoded k _ _ (ip_sockaddr (q_port q) ip)).
  - rewrite F0, F4, F8, F12. destruct l as [|ip' l]; [done|]. cbn [next_off].
    rewrite (proj2 (Z.eqb_neq _ _)) by (unfold c', node_size, ADDRINFO_SIZE; lia).
    replace c' with (length (pre ++ hd ++ sa)) by (rewrite !length_app, Hhd, Hsa; unfold c', node_size; lia).
    rewrite (IH (pre ++ hd ++ sa) bs); [done..| |done].
    rewrite !length_app, Hhd, Hsa, <- !app_assoc. exact Hbs'.
  - apply ip_sockaddr_ok; [apply Hq|done].
  - rewrite encode_ip_sockaddr. fold sa.
    replace (RESOLVER_SCRATCH_BASE + Z.of_nat (length pre + ADDRINFO_SIZE))
      with (RESOLVER_SCRATCH_BASE + Z.of_nat (length (pre ++ hd))) by (rewrite length_app, Hhd; done).
    apply (guest_slice_segment k _ (pre ++ hd) sa rest bs); [done|]. by rewrite <- app_assoc.
  - unfold RESOLVER_SCRATCH_BASE. lia.
  - destruct ip; done.
  - rewrite encode_ip_sockaddr. fold sa. by rewrite Hsa.
Qed.

End walk.

(** ** The query and the filter *)

Lemma read_query_ok {W} (k : kern W) a q : read_query k a = Ok q → query_ok q.
Proof.
  unfold read_query. case_if; [done|]. intros (node & _ & Hq)%result_bind_Ok.
  apply result_bind_Ok in Hq as (hints & Hh & Hq). apply result_bind_Ok in Hq as (port & Hp & Hq).
  destruct hints as [[[fl fa] st] pr]. injection Hq as <-.
  assert (is_i 32 fl ∧ is_i 32 st ∧ is_i 32 pr) as (? & ? & ?).
  { revert Hh. unfold read_hints. case_if; [by intros [= <- <- <- <-]|].
    destruct (guest_slice _ _ _); [|done]. repeat (case_if; [done|]). intros [= <- <- <- <-].
    split_and!; by apply wraps_range. }
  split; simpl; try done; [by case_if|].
  revert Hp. unfold read_service. case_if; [by intros [= <-]|]. destruct (guest_str _ _ _); [|done].
  destruct (parse_u16 _) eqn:E; [|done]. intros [= <-]. by eapply parse_u16_range.
Qed.

Lemma elem_of_filter_addrs ip l family deny :
  ip ∈ filter_addrs l family deny ↔ ip ∈ l ∧ family_matches family ip = true ∧ ip ∉ deny.
Proof.
  unfold filter_addrs. rewrite list_elem_of_In, !filter_In, <- list_elem_of_In.
  rewrite negb_true_iff, bool_decide_eq_false. tauto.
Qed.

(** An address that may be handed out: of the requested family (2 is IPv4, 10
    IPv6, anything else both), and not denied. *)
Definition permitted (family : Z) (deny : list IpAddr) (ip : IpAddr) : Prop :=
  (family = 2 → is_ipv4 ip = true) ∧ (family = 10 → is_ipv4 ip = false) ∧ ip ∉ deny.

#[global] Instance permitted_dec family deny ip : Decision (permitted family deny ip).
Proof. unfold permitted. apply _. Defined.

Lemma permitted_matches family deny ip :
  permitted family deny ip ↔ family_matches family ip = true ∧ ip ∉ deny.
Proof.
  unfold permitted, family_matches, is_ipv6.
  destruct (Z.eqb_spec family 2), (Z.eqb_spec family 10); destruct ip; simpl; intuition (done || lia).
Qed.

Lemma filter_addrs_permitted l family deny : filter_addrs l family deny = filter (permitted family deny) l.
Proof.
  unfold filter_addrs. induction l as [|ip l IH]; [done|]. rewrite filter_cons. cbn [List.filter].
  pose proof (permitted_matches family deny ip) as Hp.
  destruct (decide (permitted family deny ip)) as [Hy|Hn].
  - apply Hp in Hy as [-> Hd]. cbn [List.filter]. rewrite bool_decide_eq_false_2 by done. cbn [negb]. by rewrite IH.
  - destruct (family_matches family ip); [|exact IH]. cbn [List.filter].
    rewrite bool_decide_eq_true_2; [exact IH|]. destruct (decide (ip ∈ deny)); [done|]. destruct Hn. by apply Hp.
Qed.

Lemma filter_addrs_ok l family deny : Forall ip_ok l → Forall ip_ok (filter_addrs l family deny).
Proof. rewrite !Forall_forall. intros Hl ip [? _]%elem_of_filter_addrs. by apply Hl. Qed.

(** Where the addresses of a name come from: the cache as the call finds it, or
    else the lookup the call makes when it is resumed. *)
Definition addrs_found {W} `{Host W} `{Dns W} (park : kern W → kern W) (k : kern W) (node : bytes)
    (l : list IpAddr) : Prop :=
  cached k node = Some l ∨
  cached k node = None ∧
  ∃ b k1 w', get_backend k = Some (b, k1) ∧
    lookup_ip (k_host (park k1)) b (timeout_ms (resolver (k_ps k1))) node = (Looked l, w').

(** ** The handler *)

Section handler.
Context {W : Type} `{Host W} `{Dns W}.
Implicit Types k : kern W.

(** Only guest memory changes. *)
Lemma marshal_and_return_state k l q deny res n k' :
  marshal_and_return k l q deny res = (n, k') → k_ps k' = k_ps k ∧ k_host k' = k_host k.
Proof.
  assert (∀ k p bs, k_ps (mem_put k p bs) = k_ps k ∧ k_host (mem_put k p bs) = k_host k) as Hput.
  { intros k0 p bs. unfold mem_put. by destruct (k_memory k0) as [[]|]. }
  unfold marshal_and_return. case_if; [by intros [= <- <-]|].
  destruct (marshal_addrinfo_into_vec _ _ _ _ _) as [bs off]. case_if; [by intros [= <- <-]|].
  destruct (guest_write k _ bs) as [k1|] eqn:E1; [|by intros [= <- <-]]. apply guest_write_Ok in E1 as [_ ->].
  destruct (guest_write _ res _) as [k2|] eqn:E2; intros [= <- <-]; [|apply Hput].
  apply guest_write_Ok in E2 as [_ ->]. by rewrite !(proj1 (Hput _ _ _)), !(proj2 (Hput _ _ _)).
Qed.

Lemma marshal_and_return_wf k l q deny res n k' :
  kern_wf k → marshal_and_return k l q deny res = (n, k') → kern_wf k'.
Proof.
  intros Hk. unfold marshal_and_return. case_if; [by intros [= <- <-]|].
  destruct (marshal_addrinfo_into_vec _ _ _ _ _) as [bs off]. case_if; [by intros [= <- <-]|].
  destruct (guest_write k _ bs) as [k1|] eqn:E1; [|by intros [= <- <-]].
  apply kern_wf_guest_write in E1; [|done].
  destruct (guest_write k1 _ _) as [k2|] eqn:E2; intros [= <- <-]; [|done]. by eapply kern_wf_guest_write.
Qed.

(** What a successful answer looks like to the guest. *)
Lemma marshal_answers k l q deny res n k' :
  query_ok q → Forall ip_ok l → disjoint_ranges res 4 RESOLVER_SCRATCH_BASE MAX_RESOLVER_SCRATCH_BYTES →
  marshal_and_return k l q deny res = (n, k') → 0 ≤ n →
  let shown := filter_addrs l (q_family q) deny in
  n = Z.of_nat (length shown) ∧ 0 < n ∧ guest_slice k' res 4 = Ok (to_le_bytes 4 0) ∧
  answer_list (length shown) k' 0 = Some (ainfo_of q <$> shown).
Proof.
  intros Hq Hl Hd Hm Hn shown. revert Hm. unfold marshal_and_return. fold shown.
  case_bool_decide as Hs; [intros [= <- _]; done|].
  assert (Forall ip_ok shown) as Hok by by apply filter_addrs_ok.
  rewrite marshal_payload by done. set (bs := payload _ _ _ _ _ _).
  case_if; [intros [= <- _]; done|]. rename select (_ ≤ _) into Hmax.
  destruct (guest_write k _ bs) as [k1|] eqn:E1; [|by intros [= <- _]].
  destruct (guest_write k1 _ _) as [k2|] eqn:E2; [|by intros [= <- _]]. intros [= <- <-].
  apply guest_write_Ok in E1 as [Hin1 ->]. apply guest_write_Ok in E2 as [Hin2 ->].
  assert (0 < Z.of_nat (length shown)) by (destruct shown; [done|simpl; lia]).
  split_and!; [done|done|by apply (guest_slice_put_same _ _ (to_le_bytes 4 0))|].
  apply (answer_list_payload _ q shown [] bs); try done.
  rewrite guest_slice_put_disjoint; [by apply guest_slice_put_same|done|].
  change (Z.of_nat (length (to_le_bytes 4 0))) with 4. unfold disjoint_ranges in *. lia.
Qed.

Lemma set_resolver_wf k s :
  kern_wf k → (resolver_ok (resolver (k_ps k)) → resolver_ok s) → kern_wf (set_resolver k s).
Proof. intros Hk Hs. apply kern_wf_set_ps; [done|]. intros []. split; simpl; auto. Qed.

Lemma get_backend_wf k b k' : kern_wf k → get_backend k = Some (b, k') → kern_wf k'.
Proof.
  intros Hk. unfold get_backend. destruct (backend _); [by intros [= _ <-]|].
  destruct (backend_new _) as [[b'|] w]; [|done]. intros [= <- <-].
  apply set_resolver_wf; [by apply kern_wf_set_host|]. apply set_backend_ok.
Qed.

Context `{!DnsLaws W}.
Context (park : kern W → kern W) (order : gmap bytes CacheEntry → list (bytes * CacheEntry)).

Lemma resolve_preserves :
  (∀ k, kern_wf k → kern_wf (park k)) → (∀ c, order c ≡ₚ map_to_list c) →
  PreservesOut (resolve park order).
Proof using All.
  intros Hpark Hord k a r k' Hk Hr _. revert Hr. unfold resolve.
  destruct (read_query k a) as [q|e]; [|by intros [= <- <-]].
  destruct (cached k _) as [l|]; [intros [= Hr]; by eapply marshal_and_return_wf|].
  destruct (get_backend k) as [[b k1]|] eqn:Eb; [|done]. apply get_backend_wf in Eb; [|done].
  destruct (lookup_ip _ b _ _) as [[| |l] w] eqn:El; [by intros [= <- <-]; apply kern_wf_set_host, Hpark..|].
  intros [= Hr]. eapply marshal_and_return_wf; [|done].
  apply lookup_ip_ok in El. apply set_resolver_wf; [by apply kern_wf_set_host, Hpark|].
  intros ?. by apply cache_insert_ok.
Qed.

(** A successful call marshals the cache entry of its name, found or just
    made. *)
Lemma resolve_cases k a q n k' :
  resolver_ok (resolver (k_ps k)) → read_query k a = Ok q →
  resolve park order k a = Return (n, k') → 0 ≤ n →
  ∃ kw e, cache (resolver (k_ps kw)) !! q_node q = Some e ∧ Forall ip_ok (addrs e) ∧
    marshal_and_return kw (addrs e) q (denylist (resolver (k_ps kw))) (as_u32 (a5 a)) = (n, k') ∧
    addrs_found park k (q_node q) (addrs e).
Proof using All.
  intros Hok Hq Hr Hn. revert Hr. unfold resolve. rewrite Hq.
  destruct (cached k (q_node q)) as [l|] eqn:Ec.
  - intros Hm%Return_inj. pose proof Ec as Hc. unfold cached in Hc. apply bind_Some in Hc as (e & He & Hl).
    case_if; [|done]. injection Hl as <-. exists k, e. split_and!; [done|by eapply ro_addrs|done|left; exact Ec].
  - destruct (get_backend k) as [[b k1]|] eqn:Eb; [|done].
    destruct (lookup_ip _ b _ _) as [[| |l] w] eqn:El; [by intros [= <- _]..|]. intros Hm%Return_inj.
    eexists _, (MkCacheEntry l (elapsed w)). split_and!; [|by eapply lookup_ip_ok|exact Hm|right; split; [done|by eexists _, _, _]].
    by apply lookup_insert_eq.
Qed.

End handler.

(** ** Theorems *)

(** C14: what [resolve] hands out, to a guest whose result pointer is outside
    the scratch area 8192..12288. When the call succeeds, the word at that
    pointer is 0, the offset in the scratch area of a list of [addrinfo] nodes
    linked by such offsets; walking it gives exactly the addresses that were
    cached for the name or that the backend has just returned for it, in their
    order, less those of another family than the requested one and those on
    the denylist, each with the requested port, socket type and protocol and
    with a socket address the socket syscalls parse back to it. The result is
    their number, at least one. *)
Theorem resolve_answers {W} `{Host W} `{Dns W} `{!DnsLaws W} park order (k : kern W) a q n k' :
  resolver_ok (resolver (k_ps k)) → read_query k a = Ok q →
  disjoint_ranges (as_u32 (a5 a)) 4 RESOLVER_SCRATCH_BASE MAX_RESOLVER_SCRATCH_BYTES →
  resolve park order k a = Return (n, k') → 0 ≤ n →
  let s := resolver (k_ps k') in
  ∃ e, cache s !! q_node q = Some e ∧
    addrs_found park k (q_node q) (addrs e) ∧
    let shown := filter (permitted (q_family q) (denylist s)) (addrs e) in
    n = Z.of_nat (length shown) ∧ 0 < n ∧
    guest_slice k' (as_u32 (a5 a)) 4 = Ok (to_le_bytes 4 0) ∧
    answer_list (length shown) k' 0 = Some (ainfo_of q <$> shown).
Proof.
  intros Hok Hq Hd Hr Hn s. pose proof (read_query_ok _ _ _ Hq) as Hqok.
  destruct (resolve_cases park order _ _ _ _ _ Hok Hq Hr Hn) as (kw & e & He & Hl & Hm & Hsrc).
  pose proof (marshal_and_return_state _ _ _ _ _ _ _ Hm) as [Hps _].
  destruct (marshal_answers _ _ _ _ _ _ _ Hqok Hl Hd Hm Hn) as (H1 & H2 & H3 & H4).
  rewrite filter_addrs_permitted in H1, H4.
  exists e. subst s. rewrite Hps. by split_and!.
Qed.

(** An answer is remembered. After a call that succeeded for a name, and
    as long as the entry it left is not older than the TTL (a TTL of 0 is no
    limit) and nobody changed the resolver's state, any call for that name is
    answered from the same entry: it returns whatever the backend and the
    other threads would do, and changes neither the host nor the process. *)
Theorem resolve_remembers {W} `{Host W} `{Dns W} `{!DnsLaws W} park order (k : kern W) a q n k1 :
  resolver_ok (resolver (k_ps k)) → read_query k a = Ok q →
  resolve park order k a = Return (n, k1) → 0 ≤ n →
  let s := resolver (k_ps k1) in
  ∃ e, cache s !! q_node q = Some e ∧
    ∀ k2 a2 q2, resolver (k_ps k2) = s → read_query k2 a2 = Ok q2 → q_node q2 = q_node q →
      (ttl_ms s ≠ 0 → 0 ≤ elapsed (k_host k2) - inserted e < ttl_ms s * 1000000) →
      ∃ r k3, (∀ park' order', resolve park' order' k2 a2 = Return (r, k3)) ∧
        marshal_and_return k2 (addrs e) q2 (denylist s) (as_u32 (a5 a2)) = (r, k3) ∧
        k_host k3 = k_host k2 ∧ k_ps k3 = k_ps k2.
Proof.
  intros Hok Hq Hr Hn s.
  destruct (resolve_cases park order _ _ _ _ _ Hok Hq Hr Hn) as (kw & e & He & Hl & Hm & Hsrc).
  pose proof (marshal_and_return_state _ _ _ _ _ _ _ Hm) as [Hps _].
  exists e. subst s. rewrite Hps. split; [done|]. intros k2 a2 q2 Hs Hq2 Hname Httl.
  destruct (marshal_and_return k2 (addrs e) q2 (denylist (resolver (k_ps kw))) (as_u32 (a5 a2)))
    as [r k3] eqn:E. pose proof (marshal_and_return_state _ _ _ _ _ _ _ E) as [? ?].
  exists r, k3. split_and!; try done. intros park' order'. unfold resolve, cached.
  rewrite Hq2, Hs, Hname, He. cbn [mbind option_bind].
  destruct (decide (ttl_ms (resolver (k_ps kw)) = 0)) as [Hz|Hz].
  - rewrite Hz. cbn. by rewrite E.
  - destruct (Httl Hz) as [? ?]. rewrite (proj2 (Z.ltb_lt (Z.max 0 _) _)) by lia. by rewrite orb_true_r, E.
Qed.

(** ** Witnesses *)

(** A backend with one answer for every name. *)
Definition fixed_dns : Dns NullHost :=
  {| backend_new w := (Some 0, w);
     lookup_ip w _ _ _ := (Looked [IpV4 [10; 0; 0; 1]; IpV6 (replicate 16 1); IpV4 [10; 0; 0; 2]], w) |}.

Lemma fixed_dns_laws : @DnsLaws NullHost fixed_dns.
Proof. split. intros w b t name l w' [= <- <-]. by repeat constructor. Qed.

(** A guest with the name and the service in its memory. *)
Definition dns_kern : kern NullHost :=
  attach_resolver_config (mem_put (mem_put sample_kern 256 [97; 46; 98]) 600 [52; 52; 51])
    (MkResolverConfig [IpV4 [10; 0; 0; 1]] 60000 5000).

Definition dns_args : args := Args 256 0 600 0 0 1024.

Definition dns_query : query := MkQuery [97; 46; 98] 0 0 1 0 443.

Definition dns_after : kern NullHost :=
  match @resolve _ _ fixed_dns (λ k, k) map_to_list dns_kern dns_args with
  | Return (_, k) => k
  | _ => dns_kern
  end.

Lemma dns_resolver_ok : resolver_ok (resolver (k_ps dns_kern)).
Proof. apply (Build_resolver_ok _); [done|]. intros key e. simpl. by rewrite lookup_empty. Qed.

Lemma resolve_answers_witness :
  answer_list 2 dns_after 0 =
  Some [MkAinfo 0 10 1 0 (SockV6 443 (replicate 16 1)); MkAinfo 0 2 1 0 (SockV4 443 [10; 0; 0; 2])].
Proof.
  pose proof fixed_dns_laws as Hlaws.
  destruct (@resolve_answers _ _ fixed_dns Hlaws (λ k, k) map_to_list dns_kern dns_args dns_query 2 dns_after
    dns_resolver_ok) as (e & He & _ & _ & _ & _ & Hans).
  - vm_compute. reflexivity.
  - unfold disjoint_ranges. vm_compute. intuition discriminate.
  - vm_compute. reflexivity.
  - lia.
  - assert (Some e = Some (MkCacheEntry [IpV4 [10; 0; 0; 1]; IpV6 (replicate 16 1); IpV4 [10; 0; 0; 2]] 0)) as [= ->].
    { rewrite <- He. vm_compute. reflexivity. }
    exact Hans.
Defined.

Lemma resolve_remembers_witness :
  ∃ r k3, ∀ park' order', @resolve _ _ fixed_dns park' order' dns_after dns_args = Return (r, k3).
Proof.
  pose proof fixed_dns_laws as Hlaws.
  destruct (@resolve_remembers _ _ fixed_dns Hlaws (λ k, k) map_to_list dns_kern dns_args dns_query 2 dns_after
    dns_resolver_ok) as (e & He & Hk).
  - vm_compute. reflexivity.
  - vm_compute. reflexivity.
  - lia.
  - assert (Some e = Some (MkCacheEntry [IpV4 [10; 0; 0; 1]; IpV6 (replicate 16 1); IpV4 [10; 0; 0; 2]] 0)) as [= ->].
    { rewrite <- He. vm_compute. reflexivity. }
    destruct (Hk dns_after dns_args dns_query eq_refl) as (r & k3 & Hr & _).
    + vm_compute. reflexivity.
    + reflexivity.
    + vm_compute. intuition discriminate.
    + exists r, k3. exact Hr.
Defined.

(** ** Deviations *)

(** The guest's own adapter passes the start of the scratch area as its result
    pointer: the word stored there overwrites the flags of the first node, and
    it is 0, which the adapter takes for an empty list. *)
Lemma resolve_adapter_slot :
  match @resolve _ _ fixed_dns (λ k, k) map_to_list dns_kern (Args 256 0 600 0 0 RESOLVER_SCRATCH_BASE) with
  | Return (n, k) => n = 2 ∧ guest_slice k RESOLVER_SCRATCH_BASE 4 = Ok [0; 0; 0; 0]
  | _ => False
  end.
Proof. vm_compute. split; reflexivity. Qed.
