(* ===== verification/SnapshotSpec.v ===== *)
(** * Freezing and thawing a kernel

    [apply_snapshot (try_to_snapshot k) k0] makes [k0] a kernel with the
    snapshot of [k]: the same descriptors with the same contents, and the
    memory up to trailing zero pages, which are not recorded. The host decides
    about files and sockets; a kernel without them thaws whenever the memory
    can be grown. Thawing keeps the kernel invariant. *)

From S2P Require Import Prelude Word Errno GuestMem Text Path Host Vfs Udp Net Fd Sock Futex LinearAllocator Arena Kernel Snapshot SnapMem KernInv SysMemory SysFile SysFileInv SysSocket SysSocketInv.

(** ** Heaps that only gain objects *)

Record heap_ext (h h' : heap) : Prop := {
  hx_pipes : pipes h ⊆ pipes h';
  hx_files : files h ⊆ files h';
  hx_socks : socks h ⊆ socks h';
}.

#[global] Instance heap_ext_preorder : PreOrder heap_ext.
Proof. split; [by split|]. intros h1 h2 h3 [] []. split; by etrans. Qed.

Lemma heap_ext_le h h' : heap_ext h h' → heap_le h h'.
Proof. intros [Hp Hf Hs]. split; intros l [x Hx]; exists x; by eapply lookup_weaken. Qed.

Definition no_socket (r : Resource) : Prop := match r with RSocket _ => False | _ => True end.

(** A resource of the kernel alone: no host object behind it. *)
Definition in_kernel (r : Resource) : Prop := match r with RSocket _ | RFile _ => False | _ => True end.

Lemma in_kernel_no_socket r : in_kernel r → no_socket r.
Proof. by destruct r. Qed.

(** Bytes seen through a resource do not change when the heap grows. *)
Lemma snapshot_resource_ext {W} `{SnapHost W} h h' (w w' : W) r :
  heap_ext h h' → res_ok h r → no_socket r → snapshot_resource h' w' r = snapshot_resource h w r.
Proof.
  intros [Hp Hf Hs] Hr Hn. destruct r as [x|x|x|l|x|x|l|e|e]; simpl in *; try done.
  all: destruct Hr as [y Hy]; do 2 f_equal; unfold pipe_at, file_at.
  all: by rewrite Hy, (lookup_weaken _ _ _ _ Hy) by done.
Qed.

(** ** Epoll: the interest list *)

(** Inserting the pairs of a list one after the other. *)
Lemma foldl_insert_union {A} (l : list (Z * A)) (m : gmap Z A) :
  NoDup l.*1 → foldl (λ m p, <[p.1 := p.2]> m) m l = list_to_map l ∪ m.
Proof.
  revert m. induction l as [|[i x] l IH]; intros m Hnd; simpl; [by rewrite (left_id_L ∅ (∪))|].
  apply NoDup_cons in Hnd as [Hi Hnd]. rewrite IH by done.
  rewrite <- insert_union_l. symmetry. apply insert_union_r. by apply not_elem_of_list_to_map_1.
Qed.

Definition freeze_entry (e : EpollEntry) : EpollEntrySnapshot :=
  MkEpollEntrySnap (ee_fd e) (ee_events e) (ee_data e).

Lemma restore_interest_map h l m :
  freeze_entry <$> (restore_interest h l m).1 =
  foldl (λ m p, <[p.1 := p.2]> m) (freeze_entry <$> m) ((λ e, (een_fd e, e)) <$> l).
Proof.
  revert h m. induction l as [|e l IH]; intros h m; [done|]. simpl. rewrite IH, fmap_insert.
  by destruct e.
Qed.

Lemma restore_interest_ok h l m :
  (∀ fd x, m !! fd = Some x → ee_fd x = fd) →
  ∀ fd x, (restore_interest h l m).1 !! fd = Some x → ee_fd x = fd.
Proof.
  revert h m. induction l as [|e l IH]; intros h m Hm; [done|]. simpl. apply IH.
  intros fd x. rewrite lookup_insert_Some. intros [[<- <-]|[_ ?]]; eauto.
Qed.

Lemma restore_interest_heap h l m :
  heap_wf h → heap_wf (restore_interest h l m).2 ∧ heap_ext h (restore_interest h l m).2.
Proof.
  revert h m. induction l as [|e l IH]; intros h m Hh; [done|]. cbn [restore_interest].
  destruct (new_notify h) as [n h'] eqn:E. destruct (new_notify_wf _ _ _ E Hh) as [Hh' _].
  destruct (IH h' (<[een_fd e:=MkEpollEntry (een_fd e) (een_events e) (een_data e) n]> m) Hh') as [? Hx].
  split; [done|]. etrans; [|exact Hx]. by injection E as <- <-.
Qed.

(** The snapshot of an interest list is a function of the frozen entries. *)
Lemma snapshot_epoll_map (m : gmap Z EpollEntry) :
  snapshot_epoll_iter (map_to_list m) =
  snd <$> sort_by (λ a b, a.1 <=? b.1) (map_to_list (freeze_entry <$> m)).
Proof.
  unfold snapshot_epoll_iter. by rewrite map_to_list_fmap.
Qed.

Lemma snapshot_epoll_restore h e :
  epoll_ok e →
  snapshot_epoll_iter (map_to_list (restore_interest h (snapshot_epoll_iter (map_to_list (entries e))) ∅).1) =
  snapshot_epoll_iter (map_to_list (entries e)).
Proof.
  intros He. rewrite (snapshot_epoll_map (restore_interest _ _ _).1), restore_interest_map.
  assert ((λ x, (een_fd x, x)) <$> snapshot_epoll_iter (map_to_list (entries e)) =
          sort_by (λ a b, a.1 <=? b.1) (map_to_list (freeze_entry <$> entries e))) as Hl.
  { rewrite snapshot_epoll_map, <- list_fmap_compose, <- (list_fmap_id (sort_by _ _)) at 1.
    rewrite list_fmap_id. rewrite <- (list_fmap_id (sort_by _ _)) at 2. apply list_fmap_ext.
    intros i [fd x] Hx. simpl. apply list_elem_of_lookup_2 in Hx. rewrite sort_by_perm in Hx.
    apply elem_of_map_to_list in Hx. rewrite lookup_fmap, fmap_Some in Hx.
    destruct Hx as (y & Hy & ->). f_equal. exact (He _ _ Hy). }
  rewrite Hl, fmap_empty, foldl_insert_union.
  - rewrite (right_id_L ∅ (∪)), snapshot_epoll_map. do 3 f_equal.
    rewrite <- (list_to_map_to_list (freeze_entry <$> entries e)) at 2.
    apply list_to_map_proper; [|apply sort_by_perm]. rewrite sort_by_perm. apply NoDup_fst_map_to_list.
  - rewrite sort_by_perm. apply NoDup_fst_map_to_list.
Qed.

(** ** One resource *)

Section thaw.
Context {W : Type} `{Host W} `{Net W} `{SnapHost W}.
Implicit Types k : kern W.

(** Nothing but the descriptors, the heap and the host changes. *)
Definition frame k k' : Prop := ∃ t h w, k' = set_fds (set_heap (set_host k w) h) t.

#[global] Instance frame_preorder : PreOrder frame.
Proof.
  split.
  - intros k. exists (k_fds k), (k_heap k), (k_host k). by destruct k.
  - intros k1 k2 k3 (t & h & w & ->) (t' & h' & w' & ->). by exists t', h', w'.
Qed.

(** The address a listener is bound to again has the size of its family, and
    its path fits. *)
Record sock_snap_ok (s : SocketSnapshot) : Prop := {
  sso_bound a : ssn_bound s = Some a → sockaddr_len a;
  sso_path p : ssn_unix_inner s ≫= usn_path = Some p → (length p < 108)%nat;
}.

Definition snap_ok (s : ResourceSnapshot) : Prop :=
  ∀ so, rb_socket (rs_body s) = Some so → sock_snap_ok so.

Lemma new_pipe_cell_wf h p l h' :
  new_pipe_cell h p = (l, h') → heap_wf h →
  heap_wf h' ∧ heap_ext h h' ∧ pipes h' !! l = Some p.
Proof.
  intros [= <- <-] [Hp Hf Hs Ho].
  assert (pipes h !! next_loc h = None) as Hn.
  { apply eq_None_not_Some. intros Hl. apply Hp in Hl. lia. }
  split_and!; [split|split|]; simpl; auto; try intros l'.
  - rewrite lookup_insert_is_Some'. intros [<-|Hl]; [lia|]. apply Hp in Hl. lia.
  - intros Hl. apply Hf in Hl. lia.
  - intros Hl. apply Hs in Hl. lia.
  - by apply insert_subseteq.
  - by rewrite lookup_insert_eq.
Qed.

Lemma new_sock_ext h s l h' :
  new_sock h s = (l, h') → heap_wf h → sock_ok s →
  heap_wf h' ∧ heap_ext h h' ∧ socks h' !! l = Some s.
Proof.
  intros [= <- <-] [Hp Hf Hs Ho] Hok.
  assert (socks h !! next_loc h = None) as Hn.
  { apply eq_None_not_Some. intros Hl. apply Hs in Hl. lia. }
  split_and!; [split|split|]; simpl; auto; try intros l'.
  - intros Hl. apply Hp in Hl. lia.
  - intros Hl. apply Hf in Hl. lia.
  - rewrite lookup_insert_is_Some'. intros [<-|Hl]; [lia|]. apply Hs in Hl. lia.
  - intros s'. rewrite lookup_insert_Some. intros [[_ <-]|[_ ?]]; eauto.
  - by apply insert_subseteq.
  - by rewrite lookup_insert_eq.
Qed.

Lemma new_file_ext h f l h' :
  new_file h f = (l, h') → heap_wf h → heap_wf h' ∧ heap_ext h h' ∧ files h' !! l = Some f.
Proof.
  intros Hnew Hh. destruct (new_file_wf _ _ _ _ Hnew Hh) as (Hh' & _ & _).
  injection Hnew as <- <-. split_and!; [done|split; simpl; auto|simpl; by rewrite lookup_insert_eq].
  apply insert_subseteq, eq_None_not_Some. intros Hl. apply (hw_files _ Hh) in Hl. lia.
Qed.

Lemma new_notify_ext h n h' : new_notify h = (n, h') → heap_wf h → heap_wf h' ∧ heap_ext h h'.
Proof. intros Hn Hh. destruct (new_notify_wf _ _ _ Hn Hh). by injection Hn as <- <-. Qed.

(** What a successful thaw of one resource leaves behind. *)
Record thawed k (r : Resource) k' : Prop := {
  th_frame : ∃ h w, k' = set_heap (set_host k w) h;
  th_heap : heap_wf (k_heap k');
  th_ext : heap_ext (k_heap k) (k_heap k');
  th_res : res_ok (k_heap k') r;
}.

Lemma restore_pipe_thawed k p mk r k' :
  heap_wf (k_heap k) → (∀ l n, res_ok (k_heap k') (mk l n) ↔ is_Some (pipes (k_heap k') !! l)) →
  restore_pipe k p mk = (r, k') →
  thawed k r k' ∧ ∃ l n, r = mk l n ∧ pipe_at (k_heap k') l = MkPipe (ps_buf p) (ps_closed p) (ps_nonblock p).
Proof.
  unfold restore_pipe. intros Hh Hmk. destruct (new_pipe_cell _ _) as [l h1] eqn:E1.
  destruct (new_notify h1) as [n h2] eqn:E2. intros [= <- <-].
  destruct (new_pipe_cell_wf _ _ _ _ E1 Hh) as (Hh1 & Hx1 & Hl).
  destruct (new_notify_ext _ _ _ E2 Hh1) as [Hh2 Hx2].
  assert (pipes h2 !! l = Some (MkPipe (ps_buf p) (ps_closed p) (ps_nonblock p))) as Hl2.
  { eapply lookup_weaken; [exact Hl|apply Hx2]. }
  split; [split; simpl|].
  - exists h2, (k_host k). by destruct k.
  - done.
  - by etrans.
  - apply Hmk. simpl. by rewrite Hl2.
  - exists l, n. split; [done|]. unfold pipe_at. simpl. by rewrite Hl2.
Qed.

Lemma install_sock_thawed k mk r k' :
  heap_wf (k_heap k) → (∀ nr nw, sock_ok (mk nr nw)) →
  install_sock k mk = (r, k') → thawed k r k'.
Proof.
  unfold install_sock. intros Hh Hmk. destruct (new_notify (k_heap k)) as [nr h1] eqn:E1.
  destruct (new_notify h1) as [nw h2] eqn:E2. destruct (new_sock h2 _) as [l h3] eqn:E3. intros [= <- <-].
  destruct (new_notify_ext _ _ _ E1 Hh) as [Hh1 Hx1]. destruct (new_notify_ext _ _ _ E2 Hh1) as [Hh2 Hx2].
  destruct (new_sock_ext _ _ _ _ E3 Hh2) as (Hh3 & Hx3 & Hl); [done|].
  split; simpl; [|done|by do 2 (etrans; [done|])|by rewrite Hl]. exists h3, (k_host k). by destruct k.
Qed.

Lemma restore_file_thawed k f r k' :
  heap_wf (k_heap k) → restore_file k f = (SOk r, k') →
  thawed k r k' ∧ ∃ l, r = RFile l ∧ snapshot_file (file_at (k_heap k') l) = f.
Proof.
  unfold restore_file. intros Hh. destruct (fsn_is_dir f) eqn:Ed; [done|].
  destruct (fsn_path f) as [p|] eqn:Ep; [|done]. destruct (fs_open _ _ _) as [[fh|] w1]; [|done].
  destruct (file_seek _ _ _) as [[x|] w2]; [|done]. destruct (new_file _ _) as [l h1] eqn:E1.
  intros [= <- <-]. destruct (new_file_ext _ _ _ _ E1 Hh) as (Hh1 & Hx1 & Hl). split; [split; simpl|].
  - by exists h1, w2.
  - done.
  - done.
  - by rewrite Hl.
  - exists l. split; [done|]. unfold file_at. simpl. rewrite Hl. destruct f. by simplify_eq/=.
Qed.

Lemma thawed_host k w r k' : thawed (set_host k w) r k' → thawed k r k'.
Proof. intros [(h & w' & ->) ? ? ?]. split; try done. by exists h, w'. Qed.

Lemma restore_unix_thawed k s r k' :
  heap_wf (k_heap k) → sock_snap_ok s → restore_unix k s = (SOk r, k') → thawed k r k'.
Proof.
  unfold restore_unix. intros Hh [_ Hs]. destruct (ssn_unix_inner s ≫= usn_path) as [p|]; [|done].
  specialize (Hs p eq_refl).
  case_bool_decide; [done|]. destruct (match fs_metadata _ _ with IoOk _ => _ | IoErr _ => _ end) as [ok k1] eqn:E1.
  assert (∃ w, k1 = set_host k w) as [w ->].
  { destruct (fs_metadata _ _); [case_bool_decide|]; injection E1 as <- <-; try by eexists.
    all: exists (k_host k); by destruct k. }
  destruct ok; [|done]. cbn [negb]. destruct (unix_bind _ _) as [[l|] w2]; [|done].
  destruct (install_sock _ _) as [r1 k2] eqn:E2. intros [= <- <-].
  eapply (thawed_host _ w2), (install_sock_thawed (set_host k w2)); [exact Hh| |exact E2]. intros nr nw.
  split; simpl; try done; by intros a [= <-].
Qed.

Lemma restore_tcp_thawed k s r k' :
  heap_wf (k_heap k) → sock_snap_ok s →
  restore_tcp k s = (SOk r, k') → thawed k r k'.
Proof.
  unfold restore_tcp. intros Hh [Hb _]. destruct (negb (ssn_is_acceptor s)); [done|].
  destruct (ssn_bound s) as [[port ip|port ip|p]|] eqn:Es; try done.
  destruct (std_tcp_bind _ _) as [[l|] w1]; [|done].
  destruct (if ssn_so_reuseaddr s then _ else _) as [[x|] w2]; [|done].
  destruct (tcp_from_std w2 l) as [[l2|] w3]; [|done].
  destruct (install_sock _ _) as [r1 k2] eqn:E2. intros [= <- <-].
  eapply (thawed_host _ w3), (install_sock_thawed (set_host k w3)); [exact Hh| |exact E2]. intros nr nw.
  by split.
Qed.

Lemma restore_epoll_thawed k e r k' :
  heap_wf (k_heap k) → restore_epoll k e = (r, k') →
  thawed k r k' ∧ ∃ c, r = REpoll (MkEpoll (restore_interest (k_heap k) (esn_entries e) ∅).1 c (esn_self_event_fd e)).
Proof.
  unfold restore_epoll. intros Hh.
  destruct (restore_interest_heap (k_heap k) (esn_entries e) ∅ Hh) as [Hh1 Hx1].
  pose proof (restore_interest_ok (k_heap k) (esn_entries e) ∅ ltac:(by intros ? ? []%lookup_empty_Some)) as Hok.
  destruct (restore_interest _ _ _) as [m h1]. destruct (new_notify h1) as [c h2] eqn:E2. intros [= <- <-].
  destruct (new_notify_ext _ _ _ E2 Hh1) as [Hh2 Hx2]. split; [|by exists c].
  split; simpl; [|done|by etrans|done]. exists h2, (k_host k). by destruct k.
Qed.

Lemma restore_eventfd_thawed k e r k' :
  heap_wf (k_heap k) → restore_eventfd k e = (r, k') →
  thawed k r k' ∧ ∃ n, r = REventFd (MkEventFd (evn_counter e) n (evn_nonblock e)).
Proof.
  unfold restore_eventfd. intros Hh. destruct (new_notify _) as [n h] eqn:E. intros [= <- <-].
  destruct (new_notify_ext _ _ _ E Hh) as [? ?]. split; [|by exists n].
  split; simpl; try done. exists h, (k_host k). by destruct k.
Qed.

Lemma restore_socket_thawed k s r k' :
  heap_wf (k_heap k) → sock_snap_ok s →
  restore_socket k s = (SOk r, k') → thawed k r k'.
Proof.
  unfold restore_socket. intros Hh Hb. destruct (_ && _); [done|].
  destruct (ssn_family_unix s); [by apply restore_unix_thawed|by apply restore_tcp_thawed].
Qed.

Lemma always_SOk (x : Resource * kern W) r k' : always x = (SOk r, k') → x = (r, k').
Proof. destruct x. by intros [= <- <-]. Qed.

Lemma restore_resource_thawed k s r k' :
  heap_wf (k_heap k) → snap_ok s → restore_resource k s = (SOk r, k') → thawed k r k'.
Proof.
  intros Hh Hs. unfold restore_resource, with_body.
  destruct (rs_kind s).
  1-5: destruct (rb_pipe (rs_body s)); [|done]; intros Hr%always_SOk;
    by eapply restore_pipe_thawed; [..|exact Hr].
  - destruct (rb_file (rs_body s)); [|done]. intros Hr. by eapply restore_file_thawed.
  - destruct (rb_socket (rs_body s)) as [so|] eqn:E; [|done]. intros Hr.
    eapply restore_socket_thawed; [done|by apply Hs|exact Hr].
  - destruct (rb_epoll (rs_body s)); [|done]. intros Hr%always_SOk.
    by eapply restore_epoll_thawed; [..|exact Hr].
  - destruct (rb_eventfd (rs_body s)); [|done]. intros Hr%always_SOk.
    by eapply restore_eventfd_thawed; [..|exact Hr].
Qed.

(** Thawing what was frozen: the same resource, as a snapshot sees it. *)
Lemma restore_resource_same k h0 (w0 : W) r0 r k' :
  heap_wf (k_heap k) → res_ok h0 r0 → no_socket r0 →
  restore_resource k (snapshot_resource h0 w0 r0) = (SOk r, k') →
  no_socket r ∧ snapshot_resource (k_heap k') (k_host k') r = snapshot_resource h0 w0 r0.
Proof.
  intros Hh Hr0 Hn. destruct r0 as [x|x|x|l|x|x|l|e|e]; try done.
  all: unfold restore_resource, with_body; cbn [snapshot_resource from_pipe from_file from_epoll from_eventfd
    rs_kind rs_body rb_pipe rb_file rb_epoll rb_eventfd].
  1-3, 5-6: intros Hr%always_SOk; edestruct restore_pipe_thawed as [_ (l & n & -> & Hp)];
    [done| |exact Hr|]; [done|]; split; [done|]; simpl; rewrite Hp; unfold snapshot_pipe; done.
  - intros Hr. destruct (restore_file_thawed _ _ _ _ Hh Hr) as [_ (l' & -> & Hf)].
    split; [done|]. cbn. by rewrite Hf.
  - intros Hr%always_SOk. destruct (restore_epoll_thawed _ _ _ _ Hh Hr) as [_ [c ->]].
    split; [done|]. simpl. unfold snapshot_epoll. simpl. by rewrite snapshot_epoll_restore.
  - intros Hr%always_SOk. by destruct (restore_eventfd_thawed _ _ _ _ Hh Hr) as [_ [n ->]].
Qed.

Lemma restore_resource_total k h0 (w0 : W) r0 :
  in_kernel r0 → ∃ r k', restore_resource k (snapshot_resource h0 w0 r0) = (SOk r, k').
Proof. destruct r0; try done; intros _; eexists _, _; reflexivity. Qed.

(** ** The table *)

Record rebuilt k (fds : list Z) k' : Prop := {
  rb_frame : frame k k';
  rb_heap : heap_wf (k_heap k');
  rb_ext : heap_ext (k_heap k) (k_heap k');
  rb_cloexec : cloexec (k_fds k') = cloexec (k_fds k);
  rb_res : (∀ fd r, table (k_fds k) !! fd = Some r → res_ok (k_heap k) r) →
           ∀ fd r, table (k_fds k') !! fd = Some r → res_ok (k_heap k') r;
  rb_dom fd : is_Some (table (k_fds k') !! fd) → is_Some (table (k_fds k) !! fd) ∨ fd ∈ fds;
}.

(** One step of the loop: thaw, bind at the recorded descriptor, go on. *)
Lemma restore_entries_step k e l k' :
  is_inherited (fe_kind e) = false → restore_entries k (e :: l) = (SOk tt, k') →
  ∃ r k1, restore_resource k (fe_kind e) = (SOk r, k1) ∧ table (k_fds k1) !! fe_fd e = None ∧
    restore_entries (set_fds k1 (insert_at (k_fds k1) (fe_fd e) r).2) l = (SOk tt, k').
Proof.
  intros Hi. cbn [restore_entries]. rewrite Hi. destruct (restore_resource _ _) as [[r|] k1]; [|done].
  destruct (insert_at (k_fds k1) (fe_fd e) r) as [[x|] t] eqn:E; [|done]. intros Hr. exists r, k1.
  rewrite E. split_and!; [done| |done]. revert E. unfold insert_at. case_bool_decide; [done|].
  intros _. by apply eq_None_not_Some.
Qed.

Lemma rebuilt_step k r k1 fd fds k' :
  thawed k r k1 → table (k_fds k1) !! fd = None →
  rebuilt (set_fds k1 (insert_at (k_fds k1) fd r).2) fds k' → rebuilt k (fd :: fds) k'.
Proof.
  intros [(h & w & ->) Hh Hx Hr] Hn. unfold insert_at. simpl in *.
  rewrite bool_decide_false by (rewrite Hn; by intros [? ?]).
  intros [Hfr Hh' Hx' Hc Hres Hd]. simpl in *. split; try done.
  - by etrans.
  - intros Hk. apply Hres. intros fd' r'. rewrite lookup_insert_Some.
    intros [[_ <-]|[_ Hl]]; [done|]. eapply res_ok_mono; [by apply heap_ext_le|eauto].
  - intros fd' Hfd. apply Hd in Hfd as [Hfd|?]; [|right; by right].
    apply lookup_insert_is_Some' in Hfd as [<-|?]; [right; left|by left].
Qed.

Lemma restore_entries_rebuilt k l k' :
  heap_wf (k_heap k) → Forall (λ e, snap_ok (fe_kind e)) l → restore_entries k l = (SOk tt, k') →
  rebuilt k (fe_fd <$> l) k'.
Proof.
  revert k. induction l as [|e l IH]; intros k Hh Hs Hr.
  { injection Hr as <-. by split; [reflexivity| |reflexivity|..|by left]. }
  apply Forall_cons in Hs as [Hse Hs]. destruct (is_inherited (fe_kind e)) eqn:Ei.
  - cbn [restore_entries] in Hr. rewrite Ei in Hr. destruct (IH k Hh Hs Hr) as [? ? ? ? ? Hd].
    split; try done. intros fd [?|?]%Hd; [by left|right; by right].
  - apply restore_entries_step in Hr as (r & k1 & Hr1 & Hn & Hr); [|done].
    pose proof (restore_resource_thawed _ _ _ _ Hh Hse Hr1) as Ht.
    eapply rebuilt_step; [exact Ht|exact Hn|]. apply IH; [|done|exact Hr]. apply Ht.
Qed.

(** The entries of a frozen table. *)
Definition frozen h0 (w0 : W) (it : list (Z * Resource)) : list FdEntrySnapshot :=
  (λ e, MkFdEntry e.1 (snapshot_resource h0 w0 e.2)) <$> it.

Lemma plain_snap h0 (w0 : W) r : no_socket r → rb_socket (rs_body (snapshot_resource h0 w0 r)) = None.
Proof. by destruct r. Qed.

Lemma no_socket_same h h' (w w' : W) r r' :
  no_socket r → snapshot_resource h' w' r' = snapshot_resource h w r → no_socket r'.
Proof. by destruct r', r. Qed.

Lemma frozen_snap_ok h0 (w0 : W) it :
  Forall (λ e, no_socket e.2) it → Forall (λ e, snap_ok (fe_kind e)) (frozen h0 w0 it).
Proof.
  intros Hn. apply Forall_fmap. eapply Forall_impl; [exact Hn|]. intros [fd r] Hr so. simpl in *.
  by rewrite plain_snap.
Qed.

Lemma plain_not_inherited h0 (w0 : W) r : no_socket r → is_inherited (snapshot_resource h0 w0 r) = false.
Proof. intros Hr. unfold is_inherited. rewrite plain_snap by done. by rewrite andb_false_r. Qed.

Lemma frozen_cons h0 (w0 : W) fd r it :
  frozen h0 w0 ((fd, r) :: it) = MkFdEntry fd (snapshot_resource h0 w0 r) :: frozen h0 w0 it.
Proof. done. Qed.

Lemma restore_entries_same k it h0 w0 k' :
  heap_wf (k_heap k) → NoDup it.*1 → Forall (λ e, res_ok h0 e.2 ∧ no_socket e.2) it →
  restore_entries k (frozen h0 w0 it) = (SOk tt, k') →
  snapshot_resource (k_heap k') (k_host k') <$> table (k_fds k') =
  (snapshot_resource h0 w0 <$> list_to_map it) ∪
  (snapshot_resource (k_heap k') (k_host k') <$> table (k_fds k)).
Proof.
  revert k. induction it as [|[fd r0] it IH]; intros k Hh Hnd Hf Hr.
  { injection Hr as <-. simpl. by rewrite fmap_empty, (left_id_L ∅ (∪)). }
  apply Forall_cons in Hf as [[Hr0 Hs0] Hf]. simpl in Hr0, Hs0.
  apply NoDup_cons in Hnd as [Hni Hnd]. rewrite frozen_cons in Hr.
  apply restore_entries_step in Hr as (r & k1 & Hr1 & Hn & Hr); [|by apply plain_not_inherited].
  cbn [fe_fd fe_kind] in Hn, Hr, Hr1.
  destruct (restore_resource_same _ _ _ _ _ _ Hh Hr0 Hs0 Hr1) as [Hnr Hsame].
  apply restore_resource_thawed in Hr1 as [(h1 & w1 & ->) Hh1 Hx1 Hres]; [|done|].
  2: { intros so. by rewrite plain_snap. }
  assert (heap_ext h1 (k_heap k')) as Hx.
  { apply restore_entries_rebuilt in Hr as [_ _ Hx _ _ _]; [exact Hx|exact Hh1|].
    apply frozen_snap_ok. by eapply Forall_impl; [exact Hf|intros ? []]. }
  eapply IH in Hr as ->; [|exact Hh1|exact Hnd|exact Hf]. simpl in Hn |- *.
  unfold insert_at. simpl. rewrite bool_decide_false by (rewrite Hn; by intros [? ?]). simpl.
  rewrite !fmap_insert, (snapshot_resource_ext h1 _ w1) by done. simpl in Hsame. rewrite Hsame.
  rewrite <- insert_union_l. symmetry. apply insert_union_r. rewrite lookup_fmap.
  rewrite not_elem_of_list_to_map_1 by done. done.
Qed.

Lemma restore_entries_total k it h0 w0 :
  NoDup it.*1 → Forall (λ e, in_kernel e.2) it → (∀ fd, fd ∈ it.*1 → table (k_fds k) !! fd = None) →
  ∃ k', restore_entries k (frozen h0 w0 it) = (SOk tt, k').
Proof.
  revert k. induction it as [|[fd r0] it IH]; intros k Hnd Hf Hd; [by exists k|].
  apply Forall_cons in Hf as [Hr0 Hf]. apply NoDup_cons in Hnd as [Hni Hnd].
  rewrite frozen_cons. cbn [restore_entries fe_kind fe_fd]. rewrite plain_not_inherited by by destruct r0.
  destruct (restore_resource_total k h0 w0 r0 Hr0) as (r & k1 & Hr). rewrite Hr.
  assert (k_fds k1 = k_fds k) as Hk1.
  { revert Hr. unfold restore_resource, with_body. destruct r0; try done; intros Hr%always_SOk; revert Hr.
    all: try (by intros [= _ <-]). intros Hr. revert Hr. unfold restore_epoll.
    destruct (restore_interest _ _ _). simpl. by intros [= _ <-]. }
  unfold insert_at. rewrite Hk1, bool_decide_false by (rewrite Hd by left; by intros [? ?]).
  apply IH; [done..|]. intros fd' Hfd'. simpl. rewrite lookup_insert_ne by (intros <-; done).
  apply Hd. by right.
Qed.

(** ** The kernel state *)

Lemma snapshot_fds_frozen h (w : W) t :
  snapshot_fds_iter h w (map_to_list t) = frozen h w (sort_by (λ a b, a.1 <=? b.1) (map_to_list t)).
Proof. done. Qed.

(** The frozen table is a function of what each descriptor shows. *)
Lemma snapshot_fds_map h (w : W) t :
  snapshot_fds_iter h w (map_to_list t) =
  (λ e, MkFdEntry e.1 e.2) <$> sort_by (λ a b, a.1 <=? b.1) (map_to_list (snapshot_resource h w <$> t)).
Proof.
  unfold snapshot_fds_iter. rewrite map_to_list_fmap.
  rewrite <- (sort_by_fmap _ (λ a b, a.1 <=? b.1)) by done. by rewrite <- list_fmap_compose.
Qed.

(** Entries are recorded in the order they are thawed. *)
Lemma frozen_sorted h (w : W) t :
  let it := sort_by (λ a b, a.1 <=? b.1) (map_to_list t) in
  sort_by (λ a b, fe_fd a <=? fe_fd b) (frozen h w it) = frozen h w it.
Proof.
  intros it. unfold frozen. rewrite <- (sort_by_fmap _ (λ a b, a.1 <=? b.1)) by done. f_equal.
  unfold it. apply (sort_by_key_unique fst); rewrite sort_by_perm; [done|apply NoDup_fst_map_to_list].
Qed.

Lemma foldl_cloexec l t :
  foldl (λ t fd, set_cloexec t fd true) t l =
  MkFdTable (table t) (next_fd t) (list_to_set l ∪ cloexec t).
Proof.
  revert t. induction l as [|fd l IH]; intros t; simpl.
  - destruct t; simpl. f_equal. set_solver.
  - rewrite IH. simpl. f_equal. set_solver.
Qed.

Lemma apply_state_SOk s k0 k' :
  apply_snapshot_kernel_state s k0 = (SOk tt, k') →
  ∃ k1, restore_entries (restore_fields k0 s) (sort_by (λ a b, fe_fd a <=? fe_fd b) (fd_entries (sn_fds s))) = (SOk tt, k1) ∧
    k' = set_fds k1 (MkFdTable (table (k_fds k1)) (fd_next_fd (sn_fds s))
                      (list_to_set (fd_cloexec (sn_fds s)) ∪ cloexec (k_fds k1))).
Proof.
  unfold apply_snapshot_kernel_state. destruct (negb _); [done|].
  destruct (restore_entries _ _) as [[[]|] k1]; [|done]. intros [= <-]. exists k1. split; [done|].
  by rewrite foldl_cloexec.
Qed.

Lemma apply_state_intro s k0 k1 :
  sn_format_version s = SNAPSHOT_FORMAT_VERSION →
  restore_entries (restore_fields k0 s) (sort_by (λ a b, fe_fd a <=? fe_fd b) (fd_entries (sn_fds s))) = (SOk tt, k1) →
  ∃ k', apply_snapshot_kernel_state s k0 = (SOk tt, k').
Proof. intros Hv Hr. unfold apply_snapshot_kernel_state. rewrite Hv, Z.eqb_refl, Hr. by eexists. Qed.

Lemma restore_fields_heap k0 s : heap_wf (k_heap k0) → heap_wf (k_heap (restore_fields k0 s)).
Proof. intros [Hp Hf Hs Ho]. split; simpl; auto; intros l Hl; [apply Hp in Hl|apply Hf in Hl|apply Hs in Hl]; lia. Qed.

Lemma table_sorted_forall (P : Resource → Prop) (t : gmap Z Resource) :
  (∀ fd r, t !! fd = Some r → P r) →
  Forall (λ e, P e.2) (sort_by (λ a b, a.1 <=? b.1) (map_to_list t)).
Proof.
  intros Ht. rewrite sort_by_perm. apply Forall_forall. intros [fd r] Hin.
  apply elem_of_map_to_list in Hin. by eapply Ht.
Qed.

Lemma table_sorted_nodup (t : gmap Z Resource) :
  NoDup (sort_by (λ a b, a.1 <=? b.1) (map_to_list t)).*1.
Proof. rewrite sort_by_perm. apply NoDup_fst_map_to_list. Qed.

(** The thawed kernel has the state that was frozen. *)
Lemma state_refreeze k k0 pages k' :
  kern_wf k → heap_wf (k_heap k0) → (∀ fd r, table (k_fds k) !! fd = Some r → no_socket r) →
  apply_snapshot_kernel_state (build_kernel_snapshot k pages) k0 = (SOk tt, k') →
  k_memory k' = k_memory k0 ∧ (∀ fd r, table (k_fds k') !! fd = Some r → no_socket r) ∧
  ∀ pages', build_kernel_snapshot k' pages' = build_kernel_snapshot k pages'.
Proof.
  intros Hk Hh0 Hns Happ. apply apply_state_SOk in Happ as (k1 & Hr & ->).
  set (s := build_kernel_snapshot k pages) in *.
  pose proof (restore_fields_heap k0 s Hh0) as Hh1.
  assert (fd_entries (sn_fds s) = frozen (k_heap k) (k_host k)
    (sort_by (λ a b, a.1 <=? b.1) (map_to_list (table (k_fds k))))) as He by done.
  rewrite He, frozen_sorted in Hr.
  pose proof (table_sorted_nodup (table (k_fds k))) as Hnd.
  pose proof (table_sorted_forall (λ r, res_ok (k_heap k) r ∧ no_socket r) (table (k_fds k))
    (λ fd r Hl, conj (kw_res _ Hk _ _ Hl) (Hns _ _ Hl))) as Hf.
  pose proof (restore_entries_same _ _ _ _ _ Hh1 Hnd Hf Hr) as Hsame.
  apply restore_entries_rebuilt in Hr as [(t & h & w & ->) _ _ Hc _ _]; [|done|].
  2: { apply frozen_snap_ok. eapply Forall_impl; [exact Hf|]. by intros ? []. }
  simpl in Hsame. rewrite fmap_empty, (right_id_L ∅ (∪)) in Hsame.
  assert (list_to_map (sort_by (λ a b, a.1 <=? b.1) (map_to_list (table (k_fds k)))) = table (k_fds k)) as Hm.
  { rewrite <- (list_to_map_to_list (table (k_fds k))) at 2. apply list_to_map_proper; [done|apply sort_by_perm]. }
  rewrite Hm in Hsame. split_and!; [done| |].
  { intros fd r Hl. apply (f_equal (.!! fd)) in Hsame. simpl in Hl. rewrite !lookup_fmap, Hl in Hsame. symmetry in Hsame.
    apply fmap_Some in Hsame as (r0 & Hr0 & Hs). by eapply no_socket_same; [|exact Hs]; eapply Hns. }
  intros pages'. unfold build_kernel_snapshot, build_iter. simpl in *. rewrite !snapshot_fds_map, Hsame, snapshot_rebuild, Hc. f_equal.
  do 3 f_equal. rewrite (right_id_L ∅ (∪)). apply set_eq. intros fd.
  rewrite elem_of_list_to_set, sort_by_perm. apply elem_of_elements.
Qed.

Lemma state_thaw_total k k0 pages :
  (∀ fd r, table (k_fds k) !! fd = Some r → in_kernel r) →
  ∃ k', apply_snapshot_kernel_state (build_kernel_snapshot k pages) k0 = (SOk tt, k').
Proof.
  intros Hin. destruct (restore_entries_total (restore_fields k0 (build_kernel_snapshot k pages))
    (sort_by (λ a b, a.1 <=? b.1) (map_to_list (table (k_fds k)))) (k_heap k) (k_host k)) as [k1 Hr].
  - apply table_sorted_nodup.
  - by apply table_sorted_forall.
  - done.
  - rewrite <- frozen_sorted in Hr. by eapply apply_state_intro.
Qed.

(** Without sockets the host does not show in a snapshot. *)
Lemma build_host k w mk pages :
  (∀ fd r, table (k_fds k) !! fd = Some r → no_socket r) →
  build_kernel_snapshot (set_memory (set_host k w) mk) pages = build_kernel_snapshot k pages.
Proof.
  intros Hns. unfold build_kernel_snapshot, build_iter. simpl. rewrite !snapshot_fds_map.
  do 4 f_equal. f_equal. apply map_fmap_ext. intros fd r Hl. apply Hns in Hl. by destruct r.
Qed.

(** ** Memory *)

Definition mem_of (mk : MemoryKind) : gmem := match mk with Owned m | Shared m => m end.

(** The attached memory, if any, is a Wasm memory. *)
Definition wasm_attached k : Prop := ∀ mk, memory_kind k = Ok mk → ∃ n, wasm_mem (mem_of mk) n.

Definition memory_pages k : list MemoryPageSnapshot :=
  match memory_kind k with Ok mk => collect_pages (kind_data mk) | Err _ => [] end.

Definition memory_byte k (i : Z) : Z := match memory_kind k with Ok mk => read_byte (mem_of mk) i | Err _ => 0 end.

(** [memory_byte] reads 0 outside the memory; this is where it ends. *)
Definition memory_size k : Z := match memory_kind k with Ok mk => gm_size (mem_of mk) | Err _ => 0 end.

(** The memory of [k], thawed over one of [size0] bytes, as it is in [k']: at
    least as large as that one; every byte it has is the frozen one, or zero
    where the frozen memory had ended; and what the frozen memory had beyond
    its end, if it had more, were zeros (trailing zero pages are not kept). *)
Record memory_restored k (size0 : Z) k' : Prop := {
  mr_size : size0 ≤ memory_size k' ≤ Z.max size0 (memory_size k);
  mr_byte i : 0 ≤ i < memory_size k' →
    memory_byte k' i = if decide (i < memory_size k) then memory_byte k i else 0;
  mr_lost i : memory_size k' ≤ i < memory_size k → memory_byte k i = 0;
}.

(** [k0] has a Wasm memory with data only in pages where [k] has data too: a
    new instance of the module, where the guest left no page of the module's
    data all zero. *)
Definition thaw_target k k0 : Prop :=
  wasm_attached k0 ∧
  ∀ i, 0 ≤ i → memory_byte k0 i ≠ 0 →
    ∃ j, 0 ≤ j ∧ j / PAGE_SIZE_BYTES = i / PAGE_SIZE_BYTES ∧ memory_byte k j ≠ 0.

(** A memory of zeros is one. *)
Lemma fresh_target k k0 :
  wasm_attached k0 → (∀ i, 0 ≤ i → memory_byte k0 i = 0) → thaw_target k k0.
Proof. intros Hw Hz. split; [done|]. intros i Hi Hb. by destruct Hb; apply Hz. Qed.

Lemma memory_pages_Ok k mk n :
  memory_kind k = Ok mk → wasm_mem (mem_of mk) n → memory_pages k = pages_of (mem_of mk) 0 n.
Proof. intros Hk Hm. unfold memory_pages. rewrite Hk. destruct mk; by apply collect_pages_of. Qed.

(** Pages are recorded exactly when some byte is not zero. *)
Lemma memory_pages_nil k : wasm_attached k → (memory_pages k = [] ↔ ∀ i, 0 ≤ i → memory_byte k i = 0).
Proof.
  intros Hw. unfold memory_byte. destruct (memory_kind k) as [mk|] eqn:Ek; [|unfold memory_pages; by rewrite Ek].
  destruct (Hw mk Ek) as [n Hm]. rewrite (memory_pages_Ok _ _ _ Ek Hm). split.
  - intros Hnil i Hi. apply page_zero_byte; [done|].
    destruct (is_zero_page (page_at (mem_of mk) (i / PAGE_SIZE_BYTES))) eqn:Ez; [done|].
    assert (i / PAGE_SIZE_BYTES < n).
    { destruct (decide (i / PAGE_SIZE_BYTES < n)); [done|]. by rewrite (page_beyond _ n) in Ez by (done || lia). }
    assert (MkPage (i / PAGE_SIZE_BYTES) (page_at (mem_of mk) (i / PAGE_SIZE_BYTES)) ∈ pages_of (mem_of mk) 0 n) as Hin.
    { apply pages_of_elem. cbn [page_index page_bytes]. destruct (page_split i Hi) as (_ & ? & _). split; [lia|done]. }
    rewrite Hnil in Hin. by apply not_elem_of_nil in Hin.
  - intros Hz. apply elem_of_nil_inv. intros p Hp. apply pages_of_elem in Hp as (Hi & Hpb & Hnz).
    apply not_true_iff_false in Hnz. apply Hnz. rewrite Hpb. by apply is_zero_page_at; [lia|].
Qed.

Lemma memory_beyond k i : wasm_attached k → memory_size k ≤ i → memory_byte k i = 0.
Proof.
  unfold wasm_attached, memory_size, memory_byte. destruct (memory_kind k) as [mk|]; [|done]. intros Hw Hi.
  destruct (Hw mk eq_refl) as [n [_ _ Hb]]. unfold read_byte. destruct (gm_bytes _ !! i) eqn:E; [|done].
  destruct (Hb i); [by eexists|lia].
Qed.

(** Agreement on every address, zeros past the ends included. *)
Lemma restored_intro k size0 k' :
  wasm_attached k → wasm_attached k' → (∀ i, 0 ≤ i → memory_byte k' i = memory_byte k i) →
  size0 ≤ memory_size k' ≤ Z.max size0 (memory_size k) → memory_restored k size0 k'.
Proof.
  intros Hw Hw' Hb Hs.
  assert (∀ k, wasm_attached k → 0 ≤ memory_size k) as Hpos.
  { clear. unfold wasm_attached, memory_size. intros k Hw. destruct (memory_kind k) as [mk|]; [|done].
    destruct (Hw mk eq_refl) as [n [? -> _]]. unfold PAGE_SIZE_BYTES. lia. }
  split; [done| |].
  - intros i Hi. rewrite Hb by lia. case_decide; [done|]. apply memory_beyond; [done|lia].
  - intros i Hi. specialize (Hpos k' Hw'). rewrite <- Hb by lia. apply memory_beyond; [done|lia].
Qed.

Lemma apply_pages_fresh k s m1 (w : W) r m' w' :
  wasm_attached k → sn_pages s = memory_pages k → sn_pages s ≠ [] →
  (∃ n1, wasm_mem m1 n1) →
  (∀ i, 0 ≤ i → read_byte m1 i ≠ 0 →
     ∃ j, 0 ≤ j ∧ j / PAGE_SIZE_BYTES = i / PAGE_SIZE_BYTES ∧ memory_byte k j ≠ 0) →
  apply_pages (sn_pages s) m1 w = (r, m', w') →
  (r = SOk tt → (∃ n', wasm_mem m' n') ∧ gm_size m1 ≤ gm_size m' ≤ Z.max (gm_size m1) (memory_size k) ∧
     ∀ i, 0 ≤ i → read_byte m' i = memory_byte k i) ∧
  ((∀ w d, 0 < d → gm_size m1 + d * PAGE_SIZE_BYTES ≤ memory_size k → (memory_grow w (gm_size m1) d).1 = true) →
   r = SOk tt).
Proof.
  intros Hw -> Hne [n1 Hm1] Hz Hap. unfold memory_byte, memory_size in *.
  destruct (memory_kind k) as [mk|] eqn:Ek; [|by unfold memory_pages in Hne; rewrite Ek in Hne].
  destruct (Hw mk Ek) as [n Hm]. rewrite (memory_pages_Ok _ _ _ Ek Hm) in Hap, Hne.
  destruct (apply_pages_spec _ _ _ _ _ _ _ _ Hm Hm1 Hne Hap) as [Hok Htot]. split; [|done].
  intros Hr. destruct (Hok Hr) as (n' & Hm' & Hsz & Ho).
  split_and!; [by exists n'|rewrite (wm_size _ _ Hm1), (wm_size _ _ Hm'), ?(wm_size _ _ Hm); unfold PAGE_SIZE_BYTES; lia..|]. intros i Hi.
  rewrite (Ho i Hi). destruct (is_zero_page _) eqn:Ez; [|done]. rewrite (page_zero_byte _ _ Hi Ez).
  destruct (decide (read_byte m1 i = 0)) as [|Hb]; [done|]. destruct (Hz i Hi Hb) as (j & Hj & Hp & Hjb).
  destruct Hjb. apply page_zero_byte; [done|]. rewrite Hp. exact Ez.
Qed.

(** Thawing memory onto a new instance. *)
Lemma memory_thaw k k1 s r k' :
  wasm_attached k → thaw_target k k1 → sn_pages s = memory_pages k →
  dispatch_memory_apply s k1 = (r, k') →
  (∃ w mk, k' = set_memory (set_host k1 w) mk) ∧
  (r = SOk tt → wasm_attached k' ∧ memory_restored k (memory_size k1) k' ∧ ∀ i, 0 ≤ i → memory_byte k' i = memory_byte k i) ∧
  (is_Some (k_memory k1) →
   (∀ w d, 0 < d → memory_size k1 + d * PAGE_SIZE_BYTES ≤ memory_size k → (memory_grow w (memory_size k1) d).1 = true) →
   r = SOk tt).
Proof.
  intros Hw [Hw1 Hz1] Hs. unfold dispatch_memory_apply. case_bool_decide as Hlen; rewrite Hs in Hlen.
  { apply nil_length_inv in Hlen. pose proof (proj1 (memory_pages_nil k Hw) Hlen) as Hz. intros [= <- <-].
    assert (∀ i, 0 ≤ i → memory_byte k1 i = memory_byte k i) as Hby.
    { intros i Hi. rewrite Hz by done. destruct (decide (memory_byte k1 i = 0)) as [|Hb]; [done|].
      destruct (Hz1 i Hi Hb) as (j & Hj & _ & Hjb). by destruct Hjb; apply Hz. }
    split_and!; [|intros _; split_and!; [done|by apply restored_intro; [..|lia]|done]|done].
    exists (k_host k1), (k_memory k1). by destruct k1. }
  assert (sn_pages s ≠ []) as Hne by (rewrite Hs; intros E; by rewrite E in Hlen).
  destruct (memory_kind k1) as [mk1|] eqn:E1.
  2: { intros [= <- <-]. split_and!; [|done|].
       - exists (k_host k1), (k_memory k1). by destruct k1.
       - intros [x Hx]. unfold memory_kind in E1. by rewrite Hx in E1. }
  specialize (Hw1 _ E1). unfold memory_byte in Hz1 at 1. rewrite E1 in Hz1.
  assert (memory_size k1 = gm_size (mem_of mk1)) as Hs1 by (unfold memory_size; by rewrite E1).
  assert (apply_snapshot_to_memory s = apply_pages (W:=W) (sn_pages s)) as Hto.
  { unfold apply_snapshot_to_memory. by rewrite bool_decide_false by (by rewrite Hs). }
  destruct mk1 as [m1|m1]; unfold apply_snapshot_to_shared_memory; [rewrite Hto|];
    destruct (apply_pages (sn_pages s) m1 (k_host k1)) as [[r' m'] w'] eqn:Eap; intros [= <- <-];
    destruct (apply_pages_fresh _ _ _ _ _ _ _ Hw Hs Hne Hw1 Hz1 Eap) as [Hok Htot]; (split_and!; [by eexists _, _| |rewrite Hs1; done]);
    intros Hr; destruct (Hok Hr) as (Hm' & Hsz & Hby);
    match goal with |- wasm_attached ?q ∧ _ => assert (wasm_attached q) as Hwq by by intros mk' [= <-] end;
    (split_and!; [done|apply restored_intro; [done..|rewrite Hs1; exact Hsz]|done]).
Qed.

Lemma try_to_snapshot_pages k : try_to_snapshot k = build_kernel_snapshot k (memory_pages k).
Proof. done. Qed.

Lemma memory_pages_same k k' :
  wasm_attached k → wasm_attached k' → (∀ i, 0 ≤ i → memory_byte k' i = memory_byte k i) →
  memory_pages k' = memory_pages k.
Proof.
  intros Hw Hw' Hb. destruct (memory_kind k) as [mk|] eqn:Ek, (memory_kind k') as [mk'|] eqn:Ek'.
  - destruct (Hw mk Ek) as [n Hm], (Hw' mk' Ek') as [n' Hm'].
    rewrite (memory_pages_Ok _ _ _ Ek Hm), (memory_pages_Ok _ _ _ Ek' Hm'). apply pages_of_same; [done..|].
    intros i Hi. specialize (Hb i Hi). unfold memory_byte in Hb. by rewrite Ek, Ek' in Hb.
  - assert (memory_pages k = []) as ->; [|unfold memory_pages; by rewrite Ek']. apply memory_pages_nil; [done|].
    intros i Hi. rewrite <- Hb by done. unfold memory_byte. by rewrite Ek'.
  - assert (memory_pages k' = []) as ->; [|unfold memory_pages; by rewrite Ek]. apply memory_pages_nil; [done|].
    intros i Hi. rewrite Hb by done. unfold memory_byte. by rewrite Ek.
  - unfold memory_pages. by rewrite Ek, Ek'.
Qed.

(** ** What cannot be thawed *)


Lemma actual_port_fields (w : W) s snap :
  let x := actual_port w s snap in
  ssn_inherited x = ssn_inherited snap ∧ ssn_is_acceptor x = ssn_is_acceptor snap ∧
  ssn_peer_addr_present x = ssn_peer_addr_present snap ∧ ssn_family_unix x = ssn_family_unix snap ∧
  ssn_unix_inner x = ssn_unix_inner snap ∧
  (ssn_bound x = ssn_bound snap ∨
   ∃ port port' ip, ssn_bound snap = Some (SockV4 port ip) ∧ ssn_bound x = Some (SockV4 port' ip)).
Proof.
  unfold actual_port. destruct (listener s); [|by split_and!; try left].
  destruct (ssn_bound snap) as [[port ip|port ip|p]|] eqn:Eb; try by split_and!; try left.
  destruct (tcp_local_addr w _) as [[a ?|a ?]|]; simpl; split_and!; try done; try (by left).
  all: right; by eexists _, _, _.
Qed.



(** ** The invariant *)

Lemma frozen_table_ok k t :
  heap_wf (k_heap k) → Forall (λ e, snap_ok (fe_kind e)) (frozen (k_heap k) (k_host k) t).
Proof.
  intros Hh. apply Forall_fmap, Forall_true. intros [fd r] so. simpl.
  destruct r as [?|?|?|?|?|?|l|?|?]; try done. simpl. intros [= <-].
  destruct (sock_at_ok _ l Hh) as [Hb _ _ _ Hp].
  destruct (actual_port_fields (k_host k) (sock_at (k_heap k) l) (snapshot_sock (sock_at (k_heap k) l)))
    as (_ & _ & _ & _ & Hu & Hx). split.
  - destruct Hx as [->|(p & p' & ip & Hs & ->)]; [apply Hb|]. intros a [= <-]. exact (Hb _ Hs).
  - rewrite Hu. simpl. intros p Hq. apply Hp. by destruct (unix _).
Qed.

(** ** Inherited listeners *)

(** A descriptor recorded as inherited is left unbound. *)
Lemma restore_entries_skips k l k' e :
  NoDup (fe_fd <$> l) → e ∈ l → is_inherited (fe_kind e) = true → table (k_fds k) !! fe_fd e = None →
  heap_wf (k_heap k) → Forall (λ e, snap_ok (fe_kind e)) l →
  restore_entries k l = (SOk tt, k') → table (k_fds k') !! fe_fd e = None.
Proof.
  intros Hnd Hin Hi Hn Hh Hs Hr. revert k Hn Hh Hr. induction l as [|e' l IH]; intros k Hn Hh Hr.
  { by apply not_elem_of_nil in Hin. }
  apply NoDup_cons in Hnd as [Hni Hnd]. apply Forall_cons in Hs as [Hse Hs].
  destruct (is_inherited (fe_kind e')) eqn:Ei.
  - cbn [restore_entries] in Hr. rewrite Ei in Hr. apply elem_of_cons in Hin as [->|Hin]; [|by eapply IH].
    destruct (restore_entries_rebuilt _ _ _ Hh Hs Hr) as [_ _ _ _ _ Hd].
    apply eq_None_not_Some. intros [[? Hx]|Hx]%Hd; [congruence|done].
  - apply elem_of_cons in Hin as [->|Hin]; [congruence|].
    apply restore_entries_step in Hr as (r & k1 & Hr1 & Hn1 & Hr); [|done].
    destruct (restore_resource_thawed _ _ _ _ Hh Hse Hr1) as [(h & w & ->) Hh1 _ _].
    eapply IH in Hr; [done|done..| |exact Hh1]. unfold insert_at. simpl in *.
    rewrite bool_decide_false by (rewrite Hn1; by intros [? ?]). simpl. rewrite lookup_insert_ne; [done|].
    intros He. apply Hni. rewrite He. by apply list_elem_of_fmap_2.
Qed.

Lemma inherited_fds_elem k pages fd l :
  table (k_fds k) !! fd = Some (RSocket l) → inherited (sock_at (k_heap k) l) = true →
  ∃ e, e ∈ frozen (k_heap k) (k_host k) (sort_by (λ a b, a.1 <=? b.1) (map_to_list (table (k_fds k)))) ∧
    fe_fd e = fd ∧ is_inherited (fe_kind e) = true ∧ fd ∈ inherited_fds (build_kernel_snapshot k pages).
Proof.
  intros Hl Hi. set (e := MkFdEntry fd (snapshot_resource (k_heap k) (k_host k) (RSocket l))).
  assert (is_inherited (fe_kind e) = true) as Hie.
  { unfold is_inherited. simpl.
    by destruct (actual_port_fields (k_host k) (sock_at (k_heap k) l) (snapshot_sock (sock_at (k_heap k) l))) as (-> & _). }
  assert (e ∈ frozen (k_heap k) (k_host k) (sort_by (λ a b, a.1 <=? b.1) (map_to_list (table (k_fds k))))) as Hin.
  { unfold frozen. apply list_elem_of_fmap. exists (fd, RSocket l). split; [done|].
    rewrite sort_by_perm. by apply elem_of_map_to_list. }
  exists e. split_and!; [done..|]. unfold inherited_fds. apply list_elem_of_fmap. exists e. split; [done|].
  apply list_elem_of_In, filter_In. split; [|done]. by apply list_elem_of_In.
Qed.

(** What [local_addr] promises of an address. *)
Definition local_addr_law : Prop := ∀ (w : W) l a, tcp_local_addr w l = NetOk a → inet_len a.

Lemma kern_wf_insert_at k fd r :
  kern_wf k → res_ok (k_heap k) r → 0 ≤ fd < U32_MAX → kern_wf (set_fds k (insert_at (k_fds k) fd r).2).
Proof.
  intros [Hm Hf Hr Hh Hv Hcm Hps Hmm Hid] Hres Hfd. destruct (insert_at (k_fds k) fd r) as [x t] eqn:E.
  split; try done; simpl; [by eapply insert_at_wf|]. intros fd' r'. revert E. unfold insert_at.
  case_bool_decide; intros [= <- <-]; simpl; [by apply Hr|].
  rewrite lookup_insert_Some. intros [[_ <-]|[_ ?]]; eauto.
Qed.

Lemma attach_inherited_wf k fds :
  local_addr_law → kern_wf k → Forall (λ e, 0 ≤ e.1 < U32_MAX) fds →
  kern_wf (attach_inherited_listeners k fds).2.
Proof.
  intros Hlaw Hk Hf. revert k Hk. induction Hf as [|[target source] fds Ht Hf IH]; intros k Hk; [done|].
  cbn [attach_inherited_listeners]. destruct (source <? 0); [by apply IH|].
  destruct (dup_listener _ _) as [[l|] w]; [|by apply IH, kern_wf_set_host].
  destruct (tcp_from_std w l) as [[l2|] w2]; [|by apply IH, kern_wf_set_host].
  destruct (tcp_local_addr w2 l2) as [a|] eqn:Ea; [|by apply IH, kern_wf_set_host].
  destruct (install_sock _ _) as [r k2] eqn:E2.
  apply install_sock_thawed in E2 as [(h & w3 & ->) Hh Hx Hres]; [|apply Hk|].
  2: { intros nr nw. apply Hlaw in Ea. split; simpl; try done. intros b [= <-]. by destruct a. }
  match goal with |- context [attach_inherited_listeners ?k3 fds] =>
    assert (kern_wf k3) as Hk3; [|pose proof (IH _ Hk3); by destruct (attach_inherited_listeners k3 fds)] end.
  apply kern_wf_insert_at; [|done|done]. apply kern_wf_set_heap; [by do 2 apply kern_wf_set_host|].
  split; [done|by apply heap_ext_le].
Qed.

End thaw.

(** ** The syscall *)

(** The file at [p] reads back as [bs]: what a regular file just written does,
    and a special file need not. *)
Definition reads_back {W} `{SnapHost W} (w : W) (p : path) (bs : bytes) : Prop :=
  fs_exists w p = true ∧ fs_read w p = IoOk bs.

(** What [postcard] promises of its encoding. *)
Class CodecLaws `{Codec} : Prop :=
  from_to_bytes s bs : to_stdvec s = Some bs → from_bytes bs = Some s.

Lemma not_in_slice {W} (k : kern W) p n e : guest_slice k p n = Err e → ¬ in_memory k p n.
Proof.
  intros E Hin. destruct Hin as (m & Hm & ? & ? & ? & ?).
  assert (guest_slice k p n = Ok (read_bytes m p n)) as E'; [|congruence].
  apply guest_slice_Ok. split; [by exists m|]. intros m' Hm'. congruence.
Qed.

(** The bytes of a C string. *)
Definition c_string (bs : bytes) : bytes := take (default (length bs) (position (λ b, b =? 0) bs)) bs.

Lemma guest_str_Err {W} (k : kern W) p n e :
  guest_str k p n = Err e →
  (e = - EFAULT ∧ ¬ in_memory k p n ∧
     (0 ≤ p < 2 ^ 63 → 0 ≤ n < 2 ^ 63 → ∀ m, k_memory k ≠ Some (Shared m))) ∨
  (e = - EINVAL ∧ ((∃ m, k_memory k = Some (Shared m)) ∨
                   ∃ bs, guest_slice k p n = Ok bs ∧ utf8_valid (c_string bs) = false)).
Proof.
  unfold guest_str. destruct (guest_slice k p n) as [bs|e'] eqn:E; simpl.
  - destruct (utf8_valid _) eqn:Eu; [done|]. intros [= <-]. right. split; [done|]. right. by exists bs.
  - intros [= <-]. destruct (k_memory k) as [[m|m]|] eqn:Em.
    2: { revert E. unfold guest_slice, memory. rewrite Em. destruct (range_end p n) as [x|] eqn:Er; simpl; intros [= <-].
         - right. eauto.
         - left. split_and!; [by eapply range_end_Err|intros (m' & Hm' & _); congruence|].
           intros ? ?. revert Er. unfold range_end. rewrite !(proj2 (Z.ltb_ge _ _)) by lia. simpl.
           unfold checked_add_usize, U64_MAX. case_match; to_prop; [done|lia]. }
    all: left; split_and!; [|intros Hin; by apply (not_in_slice k p n e' E)|congruence].
    all: revert E; unfold guest_slice, memory; rewrite Em; destruct (range_end p n) as [x|] eqn:Er; simpl.
    all: first [case_match; [done|]; by intros [= <-]|by intros [= <-]|intros [= <-]; by eapply range_end_Err].
Qed.

#[global] Instance snapshot_preserves {W} `{Host W} `{SnapHost W} `{Codec} :
  Preserves (snapshot_syscall (W:=W)).
Proof.
  intros k a r k' Hk. unfold snapshot_syscall. destruct (a0 a =? 0); [by intros [= <- <-]|].
  destruct (guest_str k (a0 a) 4096); [|by intros [= <- <-]].
  destruct (write_snapshot_file _ _ _) as [[?|] w]; [destruct (encode_snapshot _)|];
    intros [= <- <-]; by apply kern_wf_set_host.
Qed.

(** ** The whole thaw *)

Section thaw.
Context {W : Type} `{Host W} `{Net W} `{SnapHost W}.
Implicit Types k : kern W.

Lemma thaw_target_state k k0 k1 : k_memory k1 = k_memory k0 → thaw_target k k0 → thaw_target k k1.
Proof. intros Hm. unfold thaw_target, wasm_attached, memory_byte, memory_kind. by rewrite Hm. Qed.

Lemma memory_size_state k k' : k_memory k' = k_memory k → memory_size k' = memory_size k.
Proof. intros Hm. unfold memory_size, memory_kind. by rewrite Hm. Qed.

Lemma apply_refreezes k k0 k' :
  kern_wf k → heap_wf (k_heap k0) → wasm_attached k → thaw_target k k0 →
  (∀ fd r, table (k_fds k) !! fd = Some r → no_socket r) →
  apply_snapshot (try_to_snapshot k) k0 = (SOk tt, k') →
  try_to_snapshot k' = try_to_snapshot k ∧ memory_restored k (memory_size k0) k'.
Proof.
  intros Hk Hh0 Hw Hf0 Hns. unfold apply_snapshot. rewrite try_to_snapshot_pages.
  destruct (apply_snapshot_kernel_state _ k0) as [[[]|e] k1] eqn:Ea; [|done]. intros Ed.
  destruct (state_refreeze _ _ _ _ Hk Hh0 Hns Ea) as (Hm1 & Hns1 & Hb1).
  destruct (memory_thaw k k1 (build_kernel_snapshot k (memory_pages k)) _ _ Hw
    (thaw_target_state _ _ _ Hm1 Hf0) eq_refl Ed) as ((w & mk & Hk') & Hok & _).
  destruct (Hok eq_refl) as (Hw' & Hmr & Hby). split; [|by rewrite <- (memory_size_state _ _ Hm1)].
  rewrite try_to_snapshot_pages, (memory_pages_same k k') by done. subst k'. by rewrite build_host.
Qed.

Lemma state_thaw_wf k k0 k' pages :
  kern_wf k → kern_wf k0 → apply_snapshot_kernel_state (build_kernel_snapshot k pages) k0 = (SOk tt, k') →
  kern_wf k'.
Proof.
  intros Hk Hk0 Happ. apply apply_state_SOk in Happ as (k1 & Hr & ->).
  set (s := build_kernel_snapshot k pages) in *.
  assert (fd_entries (sn_fds s) = frozen (k_heap k) (k_host k)
    (sort_by (λ a b, a.1 <=? b.1) (map_to_list (table (k_fds k))))) as He by done.
  rewrite He, frozen_sorted in Hr.
  apply restore_entries_rebuilt in Hr as [(t & h & w & ->) Hh _ _ Hres Hd];
    [|apply restore_fields_heap, Hk0|apply frozen_table_ok, Hk].
  simpl in *. split; simpl; try done; try apply Hk; try apply Hk0.
  - split; [apply (kw_fds _ Hk)|]. intros fd Hfd. apply Hd in Hfd as [[? Hfd]|Hfd]; [by rewrite lookup_empty in Hfd|].
    apply (kw_fds _ Hk). unfold frozen in Hfd. rewrite <- list_fmap_compose in Hfd.
    apply list_elem_of_fmap in Hfd as ([fd' r] & -> & Hin). rewrite sort_by_perm in Hin.
    apply elem_of_map_to_list in Hin. by exists r.
  - apply Hres. by intros ? ? []%lookup_empty_Some.
  - pose proof (kw_vfs _ Hk) as Hv. by destruct (k_vfs k).
  - destruct (kw_ps _ Hk0). split; simpl; try done. apply rebuild_counts.
Qed.

(** *** Memory stays within its bounds *)

Lemma collect_chunks_index n i bs : 0 ≤ i → Forall (λ p, 0 ≤ page_index p) (collect_chunks n i bs).
Proof.
  revert i bs. induction n as [|n IH]; intros i bs Hi; cbn [collect_chunks].
  - case_match; [by apply Forall_singleton|done].
  - case_match; [apply IH; lia|]. constructor; [done|apply IH; lia].
Qed.

Lemma memory_pages_index k : Forall (λ p, 0 ≤ page_index p) (memory_pages k).
Proof. unfold memory_pages. destruct (memory_kind k); [|done]. by apply collect_chunks_index. Qed.

Lemma copy_pages_bounds l m r m' :
  Forall (λ p, 0 ≤ page_index p) l → mem_bounds m → copy_pages m l = (r, m') → mem_bounds m'.
Proof.
  intros Hl. revert m. induction Hl as [|p l Hp Hl IH]; intros m Hm; simpl; [by intros [= <- <-]|].
  case_if; [by intros [= <- <-]|]. to_prop. apply IH. destruct Hm as [Hs Hb]. split; [done|]. simpl.
  apply insert_bytes_bounds; [done|unfold PAGE_SIZE_BYTES in *; lia..].
Qed.

Lemma apply_pages_bounds `{!Memory32 (W:=W)} l m (w : W) r m' w' :
  Forall (λ p, 0 ≤ page_index p) l → mem_bounds m → apply_pages l m w = (r, m', w') → mem_bounds m'.
Proof.
  intros Hl Hm. unfold apply_pages. destruct (max_index l) as [x|]; [|by intros [= <- <- <-]].
  assert (∀ mg wg, mem_bounds mg → (let '(r, m) := copy_pages mg l in (r, m, wg)) = (r, m', w') → mem_bounds m') as Hc.
  { intros mg wg Hmg. destruct (copy_pages mg l) as [r1 m1] eqn:E. intros [= <- <- <-]. by eapply copy_pages_bounds. }
  case_if; [|by apply Hc]. to_prop. destruct (memory_grow w _ _) as [[] wg] eqn:Eg; simpl.
  2: { by intros [= <- <- <-]. }
  apply Hc. apply memory_grow_bound in Eg; [|lia]. destruct Hm as [Hs Hb]. split; simpl.
  - unfold PAGE_SIZE_BYTES, PAGE_SIZE in *. lia.
  - intros i Hi. apply Hb in Hi. unfold PAGE_SIZE_BYTES in *. lia.
Qed.

Lemma memory_apply_wf `{!Memory32 (W:=W)} s k r k' :
  kern_wf k → Forall (λ p, 0 ≤ page_index p) (sn_pages s) → dispatch_memory_apply s k = (r, k') → kern_wf k'.
Proof.
  intros Hk Hp. unfold dispatch_memory_apply. case_bool_decide as Hl; [by intros [= <- <-]|].
  destruct (memory_kind k) as [[m|m]|] eqn:Em; [| |by intros [= <- <-]].
  - unfold apply_snapshot_to_memory. rewrite bool_decide_false by done.
    destruct (apply_pages _ m _) as [[r1 m1] w1] eqn:E. intros [= <- <-].
    assert (mem_bounds m1) as Hm1.
    { eapply apply_pages_bounds; [exact Hp| |exact E]. apply (kw_mem _ Hk). unfold memory_kind in Em.
      by destruct (k_memory k); simplify_eq/=. }
    destruct Hk. split; simpl; try done. by intros m' [= <-].
  - unfold apply_snapshot_to_shared_memory. destruct (apply_pages _ m _) as [[r1 m1] w1]. intros [= <- <-].
    destruct Hk. by split.
Qed.

Lemma apply_total k k0 r k' :
  kern_wf k → heap_wf (k_heap k0) → wasm_attached k → thaw_target k k0 →
  (∀ fd r, table (k_fds k) !! fd = Some r → in_kernel r) → is_Some (k_memory k0) →
  (∀ w d, 0 < d → memory_size k0 + d * PAGE_SIZE_BYTES ≤ memory_size k → (memory_grow w (memory_size k0) d).1 = true) →
  apply_snapshot (try_to_snapshot k) k0 = (r, k') → r = SOk tt.
Proof.
  intros Hk Hh0 Hw Hf0 Hin Hm Hg. unfold apply_snapshot. rewrite try_to_snapshot_pages.
  destruct (apply_snapshot_kernel_state _ k0) as [[[]|e] k1] eqn:Ea.
  2: { destruct (state_thaw_total k k0 (memory_pages k) Hin). congruence. }
  destruct (state_refreeze _ _ _ _ Hk Hh0 (λ fd r Hl, in_kernel_no_socket r (Hin fd r Hl)) Ea) as (Hm1 & _).
  intros Ed. destruct (memory_thaw k k1 (build_kernel_snapshot k (memory_pages k)) _ _ Hw
    (thaw_target_state _ _ _ Hm1 Hf0) eq_refl Ed) as (_ & _ & Htot). apply Htot; [by rewrite Hm1|].
  by rewrite (memory_size_state _ _ Hm1).
Qed.

End thaw.

(** ** Theorems *)

(** C10: freezing and thawing. A kernel without sockets is frozen, and thawed
    over another one with a new instance of the module. If the thaw reports
    success, the thawed kernel has the very same snapshot (the same
    descriptors with the same contents, offsets and flags, event counters with
    their values, allocator, signal table, futex counts, environment), and its
    memory is the frozen one up to trailing zero pages: every byte it has is
    the frozen one, or zero past the frozen end, and a frozen byte it does not
    have was zero. The thaw does succeed when no descriptor is a file and the
    memory of the target can be grown as far as the frozen one reached. *)
Theorem freeze_thaw {W} `{Host W} `{Net W} `{SnapHost W} (k k0 : kern W) :
  kern_wf k → heap_wf (k_heap k0) → wasm_attached k → thaw_target k k0 →
  (∀ fd r, table (k_fds k) !! fd = Some r → no_socket r) →
  let '(r, k') := apply_snapshot (try_to_snapshot k) k0 in
  (r = SOk tt → try_to_snapshot k' = try_to_snapshot k ∧ memory_restored k (memory_size k0) k') ∧
  ((∀ fd r, table (k_fds k) !! fd = Some r → in_kernel r) → is_Some (k_memory k0) →
   (∀ w d, 0 < d → memory_size k0 + d * PAGE_SIZE_BYTES ≤ memory_size k → (memory_grow w (memory_size k0) d).1 = true) →
   r = SOk tt).
Proof.
  intros Hk Hh0 Hw Hf0 Hns. destruct (apply_snapshot _ k0) as [r k'] eqn:Ea. split.
  - intros ->. by eapply apply_refreezes.
  - intros Hin Hm Hg. by eapply apply_total.
Qed.

(** C31: the thawed kernel is a well-formed one. Thawing the snapshot of a
    well-formed kernel, sockets and files included, over a well-formed kernel
    keeps the kernel invariant: descriptors, shared objects, process state,
    and the linear memory after it was grown and the pages were copied in. So
    every theorem about runs applies to the restored kernel too. *)
Theorem thaw_wf {W} `{Host W} `{Net W} `{SnapHost W} `{!Memory32 (W:=W)} (k k0 k' : kern W) :
  kern_wf k → kern_wf k0 → apply_snapshot (try_to_snapshot k) k0 = (SOk tt, k') → kern_wf k'.
Proof.
  intros Hk Hk0. unfold apply_snapshot. rewrite try_to_snapshot_pages.
  destruct (apply_snapshot_kernel_state _ k0) as [[[]|e] k1] eqn:Ea; [|done]. intros Ed.
  eapply memory_apply_wf; [exact (state_thaw_wf _ _ _ _ Hk Hk0 Ea)| |exact Ed]. apply memory_pages_index.
Qed.


(** Snapshots are deterministic: the order in which the hash maps behind
    the descriptor table, the close-on-exec set and an epoll instance yield
    their entries does not show in them. *)
Theorem build_order_independent {W} `{SnapHost W} (k : kern W) it clo pages eit e :
  it ≡ₚ map_to_list (table (k_fds k)) → clo ≡ₚ elements (cloexec (k_fds k)) →
  eit ≡ₚ map_to_list (entries e) →
  build_iter k it clo pages = build_kernel_snapshot k pages ∧
  MkEpollSnap (snapshot_epoll_iter eit) (self_event_fd e) = snapshot_epoll e.
Proof.
  intros Hit Hclo Heit. split.
  - unfold build_kernel_snapshot, build_iter, snapshot_fds_iter.
    rewrite (sort_by_key_unique fst it (map_to_list (table (k_fds k)))) by
      (rewrite ?Hit; done || apply NoDup_fst_map_to_list).
    assert (sort_by Z.leb clo = sort_by Z.leb (elements (cloexec (k_fds k)))) as ->; [|done].
    apply (sort_by_key_unique id); [done|]. rewrite list_fmap_id, Hclo. apply NoDup_elements.
  - unfold snapshot_epoll, snapshot_epoll_iter. do 2 f_equal. apply (sort_by_key_unique fst).
    + by rewrite Heit.
    + rewrite <- list_fmap_compose, Heit. apply NoDup_fst_map_to_list.
Qed.

(** C33: the snapshot syscall, on every branch. It leaves the calling kernel
    as it was. When it returns a length, that is the length of the encoding of
    the kernel's snapshot, the encoding was written to the named file, and if
    that file reads back what was written, loading it gives the snapshot. A
    null path and a path whose 4096 bytes are not all in memory are [-EFAULT];
    a path that is not UTF-8, and a kernel whose memory is shared, [-EINVAL];
    a failure to encode or to write [-EIO]. (With a shared
    memory a negative path is [-EFAULT] too.) *)
Theorem snapshot_syscall_file {W} `{Host W} `{SnapHost W} `{Codec} `{!CodecLaws} (k : kern W) a :
  let '(r, k') := snapshot_syscall k a in
  k' = set_host k (k_host k') ∧
  ((a0 a ≠ 0 ∧ ∃ p bs, guest_str k (a0 a) 4096 = Ok p ∧ to_stdvec (try_to_snapshot k) = Some bs ∧
      r = Z.of_nat (length bs) ∧ fs_write (k_host k) (components p) bs = (IoOk tt, k_host k') ∧
      (reads_back (k_host k') (components p) bs →
       read_snapshot_file (k_host k') (components p) = SOk (try_to_snapshot k))) ∨
   (r = - EFAULT ∧ (a0 a = 0 ∨ ¬ in_memory k (a0 a) 4096 ∧
                      (0 ≤ a0 a < 2 ^ 63 → ∀ m, k_memory k ≠ Some (Shared m)))) ∨
   (r = - EINVAL ∧ a0 a ≠ 0 ∧
      ((∃ m, k_memory k = Some (Shared m)) ∨
       ∃ bs, guest_slice k (a0 a) 4096 = Ok bs ∧ utf8_valid (c_string bs) = false)) ∨
   (r = - EIO ∧ a0 a ≠ 0 ∧ ∃ p, guest_str k (a0 a) 4096 = Ok p ∧
      (to_stdvec (try_to_snapshot k) = None ∨
       ∃ bs e, to_stdvec (try_to_snapshot k) = Some bs ∧
         fs_write (k_host k) (components p) bs = (IoErr e, k_host k')))).
Proof.
  assert (k = set_host k (k_host k)) as Hid by by destruct k.
  unfold snapshot_syscall. destruct (a0 a =? 0) eqn:E0; to_prop; [split; [done|]; right; left; by split; [|left]|].
  destruct (guest_str k (a0 a) 4096) as [p|e] eqn:Ep.
  2: { apply guest_str_Err in Ep as [(-> & Hn & Hs)|[-> Hc]]; (split; [done|]); right; [left|right; left]; [|done].
       split; [done|]. right. split; [done|]. intros. by apply Hs. }
  unfold write_snapshot_file, encode_snapshot.
  destruct (to_stdvec (try_to_snapshot k)) as [bs|] eqn:Eb.
  2: { split; [done|]. do 3 right. split_and!; [done..|]. exists p. split; [done|by left]. }
  destruct (fs_write _ _ _) as [[[]|e] w] eqn:Ew; (split; [done|]).
  2: { do 3 right. split_and!; [done..|]. exists p. split; [done|]. right. by exists bs, e. }
  left. split; [done|]. exists p, bs. split_and!; [done..|].
  intros [He Hr]. unfold read_snapshot_file, decode_snapshot. simpl in *.
  rewrite He, Hr. simpl. by rewrite (from_to_bytes _ _ Eb).
Qed.

(** Inherited listeners. A thaw leaves the descriptor of an inherited
    listener unbound, and attaching the listener the caller holds binds it
    there and touches no other descriptor. *)
Theorem inherited_listener_restored {W} `{Host W} `{Net W} `{SnapHost W} (k k0 k1 : kern W) pages fd l loc :
  kern_wf k → heap_wf (k_heap k0) →
  table (k_fds k) !! fd = Some (RSocket l) → inherited (sock_at (k_heap k) l) = true →
  apply_snapshot_kernel_state (build_kernel_snapshot k pages) k0 = (SOk tt, k1) →
  table (k_fds k1) !! fd = None ∧
  table (k_fds (apply_snapshot_inherited_listeners (build_kernel_snapshot k pages) k1 [(fd, loc)])) =
    <[fd := RSocket loc]> (table (k_fds k1)).
Proof.
  intros Hk Hh0 Hl Hi Ha. apply apply_state_SOk in Ha as (k2 & Hr & ->).
  destruct (inherited_fds_elem k pages fd l Hl Hi) as (e & Hin & <- & Hie & Hfds).
  assert (fd_entries (sn_fds (build_kernel_snapshot k pages)) = frozen (k_heap k) (k_host k)
    (sort_by (λ a b, a.1 <=? b.1) (map_to_list (table (k_fds k))))) as He by done.
  rewrite He, frozen_sorted in Hr.
  assert (table (k_fds k2) !! fe_fd e = None) as Hn.
  { eapply restore_entries_skips; [|exact Hin|exact Hie| | | |exact Hr].
    - unfold frozen. rewrite <- list_fmap_compose. apply table_sorted_nodup.
    - done.
    - by apply restore_fields_heap.
    - apply frozen_table_ok, Hk. }
  split; [done|]. unfold apply_snapshot_inherited_listeners. cbn [foldl fst snd].
  rewrite bool_decide_true by done. unfold insert_at. simpl. rewrite bool_decide_false; [done|].
  rewrite Hn. by intros [? ?].
Qed.

(** ** Witnesses *)

(** A kernel with a pipe, its two descriptors written to guest memory. *)
Definition piped_kern : kern NullHost := (sys_pipe sample_kern (Args 64 0 0 0 0 0)).2.

Lemma piped_wf : kern_wf piped_kern.
Proof.
  eapply (sys_pipe_preserves sample_kern (Args 64 0 0 0 0 0)); [apply sample_kern_wf|apply surjective_pairing|].
  by vm_compute.
Qed.

Lemma sample_fresh k : thaw_target k sample_kern.
Proof.
  apply fresh_target.
  - intros mk [= <-]. exists 2. split; [lia|done|]. intros i [? Hi]. simpl in Hi. by rewrite lookup_empty in Hi.
  - intros i _. unfold memory_byte, read_byte. simpl. by rewrite lookup_empty.
Qed.

Lemma piped_wasm : wasm_attached piped_kern.
Proof.
  intros mk Hmk. exists 2. assert (Ok mk = memory_kind piped_kern) as Hc by done. vm_compute in Hc.
  injection Hc as ->. split; [lia|by vm_compute|]. intros i Hi. cbn [mem_of gm_size gm_bytes] in *.
  destruct Hi as [x Hi]. revert Hi.
  apply (map_Forall_lookup_1 (λ i _, 0 ≤ i < 131072)). apply (bool_decide_unpack _). by vm_compute.
Qed.

Lemma piped_plain fd r : table (k_fds piped_kern) !! fd = Some r → no_socket r.
Proof.
  apply (map_Forall_lookup_1 (λ _ r, no_socket r)).
  assert (bool_decide (map_Forall (λ _ r, match r with RSocket _ => false | _ => true end = true)
    (table (k_fds piped_kern))) = true) as Hb by by vm_compute.
  apply bool_decide_eq_true in Hb. eapply map_Forall_impl; [exact Hb|]. intros ? r'. by destruct r'.
Qed.

Lemma piped_in_kernel fd r : table (k_fds piped_kern) !! fd = Some r → in_kernel r.
Proof.
  apply (map_Forall_lookup_1 (λ _ r, in_kernel r)).
  assert (bool_decide (map_Forall (λ _ r, match r with RSocket _ | RFile _ => false | _ => true end = true)
    (table (k_fds piped_kern))) = true) as Hb by by vm_compute.
  apply bool_decide_eq_true in Hb. eapply map_Forall_impl; [exact Hb|]. intros ? r'. by destruct r'.
Qed.

Lemma freeze_thaw_witness :
  let '(r, k') := apply_snapshot (try_to_snapshot piped_kern) sample_kern in
  r = SOk tt ∧ try_to_snapshot k' = try_to_snapshot piped_kern ∧ memory_restored piped_kern (memory_size sample_kern) k'.
Proof.
  pose proof (freeze_thaw piped_kern sample_kern piped_wf (kw_heap _ sample_kern_wf) piped_wasm
    (sample_fresh _) piped_plain) as Hft.
  destruct (apply_snapshot (try_to_snapshot piped_kern) sample_kern) as [r k'].
  destruct Hft as [Hft Htot].
  assert (r = SOk tt) as Hr; [|split; [exact Hr|exact (Hft Hr)]]. apply Htot.
  - apply piped_in_kernel.
  - by eexists.
  - intros w d Hd Hle. exfalso. revert Hle. assert (memory_size piped_kern = 131072) as -> by by vm_compute.
    change (memory_size sample_kern) with 131072. unfold PAGE_SIZE_BYTES. lia.
Defined.

Lemma thaw_wf_witness : kern_wf (apply_snapshot (try_to_snapshot piped_kern) sample_kern).2.
Proof.
  apply (thaw_wf piped_kern sample_kern); [apply piped_wf|apply sample_kern_wf|].
  apply surjective_pairing_eq. by vm_compute.
Defined.



Definition two_interests : EpollInner :=
  MkEpoll (<[3 := MkEpollEntry 3 1 30 0]> {[9 := MkEpollEntry 9 4 90 0]}) 0 None.

Lemma build_order_independent_witness :
  build_iter piped_kern (reverse (map_to_list (table (k_fds piped_kern))))
    (elements (cloexec (k_fds piped_kern))) [] = build_kernel_snapshot piped_kern [] ∧
  MkEpollSnap (snapshot_epoll_iter (reverse (map_to_list (entries two_interests)))) None =
    snapshot_epoll two_interests.
Proof.
  apply (build_order_independent piped_kern _ (elements (cloexec (k_fds piped_kern))) [] _ two_interests).
  - apply reverse_Permutation.
  - done.
  - apply reverse_Permutation.
Defined.

(** A kernel over the host with one file, a path at address 64. *)
Definition disk_kern : kern OneFile :=
  mem_put (attach_memory (new_inner [] [] sample_vfs (replicate 32 0) (MkOneFile [] 0)) (zero_mem 131072))
    64 [102].

(** An encoding that knows that kernel's snapshot alone. *)
Definition one_codec : Codec :=
  {| to_stdvec s := if bool_decide (s = try_to_snapshot disk_kern) then Some [7; 7] else None;
     from_bytes bs := if bool_decide (bs = [7; 7]) then Some (try_to_snapshot disk_kern) else None |}.

Lemma one_codec_laws : @CodecLaws one_codec.
Proof. intros s bs. unfold to_stdvec, from_bytes. simpl. case_bool_decide as Hs; [|done]. by intros [= <-]; subst. Qed.

Lemma snapshot_syscall_file_witness :
  let '(r, k') := @snapshot_syscall _ one_file_snap one_codec disk_kern (Args 64 0 0 0 0 0) in
  r = 2 ∧ @read_snapshot_file _ one_file_snap one_codec (k_host k') (components [102]) =
    SOk (try_to_snapshot disk_kern).
Proof.
  pose proof (@snapshot_syscall_file _ _ one_file_snap one_codec one_codec_laws disk_kern
    (Args 64 0 0 0 0 0)) as Hs.
  assert ((@snapshot_syscall _ one_file_snap one_codec disk_kern (Args 64 0 0 0 0 0)).1 = 2) as Hr by by vm_compute.
  destruct (@snapshot_syscall _ one_file_snap one_codec disk_kern (Args 64 0 0 0 0 0)) as [r k']. simpl in Hr. subst r.
  destruct Hs as (_ & [(_ & p & bs & Hp & _ & _ & Hw & Hread)|[[? _]|[[? _]|[? _]]]]); [|done..]. split; [done|].
  assert (guest_str disk_kern 64 4096 = Ok [102]) as Hp' by by vm_compute. cbn [a0] in Hp.
  rewrite Hp' in Hp. injection Hp as <-. apply Hread. by injection Hw as <-.
Defined.

(** A kernel that was given a listener as descriptor 5. *)
Definition inheriting_kern : kern NullHost := (attach_inherited_listeners sample_kern [(5, 9)]).2.

Lemma inheriting_wf : kern_wf inheriting_kern.
Proof.
  apply attach_inherited_wf; [by intros w l a [= <-]|apply sample_kern_wf|].
  apply Forall_singleton. by vm_compute.
Qed.

Lemma inherited_listener_restored_witness :
  let s := build_kernel_snapshot inheriting_kern [] in
  let k1 := (apply_snapshot_kernel_state s sample_kern).2 in
  table (k_fds k1) !! 5 = None ∧
  table (k_fds (apply_snapshot_inherited_listeners s k1 [(5, 42)])) = <[5 := RSocket 42]> (table (k_fds k1)).
Proof.
  apply (inherited_listener_restored inheriting_kern sample_kern _ [] 5
    (match table (k_fds inheriting_kern) !! 5 with Some (RSocket l) => l | _ => 0 end) 42).
  - apply inheriting_wf.
  - apply (kw_heap _ sample_kern_wf).
  - by vm_compute.
  - by vm_compute.
  - apply surjective_pairing_eq. by vm_compute.
Defined.

(** ** Deviations *)

Definition pipe_loc (k : kern NullHost) (fd : Z) : option Z :=
  match table (k_fds k) !! fd with
  | Some (RPipeRead x) => Some (pr_pipe x)
  | Some (RPipeWrite x) => Some (pw_pipe x)
  | _ => None
  end.

(** The two ends of a pipe come back as two buffers: what is written after
    the thaw no longer reaches the reader. *)
Lemma thawed_pipe_ends_apart :
  let k' := (apply_snapshot (try_to_snapshot piped_kern) sample_kern).2 in
  pipe_loc piped_kern 3 = pipe_loc piped_kern 4 ∧ pipe_loc k' 3 ≠ pipe_loc k' 4.
Proof. vm_compute. done. Qed.

(** A page the frozen kernel had zeroed keeps what the target had there. *)
Lemma thaw_keeps_stale_page :
  let k0 := mem_put sample_kern 70000 [9] in
  let k' := (apply_snapshot (try_to_snapshot piped_kern) k0).2 in
  memory_byte piped_kern 70000 = 0 ∧ memory_byte k' 70000 = 9.
Proof. vm_compute. done. Qed.

(** The size of the memory is not recorded: trailing zero pages are lost. *)
Lemma thaw_loses_size :
  let k0 := attach_memory sample_kern (zero_mem 65536) in
  match memory (apply_snapshot (try_to_snapshot piped_kern) k0).2 with Ok m => gm_size m = 65536 | Err _ => False end ∧
  match memory piped_kern with Ok m => gm_size m = 131072 | Err _ => False end.
Proof. vm_compute. done. Qed.
