(* ===== verification/Dispatch.v ===== *)
(** * Dispatch (src/dispatch.rs)

    [kernel.syscall] looks its number up in the table of handlers and answers
    [-ENOSYS] to a number that is not there. What a syscall depends on besides
    the kernel state is in [runtime]: the schedules of the calls that sleep and
    the iteration orders of the hash maps. *)

From S2P Require Import Prelude Word Errno GuestMem Text Path Host Vfs Udp Fd Futex LinearAllocator Resolver Kernel Snapshot.
From S2P Require Import Net KernInv SysMemory SysPath SysEventfd SysFile SysFileInv SysSignal SysFutex SysProcess SysPoll SysEpoll SysMisc SysSocket SysSocketInv SysResolver SnapshotSpec.

(** ** Syscall numbers *)

Definition NR_EPOLL_CREATE1 : Z := 291.
Definition NR_EPOLL_CTL : Z := 233.
Definition NR_EPOLL_WAIT : Z := 232.
Definition NR_EPOLL_PWAIT : Z := 281.
Definition NR_EVENTFD2 : Z := 290.
Definition NR_EVENTFD : Z := 284.
Definition NR_READ : Z := 0.
Definition NR_WRITE : Z := 1.
Definition NR_OPEN : Z := 2.
Definition NR_OPENAT : Z := 257.
Definition NR_CLOSE : Z := 3.
Definition NR_STAT : Z := 4.
Definition NR_LSTAT : Z := 6.
Definition NR_LSEEK : Z := 8.
Definition NR_FSTAT : Z := 5.
Definition NR_NEWFSTATAT : Z := 262.
Definition NR_STATX : Z := 332.
Definition NR_GETDENTS64 : Z := 217.
Definition NR_PIPE : Z := 22.
Definition NR_PIPE2 : Z := 293.
Definition NR_FCNTL : Z := 72.
Definition NR_GETCWD : Z := 79.
Definition NR_READV : Z := 19.
Definition NR_WRITEV : Z := 20.
Definition NR_DUP : Z := 32.
Definition NR_DUP2 : Z := 33.
Definition NR_DUP3 : Z := 292.
Definition NR_MKDIR : Z := 83.
Definition NR_RMDIR : Z := 84.
Definition NR_UNLINK : Z := 87.
Definition NR_MKDIRAT : Z := 258.
Definition NR_UNLINKAT : Z := 263.
Definition NR_RENAME : Z := 82.
Definition NR_RENAMEAT : Z := 264.
Definition NR_RENAMEAT2 : Z := 316.
Definition NR_TRUNCATE : Z := 76.
Definition NR_FTRUNCATE : Z := 77.
Definition NR_READLINK : Z := 89.
Definition NR_READLINKAT : Z := 267.
Definition NR_SYMLINK : Z := 88.
Definition NR_SYMLINKAT : Z := 266.
Definition NR_LINK : Z := 86.
Definition NR_LINKAT : Z := 265.
Definition NR_UTIMENSAT : Z := 280.
Definition NR_CHMOD : Z := 90.
Definition NR_FCHMOD : Z := 91.
Definition NR_FCHMODAT : Z := 268.
Definition NR_FACCESSAT : Z := 269.
Definition NR_FACCESSAT2 : Z := 439.
Definition NR_CHDIR : Z := 80.
Definition NR_CHROOT : Z := 161.
Definition NR_FUTEX : Z := 202.
Definition NR_GETUID : Z := 102.
Definition NR_GETEUID : Z := 107.
Definition NR_GETGID : Z := 104.
Definition NR_GETEGID : Z := 108.
Definition NR_GETPPID : Z := 110.
Definition NR_UNAME : Z := 63.
Definition NR_PRLIMIT64 : Z := 302.
Definition NR_GETRLIMIT : Z := 97.
Definition NR_SETSID : Z := 112.
Definition NR_GETSID : Z := 124.
Definition NR_GETGROUPS : Z := 115.
Definition NR_IOCTL : Z := 16.
Definition NR_MMAP : Z := 9.
Definition NR_MUNMAP : Z := 11.
Definition NR_MPROTECT : Z := 10.
Definition NR_MADVISE : Z := 28.
Definition NR_BRK : Z := 12.
Definition NR_MREMAP : Z := 25.
Definition NR_POLL : Z := 7.
Definition NR_PPOLL : Z := 271.
Definition NR_SELECT : Z := 23.
Definition NR_EXIT : Z := 60.
Definition NR_EXIT_GROUP : Z := 231.
Definition NR_GETPID : Z := 39.
Definition NR_GETTID : Z := 186.
Definition NR_SET_TID_ADDRESS : Z := 218.
Definition NR_SET_ROBUST_LIST : Z := 273.
Definition NR_ARCH_PRCTL : Z := 158.
Definition NR_RSEQ : Z := 334.
Definition NR_SCHED_YIELD : Z := 24.
Definition NR_SCHED_GETAFFINITY : Z := 204.
Definition NR_PRCTL : Z := 157.
Definition NR_KILL : Z := 62.
Definition NR_TGKILL : Z := 234.
Definition NR_CLONE : Z := 56.
Definition NR_FORK : Z := 57.
Definition NR_WAIT4 : Z := 61.
Definition NR_SNAPSHOT : Z := 123.
Definition NR_GETRANDOM : Z := 318.
Definition NR_RESOLVE : Z := 400.
Definition NR_RT_SIGACTION : Z := 13.
Definition NR_RT_SIGPROCMASK : Z := 14.
Definition NR_SIGALTSTACK : Z := 131.
Definition NR_RT_SIGRETURN : Z := 15.
Definition NR_SOCKET : Z := 41.
Definition NR_BIND : Z := 49.
Definition NR_LISTEN : Z := 50.
Definition NR_SETSOCKOPT : Z := 54.
Definition NR_GETSOCKOPT : Z := 55.
Definition NR_GETSOCKNAME : Z := 51.
Definition NR_GETPEERNAME : Z := 52.
Definition NR_SHUTDOWN : Z := 48.
Definition NR_ACCEPT : Z := 43.
Definition NR_ACCEPT4 : Z := 288.
Definition NR_CONNECT : Z := 42.
Definition NR_SENDTO : Z := 44.
Definition NR_RECVFROM : Z := 45.
Definition NR_SENDMSG : Z := 46.
Definition NR_RECVMSG : Z := 47.
Definition NR_SOCKETPAIR : Z := 53.
Definition NR_CLOCK_GETTIME : Z := 228.
Definition NR_GETTIMEOFDAY : Z := 96.
Definition NR_NANOSLEEP : Z := 35.
Definition NR_CLOCK_GETRES : Z := 229.
Definition NR_CLOCK_NANOSLEEP : Z := 230.
Definition NR_SYSINFO : Z := 99.
Definition NR_TIMES : Z := 100.

(** ** The table *)

Record runtime (W : Type) := MkRuntime {
  cache_order : gmap bytes CacheEntry → list (bytes * CacheEntry);
  child_order : gmap Z ChildExitStatus → list (Z * ChildExitStatus);
  epoll_order : gmap Z EpollEntry → list EpollEntry;
  futex_park : kern W → Z → option Z → option (wakeup * kern W);
  wait_schedule : list (kern W → kern W);
  poll_schedule : list (timer * (kern W → kern W));
  epoll_park : option (kern W → kern W);
  sleep : Z → kern W → kern W;
  net_park : kern W → kern W;
}.
Arguments net_park {W}. Arguments cache_order {W}.
Arguments child_order {W}. Arguments epoll_order {W}. Arguments futex_park {W}.
Arguments wait_schedule {W}. Arguments poll_schedule {W}. Arguments epoll_park {W}. Arguments sleep {W}.

Section dispatch.
Context {W : Type} `{Host W} `{Net W} `{Dns W} `{SnapHost W} `{Codec}.
Implicit Types k : kern W.
Implicit Types rt : runtime W.

Abbreviation handler := (kern W → args → outcome (Z * kern W)).

(** A handler that always returns. *)
Definition pure (h : kern W → args → Z * kern W) : handler := λ k a, Return (h k a).

(** A handler that only reports a value. *)
Definition returns (v : Z) : handler := λ k _, Return (v, k).

Definition handlers rt : list (Z * handler) :=
  [ (NR_EXIT, pure (SysProcess.exit (child_order rt)));
    (NR_EXIT_GROUP, pure (SysProcess.exit_group (child_order rt)));
    (NR_GETPID, pure SysProcess.getpid);
    (NR_GETTID, pure SysProcess.gettid);
    (NR_SET_TID_ADDRESS, pure SysProcess.set_tid_address);
    (NR_SET_ROBUST_LIST, returns SysProcess.set_robust_list);
    (NR_ARCH_PRCTL, returns (- ENOSYS));
    (NR_RSEQ, returns (- ENOSYS));
    (NR_MMAP, pure SysMemory.mmap);
    (NR_MUNMAP, pure SysMemory.munmap);
    (NR_MPROTECT, returns SysMemory.mprotect);
    (NR_MADVISE, returns SysMemory.madvise);
    (NR_BRK, λ k a, Return (SysMemory.brk k a, k));
    (NR_READ, pure (SysFile.read (SysSocket.recvfrom (net_park rt))));
    (NR_WRITE, pure (SysFile.write (SysSocket.sendto (net_park rt))));
    (NR_OPEN, pure SysFile.open);
    (NR_OPENAT, pure SysFile.openat);
    (NR_CLOSE, pure SysFile.close);
    (NR_STAT, pure SysFile.stat);
    (NR_LSTAT, pure SysFile.lstat);
    (NR_LSEEK, pure SysFile.lseek);
    (NR_FSTAT, pure SysFile.fstat);
    (NR_NEWFSTATAT, pure SysFile.newfstatat);
    (NR_STATX, pure SysFile.statx);
    (NR_GETDENTS64, pure SysFile.getdents64);
    (NR_PIPE, pure SysFile.sys_pipe);
    (NR_PIPE2, pure SysFile.pipe2);
    (NR_FCNTL, SysFile.fcntl);
    (NR_DUP, SysFile.dup);
    (NR_DUP2, SysFile.dup2);
    (NR_DUP3, SysFile.dup3);
    (NR_GETCWD, pure SysFile.getcwd);
    (NR_READV, pure (SysFile.readv (SysSocket.recvfrom (net_park rt))));
    (NR_WRITEV, pure (SysFile.writev (SysSocket.sendto (net_park rt))));
    (NR_MKDIR, pure SysFile.mkdir);
    (NR_MKDIRAT, pure SysFile.mkdirat);
    (NR_RMDIR, pure SysFile.rmdir);
    (NR_UNLINK, pure SysFile.unlink);
    (NR_UNLINKAT, pure SysFile.unlinkat);
    (NR_RENAME, pure SysFile.rename);
    (NR_RENAMEAT, pure SysFile.renameat);
    (NR_RENAMEAT2, pure SysFile.renameat2);
    (NR_TRUNCATE, pure SysFile.truncate);
    (NR_FTRUNCATE, pure SysFile.ftruncate);
    (NR_READLINK, pure SysFile.readlink);
    (NR_READLINKAT, pure SysFile.readlinkat);
    (NR_SYMLINK, pure SysFile.symlink);
    (NR_SYMLINKAT, pure SysFile.symlinkat);
    (NR_LINK, pure SysFile.link);
    (NR_LINKAT, pure SysFile.linkat);
    (NR_UTIMENSAT, SysFile.utimensat);
    (NR_CHMOD, pure SysFile.chmod);
    (NR_FCHMOD, pure SysFile.fchmod);
    (NR_FCHMODAT, pure SysFile.fchmodat);
    (NR_FACCESSAT, pure SysFile.faccessat);
    (NR_FACCESSAT2, pure SysFile.faccessat2);
    (NR_CHDIR, pure SysFile.chdir);
    (NR_CHROOT, pure SysFile.chroot);
    (NR_SOCKET, pure SysSocket.socket);
    (NR_BIND, pure SysSocket.bind);
    (NR_LISTEN, pure SysSocket.listen);
    (NR_ACCEPT, SysSocket.accept (net_park rt));
    (NR_ACCEPT4, SysSocket.accept4 (net_park rt));
    (NR_CONNECT, pure (SysSocket.connect (net_park rt)));
    (NR_SENDTO, pure (SysSocket.sendto (net_park rt)));
    (NR_RECVFROM, pure (SysSocket.recvfrom (net_park rt)));
    (NR_SENDMSG, pure (SysSocket.sendmsg (net_park rt)));
    (NR_RECVMSG, pure (SysSocket.recvmsg (net_park rt)));
    (NR_SETSOCKOPT, pure SysSocket.setsockopt);
    (NR_GETSOCKOPT, pure SysSocket.getsockopt);
    (NR_GETSOCKNAME, SysSocket.getsockname);
    (NR_GETPEERNAME, SysSocket.getpeername);
    (NR_SHUTDOWN, pure (SysSocket.shutdown (net_park rt)));
    (NR_SOCKETPAIR, pure SysSocket.socketpair);
    (NR_POLL, SysPoll.poll (poll_schedule rt));
    (NR_PPOLL, SysPoll.ppoll (poll_schedule rt));
    (NR_SELECT, SysPoll.select (poll_schedule rt));
    (NR_EPOLL_CREATE1, pure SysEpoll.epoll_create1);
    (NR_EPOLL_CTL, pure SysEpoll.epoll_ctl);
    (NR_EPOLL_WAIT, SysEpoll.epoll_wait (epoll_order rt) (epoll_park rt));
    (NR_EPOLL_PWAIT, SysEpoll.epoll_pwait (epoll_order rt) (epoll_park rt));
    (NR_EVENTFD2, pure SysEventfd.eventfd2);
    (NR_EVENTFD, pure SysEventfd.eventfd);
    (NR_GETUID, returns SysMisc.getuid);
    (NR_GETEUID, returns SysMisc.geteuid);
    (NR_GETGID, returns SysMisc.getgid);
    (NR_GETEGID, returns SysMisc.getegid);
    (NR_GETPPID, returns SysMisc.getppid);
    (NR_UNAME, pure SysMisc.uname);
    (NR_PRLIMIT64, pure SysMisc.prlimit64);
    (NR_GETRLIMIT, pure SysMisc.getrlimit);
    (NR_SETSID, returns SysMisc.setsid);
    (NR_GETSID, returns SysMisc.getsid);
    (NR_GETGROUPS, pure SysMisc.getgroups);
    (NR_SCHED_YIELD, returns SysProcess.sched_yield);
    (NR_SCHED_GETAFFINITY, pure SysProcess.sched_getaffinity);
    (NR_PRCTL, pure SysProcess.prctl);
    (NR_KILL, pure SysProcess.kill);
    (NR_TGKILL, pure SysProcess.tgkill);
    (NR_SIGALTSTACK, pure SysSignal.sigaltstack);
    (NR_RT_SIGRETURN, returns SysSignal.rt_sigreturn);
    (NR_CLOCK_GETRES, pure SysMisc.clock_getres);
    (NR_CLOCK_NANOSLEEP, pure (SysMisc.clock_nanosleep (sleep rt)));
    (NR_SYSINFO, pure SysMisc.sysinfo);
    (NR_TIMES, pure SysMisc.times);
    (NR_CLONE, pure SysProcess.clone_syscall);
    (NR_FORK, pure SysProcess.fork_syscall);
    (NR_WAIT4, SysProcess.wait4_syscall (child_order rt) (wait_schedule rt));
    (NR_FUTEX, SysFutex.futex (futex_park rt));
    (NR_SNAPSHOT, pure Snapshot.snapshot_syscall);
    (NR_RESOLVE, SysResolver.resolve (net_park rt) (cache_order rt));
    (NR_MREMAP, pure SysMemory.mremap);
    (NR_IOCTL, pure SysMisc.ioctl);
    (NR_CLOCK_GETTIME, pure SysMisc.clock_gettime);
    (NR_GETTIMEOFDAY, pure SysMisc.gettimeofday);
    (NR_NANOSLEEP, pure (SysMisc.nanosleep (sleep rt)));
    (NR_GETRANDOM, pure SysMisc.getrandom);
    (NR_RT_SIGACTION, pure SysSignal.rt_sigaction);
    (NR_RT_SIGPROCMASK, pure SysSignal.rt_sigprocmask) ].

Fixpoint find_handler (nr : Z) (l : list (Z * handler)) : option handler :=
  match l with
  | [] => None
  | (n, h) :: l => if nr =? n then Some h else find_handler nr l
  end.

(** The number arrives as an [i64] and is cast to [u32]. *)
Definition dispatch rt (nr : Z) k (a : args) : outcome (Z * kern W) :=
  match find_handler (as_u32 nr) (handlers rt) with
  | Some h => h k a
  | None => Return (- ENOSYS, k)
  end.

End dispatch.

(** ** Names *)

Definition syscall_names : list (Z * string) :=
  [ (NR_EXIT, "exit"%string);
    (NR_EXIT_GROUP, "exit_group"%string);
    (NR_GETPID, "getpid"%string);
    (NR_GETTID, "gettid"%string);
    (NR_SET_TID_ADDRESS, "set_tid_address"%string);
    (NR_SET_ROBUST_LIST, "set_robust_list"%string);
    (NR_ARCH_PRCTL, "arch_prctl"%string);
    (NR_RSEQ, "rseq"%string);
    (NR_MMAP, "mmap"%string);
    (NR_MUNMAP, "munmap"%string);
    (NR_MPROTECT, "mprotect"%string);
    (NR_MADVISE, "madvise"%string);
    (NR_BRK, "brk"%string);
    (NR_READ, "read"%string);
    (NR_WRITE, "write"%string);
    (NR_OPEN, "open"%string);
    (NR_OPENAT, "openat"%string);
    (NR_CLOSE, "close"%string);
    (NR_STAT, "stat"%string);
    (NR_LSTAT, "lstat"%string);
    (NR_LSEEK, "lseek"%string);
    (NR_FSTAT, "fstat"%string);
    (NR_NEWFSTATAT, "newfstatat"%string);
    (NR_STATX, "statx"%string);
    (NR_GETDENTS64, "getdents64"%string);
    (NR_PIPE, "pipe"%string);
    (NR_PIPE2, "pipe2"%string);
    (NR_FCNTL, "fcntl"%string);
    (NR_DUP, "dup"%string);
    (NR_DUP2, "dup2"%string);
    (NR_DUP3, "dup3"%string);
    (NR_GETCWD, "getcwd"%string);
    (NR_READV, "readv"%string);
    (NR_WRITEV, "writev"%string);
    (NR_MKDIR, "mkdir"%string);
    (NR_MKDIRAT, "mkdirat"%string);
    (NR_RMDIR, "rmdir"%string);
    (NR_UNLINK, "unlink"%string);
    (NR_UNLINKAT, "unlinkat"%string);
    (NR_RENAME, "rename"%string);
    (NR_RENAMEAT, "renameat"%string);
    (NR_RENAMEAT2, "renameat2"%string);
    (NR_TRUNCATE, "truncate"%string);
    (NR_FTRUNCATE, "ftruncate"%string);
    (NR_READLINK, "readlink"%string);
    (NR_READLINKAT, "readlinkat"%string);
    (NR_SYMLINK, "symlink"%string);
    (NR_SYMLINKAT, "symlinkat"%string);
    (NR_LINK, "link"%string);
    (NR_LINKAT, "linkat"%string);
    (NR_UTIMENSAT, "utimensat"%string);
    (NR_CHMOD, "chmod"%string);
    (NR_FCHMOD, "fchmod"%string);
    (NR_FCHMODAT, "fchmodat"%string);
    (NR_FACCESSAT, "faccessat"%string);
    (NR_FACCESSAT2, "faccessat2"%string);
    (NR_CHDIR, "chdir"%string);
    (NR_CHROOT, "chroot"%string);
    (NR_SOCKET, "socket"%string);
    (NR_BIND, "bind"%string);
    (NR_LISTEN, "listen"%string);
    (NR_ACCEPT, "accept"%string);
    (NR_ACCEPT4, "accept4"%string);
    (NR_CONNECT, "connect"%string);
    (NR_SENDTO, "sendto"%string);
    (NR_RECVFROM, "recvfrom"%string);
    (NR_SENDMSG, "sendmsg"%string);
    (NR_RECVMSG, "recvmsg"%string);
    (NR_SETSOCKOPT, "setsockopt"%string);
    (NR_GETSOCKOPT, "getsockopt"%string);
    (NR_GETSOCKNAME, "getsockname"%string);
    (NR_GETPEERNAME, "getpeername"%string);
    (NR_SHUTDOWN, "shutdown"%string);
    (NR_SOCKETPAIR, "socketpair"%string);
    (NR_POLL, "poll"%string);
    (NR_PPOLL, "ppoll"%string);
    (NR_SELECT, "select"%string);
    (NR_EPOLL_CREATE1, "epoll_create1"%string);
    (NR_EPOLL_CTL, "epoll_ctl"%string);
    (NR_EPOLL_WAIT, "epoll_wait"%string);
    (NR_EPOLL_PWAIT, "epoll_pwait"%string);
    (NR_EVENTFD2, "eventfd2"%string);
    (NR_EVENTFD, "eventfd"%string);
    (NR_GETUID, "getuid"%string);
    (NR_GETEUID, "geteuid"%string);
    (NR_GETGID, "getgid"%string);
    (NR_GETEGID, "getegid"%string);
    (NR_GETPPID, "getppid"%string);
    (NR_UNAME, "uname"%string);
    (NR_PRLIMIT64, "prlimit64"%string);
    (NR_GETRLIMIT, "getrlimit"%string);
    (NR_SETSID, "setsid"%string);
    (NR_GETSID, "getsid"%string);
    (NR_GETGROUPS, "getgroups"%string);
    (NR_SCHED_YIELD, "sched_yield"%string);
    (NR_SCHED_GETAFFINITY, "sched_getaffinity"%string);
    (NR_PRCTL, "prctl"%string);
    (NR_KILL, "kill"%string);
    (NR_TGKILL, "tgkill"%string);
    (NR_SIGALTSTACK, "sigaltstack"%string);
    (NR_RT_SIGRETURN, "rt_sigreturn"%string);
    (NR_CLOCK_GETRES, "clock_getres"%string);
    (NR_CLOCK_NANOSLEEP, "clock_nanosleep"%string);
    (NR_MREMAP, "mremap"%string);
    (NR_IOCTL, "ioctl"%string);
    (NR_CLOCK_GETTIME, "clock_gettime"%string);
    (NR_GETTIMEOFDAY, "gettimeofday"%string);
    (NR_NANOSLEEP, "nanosleep"%string);
    (NR_SYSINFO, "sysinfo"%string);
    (NR_TIMES, "times"%string);
    (NR_CLONE, "clone"%string);
    (NR_FORK, "fork"%string);
    (NR_WAIT4, "wait4"%string);
    (NR_FUTEX, "futex"%string);
    (NR_SNAPSHOT, "snapshot"%string);
    (NR_RESOLVE, "resolve"%string);
    (NR_GETRANDOM, "getrandom"%string);
    (NR_RT_SIGACTION, "rt_sigaction"%string);
    (NR_RT_SIGPROCMASK, "rt_sigprocmask"%string) ].

Fixpoint find_name (nr : Z) (l : list (Z * string)) : string :=
  match l with
  | [] => "?"%string
  | (n, s) :: l => if nr =? n then s else find_name nr l
  end.

Definition syscall_name (nr : Z) : string := find_name nr syscall_names.

(** ** Facts about the table *)

Lemma find_handler_None {W} nr (l : list (Z * (kern W → args → outcome (Z * kern W)))) :
  find_handler nr l = None ↔ nr ∉ fst <$> l.
Proof.
  induction l as [|[n h] l IH]; simpl; [split; [|done]; intros _ []%elem_of_nil|].
  rewrite not_elem_of_cons. destruct (nr =? n) eqn:E; to_prop; [naive_solver|]. rewrite IH. naive_solver.
Qed.

Lemma find_handler_elem {W} nr (l : list (Z * (kern W → args → outcome (Z * kern W)))) h :
  find_handler nr l = Some h → (nr, h) ∈ l.
Proof.
  induction l as [|[n g] l IH]; simpl; [done|]. destruct (nr =? n) eqn:E; to_prop.
  - intros [= <-]. subst. left.
  - intros Hf. right. by apply IH.
Qed.

Lemma find_name_None nr l :
  Forall (λ e, e.2 ≠ "?"%string) l → find_name nr l = "?"%string ↔ nr ∉ fst <$> l.
Proof.
  induction 1 as [|[n s] l Hs Hl IH]; simpl; [split; [|done]; intros _ []%elem_of_nil|].
  rewrite not_elem_of_cons. destruct (nr =? n) eqn:E; to_prop; [naive_solver|]. rewrite IH. naive_solver.
Qed.

(** ** The kernel invariant *)

(** What a runtime may do: keep the invariant while a call sleeps. *)
Record runtime_ok {W} (rt : runtime W) : Prop := {
  ro_cache c : cache_order rt c ≡ₚ map_to_list c;
  ro_futex k n d ev k' : kern_wf k → futex_park rt k n d = Some (ev, k') → kern_wf k';
  ro_wait : Forall (λ f, ∀ k, kern_wf k → kern_wf (f k)) (wait_schedule rt);
  ro_poll : Forall (λ s, ∀ k, kern_wf k → kern_wf (s.2 k)) (poll_schedule rt);
  ro_epoll f : epoll_park rt = Some f → ∀ k, kern_wf k → kern_wf (f k);
  ro_sleep n k : kern_wf k → kern_wf (sleep rt n k);
  ro_net k : kern_wf k → kern_wf (net_park rt k);
}.

Section invariant.
Context {W : Type} `{Host W} `{Net W} `{Dns W} `{SnapHost W} `{Codec}.
Context `{!HostLaws W} `{!NetLaws W} `{!DnsLaws W} `{!Memory32 (W:=W)}.
Implicit Types k : kern W.
Implicit Types rt : runtime W.

Lemma pure_preserves (h : kern W → args → Z * kern W) : PreservesFd h → PreservesOut (pure h).
Proof. intros Hh k a r k' Hk Hr Hn. injection Hr as Hr. by eapply Hh. Qed.

Lemma pure_preserves' (h : kern W → args → Z * kern W) : Preserves h → PreservesOut (pure h).
Proof. intros Hh. by apply pure_preserves, preserves_fd_of. Qed.

Lemma returns_preserves v : PreservesOut (returns (W:=W) v).
Proof. by intros k a r k' Hk [= <- <-] _. Qed.

Lemma brk_preserves : PreservesOut (λ k a, Return (SysMemory.brk (W:=W) k a, k)).
Proof. by intros k a r k' Hk [= <- <-] _. Qed.

(** One entry of the table, by the shape of its handler. *)
Ltac preserves_entry :=
  lazymatch goal with
  | |- PreservesOut (returns _) => apply returns_preserves
  | |- PreservesOut (pure (SysMisc.clock_nanosleep _)) => apply pure_preserves'; by apply clock_nanosleep_preserves
  | |- PreservesOut (pure (SysMisc.nanosleep _)) => apply pure_preserves'; by apply nanosleep_preserves
  | |- PreservesOut (pure (SysSocket.connect _)) => apply pure_preserves'; by apply connect_preserves
  | |- PreservesOut (pure (SysSocket.sendmsg _)) => apply pure_preserves'; by apply sendmsg_preserves
  | |- PreservesOut (pure (SysSocket.recvmsg _)) => apply pure_preserves'; by apply recvmsg_preserves
  | |- PreservesOut (pure (SysSocket.shutdown _)) => apply pure_preserves'; by apply shutdown_preserves
  | |- PreservesOut (SysResolver.resolve _ _) => by apply resolve_preserves
  | |- PreservesOut (SysSocket.accept _) => by apply accept_preserves
  | |- PreservesOut (SysSocket.accept4 _) => by apply accept4_preserves
  | |- PreservesOut (pure _) =>
    first [ apply pure_preserves'; solve [auto|typeclasses eauto]
          | apply pure_preserves; typeclasses eauto ]
  | |- PreservesOut (SysPoll.poll _) => by apply poll_preserves
  | |- PreservesOut (SysPoll.ppoll _) => by apply ppoll_preserves
  | |- PreservesOut (SysPoll.select _) => by apply select_preserves
  | |- PreservesOut (SysEpoll.epoll_wait _ _) => by apply epoll_wait_preserves
  | |- PreservesOut (SysEpoll.epoll_pwait _ _) => by apply epoll_pwait_preserves
  | |- PreservesOut (SysProcess.wait4_syscall _ _) => by apply wait4_preserves
  | |- PreservesOut (SysFutex.futex _) => by apply futex_preserves
  | |- _ => first [apply brk_preserves | typeclasses eauto]
  end.

#[local] Hint Constants Opaque : typeclass_instances.

(** Every handler of the table. *)
Lemma handlers_preserve rt : runtime_ok rt → Forall (λ e, PreservesOut e.2) (handlers rt).
Proof using All.
  intros [Hc Hf Hw Hp He Hsl Hnet]. pose proof (recvfrom_preserves _ Hnet).
  pose proof (sendto_preserves _ Hnet). unfold handlers.
  repeat apply Forall_cons_2; [..|apply Forall_nil_2]; cbn [snd]; preserves_entry.
Qed.

Lemma dispatch_wf rt nr k a r k' :
  runtime_ok rt → kern_wf k → dispatch rt nr k a = Return (r, k') → 3 ≤ next_fd (k_fds k') → kern_wf k'.
Proof using All.
  intros Hrt Hk. unfold dispatch. destruct (find_handler _ _) as [h|] eqn:E; [|by intros [= <- <-]].
  apply find_handler_elem in E. pose proof (handlers_preserve rt Hrt) as Hall.
  rewrite Forall_forall in Hall. specialize (Hall _ E). simpl in Hall. by eapply Hall.
Qed.

(** A guest run: syscalls, each under a runtime of its own. *)
Inductive sys_step : kern W → kern W → Prop :=
  | sys_call rt nr k a r k' :
      runtime_ok rt → dispatch rt nr k a = Return (r, k') → 3 ≤ next_fd (k_fds k') → sys_step k k'.

Lemma sys_steps_wf k k' : rtc sys_step k k' → kern_wf k → kern_wf k'.
Proof using All. induction 1 as [|? ? ? [rt nr k a r k1 Hrt Hd Hn]]; [done|]. eauto using dispatch_wf. Qed.

End invariant.

(** ** Theorems *)

(** C1: the kernel invariant holds in every run. Starting from a new kernel
    over well-formed memory and directories, after any sequence of syscalls
    with any numbers and arguments, under any interleaving with other threads
    that keep the invariant, guest memory holds nothing outside its bounds,
    every descriptor is below [next_fd] and stands for an object that exists,
    the working directory is inside the root, the resolver's cache within its
    cap, the waiter counts and child ids within their widths, the thread name
    16 bytes, socket names of their sizes and the allocator's mark a [u32];
    until [next_fd] has wrapped. *)
Theorem every_run_wf {W} `{Host W} `{Net W} `{Dns W} `{SnapHost W} `{Codec}
    `{!HostLaws W} `{!NetLaws W} `{!DnsLaws W} `{!Memory32 (W:=W)}
    arguments env v seed (w : W) m (k : kern W) :
  vfs_wf v → mem_bounds m →
  rtc sys_step (attach_memory (new_inner arguments env v seed w) m) k → kern_wf k.
Proof. intros Hv Hm Hs. eapply sys_steps_wf; [done|]. by apply new_inner_wf. Qed.

(** The dispatch table. No number is listed twice, so no handler is
    shadowed; the numbers with a handler are exactly those with a name, and
    any other number is answered with [-ENOSYS] and no effect. *)
Theorem dispatch_table {W} `{Host W} `{Net W} `{Dns W} `{SnapHost W} `{Codec} (rt : runtime W) nr k a :
  NoDup (fst <$> handlers rt) ∧
  (find_handler nr (handlers rt) = None ↔ syscall_name nr = "?"%string) ∧
  (syscall_name (as_u32 nr) = "?"%string → dispatch rt nr k a = Return (- ENOSYS, k)).
Proof.
  assert (∀ n, n ∈ fst <$> handlers rt ↔ n ∈ fst <$> syscall_names) as Hsame.
  { assert (fst <$> handlers rt ≡ₚ fst <$> syscall_names) as Hp; [|intros n; by rewrite Hp].
    apply (bool_decide_unpack _). vm_compute. exact I. }
  assert (∀ n, syscall_name n = "?"%string ↔ n ∉ fst <$> syscall_names) as Hname.
  { intros n. apply find_name_None. apply (bool_decide_unpack _). vm_compute. exact I. }
  assert (∀ n, find_handler n (handlers rt) = None ↔ syscall_name n = "?"%string) as Hiff.
  { intros n. by rewrite find_handler_None, Hname, Hsame. }
  split_and!; [|apply Hiff|].
  - apply (bool_decide_unpack _). vm_compute. exact I.
  - intros Hn. unfold dispatch. by rewrite (proj2 (Hiff _) Hn).
Qed.

(** ** Witnesses *)

#[local] Instance null_dns : Dns NullHost := no_dns NullHost.
#[local] Instance null_dns_laws : DnsLaws NullHost := no_dns_laws NullHost.
#[local] Instance null_codec : Codec := {| to_stdvec _ := None; from_bytes _ := None |}.

(** No other thread, no sockets. *)
Definition quiet : runtime NullHost :=
  {| cache_order := map_to_list; child_order := map_to_list;
     epoll_order m := (map_to_list m).*2; futex_park _ _ _ := None; wait_schedule := [];
     poll_schedule := []; epoll_park := None; sleep _ k := k; net_park k := k |}.

Lemma quiet_ok : runtime_ok quiet.
Proof. by split. Qed.

Definition after (nr : Z) (a : args) (k : kern NullHost) : kern NullHost :=
  match dispatch quiet nr k a with Return (_, k') => k' | _ => k end.

Lemma after_step nr a k :
  match dispatch quiet nr k a with Return _ => true | _ => false end = true →
  3 ≤ next_fd (k_fds (after nr a k)) → sys_step k (after nr a k).
Proof.
  unfold after. destruct (dispatch quiet nr k a) as [[r k']| |] eqn:E; [|done|done]. intros _ Hn.
  by eapply sys_call; [apply quiet_ok|exact E|].
Qed.

(** A pipe, then anonymous memory, then a duplicated descriptor. *)
Definition run1 : kern NullHost := after NR_PIPE2 (Args 64 0 0 0 0 0) sample_kern.
Definition run2 : kern NullHost := after NR_MMAP (Args 0 64 3 34 (-1) 0) run1.
Definition run3 : kern NullHost := after NR_DUP (Args 3 0 0 0 0 0) run2.

Lemma every_run_wf_witness : kern_wf run3.
Proof.
  apply (every_run_wf [] [] sample_vfs (replicate 32 0) tt (zero_mem 131072) run3).
  - apply sample_vfs_wf.
  - split; [simpl; lia|]. intros i [x Hi]. simpl in Hi. by rewrite lookup_empty in Hi.
  - unfold run3, run2, run1, sample_kern.
    eapply rtc_l; [apply (after_step NR_PIPE2 (Args 64 0 0 0 0 0)); [vm_compute; reflexivity|by vm_compute]|].
    eapply rtc_l; [apply (after_step NR_MMAP (Args 0 64 3 34 (-1) 0)); [vm_compute; reflexivity|by vm_compute]|].
    eapply rtc_l; [apply (after_step NR_DUP (Args 3 0 0 0 0 0)); [vm_compute; reflexivity|by vm_compute]|].
    apply rtc_refl.
Defined.
