(* ===== verification/Confine.v ===== *)
(** * Hosts that refuse (the sandbox)

    The host of Host.v, Net.v and Snapshot.v, cut down to a directory:
    [confine], [confine_net] and [confine_snap] answer every call on a path
    outside it with a permission error and pass the rest on. Every entry of the
    dispatch table answers over such a host as over the full one, in a kernel
    that knows no path outside ([conf]), but for the calls that hand a path of
    the guest to the host as it is ([unconfined]). *)

From S2P Require Import Prelude Word Errno GuestMem Text Parse Path Host Vfs Udp Net Fd Sock Futex LinearAllocator Resolver Kernel Snapshot.
From S2P Require Import KernInv SysMemory SysPath SysEventfd SysFile SysFileInv SysSignal SysFutex SysProcess SysPoll SysEpoll SysMisc SysSocket SysSocketInv SysResolver Dispatch.

(** ** A host that refuses *)

Definition inside (root p : path) : bool := bool_decide (root `prefix_of` p).

Section confine.
Context {W : Type} (root : path).

(** A call on a path, answered only inside the root. *)
Definition guard {A} (p : path) (r : io A) : io A := if inside root p then r else IoErr PermissionDenied.
Definition guard_st {A} (w : W) (p : path) (r : io A * W) : io A * W :=
  if inside root p then r else (IoErr PermissionDenied, w).
Definition guard_net {A} (w : W) (p : bytes) (r : net A * W) : net A * W :=
  if inside root (components p) then r else (NetErr NetPermissionDenied, w).

Definition confine (H : Host W) : Host W := {|
  fs_canonicalize w p := guard p (fs_canonicalize w p);
  fs_metadata w p := guard p (fs_metadata w p);
  fs_symlink_metadata w p := guard p (fs_symlink_metadata w p);
  fs_read_dir w p := guard p (fs_read_dir w p);
  fs_open w o p := guard_st w p (fs_open w o p);
  fs_create_dir w p := guard_st w p (fs_create_dir w p);
  fs_remove_dir w p := guard_st w p (fs_remove_dir w p);
  fs_remove_file w p := guard_st w p (fs_remove_file w p);
  fs_rename w p q := guard_st w p (guard_st w q (fs_rename w p q));
  fs_read_link w p := guard p (fs_read_link w p);
  fs_symlink w t p := guard_st w p (fs_symlink w t p);
  fs_hard_link w p q := guard_st w p (guard_st w q (fs_hard_link w p q));
  fs_set_permissions w p m := guard_st w p (fs_set_permissions w p m);
  file_metadata := file_metadata;
  file_seek := file_seek;
  file_read := file_read;
  file_write := file_write;
  file_try_clone := file_try_clone;
  file_set_len := file_set_len;
  file_set_permissions := file_set_permissions;
  file_set_modified := file_set_modified;
  now := now;
  elapsed := elapsed;
  rng_fill := rng_fill;
  memory_grow := memory_grow;
|}.

Definition confine_net (N : Net W) : Net W := {|
  unix_bind w p := guard_net w p (unix_bind w p);
  unix_listener_clone := unix_listener_clone;
  unix_accept := unix_accept;
  unix_connect w p := guard_net w p (unix_connect w p);
  unix_pair := unix_pair;
  tcp_bind := tcp_bind;
  tcp_accept := tcp_accept;
  tcp_connect := tcp_connect;
  stream_write := stream_write;
  stream_read := stream_read;
  stream_shutdown := stream_shutdown;
  udp_socket := udp_socket;
  udp_set_reuse_address := udp_set_reuse_address;
  udp_set_only_v6 := udp_set_only_v6;
  udp_bind := udp_bind;
  udp_set_nonblocking := udp_set_nonblocking;
  udp_from_std := udp_from_std;
  udp_local_addr := udp_local_addr;
|}.

Definition confine_snap (S : SnapHost W) : SnapHost W := {|
  fs_write w p bs := guard_st w p (fs_write w p bs);
  fs_read w p := guard p (fs_read w p);
  fs_exists w p := inside root p && fs_exists w p;
  rng_from_seed := rng_from_seed;
  std_tcp_bind := std_tcp_bind;
  std_set_reuseaddr := std_set_reuseaddr;
  tcp_from_std := tcp_from_std;
  tcp_local_addr := tcp_local_addr;
  dup_listener := dup_listener;
|}.

End confine.

(** ** Calls on paths *)

(** Every path the kernel knows is inside [base]: its root, and so its working
    directory, and those of the open files. *)
Record conf {W} (base : path) (k : kern W) : Prop := {
  cf_vfs : vfs_wf (k_vfs k);
  cf_root : base `prefix_of` root (k_vfs k);
  cf_files l f p : files (k_heap k) !! l = Some f → fpath f = Some p → base `prefix_of` p;
}.

Section paths.
Context {W : Type} (H : Host W) (base : path).
Implicit Types k : kern W.

Abbreviation HC := (confine base H).

Lemma guard_in {A} p (r : io A) : base `prefix_of` p → guard base p r = r.
Proof. intros Hp. unfold guard, inside. by rewrite bool_decide_true. Qed.
Lemma guard_st_in {A} (w : W) p (r : io A * W) : base `prefix_of` p → guard_st base w p r = r.
Proof. intros Hp. unfold guard_st, inside. by rewrite bool_decide_true. Qed.

Lemma resolve_inside k dirfd s p : conf base k → SysPath.resolve k dirfd s = Ok p → base `prefix_of` p.
Proof. intros Hc Hr. apply resolve_sound in Hr as [_ Hr]; [|apply Hc]. etrans; [apply Hc|done]. Qed.

Lemma file_at_inside k l p : conf base k → fpath (file_at (k_heap k) l) = Some p → base `prefix_of` p.
Proof.
  intros Hc. unfold file_at. destruct (files (k_heap k) !! l) as [f|] eqn:E; [|done]. simpl. by eapply cf_files.
Qed.

Lemma with_path_agrees k dirfd ptr (f g : path → Z * kern W) :
  conf base k → (∀ p, base `prefix_of` p → f p = g p) → with_path k dirfd ptr f = with_path k dirfd ptr g.
Proof.
  intros Hc Hfg. unfold with_path. destruct (guest_str _ _ _) as [s|]; [|done]. case_bool_decide; [done|].
  destruct (SysPath.resolve k dirfd s) as [p|] eqn:E; [|done]. by eapply Hfg, resolve_inside.
Qed.

Lemma with_paths_agrees k d1 p1 d2 p2 (f g : path → path → Z * kern W) :
  conf base k → (∀ p q, base `prefix_of` p → base `prefix_of` q → f p q = g p q) →
  with_paths k d1 p1 d2 p2 f = with_paths k d1 p1 d2 p2 g.
Proof.
  intros Hc Hfg. unfold with_paths. destruct (guest_str _ p1 _); [|done]. destruct (guest_str _ p2 _); [|done].
  case_match; [done|]. destruct (SysPath.resolve k d1 _) as [p|] eqn:E1; [|done]. destruct (SysPath.resolve k d2 _) as [q|] eqn:E2; [|done].
  apply Hfg; by eapply resolve_inside.
Qed.

(** A handler that takes no part in the refusals of [HC]. *)
Definition agrees (h h' : kern W → args → outcome (Z * kern W)) : Prop :=
  ∀ k a, conf base k → h k a = h' k a.

Definition agrees' (h h' : kern W → args → Z * kern W) : Prop :=
  ∀ k a, conf base k → h k a = h' k a.

Lemma Vfs_open_in w p flags mode : base `prefix_of` p → @Vfs_open W HC w p flags mode = @Vfs_open W H w p flags mode.
Proof.
  intros Hp. unfold Vfs_open. destruct (open_options flags) as [o|]; [|done]. cbn [fs_open confine].
  by rewrite guard_st_in.
Qed.

Lemma Vfs_stat_in w p : base `prefix_of` p → @Vfs_stat W HC w p = @Vfs_stat W H w p.
Proof. intros Hp. unfold Vfs_stat. cbn [fs_symlink_metadata confine]. by rewrite guard_in. Qed.

Lemma readdir_all_in w p : base `prefix_of` p → @readdir_all W HC w p = @readdir_all W H w p.
Proof. intros Hp. unfold readdir_all. cbn [fs_read_dir confine]. by rewrite guard_in. Qed.

Lemma openat_agrees : agrees' (@openat W HC) (@openat W H).
Proof.
  intros k a Hc. unfold openat. destruct (guest_str _ _ _) as [s|]; [|done].
  destruct (SysPath.resolve k _ s) as [p|] eqn:E; [|done]. apply resolve_inside in E; [|done].
  rewrite Vfs_open_in by done. destruct (Vfs_open _ p _ _) as [[f|] w]; [|done].
  cbn [fs_metadata confine]. by rewrite guard_in.
Qed.

Lemma newfstatat_agrees : agrees' (@newfstatat W HC) (@newfstatat W H).
Proof.
  intros k a Hc. unfold newfstatat. destruct (guest_str _ _ _) as [s|]; [|done].
  case_match; [done|]. case_match; [done|].
  destruct (SysPath.resolve k _ s) as [p|] eqn:E; [|done]. by rewrite Vfs_stat_in by by eapply resolve_inside.
Qed.

Lemma statx_agrees : agrees' (@statx W HC) (@statx W H).
Proof.
  intros k a Hc. unfold statx. case_match; [done|]. destruct (guest_slice_mut _ _ _); [|done].
  destruct (guest_str _ _ _) as [s|]; [|done]. destruct (has _ _ && _); [reflexivity|]. case_bool_decide; [done|].
  destruct (SysPath.resolve k _ s) as [p|] eqn:E; [|done]. cbn [result_bind].
  by rewrite Vfs_stat_in by by eapply resolve_inside.
Qed.

Lemma getdents64_agrees : agrees' (@getdents64 W HC) (@getdents64 W H).
Proof.
  intros k a Hc. unfold getdents64. destruct (u32_try_from _) as [fd|]; [|done].
  destruct (guest_slice_mut _ _ _); [|done]. destruct (usize_try_from _); [|done]. case_match; [done|].
  destruct (get (k_fds k) fd) as [[]|] eqn:Eg; try done. case_match; [done|].
  destruct (fpath _) as [p|] eqn:Ep; [|done]. case_match; [done|].
  rewrite readdir_all_in; [done|]. by eapply file_at_inside.
Qed.

Lemma truncate_agrees : agrees' (@truncate W HC) (@truncate W H).
Proof.
  intros k a Hc. unfold truncate. destruct (guest_str _ _ _) as [s|]; [|done]. do 2 (case_match; [done|]).
  destruct (SysPath.resolve k _ s) as [p|] eqn:E; [|done]. cbn [fs_open confine].
  by rewrite guard_st_in by by eapply resolve_inside.
Qed.

Lemma utimensat_agrees : agrees (@utimensat W HC) (@utimensat W H).
Proof.
  intros k a Hc. unfold utimensat. destruct (guest_str _ _ _) as [s|]; [|done]. case_match; [done|].
  destruct (SysPath.resolve k _ s) as [p|] eqn:E; [|done]. change (@utimens_mtime W HC) with (@utimens_mtime W H).
  destruct (utimens_mtime _ _) as [[]|]; try done. cbn [fs_open confine].
  by rewrite guard_st_in by by eapply resolve_inside.
Qed.

(** Both sides resolve the same paths, which the guards let through. *)
Ltac solve_path :=
  repeat match goal with |- agrees' _ _ => unfold agrees' | |- ∀ _, _ => intro end;
  cbv beta delta [mkdirat mkdir rmdir unlink unlinkat renameat linkat fchmodat faccessat2 chdir chroot Vfs_chdir Vfs_chroot];
  cbv zeta;
  (apply with_path_agrees || apply with_paths_agrees); [assumption..|];
  intros; cbn [confine fs_create_dir fs_remove_dir fs_remove_file fs_rename fs_hard_link fs_read_link
    fs_symlink fs_set_permissions fs_metadata];
  rewrite ?guard_in, ?guard_st_in by assumption; reflexivity.

Lemma mkdirat_agrees : agrees' (@mkdirat W HC) (@mkdirat W H).
Proof. solve_path. Qed.
Lemma mkdir_agrees : agrees' (@mkdir W HC) (@mkdir W H).
Proof. solve_path. Qed.
Lemma rmdir_agrees : agrees' (@rmdir W HC) (@rmdir W H).
Proof. solve_path. Qed.
Lemma unlink_agrees : agrees' (@unlink W HC) (@unlink W H).
Proof. solve_path. Qed.
Lemma unlinkat_agrees : agrees' (@unlinkat W HC) (@unlinkat W H).
Proof. solve_path. Qed.
Lemma renameat_agrees : agrees' (@renameat W HC) (@renameat W H).
Proof. solve_path. Qed.
Lemma linkat_agrees : agrees' (@linkat W HC) (@linkat W H).
Proof. solve_path. Qed.
Lemma readlinkat_agrees : agrees' (@readlinkat W HC) (@readlinkat W H).
Proof. intros k a Hc. unfold readlinkat. destruct (usize_try_from _); [|done]. solve_path. Qed.
Lemma symlinkat_agrees : agrees' (@symlinkat W HC) (@symlinkat W H).
Proof. intros k a Hc. unfold symlinkat. destruct (guest_str _ _ _); [|done]. solve_path. Qed.
Lemma fchmodat_agrees : agrees' (@fchmodat W HC) (@fchmodat W H).
Proof. solve_path. Qed.
Lemma faccessat2_agrees : agrees' (@faccessat2 W HC) (@faccessat2 W H).
Proof. solve_path. Qed.
Lemma chdir_agrees : agrees' (@chdir W HC) (@chdir W H).
Proof. solve_path. Qed.
Lemma chroot_agrees : agrees' (@chroot W HC) (@chroot W H).
Proof. solve_path. Qed.

End paths.

(** ** The table *)

(** The calls that hand a path of the guest to the host as it is: a UNIX
    [bind] or [connect], and a snapshot. *)
Definition unconfined {W} (k : kern W) (nr : Z) (a : args) : bool :=
  (nr =? NR_SNAPSHOT) ||
  ((nr =? NR_BIND) || (nr =? NR_CONNECT)) &&
  match parse_sockaddr k (a1 a) (a2 a) with Ok (SockUnix _) => true | _ => false end.

Section table.
Context {W : Type} (H : Host W) (N : Net W) (D : Dns W) (S : SnapHost W) (C : Codec) (base : path).
Implicit Types k : kern W.
Implicit Types rt : runtime W.

Lemma pure_agrees h h' : agrees' (W:=W) base h h' → agrees base (pure h) (pure h').
Proof. intros Hh k a Hc. unfold pure. f_equal. by apply Hh. Qed.

Lemma bind_agrees k a :
  unconfined k NR_BIND a = false →
  @bind W (confine base H) (confine_net base N) k a = @bind W H N k a.
Proof. unfold unconfined, bind. simpl. by destruct (parse_sockaddr _ _ _) as [[]|]. Qed.

Lemma connect_agrees park k a :
  unconfined k NR_CONNECT a = false → @connect W (confine_net base N) park k a = @connect W N park k a.
Proof. unfold unconfined, connect. simpl. by destruct (parse_sockaddr _ _ _) as [[]|]. Qed.

#[local] Hint Resolve openat_agrees newfstatat_agrees statx_agrees getdents64_agrees truncate_agrees utimensat_agrees
  mkdirat_agrees mkdir_agrees rmdir_agrees unlink_agrees unlinkat_agrees renameat_agrees linkat_agrees
  readlinkat_agrees symlinkat_agrees fchmodat_agrees faccessat2_agrees chdir_agrees chroot_agrees : agree.

(** The same number, and the same answer unless the call is unconfined. *)
Definition entry_agrees (e e' : Z * (kern W → args → outcome (Z * kern W))) : Prop :=
  e.1 = e'.1 ∧ ∀ k a, conf base k → unconfined k e.1 a = false → e.2 k a = e'.2 k a.

Lemma confined_entry nr h h' : agrees base h h' → entry_agrees (nr, h) (nr, h').
Proof. intros Hh. split; [done|]. intros k a Hc _. by apply Hh. Qed.

Lemma handlers_agree rt :
  Forall2 entry_agrees
    (@handlers W (confine base H) (confine_net base N) D (confine_snap base S) C rt) (@handlers W H N D S C rt).
Proof.
  unfold handlers. repeat apply Forall2_cons_2; [..|apply Forall2_nil_2].
  all: first
    [ split; [reflexivity|reflexivity]
    | apply confined_entry; first [apply pure_agrees|idtac]; solve [eauto with agree nocore]
    | apply confined_entry, pure_agrees; intros k a Hc;
      unfold open, stat, lstat, rename, renameat2, link, readlink, symlink, chmod, faccessat;
      first [by apply openat_agrees|by apply newfstatat_agrees|by apply renameat_agrees|by apply linkat_agrees
            |by apply readlinkat_agrees|by apply symlinkat_agrees|by apply fchmodat_agrees|by apply faccessat2_agrees]
    | split; [reflexivity|]; intros k a Hc Hu; cbn [fst snd] in *; unfold pure; f_equal;
      first [by apply bind_agrees|by apply connect_agrees|discriminate Hu]
    ].
Qed.

Lemma find_handler_agrees nr l l' :
  Forall2 entry_agrees l l' →
  match find_handler nr l, find_handler nr l' with
  | Some h, Some h' => entry_agrees (nr, h) (nr, h')
  | None, None => True
  | _, _ => False
  end.
Proof.
  induction 1 as [|[n h] [n' h'] l l' [Hn Hh] Hl IH]; [done|]. simpl in Hn |- *. subst n'.
  destruct (nr =? n) eqn:E; [|done]. apply Z.eqb_eq in E. by subst n.
Qed.

(** A call over the confined host. *)
Lemma dispatch_agrees rt nr k a :
  conf base k → unconfined k (as_u32 nr) a = false →
  @dispatch W (confine base H) (confine_net base N) D (confine_snap base S) C rt nr k a = @dispatch W H N D S C rt nr k a.
Proof.
  intros Hc Hu. unfold dispatch. pose proof (find_handler_agrees (as_u32 nr) _ _ (handlers_agree rt)) as Hf.
  destruct (find_handler _ (@handlers W (confine _ _) _ _ _ _ _)), (find_handler _ (@handlers W H _ _ _ _ _)); [|done..].
  destruct Hf as [_ Hf]. by apply Hf.
Qed.
End table.
