(* ===== verification/Sandbox.v ===== *)
(** * The sandbox: what a run may touch

    Every handler keeps the paths the kernel knows inside the directory the
    kernel was given ([Keeps], [Keeps']), so that by Confine.v no call of a run
    reaches the host outside it. *)

From S2P Require Import Prelude Word Errno GuestMem Text Parse Path Host Vfs Udp Net Fd Sock Futex LinearAllocator Resolver Kernel Snapshot.
From S2P Require Import KernInv SysMemory SysPath SysEventfd SysFile SysFileInv SysSignal SysFutex SysProcess SysPoll SysEpoll SysMisc SysSocket SysSocketInv SysResolver Dispatch Confine.

(** ** What the kernel knows of paths *)

Create HintDb files discriminated.
Create HintDb keep discriminated.
#[export] Hint Extern 1 (_ = _) => reflexivity : files.
#[export] Hint Unfold make_pipe new_notify new_pipe_cell put_sock on_sock host_unit : keep.

Section keeps.
Context {W : Type} (base : path).
Implicit Types k : kern W.

(** Only the directories and the table of open files matter. *)
Lemma conf_same k k' :
  k_vfs k' = k_vfs k → files (k_heap k') = files (k_heap k) → conf base k → conf base k'.
Proof. intros Hv Hf [Hw Hr Hp]. split; [by rewrite Hv..|]. intros l f p. rewrite Hf. apply Hp. Qed.

Lemma conf_set_heap k h : files h = files (k_heap k) → conf base k → conf base (set_heap k h).
Proof. intros Hf. by apply conf_same. Qed.

Lemma conf_mem_put k p bs : conf base k → conf base (mem_put k p bs).
Proof. unfold mem_put. destruct (k_memory k) as [[]|]; try done. by apply conf_same. Qed.

Lemma conf_guest_write k p bs k' : guest_write k p bs = Ok k' → conf base k → conf base k'.
Proof. unfold guest_write. intros (q & _ & [= <-])%result_bind_Ok. apply conf_mem_put. Qed.

(** A file is replaced by one with the same path, or a new one has a path
    inside. *)
Lemma conf_set_file k l f : fpath f = fpath (file_at (k_heap k) l) → conf base k → conf base (set_heap k (set_file (k_heap k) l f)).
Proof.
  intros Hf Hc. split; [apply Hc..|]. simpl. intros l' f' p.
  rewrite lookup_insert_Some. intros [[<- <-]|[_ Hl]] Hp; [|by eapply Hc].
  rewrite Hf in Hp. by eapply file_at_inside.
Qed.

Lemma conf_insert_sock k mk : conf base k → conf base (insert_sock k mk).2.
Proof. by apply conf_same. Qed.
Lemma insert_sock_state k mk fd k' : insert_sock k mk = (fd, k') → k' = (insert_sock k mk).2.
Proof. by intros ->. Qed.

(** What a call leaves behind, if it returns. *)
Definition kept (o : outcome (Z * kern W)) : Prop :=
  match o with Return x => conf base x.2 | _ => True end.

Class Keeps (h : kern W → args → outcome (Z * kern W)) : Prop :=
  keeps k a : conf base k → kept (h k a).
Class Keeps' (h : kern W → args → Z * kern W) : Prop :=
  keeps' k a : conf base k → conf base (h k a).2.

#[global] Instance pure_keeps h : Keeps' h → Keeps (pure h).
Proof. intros Hh k a Hc. by apply Hh. Qed.

Lemma keeps_Return h (Hh : Keeps h) k a r k' : h k a = Return (r, k') → conf base k → conf base k'.
Proof. intros E Hc. specialize (Hh k a Hc). by rewrite E in Hh. Qed.
End keeps.

(** The states a handler builds. *)
Ltac conf_state :=
  match goal with
  | |- conf _ (mem_put _ _ _) => apply conf_mem_put
  | |- conf _ (set_heap ?k (set_file (k_heap ?k) _ _)) => apply conf_set_file; [reflexivity|]
  | |- conf _ (set_heap ?k _) => apply conf_set_heap; [solve [repeat case_match; simplify_eq; auto with files]|]
  | |- conf _ (snd (insert_sock _ _)) => apply conf_insert_sock
  | |- conf _ (set_host ?k _) => apply (conf_same _ k); [reflexivity|reflexivity|]
  | |- conf _ (set_fds ?k _) => apply (conf_same _ k); [reflexivity|reflexivity|]
  | |- conf _ (set_ps ?k _) => apply (conf_same _ k); [reflexivity|reflexivity|]
  | |- conf _ (set_mm ?k _) => apply (conf_same _ k); [reflexivity|reflexivity|]
  | |- conf _ (set_memory ?k _) => apply (conf_same _ k); [reflexivity|reflexivity|]
  | |- conf _ (set_signals ?k _) => apply (conf_same _ k); [reflexivity|reflexivity|]
  | |- conf _ (set_comm ?k _) => apply (conf_same _ k); [reflexivity|reflexivity|]
  | |- conf _ (set_exit_code ?k _) => apply (conf_same _ k); [reflexivity|reflexivity|]
  | Hp : ∀ k, conf _ k → conf _ (?f k) |- conf _ (?f _) => apply Hp
  | Hp : ∀ n k, conf _ k → conf _ (?f n k) |- conf _ (?f _ _) => apply Hp
  end.

(** Take the innermost case of a term apart. *)
Ltac split_match t :=
  lazymatch t with
  | match ?x with _ => _ end => split_match x
  | _ => destruct t eqn:?
  end.

(** A state given by an equation. *)
Ltac conf_eq :=
  match goal with
  | H : guest_write _ _ _ = Ok ?k |- conf _ ?k => apply (conf_guest_write _ _ _ _ _ H)
  | H : stat_write_to_guest _ _ _ = Ok ?k |- conf _ ?k => apply (conf_guest_write _ _ _ _ _ H)
  | H : insert_sock _ _ = (_, ?k) |- conf _ ?k => rewrite (insert_sock_state _ _ _ _ H)
  | H : Ok _ = Ok ?k |- conf _ ?k => injection H as H; rewrite <- H
  | H : Err _ = Ok ?k |- conf _ ?k => discriminate H
  | H : (_, _) = (_, ?k) |- conf _ ?k => injection H as H; subst k
  | H : Some _ = Some (_, ?k) |- conf _ ?k => injection H as H; subst k
  | H : None = Some (_, ?k) |- conf _ ?k => discriminate H
  | H : Return ?k' = Return ?k |- conf _ ?k => injection H as H; rewrite <- H
  | H : _ = Return ?k |- conf _ ?k => discriminate H
  | H : result_bind _ _ = Ok ?k |- conf _ ?k => apply result_bind_Ok in H as (? & ? & H)
  | H : match ?x with _ => _ end = Ok ?k |- conf _ ?k => split_match x
  | H : match ?x with _ => _ end = (_, ?k) |- conf _ ?k => split_match x
  | H : match ?x with _ => _ end = Some (_, ?k) |- conf _ ?k => split_match x
  | H : match ?x with _ => _ end = Return ?k |- conf _ ?k => split_match x
  end.

(** Follow a handler. *)
Ltac keep_tac :=
  repeat (cbn [fst snd]; first
    [ assumption
    | exact I
    | conf_state
    | conf_eq
    | progress autounfold with keep
    | match goal with
      | H : _ = Ok ?k |- conf _ ?k => progress autounfold with keep in H
      | H : _ = (_, ?k) |- conf _ ?k => progress autounfold with keep in H
      | H : _ = Some (_, ?k) |- conf _ ?k => progress autounfold with keep in H
      | H : _ = Return ?k |- conf _ ?k => progress autounfold with keep in H
      end
    | lazymatch goal with
      | |- conf _ (snd (match ?x with _ => _ end)) => split_match x
      | |- conf _ (match ?x with _ => _ end) => split_match x
      | |- kept _ (match ?x with _ => _ end) => split_match x
      | |- kept _ (Return _) => red
      end ]).

Ltac keeps_by h := intros k a Hc; unfold h; cbv zeta; keep_tac.

Section file.
Context {W : Type} `{Host W} (base : path).
Implicit Types k : kern W.

#[export] Instance close_keeps : Keeps' base (SysFile.close (W:=W)).
Proof. keeps_by (@SysFile.close). Qed.
#[export] Instance lseek_keeps : Keeps' base (lseek (W:=W)).
Proof. keeps_by (@lseek). Qed.
#[export] Instance fstat_keeps : Keeps' base (fstat (W:=W)).
Proof. keeps_by (@fstat). Qed.
#[export] Instance newfstatat_keeps : Keeps' base (newfstatat (W:=W)).
Proof. keeps_by (@newfstatat). all: by apply fstat_keeps. Qed.
#[export] Instance statx_keeps : Keeps' base (statx (W:=W)).
Proof. keeps_by (@statx). Qed.
#[export] Instance openat_keeps : Keeps' base (openat (W:=W)).
Proof.
  intros k a Hc. unfold openat. cbv zeta. destruct (guest_str _ _ _) as [s|]; [|done].
  destruct (SysPath.resolve k _ s) as [p|] eqn:E; [|done]. apply (resolve_inside base) in E; [|done].
  destruct (Vfs_open _ p _ _) as [[f|] w]; [|by apply (conf_same _ k)].
  destruct Hc as [Hv Hr Hf]. split; [done..|]. cbn -[lookup]. intros l g q. rewrite lookup_insert_Some.
  intros [[_ <-]|[_ Hl]]; [by intros [= <-]|by eapply Hf].
Qed.
#[export] Instance getdents_keeps : Keeps' base (getdents64 (W:=W)).
Proof. keeps_by (@getdents64); unfold getdents_slice; keep_tac. Qed.
#[export] Instance pipe2_keeps : Keeps' base (pipe2 (W:=W)).
Proof. keeps_by (@pipe2). Qed.
#[export] Instance fcntl_keeps : Keeps base (fcntl (W:=W)).
Proof.
  keeps_by (@fcntl); [|unfold dup_fd; keep_tac].
  apply conf_set_heap; [unfold set_nonblock; by case_match|done].
Qed.
Lemma internal_dup_keeps k fd t b : conf base k → kept base (internal_dup k fd t b).
Proof. intros Hc. unfold internal_dup, dup_fd. keep_tac. Qed.
#[export] Instance dup_keeps : Keeps base (dup (W:=W)).
Proof. keeps_by (@dup). by apply internal_dup_keeps. Qed.
#[export] Instance dup2_keeps : Keeps base (dup2 (W:=W)).
Proof. keeps_by (@dup2). by apply internal_dup_keeps. Qed.
#[export] Instance dup3_keeps : Keeps base (dup3 (W:=W)).
Proof. keeps_by (@dup3). by apply internal_dup_keeps. Qed.
#[export] Instance getcwd_keeps : Keeps' base (getcwd (W:=W)).
Proof. keeps_by (@getcwd). Qed.
Lemma with_path_keeps k d p (f : path → Z * kern W) :
  conf base k → (∀ q, plain q → root (k_vfs k) `prefix_of` q → conf base (f q).2) → conf base (with_path k d p f).2.
Proof.
  intros Hc Hf. unfold with_path. keep_tac.
  apply Hf; by eapply (resolve_sound k); [apply Hc|].
Qed.
Lemma with_paths_keeps k d p d' p' (f : path → path → Z * kern W) :
  conf base k → (∀ q q', conf base (f q q').2) → conf base (with_paths k d p d' p' f).2.
Proof. intros Hc Hf. unfold with_paths. keep_tac. apply Hf. Qed.

(** The calls that change the host, or nothing, on a path. *)
Ltac path_keeps h :=
  intros k a Hc; unfold h; cbv zeta; keep_tac;
  first [apply with_path_keeps; [assumption|] | apply with_paths_keeps; [assumption|]]; intros; keep_tac.

#[export] Instance mkdir_keeps : Keeps' base (mkdir (W:=W)).
Proof. path_keeps (@mkdir). Qed.
#[export] Instance mkdirat_keeps : Keeps' base (mkdirat (W:=W)).
Proof. path_keeps (@mkdirat). Qed.
#[export] Instance rmdir_keeps : Keeps' base (rmdir (W:=W)).
Proof. path_keeps (@rmdir). Qed.
#[export] Instance unlink_keeps : Keeps' base (unlink (W:=W)).
Proof. path_keeps (@unlink). Qed.
#[export] Instance unlinkat_keeps : Keeps' base (unlinkat (W:=W)).
Proof. path_keeps (@unlinkat). Qed.
#[export] Instance renameat_keeps : Keeps' base (renameat (W:=W)).
Proof. path_keeps (@renameat). Qed.
#[export] Instance linkat_keeps : Keeps' base (linkat (W:=W)).
Proof. path_keeps (@linkat). Qed.
#[export] Instance truncate_keeps : Keeps' base (truncate (W:=W)).
Proof. keeps_by (@truncate). Qed.
#[export] Instance ftruncate_keeps : Keeps' base (ftruncate (W:=W)).
Proof. keeps_by (@ftruncate). Qed.
#[export] Instance readlinkat_keeps : Keeps' base (readlinkat (W:=W)).
Proof. path_keeps (@readlinkat). Qed.
#[export] Instance symlinkat_keeps : Keeps' base (symlinkat (W:=W)).
Proof. path_keeps (@symlinkat). Qed.
#[export] Instance utimensat_keeps : Keeps base (utimensat (W:=W)).
Proof. keeps_by (@utimensat). Qed.
#[export] Instance fchmod_keeps : Keeps' base (fchmod (W:=W)).
Proof. keeps_by (@fchmod). Qed.
#[export] Instance fchmodat_keeps : Keeps' base (fchmodat (W:=W)).
Proof. path_keeps (@fchmodat). Qed.
#[export] Instance faccessat2_keeps : Keeps' base (faccessat2 (W:=W)).
Proof. path_keeps (@faccessat2). Qed.

(** The calls that are others at the working directory. *)
#[export] Instance open_keeps : Keeps' base (SysFile.open (W:=W)).
Proof. intros k a. apply openat_keeps. Qed.
#[export] Instance stat_keeps : Keeps' base (SysFile.stat (W:=W)).
Proof. intros k a. apply newfstatat_keeps. Qed.
#[export] Instance lstat_keeps : Keeps' base (SysFile.lstat (W:=W)).
Proof. intros k a. apply newfstatat_keeps. Qed.
#[export] Instance rename_keeps : Keeps' base (SysFile.rename (W:=W)).
Proof. intros k a. apply renameat_keeps. Qed.
#[export] Instance renameat2_keeps : Keeps' base (SysFile.renameat2 (W:=W)).
Proof. intros k a. apply renameat_keeps. Qed.
#[export] Instance link_keeps : Keeps' base (SysFile.link (W:=W)).
Proof. intros k a. apply linkat_keeps. Qed.
#[export] Instance readlink_keeps : Keeps' base (SysFile.readlink (W:=W)).
Proof. intros k a. apply readlinkat_keeps. Qed.
#[export] Instance symlink_keeps : Keeps' base (SysFile.symlink (W:=W)).
Proof. intros k a. apply symlinkat_keeps. Qed.
#[export] Instance chmod_keeps : Keeps' base (SysFile.chmod (W:=W)).
Proof. intros k a. apply fchmodat_keeps. Qed.
#[export] Instance faccessat_keeps : Keeps' base (SysFile.faccessat (W:=W)).
Proof. intros k a. apply faccessat2_keeps. Qed.

(** The root only moves down. *)
#[export] Instance chdir_keeps : Keeps' base (chdir (W:=W)).
Proof.
  intros k a Hc. apply with_path_keeps; [done|]. intros q Hq Hr. unfold Vfs_chdir.
  destruct (negb _); [done|]. destruct (fs_metadata _ _) as [m|]; [|done]. simpl.
  case_bool_decide; [|done]. destruct Hc as [[] Hb Hf]. by split; [split|..].
Qed.
#[export] Instance chroot_keeps : Keeps' base (chroot (W:=W)).
Proof.
  intros k a Hc. apply with_path_keeps; [done|]. intros q Hq Hr. unfold Vfs_chroot.
  destruct (fs_metadata _ _) as [m|]; [|done]. simpl. case_bool_decide; [|done].
  destruct Hc as [_ Hb Hf]. split; [by split|by etrans|done].
Qed.

(** *** read and write *)

Context (recvfrom sendto : kern W → args → Z * kern W).
Context (recv_keeps : Keeps' base recvfrom) (send_keeps : Keeps' base sendto).

#[export] Instance read_keeps : Keeps' base (SysFile.read recvfrom).
Proof using All.
  keeps_by (@SysFile.read); unfold read_pipe, read_file, read_eventfd, finish_read; keep_tac; by apply recv_keeps.
Qed.
#[export] Instance write_keeps : Keeps' base (SysFile.write sendto).
Proof using All.
  keeps_by (@SysFile.write); unfold write_pipe, write_file, write_eventfd; keep_tac; by apply send_keeps.
Qed.
Lemma iov_loop_keeps op fd iovs k n : Keeps' base op → conf base k → conf base (iov_loop op k fd iovs n).2.
Proof.
  intros Hop. revert k n. induction iovs as [|[b len] iovs IH]; intros k n Hc; [done|]. simpl.
  case_match; [by apply IH|]. specialize (Hop k (Args fd b len 0 0 0) Hc). destruct (op _ _) as [r k'].
  simpl in Hop. keep_tac. by apply IH.
Qed.
#[export] Instance readv_keeps : Keeps' base (readv recvfrom).
Proof using All. keeps_by (@readv). apply iov_loop_keeps; [apply _|done]. Qed.
#[export] Instance writev_keeps : Keeps' base (writev sendto).
Proof using All. keeps_by (@writev). apply iov_loop_keeps; [apply _|done]. Qed.
End file.

(** *** Everything else *)

Section rest.
Context {W : Type} `{Host W} `{Net W} `{Dns W} `{SnapHost W} `{Codec} (base : path).
Implicit Types k : kern W.

Lemma files_notify_waiters h n m : files h = m → files (notify_waiters h n) = m.
Proof. done. Qed.
Lemma files_notify_all h l m : files h = m → files (notify_all h l) = m.
Proof. revert h. induction l as [|n l IH]; intros h Hh; [done|]. by apply (IH (notify_waiters h n)). Qed.
Lemma files_notify_iter h n l m : files h = m → files (Nat.iter n (λ h, notify_one h l) h) = m.
Proof. intros <-. by induction n. Qed.

Hint Resolve files_notify_waiters files_notify_all files_notify_iter : files.
Hint Unfold reap_all_children alloc_pid register_tid write_i32_via push_signal write_wstatus_and_return
  grow_memory zero_fill write_rem write_oldact set_table sys_release_waiter target_wakes put_entries pack_events
  write_revents clear_fd_set set_fd_bit set_resolver marshal_and_return get_backend : keep.

(** Memory and processes. *)
#[export] Instance mmap_keeps : Keeps' base (SysMemory.mmap (W:=W)).
Proof. keeps_by (@SysMemory.mmap). Qed.
#[export] Instance munmap_keeps : Keeps' base (SysMemory.munmap (W:=W)).
Proof. keeps_by (@SysMemory.munmap). Qed.
#[export] Instance mremap_keeps : Keeps' base (SysMemory.mremap (W:=W)).
Proof. keeps_by (@SysMemory.mremap). Qed.
#[export] Instance exit_keeps order : Keeps' base (SysProcess.exit (W:=W) order).
Proof. keeps_by (@SysProcess.exit). Qed.
#[export] Instance exit_group_keeps order : Keeps' base (SysProcess.exit_group (W:=W) order).
Proof. keeps_by (@SysProcess.exit_group). Qed.
#[export] Instance clone_keeps : Keeps' base (clone_syscall (W:=W)).
Proof. keeps_by (@clone_syscall). Qed.
#[export] Instance fork_keeps : Keeps' base (fork_syscall (W:=W)).
Proof. keeps_by (@fork_syscall). Qed.
#[export] Instance kill_keeps : Keeps' base (kill (W:=W)).
Proof. keeps_by (@kill). Qed.
#[export] Instance tgkill_keeps : Keeps' base (tgkill (W:=W)).
Proof. keeps_by (@tgkill). Qed.

Lemma wait_loop_keeps order sched n k pid ptr :
  Forall (λ f, ∀ k, conf base k → conf base (f k)) sched → conf base k →
  kept base (wait_loop (W:=W) order sched n k pid ptr).
Proof.
  intros Hs. revert n k. induction Hs as [|f sched Hf Hs IH]; intros n k Hc; [done|]. cbn [wait_loop].
  case_if; [|by apply IH, Hf].
  destruct (try_reap order (f k) pid) as [[[p c] k']|] eqn:E; [|by apply IH, Hf].
  keep_tac; unfold try_reap in E; apply bind_Some in E as (q & _ & (c' & _ & [= _ _ <-])%bind_Some); keep_tac; by apply Hf.
Qed.
Lemma wait4_keeps order sched :
  Forall (λ f, ∀ k, conf base k → conf base (f k)) sched → Keeps base (wait4_syscall (W:=W) order sched).
Proof.
  intros Hs. keeps_by (@wait4_syscall); try by apply wait_loop_keeps.
  all: match goal with E : try_reap _ _ _ = Some _ |- _ =>
    apply bind_Some in E as (q & _ & (c' & _ & [= _ _ <-])%bind_Some); keep_tac end.
Qed.

(** Futexes. *)
Lemma futex_keeps park :
  (∀ k n d ev k', conf base k → park k n d = Some (ev, k') → conf base k') → Keeps base (futex (W:=W) park).
Proof.
  intros Hp. keeps_by (@futex); [unfold futex_wait|unfold futex_wake; keep_tac].
  destruct (futex_wait_begin _ _ _ _) as [[[n d] k1]|] eqn:E; [|keep_tac].
  assert (conf base k1) as Hc1.
  { unfold futex_wait_begin in E. apply result_bind_Ok in E as (bs & _ & E).
    destruct (negb _) in E; [done|]. apply result_bind_Ok in E as (d' & _ & E).
    destruct (match futex_table (k_ps k) !! _ with Some _ => _ | None => _ end) as [n' h] eqn:Eh.
    destruct (register _ _ _) as [n1 t]. injection E as _ _ <-. keep_tac.
    apply conf_set_heap; [|done]. by destruct (_ !! z); injection Eh as _ <-. }
  destruct (park k1 n d) as [[ev k2]|] eqn:E2; [|done]. eapply Hp in E2; [|done]. keep_tac.
Qed.

(** Signals, time. *)
#[export] Instance rt_sigaction_keeps : Keeps' base (rt_sigaction (W:=W)).
Proof. keeps_by (@rt_sigaction). Qed.
#[export] Instance rt_sigprocmask_keeps : Keeps' base (rt_sigprocmask (W:=W)).
Proof. keeps_by (@rt_sigprocmask). Qed.
#[export] Instance sigaltstack_keeps : Keeps' base (sigaltstack (W:=W)).
Proof. keeps_by (@sigaltstack). Qed.
#[export] Instance prlimit64_keeps : Keeps' base (prlimit64 (W:=W)).
Proof. keeps_by (@prlimit64). Qed.
#[export] Instance getrlimit_keeps : Keeps' base (getrlimit (W:=W)).
Proof. intros k a. apply prlimit64_keeps. Qed.
Lemma clock_nanosleep_keeps sleep :
  (∀ n k, conf base k → conf base (sleep n k)) → Keeps' base (clock_nanosleep (W:=W) sleep).
Proof. intros Hs. keeps_by (@clock_nanosleep). Qed.
Lemma nanosleep_keeps sleep :
  (∀ n k, conf base k → conf base (sleep n k)) → Keeps' base (nanosleep (W:=W) sleep).
Proof. intros Hs. keeps_by (@nanosleep). Qed.
#[export] Instance eventfd2_keeps : Keeps' base (eventfd2 (W:=W)).
Proof. keeps_by (@eventfd2). Qed.
#[export] Instance eventfd_keeps : Keeps' base (eventfd (W:=W)).
Proof. intros k a. apply eventfd2_keeps. Qed.
#[export] Instance sys_pipe_keeps : Keeps' base (sys_pipe (W:=W)).
Proof. intros k a. apply pipe2_keeps. Qed.

(** poll, select, epoll. *)
Lemma put_revents_keeps rs : ∀ k p, conf base k → conf base (put_revents k p rs).
Proof. induction rs as [|r rs IH]; intros k p Hc; [done|]. by apply IH, conf_mem_put. Qed.
Lemma write_revents_keeps k p rs : conf base k → conf base (write_revents k p rs).2.
Proof. intros Hc. unfold write_revents. keep_tac. by apply put_revents_keeps. Qed.

Section poll.
Context (sched : list (timer * (kern W → kern W))).
Context (sched_keeps : Forall (λ s, ∀ k, conf base k → conf base (s.2 k)) sched).

Lemma poll_loop_keeps k p t es ws : conf base k → kept base (poll_loop sched k p t es ws).
Proof using sched_keeps.
  intros Hc. unfold poll_loop. do 2 (case_if; [by apply write_revents_keeps|]). clear -sched_keeps Hc.
  revert k Hc. induction sched_keeps as [|[e f] l Hf Hl IH]; intros k Hc; cbn [poll_park]; [done|].
  do 2 (case_if; [apply write_revents_keeps; by apply Hf|]). by apply IH, Hf.
Qed.
Lemma poll_keeps : Keeps base (poll sched).
Proof using sched_keeps. keeps_by (@poll). by apply poll_loop_keeps. Qed.
Lemma ppoll_keeps : Keeps base (ppoll sched).
Proof using sched_keeps. keeps_by (@ppoll). by apply poll_keeps. Qed.
Lemma select_mark_keeps rd wr k e : conf base k → conf base (select_mark rd wr k e).
Proof. intros Hc. destruct e as [[fd ev] r]. unfold select_mark. keep_tac. Qed.
Lemma select_finish_keeps k t es rd wr r : conf base k → conf base (select_finish k t es rd wr r).2.
Proof.
  intros Hc. unfold select_finish. case_match; [done|]. destruct (guest_slice _ _ _) as [bs|]; [|done].
  cbv zeta. cbn [snd].
  match goal with |- conf _ (foldl _ ?k ?l) => assert (conf base k) as Hk; [keep_tac|]; revert Hk; generalize k; induction l end.
  - done.
  - intros k' Hk'. simpl. by apply IHl, select_mark_keeps.
Qed.
Lemma select_keeps : Keeps base (select sched).
Proof using sched_keeps.
  keeps_by (@select). apply select_finish_keeps.
  eapply keeps_Return; [apply poll_keeps|done|]. keep_tac.
Qed.
End poll.

#[export] Instance epoll_ctl_keeps : Keeps' base (epoll_ctl (W:=W)).
Proof. keeps_by (@epoll_ctl). Qed.
Section epoll.
Context (order : gmap Z EpollEntry → list EpollEntry) (park : option (kern W → kern W)).
Context (park_keeps : ∀ f, park = Some f → ∀ k, conf base k → conf base (f k)).

Lemma epoll_wait_keeps : Keeps base (epoll_wait order park).
Proof using park_keeps. destruct park as [f|]; [pose proof (park_keeps f eq_refl)|]; keeps_by (@epoll_wait). Qed.
Lemma epoll_pwait_keeps : Keeps base (epoll_pwait order park).
Proof using park_keeps. keeps_by (@epoll_pwait). by apply epoll_wait_keeps. Qed.
End epoll.

(** Sockets and names. *)
Section socket.
Context (park : kern W → kern W) (park_keeps : ∀ k, conf base k → conf base (park k)).

Hint Unfold put_opt put_un ensure_listener put_peer accept_tcp take_unix_listener accept4_unix accept4
  connect_unix connect_v4 take_stream restore_stream send_bytes recv_bytes recvfrom_unix return_un dontwait restore_nonblock
  write_back_msghdr drain_peek recvmsg_deliver recvmsg_stream bind_unix unlink_stale install_unix_listener bind_udp udp_state : keep.

#[export] Instance socket_keeps : Keeps' base (socket (W:=W)).
Proof. keeps_by (@socket). Qed.
#[export] Instance socketpair_keeps : Keeps' base (socketpair (W:=W)).
Proof. keeps_by (@socketpair). Qed.
#[export] Instance listen_keeps : Keeps' base (listen (W:=W)).
Proof. keeps_by (@listen). Qed.
#[export] Instance setsockopt_keeps : Keeps' base (setsockopt (W:=W)).
Proof. keeps_by (@setsockopt). Qed.
#[export] Instance getsockopt_keeps : Keeps' base (getsockopt (W:=W)).
Proof. keeps_by (@getsockopt). Qed.
#[export] Instance getsockname_keeps : Keeps base (getsockname (W:=W)).
Proof. keeps_by (@getsockname). Qed.
#[export] Instance getpeername_keeps : Keeps base (getpeername (W:=W)).
Proof. keeps_by (@getpeername). Qed.
Lemma accept4_keeps : Keeps base (accept4 park).
Proof using park_keeps. keeps_by (@accept4). Qed.
Lemma accept_keeps : Keeps base (accept park).
Proof using park_keeps. intros k a Hc. unfold accept. by apply accept4_keeps. Qed.
Lemma connect_keeps : Keeps' base (connect park).
Proof using park_keeps. keeps_by (@connect). Qed.
Lemma sendto_keeps : Keeps' base (sendto park).
Proof using park_keeps. keeps_by (@sendto). Qed.
Lemma recvfrom_keeps : Keeps' base (recvfrom park).
Proof using park_keeps. keeps_by (@recvfrom). Qed.
Lemma shutdown_keeps : Keeps' base (shutdown park).
Proof using park_keeps. keeps_by (@shutdown). Qed.
Lemma sendmsg_keeps : Keeps' base (sendmsg park).
Proof using park_keeps. keeps_by (@sendmsg). Qed.
Lemma copy_bytes_keeps spans : ∀ k d, conf base k → conf base (copy_bytes_to_spans k spans d).
Proof. induction spans as [|[b len] spans IH]; intros k d Hc; [done|]. simpl. case_match; apply IH; keep_tac. Qed.
Lemma recvmsg_keeps : Keeps' base (recvmsg park).
Proof using park_keeps. keeps_by (@recvmsg); apply copy_bytes_keeps; keep_tac. Qed.
Lemma resolve_keeps order : Keeps base (SysResolver.resolve park order).
Proof using park_keeps. keeps_by (@SysResolver.resolve). Qed.
#[export] Instance bind_keeps : Keeps' base (bind (W:=W)).
Proof. keeps_by (@bind). Qed.
End socket.
(** Calls that read the state, or write a record to the guest. *)
#[export] Instance getpid_keeps : Keeps' base (getpid (W:=W)).
Proof. keeps_by (@getpid). Qed.
#[export] Instance gettid_keeps : Keeps' base (gettid (W:=W)).
Proof. keeps_by (@gettid). Qed.
#[export] Instance set_tid_address_keeps : Keeps' base (set_tid_address (W:=W)).
Proof. keeps_by (@set_tid_address). Qed.
#[export] Instance epoll_create1_keeps : Keeps' base (epoll_create1 (W:=W)).
Proof. keeps_by (@epoll_create1). Qed.
#[export] Instance uname_keeps : Keeps' base (uname (W:=W)).
Proof. keeps_by (@uname). Qed.
#[export] Instance getgroups_keeps : Keeps' base (getgroups (W:=W)).
Proof. keeps_by (@getgroups). Qed.
#[export] Instance sched_getaffinity_keeps : Keeps' base (sched_getaffinity (W:=W)).
Proof. keeps_by (@sched_getaffinity). Qed.
#[export] Instance prctl_keeps : Keeps' base (prctl (W:=W)).
Proof. keeps_by (@prctl). Qed.
#[export] Instance clock_getres_keeps : Keeps' base (clock_getres (W:=W)).
Proof. keeps_by (@clock_getres). Qed.
#[export] Instance sysinfo_keeps : Keeps' base (sysinfo (W:=W)).
Proof. keeps_by (@sysinfo). Qed.
#[export] Instance times_keeps : Keeps' base (times (W:=W)).
Proof. keeps_by (@times). Qed.
#[export] Instance ioctl_keeps : Keeps' base (ioctl (W:=W)).
Proof. keeps_by (@ioctl). Qed.
#[export] Instance clock_gettime_keeps : Keeps' base (clock_gettime (W:=W)).
Proof. keeps_by (@clock_gettime). Qed.
#[export] Instance gettimeofday_keeps : Keeps' base (gettimeofday (W:=W)).
Proof. keeps_by (@gettimeofday). Qed.
#[export] Instance getrandom_keeps : Keeps' base (getrandom (W:=W)).
Proof. keeps_by (@getrandom). Qed.
#[export] Instance snapshot_keeps : Keeps' base (snapshot_syscall (W:=W)).
Proof. keeps_by (@snapshot_syscall). Qed.
End rest.

(** ** Every call of the table *)

(** What a runtime may do: other threads keep the paths inside while a call
    sleeps. *)
Record runtime_conf {W} (base : path) (rt : runtime W) : Prop := {
  rc_futex k n d ev k' : conf base k → futex_park rt k n d = Some (ev, k') → conf base k';
  rc_wait : Forall (λ f, ∀ k, conf base k → conf base (f k)) (wait_schedule rt);
  rc_poll : Forall (λ s, ∀ k, conf base k → conf base (s.2 k)) (poll_schedule rt);
  rc_epoll f : epoll_park rt = Some f → ∀ k, conf base k → conf base (f k);
  rc_sleep n k : conf base k → conf base (sleep rt n k);
  rc_net k : conf base k → conf base (net_park rt k);
}.

Section table.
Context {W : Type} `{Host W} `{Net W} `{Dns W} `{SnapHost W} `{Codec} (base : path).
Implicit Types k : kern W.
Implicit Types rt : runtime W.

Ltac keeps_entry :=
  lazymatch goal with
  | |- Keeps _ (returns _) => by intros k a Hc
  | |- Keeps _ (pure _) => apply pure_keeps; first [solve [auto] | typeclasses eauto]
  | |- _ => first [by intros k a Hc | solve [auto] | typeclasses eauto]
  end.

#[local] Hint Constants Opaque : typeclass_instances.

Lemma handlers_keep rt : runtime_conf base rt → Forall (λ e, Keeps base e.2) (handlers rt).
Proof.
  intros [Hf Hw Hp He Hsl Hnet]. unfold handlers.
  pose proof (clock_nanosleep_keeps base _ Hsl). pose proof (nanosleep_keeps base _ Hsl).
  pose proof (recvfrom_keeps base _ Hnet). pose proof (sendto_keeps base _ Hnet).
  pose proof (accept_keeps base _ Hnet). pose proof (accept4_keeps base _ Hnet).
  pose proof (connect_keeps base _ Hnet). pose proof (shutdown_keeps base _ Hnet).
  pose proof (sendmsg_keeps base _ Hnet). pose proof (recvmsg_keeps base _ Hnet).
  pose proof (λ o, resolve_keeps base _ Hnet o). pose proof (futex_keeps base _ Hf).
  pose proof (poll_keeps base _ Hp). pose proof (ppoll_keeps base _ Hp). pose proof (select_keeps base _ Hp).
  pose proof (λ o, epoll_wait_keeps base o _ He). pose proof (λ o, epoll_pwait_keeps base o _ He).
  pose proof (λ o, wait4_keeps base o _ Hw).
  repeat apply Forall_cons_2; [..|apply Forall_nil_2]; cbn [snd]; keeps_entry.
Qed.

Lemma dispatch_keeps rt nr k a : runtime_conf base rt → conf base k → kept base (dispatch rt nr k a).
Proof.
  intros Hrt Hc. unfold dispatch. destruct (find_handler _ _) as [h|] eqn:E; [|done].
  apply find_handler_elem in E. pose proof (handlers_keep rt Hrt) as Hall.
  rewrite Forall_forall in Hall. specialize (Hall _ E). by apply Hall.
Qed.
End table.

(** ** Runs *)

(** A guest's calls, one after the other, each under a runtime of its own:
    what they return and where they leave the kernel. *)
Fixpoint calls {W} (d : runtime W → Z → kern W → args → outcome (Z * kern W))
    (cs : list (runtime W * Z * args)) (k : kern W) : outcome (list Z * kern W) :=
  match cs with
  | [] => Return ([], k)
  | (rt, nr, a) :: cs =>
    match d rt nr k a with
    | Return (r, k) =>
      match calls d cs k with
      | Return (rs, k) => Return (r :: rs, k)
      | Hang => Hang
      | Panic => Panic
      end
    | Hang => Hang
    | Panic => Panic
    end
  end.

(** Calls over the confined host, but for the unconfined ones. *)
Definition sandboxed {W} `{Host W} `{Net W} `{Dns W} `{SnapHost W} `{Codec} (base : path)
    (rt : runtime W) (nr : Z) (k : kern W) (a : args) : outcome (Z * kern W) :=
  if unconfined k (as_u32 nr) a then dispatch rt nr k a
  else @dispatch W (confine base _) (confine_net base _) _ (confine_snap base _) _ rt nr k a.

Lemma new_inner_conf {W} arguments env v seed (w : W) m :
  vfs_wf v → conf (root v) (attach_memory (new_inner arguments env v seed w) m).
Proof. intros Hv. split; [done|done|]. intros l f p. by vm_compute. Qed.

(** C7: the sandbox. Take a new kernel over any directory [v] and any
    sequence of syscalls, with any numbers and arguments, between which and
    during which other threads of the kernel may run. Replace the host, for
    every call but a snapshot and a [bind] or [connect] to a UNIX name, by one
    that refuses every operation on a path outside [v]: opening, creating,
    removing, renaming, linking, listing, changing modes, asking for metadata.
    The guest gets the same results, the kernel the same state and the host
    the same state, errors, panics and waits without end included. Paths are
    compared by name; what the host finds behind a symbolic link inside [v] is
    the host's. *)
Theorem sandbox {W} `{Host W} `{Net W} `{Dns W} `{SnapHost W} `{Codec} arguments env v seed (w : W) m cs :
  vfs_wf v → Forall (λ c, runtime_conf (root v) c.1.1) cs →
  let k := attach_memory (new_inner arguments env v seed w) m in
  calls (sandboxed (root v)) cs k = calls dispatch cs k.
Proof.
  intros Hv Hcs k. assert (conf (root v) k) as Hk by by apply new_inner_conf. clearbody k. revert k Hk.
  induction Hcs as [|[[rt nr] a] cs Hrt Hcs IH]; intros k Hk; [done|]. cbn [calls].
  assert (sandboxed (root v) rt nr k a = dispatch rt nr k a) as ->.
  { unfold sandboxed. destruct (unconfined _ _ _) eqn:E; [done|]. by apply dispatch_agrees. }
  pose proof (dispatch_keeps (root v) rt nr k a Hrt Hk) as Hk'.
  destruct (dispatch _ _ _ _) as [[r k']| |]; [|done..]. by rewrite IH.
Qed.

(** ** Witnesses *)

(** A host that lets everything happen and writes it down. *)
Inductive event :=
  | Made (p : path)
  | Linked (target : bytes) (p : path)
  | Wrote (p : path).

Definition Ledger := list event.

#[local] Instance ledger_host : Host Ledger := {
  fs_canonicalize _ p := IoOk p;
  fs_metadata _ _ := IoErr NotFound;
  fs_symlink_metadata _ _ := IoErr NotFound;
  fs_read_dir _ _ := IoErr NotFound;
  fs_open w _ _ := (IoErr NotFound, w);
  fs_create_dir w p := (IoOk tt, w ++ [Made p]);
  fs_remove_dir w _ := (IoErr NotFound, w);
  fs_remove_file w _ := (IoErr NotFound, w);
  fs_rename w _ _ := (IoErr NotFound, w);
  fs_read_link _ _ := IoErr NotFound;
  fs_symlink w t p := (IoOk tt, w ++ [Linked t p]);
  fs_hard_link w _ _ := (IoErr NotFound, w);
  fs_set_permissions w _ _ := (IoErr NotFound, w);
  file_metadata _ _ := IoErr OtherKind;
  file_seek w _ _ := (IoErr OtherKind, w);
  file_read w _ _ := (IoOk [], w);
  file_write w _ _ := (IoOk 0, w);
  file_try_clone w h := (IoOk h, w);
  file_set_len w _ _ := (IoErr OtherKind, w);
  file_set_permissions w _ _ := (IoErr OtherKind, w);
  file_set_modified w _ _ := (IoErr OtherKind, w);
  now _ := 0;
  elapsed _ := 0;
  rng_fill w n := (replicate n 0, w);
  memory_grow w _ _ := (false, w);
}.

#[local] Instance ledger_net : Net Ledger := {
  unix_bind w p := (NetOk 1, w ++ [Made (components p)]);
  unix_listener_clone w h := (NetOk h, w);
  unix_accept w _ := (NetErr NetOther, w);
  unix_connect w _ := (NetErr NetNotFound, w);
  unix_pair w := (NetErr NetOther, w);
  tcp_bind w _ := (NetErr NetAddrInUse, w);
  tcp_accept w _ := (NetErr NetOther, w);
  tcp_connect w _ := (NetErr NetConnectionRefused, w);
  stream_write w _ bs := (NetErr NetOther, w);
  stream_read w _ _ := (NetOk [], w);
  stream_shutdown w _ := w;
  udp_socket w _ := (NetErr NetPermissionDenied, w);
  udp_set_reuse_address w _ _ := w;
  udp_set_only_v6 w _ _ := w;
  udp_bind w _ _ := (NetErr NetAddrInUse, w);
  udp_set_nonblocking w _ := (NetOk tt, w);
  udp_from_std w h := (NetOk h, w);
  udp_local_addr _ _ := NetErr NetOther;
}.

#[local] Instance ledger_snap : SnapHost Ledger := {
  fs_write w p _ := (IoOk tt, w ++ [Wrote p]);
  fs_read _ _ := IoErr NotFound;
  fs_exists _ _ := false;
  rng_from_seed w _ := w;
  std_tcp_bind w _ := (NetErr NetAddrInUse, w);
  std_set_reuseaddr w _ _ := (NetOk tt, w);
  tcp_from_std w h := (NetOk h, w);
  tcp_local_addr _ _ := NetErr NetOther;
  dup_listener w _ := (None, w);
}.

#[local] Instance ledger_dns : Dns Ledger := no_dns Ledger.
#[local] Instance short_codec : Codec := {| to_stdvec _ := Some [1; 2; 3]; from_bytes _ := None |}.

Definition alone : runtime Ledger :=
  {| cache_order := map_to_list; child_order := map_to_list;
     epoll_order m := (map_to_list m).*2; futex_park _ _ _ := None; wait_schedule := [];
     poll_schedule := []; epoll_park := None; sleep _ k := k; net_park k := k |}.

Lemma alone_conf base : runtime_conf base alone.
Proof. by split. Qed.

(** The guest's memory holds ["d"] at 64, ["../../etc"] at 80 and ["/etc"] at
    96. *)
Definition guest_mem : gmem :=
  write_bytes (write_bytes (write_bytes (zero_mem 131072) 64 [100])
    80 [46; 46; 47; 46; 46; 47; 101; 116; 99]) 96 [47; 101; 116; 99].

Definition ledger_kern : kern Ledger :=
  attach_memory (new_inner [] [] sample_vfs (replicate 32 0) []) guest_mem.

Definition mkdir_at (p : Z) : runtime Ledger * Z * args := (alone, NR_MKDIR, Args p 493 0 0 0 0).

(** What a run returns and what the host has written down. *)
Definition seen (o : outcome (list Z * kern Ledger)) : option (list Z * Ledger) :=
  match o with Return (rs, k) => Some (rs, k_host k) | _ => None end.

Lemma sandbox_witness :
  let cs := [mkdir_at 64; mkdir_at 80; (alone, NR_CHDIR, Args 64 0 0 0 0 0); mkdir_at 64] in
  seen (calls (sandboxed (root sample_vfs)) cs ledger_kern) =
    Some ([0; - EACCES; - ENOENT; 0], [Made (cwd sample_vfs ++ [Normal [100]]); Made (cwd sample_vfs ++ [Normal [100]])]) ∧
  seen (calls dispatch cs ledger_kern) =
    Some ([0; - EACCES; - ENOENT; 0], [Made (cwd sample_vfs ++ [Normal [100]]); Made (cwd sample_vfs ++ [Normal [100]])]).
Proof.
  intros cs. assert (calls (sandboxed (root sample_vfs)) cs ledger_kern = calls dispatch cs ledger_kern) as ->.
  { apply (sandbox [] [] sample_vfs (replicate 32 0) [] guest_mem cs); [apply sample_vfs_wf|].
    repeat (apply Forall_cons_2; [apply alone_conf|]). apply Forall_nil_2. }
  split; vm_compute; reflexivity.
Defined.

(** The snapshot call writes where the guest says: a file outside the
    directory. *)
Lemma snapshot_escapes :
  seen (calls dispatch [(alone, NR_SNAPSHOT, Args 96 0 0 0 0 0)] ledger_kern) =
    Some ([3], [Wrote [RootDir; Normal [101; 116; 99]]]).
Proof. vm_compute. reflexivity. Qed.

(** A symbolic link inside may name anything outside: its target is not
    resolved, and the host follows it in later calls. *)
Lemma symlink_target_outside :
  seen (calls dispatch [(alone, NR_SYMLINK, Args 96 64 0 0 0 0)] ledger_kern) =
    Some ([0], [Linked [47; 101; 116; 99] (cwd sample_vfs ++ [Normal [100]])]).
Proof. vm_compute. reflexivity. Qed.
