(* ===== verification/SysRet.v ===== *)
(** * What the syscalls answer

    The convention between the kernel and the C library of the guest: a result
    from -4095 to -1 is an errno, anything else is a value. [Errs] says that
    the errors of the helpers that return a [Result] are errnos, [StOk] that a
    handler answers 0 or an errno, [CtOk] that it answers an errno or at most
    the count it was asked for, [RetOk] that it answers an errno or a value
    of at most 2^32, and [syscall_result] what the whole dispatch table
    answers, with the calls of each kind, the calls that may sleep for ever
    and the calls that may panic listed by number. *)

From S2P Require Import Prelude Word Errno GuestMem Text Parse Path Host Vfs Udp Net Fd Sock Futex LinearAllocator Resolver Kernel Snapshot.
From S2P Require Import KernInv SysMemory SysPath SysEventfd SysFile SysFileInv SysSignal SysFutex SysProcess SysPoll SysEpoll SysMisc SysSocket SysSocketInv SysResolver SnapshotSpec Dispatch.

(** ** Results *)

(** What most handlers answer: an errno, or a value in the range of guest
    memory sizes. *)
Definition ret_ok (r : Z) : Prop := -4095 ≤ r ≤ 2 ^ 32.

(** What the calls without a value to return answer: 0 or an errno. *)
Definition st_ok (r : Z) : Prop := -4095 ≤ r ≤ 0.

(** What the calls that move bytes answer: an errno, or at most the count they
    were asked for. *)
Definition ct_ok (n r : Z) : Prop := -4095 ≤ r ≤ Z.min (2 ^ 32) (Z.max 0 n).

(** The error side of a helper is an errno. *)
Class Errs {A} (r : result A) : Prop :=
  errs : match r with Ok _ => True | Err e => errno_ok e end.

Lemma errno_ret e : errno_ok e → ret_ok e.
Proof. unfold errno_ok, ret_ok. lia. Qed.

Lemma errno_st e : errno_ok e → st_ok e.
Proof. unfold errno_ok, st_ok. lia. Qed.

Lemma st_ret r : st_ok r → ret_ok r.
Proof. unfold st_ok, ret_ok. lia. Qed.

Lemma st_ct n r : st_ok r → ct_ok n r.
Proof. unfold st_ok, ct_ok. lia. Qed.
Lemma ct_ret n r : ct_ok n r → ret_ok r.
Proof. unfold ct_ok, ret_ok. lia. Qed.
Lemma len_ct n r : 0 ≤ r ≤ n → n ≤ 2 ^ 32 → ct_ok n r.
Proof. unfold ct_ok. lia. Qed.

Lemma errs_st {A} (r : result A) e : Errs r → r = Err e → st_ok e.
Proof. intros Hr ->. by apply errno_st. Qed.

Lemma errs_ret {A} (r : result A) e : Errs r → r = Err e → ret_ok e.
Proof. intros Hr ->. by apply errno_ret. Qed.

Lemma errs_bind {A B} (r : result A) (f : A → result B) :
  Errs r → (∀ x, r = Ok x → Errs (f x)) → Errs (x <-? r; f x).
Proof. destruct r; simpl; [|done]. intros _ Hf. by apply Hf. Qed.

Lemma errs_option {A} e (o : option A) : errno_ok e → Errs (result_of_option e o).
Proof. by destruct o. Qed.

(** Close a goal about a constant result. *)
Ltac const_ok :=
  cbn [fst];
  lazymatch goal with
  | |- Errs (Err _) => red
  | _ => idtac
  end;
  match goal with
  | |- ?P (- ?c) => is_const c
  | |- ?P ?c => first [is_const c | lazymatch c with Z0 => idtac | Zpos _ => idtac end]
  end; split; by vm_compute.

(** Follow a helper to its errors. *)
Ltac errs_tac :=
  repeat (cbn [fst]; first
    [ exact I | typeclasses eauto | const_ok
    | apply errs_option | apply errs_bind; [|intros ? _]
    | match goal with |- context [match ?x with _ => _ end] => destruct x end ]).

Lemma io_to_errno_ok e : errno_ok (io_to_errno e).
Proof. destruct e; split; by vm_compute. Qed.
Lemma file_io_to_errno_ok e : errno_ok (- file_io_to_errno e).
Proof. destruct e; split; by vm_compute. Qed.

#[global] Instance map_io_errs {A} (r : io A) : Errs (map_err io_to_errno r).
Proof. destruct r; [done|]. apply io_to_errno_ok. Qed.

(** *** Guest memory, descriptors and paths *)

Section helpers.
Context {W : Type} `{Host W} `{Net W}.
Implicit Types k : kern W.

#[export] Instance memory_errs k : Errs (memory k).
Proof. unfold memory. errs_tac. Qed.
#[export] Instance range_end_errs p n : Errs (range_end p n).
Proof. unfold range_end. errs_tac. Qed.
#[export] Instance guest_slice_errs k p n : Errs (guest_slice k p n).
Proof. unfold guest_slice. errs_tac. Qed.
#[export] Instance guest_slice_mut_errs k p n : Errs (guest_slice_mut k p n).
Proof. unfold guest_slice_mut. errs_tac. Qed.
#[export] Instance guest_slice_mut_via_errs m p n : Errs (guest_slice_mut_via m p n).
Proof. unfold guest_slice_mut_via. errs_tac. Qed.
#[export] Instance guest_write_errs k p bs : Errs (guest_write k p bs).
Proof. unfold guest_write. errs_tac. Qed.
#[export] Instance guest_str_errs k p n : Errs (guest_str k p n).
Proof. unfold guest_str. errs_tac. Qed.
#[export] Instance get_errs t fd : Errs (get t fd).
Proof. unfold get. errs_tac. Qed.
#[export] Instance close_errs t fd : Errs (Fd.close t fd).1.
Proof. unfold Fd.close. errs_tac. Qed.
#[export] Instance insert_at_errs t fd r : Errs (insert_at t fd r).1.
Proof. unfold insert_at. errs_tac. Qed.

#[export] Instance normalize_fold_errs l acc : Errs acc → Errs (foldl normalize_step acc l).
Proof.
  revert acc. induction l as [|c l IH]; intros acc Hacc; [done|]. simpl. apply IH.
  unfold normalize_step. errs_tac.
Qed.
#[export] Instance normalize_errs v p : Errs (normalize v p).
Proof. unfold normalize. apply errs_bind; [by apply normalize_fold_errs|]. intros ? _. errs_tac. Qed.
#[export] Instance resolve_path_errs v d s : Errs (resolve_path v d s).
Proof. unfold resolve_path. errs_tac. Qed.
#[export] Instance dirfd_path_errs k d : Errs (dirfd_path k d).
Proof. unfold dirfd_path. errs_tac. Qed.
#[export] Instance resolve_errs k d s : Errs (SysPath.resolve k d s).
Proof. unfold SysPath.resolve, resolve_via_cwd_or_root, resolve_via_dirfd. errs_tac. Qed.

#[export] Instance open_options_errs f : Errs (open_options f).
Proof. unfold open_options. errs_tac. Qed.
#[export] Instance Vfs_open_errs (w : W) p f m : Errs (Vfs_open w p f m).1.
Proof.
  unfold Vfs_open. pose proof (open_options_errs f) as Ho. destruct (open_options f); [|exact Ho].
  repeat case_match; simpl; try done; first [apply io_to_errno_ok|split; by vm_compute].
Qed.
#[export] Instance Vfs_stat_errs (w : W) p : Errs (Vfs_stat w p).
Proof. unfold Vfs_stat. errs_tac. Qed.
#[export] Instance readdir_all_errs (w : W) p : Errs (readdir_all w p).
Proof. unfold readdir_all. errs_tac. Qed.
#[export] Instance Vfs_chdir_errs (w : W) v p : Errs (Vfs_chdir w v p).
Proof. unfold Vfs_chdir. errs_tac. Qed.
#[export] Instance Vfs_chroot_errs (w : W) v p : Errs (Vfs_chroot w v p).
Proof. unfold Vfs_chroot. errs_tac. Qed.

(** *** File helpers *)

#[export] Instance require_u64_buf_errs n : Errs (require_u64_buf n).
Proof. unfold require_u64_buf. errs_tac. Qed.
#[export] Instance eventfd_read_errs e : Errs (eventfd_read e).1.
Proof. unfold eventfd_read. errs_tac. Qed.
#[export] Instance read_loop_errs fuel (w : W) f n got : Errs (read_loop fuel w f n got).1.
Proof.
  revert w got. induction fuel as [|fuel IH]; intros w got; simpl; [exact I|].
  destruct (file_read w f 4096) as [[c|e] w']; [|const_ok]. by repeat case_match.
Qed.
#[export] Instance clone_file_errs k fd : Errs (clone_file k fd).1.
Proof.
  unfold clone_file. pose proof (get_errs (k_fds k) fd) as Hg. destruct (get (k_fds k) fd) as [r|]; [|exact Hg].
  destruct r; simpl; try const_ok. destruct (file_try_clone _ _) as [[?|e] w]; simpl; [exact I|].
  apply file_io_to_errno_ok.
Qed.
#[export] Instance utimens_mtime_errs k p : Errs (utimens_mtime k p).
Proof. unfold utimens_mtime. errs_tac. Qed.

(** *** The other helpers *)

#[export] Instance positive_usize_errs x : Errs (positive_usize x).
Proof. unfold positive_usize. errs_tac. Qed.
#[export] Instance write_oldact_errs k p s : Errs (write_oldact k p s).
Proof. unfold write_oldact. errs_tac. Qed.
#[export] Instance write_i32_via_errs m k p v : Errs (write_i32_via m k p v).
Proof. unfold write_i32_via. errs_tac. Qed.
#[export] Instance decode_timespec_errs k p : Errs (decode_timespec k p).
Proof. unfold decode_timespec. errs_tac. Qed.
#[export] Instance futex_wait_begin_errs k u v t : Errs (futex_wait_begin k u v t).
Proof. unfold futex_wait_begin. errs_tac. Qed.
#[export] Instance timespec_ms_errs k p : Errs (timespec_ms k p).
Proof. unfold timespec_ms. errs_tac. Qed.
#[export] Instance timeval_ms_errs k p : Errs (timeval_ms k p).
Proof. unfold timeval_ms. errs_tac. Qed.

#[export] Instance parse_sockaddr_errs k p n : Errs (parse_sockaddr k p n).
Proof. unfold parse_sockaddr. errs_tac. Qed.
#[export] Instance check_out_errs k p n : Errs (check_out k p n).
Proof. unfold check_out. errs_tac. Qed.
#[export] Instance get_sock_errs k fd : Errs (get_sock k fd).
Proof. unfold get_sock. errs_tac. Qed.
#[export] Instance socket_kind_errs f t : Errs (socket_kind f t).
Proof. unfold socket_kind. errs_tac. Qed.
#[export] Instance gather_errs k l : Errs (gather k l).
Proof. induction l as [|[b n] l IH]; simpl; errs_tac. Qed.
#[export] Instance read_msghdr_iov_errs k p : Errs (read_msghdr_iov k p).
Proof. unfold read_msghdr_iov. errs_tac. Qed.
#[export] Instance local_name_errs s : Errs (local_name s).
Proof. unfold local_name. errs_tac. Qed.

#[export] Instance read_node_errs k p : Errs (read_node k p).
Proof. unfold read_node. errs_tac. Qed.
#[export] Instance read_hints_errs k p : Errs (read_hints k p).
Proof. unfold read_hints. errs_tac. Qed.
#[export] Instance read_service_errs k p : Errs (read_service k p).
Proof. unfold read_service. errs_tac. Qed.
#[export] Instance read_query_errs k a : Errs (read_query k a).
Proof. unfold read_query. errs_tac. Qed.

End helpers.

(** ** Handlers *)

Class RetOk {W} (h : kern W → args → Z * kern W) : Prop :=
  ret_ok_of k a : kern_wf k → ret_ok (h k a).1.

Class StOk {W} (h : kern W → args → Z * kern W) : Prop :=
  st_ok_of k a : kern_wf k → st_ok (h k a).1.

#[global] Instance st_ok_ret {W} (h : kern W → args → Z * kern W) : StOk h → RetOk h | 20.
Proof. intros Hh k a Hk. by apply st_ret, Hh. Qed.

Class CtOk {W} (h : kern W → args → Z * kern W) : Prop :=
  ct_ok_of k a : kern_wf k → ct_ok (a2 a) (h k a).1.

#[global] Instance ct_ok_ret {W} (h : kern W → args → Z * kern W) : CtOk h → RetOk h | 20.
Proof. intros Hh k a Hk. eapply ct_ret, Hh, Hk. Qed.

(** A range the kernel could slice is not longer than the memory. *)
Lemma in_memory_len {W} (k : kern W) p n : kern_wf k → in_memory k p n → 0 ≤ n ≤ 2 ^ 32.
Proof. intros Hk (m & Hm & ? & ? & ? & _). destruct (kw_mem _ Hk m Hm) as [? _]. lia. Qed.

Lemma slice_len {W} (k : kern W) p n q : kern_wf k → guest_slice_mut k p n = Ok q → 0 ≤ n ≤ 2 ^ 32.
Proof. intros Hk [Hin _]%guest_slice_mut_Ok. by eapply in_memory_len. Qed.

Lemma slice_bytes_len {W} (k : kern W) p n bs :
  kern_wf k → guest_slice k p n = Ok bs → Z.of_nat (length bs) ≤ 2 ^ 32.
Proof.
  intros Hk Hs. pose proof (guest_slice_length _ _ _ _ Hs) as ->. apply guest_slice_Ok in Hs as [Hin _].
  by eapply in_memory_len.
Qed.

Lemma write_len {W} (k : kern W) p bs k' :
  kern_wf k → guest_write k p bs = Ok k' → Z.of_nat (length bs) ≤ 2 ^ 32.
Proof. intros Hk [Hin _]%guest_write_Ok. by apply (in_memory_len _ _ _ Hk Hin). Qed.

Lemma nat_ret n : Z.of_nat n ≤ 2 ^ 32 → ret_ok (Z.of_nat n).
Proof. unfold ret_ok. lia. Qed.

(** Follow a handler to its answers: constants, and the errors of helpers. *)
Ltac ret_tac :=
  repeat (cbn [fst snd]; first
    [ const_ok
    | match goal with
      | H : ?r = Err ?e |- ret_ok ?e => apply (errs_ret r); [typeclasses eauto|exact H]
      | H : ?r = (Err ?e, _) |- ret_ok ?e =>
        apply (errs_ret r.1); [typeclasses eauto|by rewrite H]
      | H : ?r = Err ?e |- st_ok ?e => apply (errs_st r); [typeclasses eauto|exact H]
      | H : ?r = (Err ?e, _) |- st_ok ?e =>
        apply (errs_st r.1); [typeclasses eauto|by rewrite H]
      | |- ret_ok (- file_io_to_errno _) => apply errno_ret, file_io_to_errno_ok
      | |- st_ok (- file_io_to_errno _) => apply errno_st, file_io_to_errno_ok
      | H : guest_write _ _ ?bs = Ok _ |- ret_ok (Z.of_nat (length ?bs)) =>
        apply nat_ret; eapply write_len; [|exact H]; eauto with libos
      end
    | match goal with |- context [match ?x with _ => _ end] => destruct x eqn:? end ]).

Ltac ct_tac := apply st_ct; solve [ret_tac].

(** A handler that may also sleep for ever, or panic. *)
Definition answers {W} (P : Z → Prop) (hangs panics : bool) (o : outcome (Z * kern W)) : Prop :=
  match o with Return x => P x.1 | Hang => hangs = true | Panic => panics = true end.

Class Answers {W} (P : Z → Prop) (hangs panics : bool) (h : kern W → args → outcome (Z * kern W)) : Prop :=
  answers_of k a : kern_wf k → answers P hangs panics (h k a).

Ltac out_tac :=
  repeat first
    [ reflexivity
    | match goal with
      | |- answers _ _ _ (Return _) => red; solve [ret_tac]
      | |- answers _ _ _ (match ?x with _ => _ end) => destruct x eqn:?
      end ].

Section file.
Context {W : Type} `{Host W} `{!HostLaws W}.
Implicit Types k : kern W.

Lemma finish_read_ct k p n eof tmp :
  Z.of_nat (length tmp) ≤ n → n ≤ 2 ^ 32 → ct_ok n (finish_read k p n eof tmp).1.
Proof.
  intros Ht Hn. unfold finish_read. do 2 (case_match; [ct_tac|]). destruct (guest_slice_mut _ _ _) eqn:?; [|ct_tac].
  apply len_ct; simpl; lia.
Qed.

Lemma read_file_ct k l p n : 0 ≤ n ≤ 2 ^ 32 → ct_ok n (read_file k l p n).1.
Proof using HostLaws0.
  intros Hn. unfold read_file. destruct (file_seek _ _ _) as [_o w].
  destruct (read_loop _ _ _ _ _) as [[got|e] w'] eqn:E; [|ct_tac].
  apply finish_read_ct; [|lia]. apply read_loop_length in E; simpl in *; lia.
Qed.

(** A 64-bit counter is moved whole, into or out of a buffer that holds it. *)
Lemma u64_buf_ct n u : require_u64_buf n = Ok u → n ≤ 2 ^ 32 → ct_ok n 8.
Proof. unfold require_u64_buf. case_if; [done|]. to_prop. intros _ Hn. by apply len_ct. Qed.

Lemma read_eventfd_ct k fd e p n : n ≤ 2 ^ 32 → ct_ok n (read_eventfd k fd e p n).1.
Proof.
  intros Hn. unfold read_eventfd. pose proof (eventfd_read_errs e) as He.
  destruct (require_u64_buf _) eqn:Er; [|ct_tac]. destruct (eventfd_read e) as [[v|x] e'].
  - case_match; [ct_tac|]. destruct (guest_write _ _ _) eqn:?; [by eapply u64_buf_ct|ct_tac].
  - by apply st_ct, errno_st.
Qed.

#[export] Instance read_ct recvfrom `{!CtOk recvfrom} : CtOk (read recvfrom).
Proof using HostLaws0.
  intros k a Hk. unfold read. destruct (u32_try_from _) as [fd|]; [|ct_tac].
  destruct (guest_slice_mut k _ _) eqn:Es; [|ct_tac]. apply slice_len in Es; [|done].
  destruct (usize_try_from _) as [len|] eqn:El; [|ct_tac].
  assert (len = a2 a) as -> by (unfold usize_try_from in El; case_if; simplify_eq; done).
  case_if; [ct_tac|]. destruct (get _ _) as [r|] eqn:?; [|ct_tac].
  destruct r; try ct_tac; first
    [ apply read_eventfd_ct; lia | by apply read_file_ct | exact (ct_ok_of k (Args _ _ (a2 a) 0 0 0) Hk)
    | unfold read_pipe; destruct (_ && p_nonblock _); [ct_tac|]; apply finish_read_ct; rewrite ?length_take; lia ].
Qed.

Lemma write_file_ct k l bs : Z.of_nat (length bs) ≤ 2 ^ 32 → ct_ok (Z.of_nat (length bs)) (write_file k l bs).1.
Proof using HostLaws0.
  intros Hb. unfold write_file. destruct (file_write _ _ _) as [[n|e] w] eqn:E; [|ct_tac].
  apply file_write_le in E. apply len_ct; simpl; lia.
Qed.

#[export] Instance write_ct sendto `{!CtOk sendto} : CtOk (write sendto).
Proof using HostLaws0.
  intros k a Hk. unfold write. destruct (u32_try_from _) as [fd|]; [|ct_tac].
  destruct (guest_slice k _ _) as [bs|] eqn:Es; [|ct_tac].
  pose proof (guest_slice_length _ _ _ _ Es) as Hl. pose proof (slice_bytes_len _ _ _ _ Hk Es) as Hb.
  apply guest_slice_Ok in Es as [Hin%in_memory_len _]; [|done].
  assert (a2 a = Z.of_nat (length bs)) as Ha by lia.
  case_match; [ct_tac|]. destruct (get _ _) as [r|] eqn:?; [|ct_tac].
  destruct r; try ct_tac; first
    [ rewrite Ha; by apply write_file_ct | exact (ct_ok_of k (Args _ _ (a2 a) 0 0 0) Hk)
    | rewrite Ha; apply len_ct; simpl; lia | idtac ].
  unfold write_eventfd. destruct (require_u64_buf _) eqn:Er; [|ct_tac]. destruct (eventfd_write _ _).
  eapply u64_buf_ct; [done|lia].
Qed.







(** *** Descriptors *)

Lemma insert_ret (t : FdTable) r : fdt_wf t → ret_ok (insert t r).1.
Proof. intros [Hb _]. simpl. unfold ret_ok, U32_MAX in *. lia. Qed.

#[export] Instance openat_ret : RetOk openat.
Proof.
  intros k a Hk. unfold openat. destruct (guest_str _ _ _) eqn:?; [|ret_tac].
  destruct (SysPath.resolve _ _ _) eqn:?; [|ret_tac]. destruct (Vfs_open _ _ _ _) as [[f|e] w] eqn:E; [|ret_tac].
  simpl. apply (insert_ret _ (RFile 0)). apply Hk.
Qed.
#[export] Instance open_ret : RetOk open.
Proof. intros k a Hk. by apply openat_ret. Qed.
#[export] Instance close_st : StOk (close (W:=W)).
Proof. intros k a Hk. unfold close. ret_tac. Qed.
#[export] Instance fstat_st : StOk fstat.
Proof. intros k a Hk. unfold fstat, stat_write_to_guest. ret_tac. Qed.
#[export] Instance newfstatat_st : StOk newfstatat.
Proof.
  intros k a Hk. unfold newfstatat. destruct (guest_str _ _ _) eqn:?; [|ret_tac].
  case_match; [by apply fstat_st|]. unfold stat_write_to_guest. ret_tac.
Qed.
#[export] Instance stat_st : StOk stat.
Proof. intros k a Hk. by apply newfstatat_st. Qed.
#[export] Instance lstat_st : StOk lstat.
Proof. intros k a Hk. by apply newfstatat_st. Qed.

#[export] Instance statx_st : StOk statx.
Proof.
  intros k a Hk. unfold statx. case_match; [ret_tac|]. destruct (guest_slice_mut _ _ _) eqn:?; [|ret_tac].
  destruct (guest_str _ _ _) as [s|] eqn:?; [|ret_tac].
  match goal with |- context [match ?r with Ok _ => _ | Err e => (e, _) end] => set (st := r) end.
  assert (Errs st) as Hst by (subst st; unfold map_err; errs_tac). destruct st; [ret_tac|by apply errno_st].
Qed.

Lemma getdents_slice_ct k l p n : 0 ≤ n ≤ 2 ^ 32 → ct_ok n (getdents_slice k l p n).1.
Proof.
  intros Hn. unfold getdents_slice. destruct (dir_cache _); [|ct_tac]. case_match; [ct_tac|].
  case_match; [ct_tac|]. destruct (guest_write _ _ _) eqn:E; [|ct_tac].
  apply len_ct; [|lia]. simpl. rewrite length_take. lia.
Qed.

#[export] Instance getdents64_ct : CtOk getdents64.
Proof.
  intros k a Hk. unfold getdents64. destruct (u32_try_from _); [|ct_tac].
  destruct (guest_slice_mut _ _ _) eqn:Es; [|ct_tac]. apply slice_len in Es; [|done].
  destruct (usize_try_from _) eqn:En; [|ct_tac]. apply usize_try_from_Some in En as [<- _].
  case_match; [ct_tac|]. destruct (get _ _) as [r|] eqn:Eg; [|ct_tac].
  destruct r; try ct_tac. case_match; [ct_tac|]. destruct (fpath _); [|ct_tac].
  destruct (dir_cache _); [by apply getdents_slice_ct|]. destruct (readdir_all _ _) eqn:?; [|ct_tac].
  by apply getdents_slice_ct.
Qed.

#[export] Instance pipe2_st : StOk (pipe2 (W:=W)).
Proof. intros k a Hk. unfold pipe2. ret_tac. Qed.
#[export] Instance sys_pipe_st : StOk (sys_pipe (W:=W)).
Proof. intros k a Hk. by apply pipe2_st. Qed.

(** *** Paths *)

Lemma with_path_ret k d p f : (∀ abs, ret_ok (f abs).1) → ret_ok (with_path k d p f).1.
Proof. intros Hf. unfold with_path. ret_tac. apply Hf. Qed.
Lemma with_path_st k d p f : (∀ abs, st_ok (f abs).1) → st_ok (with_path k d p f).1.
Proof. intros Hf. unfold with_path. ret_tac. apply Hf. Qed.
Lemma with_paths_st k d1 p1 d2 p2 f :
  (∀ x y, st_ok (f x y).1) → st_ok (with_paths k d1 p1 d2 p2 f).1.
Proof. intros Hf. unfold with_paths. ret_tac. apply Hf. Qed.
Lemma host_unit_st k (r : io unit * W) : st_ok (host_unit k r).1.
Proof. unfold host_unit. ret_tac. Qed.

#[local] Ltac path_st :=
  intros k a Hk; repeat (apply with_path_st; intros ?); repeat (apply with_paths_st; intros ? ?);
  repeat first [apply host_unit_st | case_match]; ret_tac; apply host_unit_st.

#[export] Instance mkdir_st : StOk mkdir.
Proof. path_st. Qed.
#[export] Instance mkdirat_st : StOk mkdirat.
Proof. path_st. Qed.
#[export] Instance rmdir_st : StOk rmdir.
Proof. path_st. Qed.
#[export] Instance unlink_st : StOk unlink.
Proof. path_st. Qed.
#[export] Instance unlinkat_st : StOk unlinkat.
Proof. path_st. Qed.
#[export] Instance renameat_st : StOk renameat.
Proof. path_st. Qed.
#[export] Instance rename_st : StOk rename.
Proof. path_st. Qed.
#[export] Instance renameat2_st : StOk renameat2.
Proof. path_st. Qed.
#[export] Instance linkat_st : StOk linkat.
Proof. path_st. Qed.
#[export] Instance link_st : StOk link.
Proof. path_st. Qed.
#[export] Instance fchmodat_st : StOk fchmodat.
Proof. path_st. Qed.
#[export] Instance chmod_st : StOk chmod.
Proof. path_st. Qed.
#[export] Instance faccessat2_st : StOk faccessat2.
Proof. path_st. Qed.
#[export] Instance faccessat_st : StOk faccessat.
Proof. path_st. Qed.
#[export] Instance chdir_st : StOk chdir.
Proof. path_st. Qed.
#[export] Instance chroot_st : StOk chroot.
Proof. path_st. Qed.

#[export] Instance symlinkat_st : StOk symlinkat.
Proof.
  intros k a Hk. unfold symlinkat. destruct (guest_str _ _ _) eqn:?; [|ret_tac].
  apply with_path_st. intros ?. apply host_unit_st.
Qed.
#[export] Instance symlink_st : StOk symlink.
Proof. intros k a Hk. by apply symlinkat_st. Qed.
#[export] Instance readlinkat_ret : RetOk readlinkat.
Proof.
  intros k a Hk. unfold readlinkat. destruct (usize_try_from _); [|ret_tac]. apply with_path_ret. intros ?. ret_tac.
Qed.
#[export] Instance readlink_ret : RetOk readlink.
Proof. intros k a Hk. by apply readlinkat_ret. Qed.
#[export] Instance truncate_st : StOk truncate.
Proof. intros k a Hk. unfold truncate. repeat first [apply host_unit_st | case_match]; ret_tac. Qed.
#[export] Instance ftruncate_st : StOk ftruncate.
Proof. intros k a Hk. unfold ftruncate. repeat first [apply host_unit_st | case_match]; ret_tac. Qed.
#[export] Instance fchmod_st : StOk fchmod.
Proof. intros k a Hk. unfold fchmod. repeat first [apply host_unit_st | case_match]; ret_tac. Qed.
#[export] Instance getcwd_ret : RetOk (getcwd (W:=W)).
Proof.
  intros k a Hk. unfold getcwd. destruct (usize_try_from _); [|ret_tac]. case_match; [ret_tac|].
  destruct (guest_write _ _ _) eqn:E; [|ret_tac]. apply write_len in E; [|done].
  rewrite length_app in E. apply nat_ret. lia.
Qed.

(** *** Calls that may not return *)

Lemma dup_fd_answers k fd m c : 0 ≤ m ≤ U32_MAX → answers ret_ok true false (dup_fd k fd m c).
Proof.
  intros Hm. unfold dup_fd. destruct (get _ _) eqn:?; [|out_tac]. destruct (clone_resource _); [|out_tac].
  destruct (insert_at_least _ _ _) as [[n t]|] eqn:E; [|done].
  apply bind_Some in E as (x & Hx & [= <- _]). apply probe_sound in Hx as (_ & Hr & _); [|lia].
  red. cbn [fst]. unfold ret_ok, U32_MAX in *. lia.
Qed.

Lemma status_flags_ret h r : ret_ok (status_flags h r).
Proof. unfold status_flags. repeat case_match; split; by vm_compute. Qed.

#[export] Instance fcntl_answers : Answers ret_ok true false (fcntl (W:=W)).
Proof.
  intros k a Hk. unfold fcntl. destruct (u32_try_from _); [|out_tac].
  case_match. { red. cbn [fst]. destruct (get _ _) eqn:?; [apply status_flags_ret|ret_tac]. }
  case_match; [out_tac|]. case_match; [red; cbn [fst]; ret_tac|]. case_match; [out_tac|].
  case_match; [|out_tac]. case_match; [out_tac|]. apply dup_fd_answers.
  pose proof (wrapu_range 32 (a2 a)). unfold is_u, as_u32, U32_MAX in *. lia.
Qed.

#[export] Instance dup_answers : Answers ret_ok true false (dup (W:=W)).
Proof.
  intros k a Hk. unfold dup. destruct (u32_try_from _) as [x|]; [|out_tac]. apply dup_fd_answers.
  pose proof (wrapu_range 32 (x + 1)). unfold is_u, as_u32, U32_MAX in *. lia.
Qed.

Lemma dup_to_answers k x y c : is_u 32 y → answers ret_ok false false (internal_dup k x (Some y) c).
Proof.
  intros Hy. unfold internal_dup. destruct (get _ _) eqn:?; [|out_tac]. destruct (clone_resource _); [|out_tac].
  destruct (Fd.close _ _) as [u t]. destruct (insert_at t y _) as [[n|e] t'] eqn:E; [|out_tac].
  unfold insert_at in E. case_match; simplify_eq. red. cbn [fst]. unfold ret_ok, is_u in *. lia.
Qed.

#[export] Instance dup2_answers : Answers ret_ok false false (dup2 (W:=W)).
Proof.
  intros k a Hk. unfold dup2. destruct (u32_try_from _) as [x|]; [|out_tac].
  destruct (u32_try_from (a1 a)) as [y|] eqn:Ey; [|out_tac]. apply u32_try_from_Some in Ey as [-> Hy].
  case_match; [|by apply dup_to_answers]. red. cbn [fst]. destruct (get _ _) eqn:?; [|ret_tac].
  unfold ret_ok, is_u in *. lia.
Qed.

#[export] Instance dup3_answers : Answers ret_ok false false (dup3 (W:=W)).
Proof.
  intros k a Hk. unfold dup3. destruct (u32_try_from _) as [x|]; [|out_tac].
  destruct (u32_try_from (a1 a)) as [y|] eqn:Ey; [|out_tac]. apply u32_try_from_Some in Ey as [-> Hy].
  case_match; [out_tac|]. case_match; [out_tac|]. by apply dup_to_answers.
Qed.

#[export] Instance utimensat_answers : Answers st_ok false true utimensat.
Proof.
  intros k a Hk. unfold utimensat. repeat first [apply host_unit_st | case_match]; out_tac.
Qed.


End file.

(** ** The other components *)

Section rest.
Context {W : Type} `{Host W}.
Implicit Types k : kern W.

Lemma u32_ret x : is_u 32 x → ret_ok x.
Proof. unfold is_u, ret_ok. lia. Qed.

#[export] Instance mmap_ret : RetOk mmap.
Proof.
  intros k a Hk. unfold mmap. destruct (positive_usize _) eqn:?; [|ret_tac].
  destruct (memory k) eqn:?; [|ret_tac]. destruct (LinearAllocator.mmap _ _ _ _ _ _ _) as [d mm].
  destruct (match d with NeedGrow _ => _ | _ => _ end) as [ok k1]. case_match; [ret_tac|].
  destruct (LinearAllocator.mmap _ _ _ _ _ _ _) as [d2 mm2] eqn:E. apply mmap_result_range in E as [E _].
  destruct d2; simpl; [by apply u32_ret|split; by vm_compute|by apply errno_ret].
Qed.
#[export] Instance munmap_st : StOk (munmap (W:=W)).
Proof.
  intros k a Hk. unfold munmap. destruct (u32_try_from _); [|ret_tac]. destruct (usize_try_from _); [|ret_tac].
  unfold LinearAllocator.munmap. case_if; [ret_tac|]. destruct (munmap_arenas _ _ _); ret_tac.
Qed.
#[export] Instance mremap_ret : RetOk (mremap (W:=W)).
Proof.
  intros k a Hk. unfold mremap. destruct (u32_try_from _) as [old|] eqn:Eo; [|ret_tac].
  apply u32_try_from_Some in Eo as [-> Ho%u32_ret]. destruct (positive_usize _) eqn:?; [|ret_tac].
  destruct (positive_usize (a2 a)) eqn:?; [|ret_tac]. do 3 (case_match; [first [exact Ho|ret_tac]|]).
  unfold grow_in_place. case_if; [exact Ho|]. destruct (grow_arenas _ _ _ _); [exact Ho|ret_tac].
Qed.

(** *** Identity, limits, clocks, signals *)

#[export] Instance uname_st : StOk (uname (W:=W)).
Proof. intros k a Hk. unfold uname. ret_tac. Qed.
#[export] Instance prlimit64_st : StOk (prlimit64 (W:=W)).
Proof. intros k a Hk. unfold prlimit64. ret_tac. Qed.
#[export] Instance getrlimit_st : StOk (getrlimit (W:=W)).
Proof. intros k a Hk. by apply prlimit64_st. Qed.
#[export] Instance getgroups_st : StOk (getgroups (W:=W)).
Proof. intros k a Hk. unfold getgroups. ret_tac. Qed.
#[export] Instance getrandom_ret : RetOk getrandom.
Proof.
  intros k a Hk. unfold getrandom. case_match; [ret_tac|]. destruct (usize_try_from _) eqn:Eu; [|ret_tac].
  apply usize_try_from_Some in Eu as [-> Hu]. case_if; [ret_tac|]. case_match; [ret_tac|].
  destruct (rng_fill _ _). destruct (memory _) eqn:?; [|ret_tac]. destruct (guest_slice_mut_via _ _ _) eqn:?; [|ret_tac].
  cbn [fst]. unfold ret_ok, is_u, MAX_LEN in *. lia.
Qed.
#[export] Instance ioctl_st : StOk (ioctl (W:=W)).
Proof. intros k a Hk. unfold ioctl. ret_tac. Qed.
#[export] Instance clock_gettime_st : StOk clock_gettime.
Proof. intros k a Hk. unfold clock_gettime. ret_tac. Qed.
#[export] Instance clock_getres_st : StOk (clock_getres (W:=W)).
Proof. intros k a Hk. unfold clock_getres. ret_tac. Qed.
Lemma write_rem_st k p : st_ok (write_rem k p).1.
Proof. unfold write_rem. ret_tac. Qed.
#[export] Instance clock_nanosleep_st sleep : StOk (clock_nanosleep sleep).
Proof. intros k a Hk. unfold clock_nanosleep. ret_tac; apply write_rem_st. Qed.
#[export] Instance nanosleep_st sleep : StOk (nanosleep (W:=W) sleep).
Proof. intros k a Hk. unfold nanosleep. ret_tac; apply write_rem_st. Qed.
#[export] Instance gettimeofday_st : StOk gettimeofday.
Proof. intros k a Hk. unfold gettimeofday. ret_tac. Qed.
#[export] Instance sysinfo_st : StOk (sysinfo (W:=W)).
Proof. intros k a Hk. unfold sysinfo. ret_tac. Qed.
#[export] Instance times_ret : RetOk (times (W:=W)).
Proof. intros k a Hk. unfold times. ret_tac. Qed.

#[export] Instance rt_sigaction_st : StOk (rt_sigaction (W:=W)).
Proof.
  intros k a Hk. unfold rt_sigaction. case_match; [ret_tac|].
  match goal with |- context [match ?r with Ok _ => _ | Err e => (e, k) end] => set (kw := r) end.
  assert (Errs kw) by (subst kw; errs_tac). destruct kw; [ret_tac|by apply errno_st].
Qed.
#[export] Instance rt_sigprocmask_st : StOk (rt_sigprocmask (W:=W)).
Proof.
  intros k a Hk. unfold rt_sigprocmask.
  match goal with |- context [match ?r with Ok _ => _ | Err e => (e, k) end] => set (kw := r) end.
  assert (Errs kw) by (subst kw; errs_tac). destruct kw; [ret_tac|by apply errno_st].
Qed.
#[export] Instance sigaltstack_st : StOk (sigaltstack (W:=W)).
Proof.
  intros k a Hk. unfold sigaltstack.
  match goal with |- context [match ?r with Ok _ => _ | Err e => (e, k) end] => set (kw := r) end.
  assert (Errs kw) by (subst kw; errs_tac). destruct kw; [ret_tac|by apply errno_st].
Qed.

#[export] Instance eventfd2_ret : RetOk (eventfd2 (W:=W)).
Proof. intros k a Hk. simpl. apply (insert_ret _ (RFile 0)), Hk. Qed.
#[export] Instance eventfd_ret : RetOk (eventfd (W:=W)).
Proof. intros k a Hk. by apply eventfd2_ret. Qed.
#[export] Instance epoll_create1_ret : RetOk (epoll_create1 (W:=W)).
Proof. intros k a Hk. simpl. apply (insert_ret _ (RFile 0)), Hk. Qed.
#[export] Instance epoll_ctl_st : StOk (epoll_ctl (W:=W)).
Proof. intros k a Hk. unfold epoll_ctl. ret_tac. Qed.

(** *** Processes *)

#[export] Instance exit_st order : StOk (exit (W:=W) order).
Proof. intros k a Hk. unfold exit. ret_tac. Qed.
#[export] Instance exit_group_st order : StOk (exit_group (W:=W) order).
Proof. intros k a Hk. unfold exit_group. ret_tac. Qed.
#[export] Instance sched_getaffinity_ret : RetOk (sched_getaffinity (W:=W)).
Proof.
  intros k a Hk. unfold sched_getaffinity. case_match; [ret_tac|]. case_match; [ret_tac|].
  destruct (guest_write _ _ _) eqn:?; [|ret_tac]. cbn [fst]. unfold ret_ok. lia.
Qed.
#[export] Instance prctl_ret : RetOk (prctl (W:=W)).
Proof. intros k a Hk. unfold prctl. ret_tac. Qed.
#[export] Instance kill_st : StOk (kill (W:=W)).
Proof. intros k a Hk. unfold kill. ret_tac. Qed.
#[export] Instance tgkill_st : StOk (tgkill (W:=W)).
Proof. intros k a Hk. unfold tgkill. ret_tac. Qed.










(** *** Futexes *)


(** *** Readiness *)


Context (schedule : list (timer * (kern W → kern W))).
Context (schedule_ok : Forall (λ s, ∀ k, kern_wf k → kern_wf (s.2 k)) schedule).





Context (order : gmap Z EpollEntry → list EpollEntry).


Context (park : option (kern W → kern W)) (park_ok : ∀ f, park = Some f → ∀ k, kern_wf k → kern_wf (f k)).



End rest.

(** ** Sockets, names and snapshots *)

Section net.
Context {W : Type} `{Host W} `{Net W} `{!NetLaws W}.
Context (park : kern W → kern W) (park_ok : ∀ k, kern_wf k → kern_wf (park k)).
Implicit Types k : kern W.

Lemma insert_sock_ret k mk : fdt_wf (k_fds k) → ret_ok (insert_sock k mk).1.
Proof. intros Hk. by apply (insert_ret _ (RFile 0)). Qed.

#[export] Instance socket_ret : RetOk (socket (W:=W)).
Proof.
  intros k a Hk. unfold socket. destruct (socket_kind _ _) eqn:?; [|ret_tac]. apply insert_sock_ret, Hk.
Qed.
#[export] Instance socketpair_st : StOk (socketpair (W:=W)).
Proof. intros k a Hk. unfold socketpair. ret_tac. Qed.
#[export] Instance listen_st : StOk (listen (W:=W)).
Proof. intros k a Hk. unfold listen. ret_tac. Qed.
#[export] Instance setsockopt_st : StOk (setsockopt (W:=W)).
Proof.
  intros k a Hk. unfold setsockopt. destruct (u32_try_from _); [|ret_tac].
  match goal with |- context [match ?r with Ok _ => _ | Err e => (e, k) end] => set (x := r) end.
  assert (Errs x) by (subst x; errs_tac). destruct x; [ret_tac|by apply errno_st].
Qed.
#[export] Instance getsockopt_st : StOk (getsockopt (W:=W)).
Proof. intros k a Hk. unfold getsockopt. ret_tac. Qed.
#[export] Instance shutdown_st : StOk (shutdown park).
Proof. intros k a Hk. unfold shutdown. ret_tac. Qed.

Lemma net_err_errs {A} f (r : net A) : (∀ e, errno_ok (f e)) → Errs (net_err f r).
Proof. destruct r; simpl; [done|]. intros Hf. apply Hf. Qed.

Lemma udp_materialize_errs u (w : W) a : Errs (udp_materialize u w a).1.
Proof.
  assert (∀ e, errno_ok (udp_socket_errno e)) as H1 by by destruct e; split; vm_compute.
  assert (∀ e, errno_ok (udp_bind_errno e)) as H2 by by destruct e; split; vm_compute.
  assert (∀ e, errno_ok (to_eio e)) as H3 by by destruct e; split; vm_compute.
  unfold udp_materialize. destruct (udp_socket _ _) as [r w1].
  destruct r as [raw|e]; [|apply H1]. cbn [net_err]. destruct (udp_bind _ _ _) as [[?|e] w2]; [|apply H2].
  cbn [net_err]. destruct (udp_set_nonblocking _ _) as [[?|e] w3]; [|apply H3]. cbn [net_err].
  destruct (udp_from_std _ _) as [[?|e] w4]; [|apply H3]. cbn [net_err].
  destruct (udp_local_addr _ _); [done|apply H3].
Qed.

Lemma ensure_bound_errs u (w : W) a : Errs (ensure_bound u w a).1.1.
Proof.
  unfold ensure_bound. destruct (u_socket u).
  - apply net_err_errs. by destruct e; split; vm_compute.
  - pose proof (udp_materialize_errs u w a) as Hm. by destruct (udp_materialize u w a) as [[[? ?]|e] w'].
Qed.

Lemma install_unix_st k fd p : st_ok (install_unix_listener k fd p).1.
Proof.
  unfold install_unix_listener. destruct (unix_bind _ _) as [[l|e] w]; [ret_tac|].
  destruct e; split; by vm_compute.
Qed.

Lemma unlink_stale_st k p r k' : unlink_stale k p = (Some r, k') → st_ok r.
Proof. unfold unlink_stale. repeat case_match; intros [= <- _]; split; by vm_compute. Qed.

#[export] Instance bind_st : StOk (bind (W:=W)).
Proof.
  intros k a Hk. unfold bind. destruct (u32_try_from _); [|ret_tac].
  destruct (parse_sockaddr _ _ _) as [ad|] eqn:?; [|ret_tac].
  assert (∀ loc s, st_ok (bind_udp k loc s ad).1) as Hu.
  { intros loc s. unfold bind_udp. destruct (as_std ad) as [std|]; [|ret_tac]. case_match; [ret_tac|].
    destruct (udp_state _ _) as [u h]. pose proof (ensure_bound_errs u (k_host (set_heap k h)) std) as He.
    destruct (ensure_bound _ _ _) as [[[x|e] u'] w]; [ret_tac|]. simpl in He. by apply errno_st. }
  destruct ad; [destruct (get_sock _ _) as [[loc s]|] eqn:?; [|ret_tac]; destruct (kind s); [ret_tac|apply Hu]..|].
  unfold bind_unix. case_match; [ret_tac|]. destruct (unlink_stale _ _) as [[r|] k'] eqn:E; [|apply install_unix_st].
  by eapply unlink_stale_st.
Qed.

#[export] Instance connect_st : StOk (connect park).
Proof. intros k a Hk. unfold connect, connect_unix, connect_v4, connect_errno. ret_tac. Qed.

(** *** Transfers *)






(** *** Messages *)








(** *** accept and the names *)




(** A name that fits [sun_path] is stored. *)
Lemma put_un_returns k ptr name :
  (∀ p, name = Some p → (length p < 108)%nat) → ∃ k', put_un k ptr name = Return k'.
Proof.
  intros Hn. unfold put_un. case_match; [by eexists|]. case_match; [|by eexists].
  unfold encode_un. destruct name as [p|]; [|by eexists]. specialize (Hn p eq_refl).
  destruct (Z.leb_spec 108 (Z.of_nat (length p))); [lia|by eexists].
Qed.

Lemma to_str_len p q : to_str p = Some q → (length p < 108)%nat → (length q < 108)%nat.
Proof. unfold to_str. case_match; [|done]. by intros [= <-]. Qed.




Lemma return_un_answers k ap lp name :
  (∀ p, name = Some p → (length p < 108)%nat) → answers st_ok false false (return_un k ap lp name).
Proof. intros Hn. unfold return_un. destruct (put_un_returns k ap name Hn) as [k1 ->]. out_tac. Qed.

#[export] Instance getsockname_answers : Answers st_ok false false (getsockname (W:=W)).
Proof.
  intros k a Hk. unfold getsockname. destruct (u32_try_from _); [|out_tac]. case_match; [out_tac|].
  destruct (get_sock _ _) as [[l s]|] eqn:Eg; [|out_tac]. destruct (guest_slice_mut _ _ _) eqn:?; [|out_tac].
  destruct (check_out _ _ _) eqn:?; [|out_tac]. destruct (family_unix s).
  { apply return_un_answers. destruct (bound s) as [[| |p]|] eqn:Eb; try done.
    intros q Hq. eapply to_str_len; [exact Hq|]. exact (so_bound _ (get_sock_ok _ _ _ _ Hk Eg) _ Eb). }
  destruct (local_name s) as [[]|] eqn:?; out_tac.
Qed.

#[export] Instance getpeername_answers : Answers st_ok false false (getpeername (W:=W)).
Proof.
  intros k a Hk. unfold getpeername. destruct (u32_try_from _); [|out_tac]. case_match; [out_tac|].
  destruct (get_sock _ _) as [[l s]|] eqn:Eg; [|out_tac]. destruct (guest_slice_mut _ _ _) eqn:?; [|out_tac].
  destruct (check_out _ _ _) eqn:?; [|out_tac]. destruct (family_unix s); [|out_tac].
  destruct (peer_addr_unix s) as [p|] eqn:Ep; [|out_tac].
  apply return_un_answers. intros q Hq. eapply to_str_len; [exact Hq|].
  exact (so_peer_unix _ (get_sock_ok _ _ _ _ Hk Eg) _ Ep).
Qed.

End net.

(** A serialised snapshot is a [Vec<u8>]: no longer than [isize::MAX]. *)
Class CodecVec `{Codec} : Prop :=
  to_stdvec_len s bs : to_stdvec s = Some bs → Z.of_nat (length bs) ≤ I64_MAX.

Section names.
Context {W : Type} `{Host W} `{Net W} `{Dns W} `{SnapHost W} `{Codec}.
Context `{!DnsLaws W} `{codec_vec : !CodecVec}.
Context (park : kern W → kern W) (order : gmap bytes CacheEntry → list (bytes * CacheEntry)).
Implicit Types k : kern W.





End names.

(** ** The table *)









Section table.
Context {W : Type} `{Host W} `{Net W} `{Dns W} `{SnapHost W} `{Codec}.
Context `{!HostLaws W} `{!NetLaws W} `{!DnsLaws W} `{codec_vec : !CodecVec}.
Implicit Types k : kern W.
Implicit Types rt : runtime W.


#[local] Hint Constants Opaque : typeclass_instances.


End table.

(** ** Theorems *)


(** ** Witnesses *)

#[local] Instance null_dns : Dns NullHost := no_dns NullHost.
#[local] Instance null_dns_laws : DnsLaws NullHost := no_dns_laws NullHost.
#[local] Instance null_codec : Codec := {| to_stdvec _ := None; from_bytes _ := None |}.
#[local] Instance null_codec_vec : CodecVec.
Proof. done. Qed.


