(* ===== verification/Wasm.v ===== *)
(** * Guests and the wasm runtime (src/host.rs, src/dispatch.rs [register],
      src/kernel.rs, src/sys/process.rs [run_child])

    wasmtime compiles and runs modules; it is the class [Wasm]. What this
    repository does around it is modelled: the engine's configuration, a store
    with its fuel, the imported syscall function with its observer, the new
    kernels, and the thread of a forked child. A guest does three things to a
    store: it calls the import, writes its memory and burns fuel
    ([guest_run]). *)

From S2P Require Import Prelude Word Errno GuestMem Text Parse Meter Path Host Vfs Net Fd Resolver Kernel.
From S2P Require Import Snapshot SnapMem SnapshotSpec KernInv SysMemory SysProcess SysResolver Dispatch.

(** ** The operating system, beyond files and sockets *)

Class Os (W : Type) := {
  (** [std::env::vars_os], in its order. *)
  vars_os : W → list (bytes * bytes);
  current_dir : W → io path;
  current_exe : W → io path;
  temp_dir : W → path;
  process_id : W → Z;
  (** [OsRng.fill_bytes]. *)
  os_random : W → nat → bytes * W;
  (** [write_all] to the process's standard output and error. *)
  stdout_write : W → bytes → W;
  stderr_write : W → bytes → W;
  (** [Command::new(exe).args(argv).envs(env).status()]: success or not. *)
  spawn : W → path → list bytes → list (bytes * bytes) → io bool * W;
  (** Building a tokio runtime. *)
  tokio_build : W → io unit;
}.

(** [std::env::vars] panics on a variable that is not UTF-8. *)
Definition env_vars {W} `{Os W} (w : W) : outcome (list (bytes * bytes)) :=
  if forallb (λ kv, utf8_valid kv.1 && utf8_valid kv.2) (vars_os w) then Return (vars_os w) else Panic.

(** ** Observers (src/dispatch.rs, src/cli/trace.rs) *)

Record TraceEntry := MkTraceEntry {
  ts_ns : Z;
  te_nr : Z;
  te_name : string;
  te_args : args;
  te_ret : Z;
}.

(** A syscall as an observer sees it: number, arguments and result. *)
Abbreviation event := (Z * args * Z)%type.

(** The implementations of [SyscallObserver]. *)
Inductive SyscallObserver := TraceObserver.

(** The thread-locals OBSERVER, TRACE and PENDING. *)
Record locals := MkLocals {
  observer : option SyscallObserver;
  trace : list TraceEntry;
  pending : option (Z * Z * args);
}.

Definition install_observer (o : option SyscallObserver) (l : locals) : option SyscallObserver * locals :=
  (observer l, MkLocals o (trace l) (pending l)).

Definition unix_nanos {W} `{Host W} (w : W) : Z := Z.max (now w) 0.

Definition on_enter {W} `{Host W} (o : SyscallObserver) (w : W) (nr : Z) (a : args) (l : locals) : locals :=
  match o with TraceObserver => MkLocals (observer l) (trace l) (Some (unix_nanos w, nr, a)) end.

Definition on_exit (o : SyscallObserver) (nr ret : Z) (l : locals) : locals :=
  match o with
  | TraceObserver =>
    match pending l with
    | Some (ts, pending_nr, a) =>
      MkLocals (observer l)
        (if pending_nr =? nr then trace l ++ [MkTraceEntry ts nr (syscall_name nr) a ret] else trace l) None
    | None => l
    end
  end.

Definition with_observer (f : SyscallObserver → locals → locals) (l : locals) : locals :=
  match observer l with Some o => f o l | None => l end.

(** ** Engines and stores (src/host.rs) *)

Record Config := MkConfig {
  wasm_component_model : bool;
  wasm_reference_types : bool;
  wasm_simd : bool;
  consume_fuel : bool;
  wasm_threads : bool;
  shared_memory : bool;
  wasm_shared_everything_threads : bool;
}.

Record store (W : Type) := MkStore {
  st_kernel : kern W;
  st_fuel : Z;
  st_locals : locals;
}.
Arguments MkStore {W}. Arguments st_kernel {W}. Arguments st_fuel {W}. Arguments st_locals {W}.

Definition st_set_kernel {W} (st : store W) (k : kern W) : store W := MkStore k (st_fuel st) (st_locals st).
Definition st_set_fuel {W} (st : store W) (f : Z) : store W := MkStore (st_kernel st) f (st_locals st).
Definition st_set_locals {W} (st : store W) (l : locals) : store W := MkStore (st_kernel st) (st_fuel st) l.

(** [Result<T, wasmtime::Error>]. *)
Inductive wres (A : Type) : Type := WOk (a : A) | WErr (e : wasm_error).
Arguments WOk {A} a.
Arguments WErr {A} e.

(** The type of the export [_start]. *)
Inductive StartSig := SVoid | SI32 | SI64.

Class Wasm (W : Type) := {
  Module : Type;
  Instance : Type;
  (** [Engine::new]; [Store::set_fuel] on a store of such an engine. *)
  engine_new : Config → wres unit;
  set_fuel_ok : Config → bool;
  (** [func_new_async] on a new linker. *)
  link_syscall : Config → wres unit;
  module_new : Config → bytes → wres Module;
  module_deserialize : Config → bytes → wres Module;
  module_from_file : Config → W → path → wres Module;
  (** [instantiate_async], with the start section of the module. *)
  instantiate : Module → store W → outcome (wres Instance * store W);
  (** [get_memory("memory")] right after instantiation. *)
  get_memory : Instance → option gmem;
  (** The type [get_typed_func("_start")] succeeds at. *)
  start_sig : Instance → option StartSig;
  (** [call_async]; a void result is 0. *)
  call_async : Instance → store W → outcome (wres Z * store W);
  (** [tokio::time::timeout] around [call_async], in seconds: the store when the
      call ended or was dropped. *)
  call_timeout : Z → Instance → store W → outcome (store W);
}.

Section wasm.
Context {W : Type} `{Host W} `{Net W} `{Dns W} `{SnapHost W} `{Codec} `{Os W} `{Wasm W}.
Implicit Types k : kern W.
Implicit Types st : store W.
Implicit Types w : W.

(** The configuration of [build_engine]. *)
Definition engine_config : Config := MkConfig true true true true true true true.

Definition build_engine : wres Config :=
  match engine_new engine_config with WOk _ => WOk engine_config | WErr e => WErr e end.

(** [Store::set_fuel]. *)
Definition set_fuel (engine : Config) st (f : Z) : option (store W) :=
  if set_fuel_ok engine then Some (st_set_fuel st f) else None.

(** A new store has no fuel; [None] of [set_fuel] is the panic of [expect]. *)
Definition build_store (engine : Config) k (l : locals) : outcome (store W) :=
  match set_fuel engine (MkStore k 0 l) U64_MAX with Some st => Return st | None => Panic end.

Definition add_to_linker (engine : Config) : wres unit := link_syscall engine.

Definition build_child_linker (engine : Config) : wres unit := add_to_linker engine.

Definition build_child_store (engine : Config) k (l : locals) : outcome (store W) := build_store engine k l.

(** The function [register] imports into the guest: seven [i64]. *)
Definition syscall_import (rt : runtime W) st (n : Z) (a : args) : outcome (Z * store W) :=
  let nr := as_u32 n in
  let k := st_kernel st in
  let l := with_observer (λ o, on_enter o (k_host k) nr a) (st_locals st) in
  match dispatch rt nr k a with
  | Return (ret, k) => Return (ret, MkStore k (st_fuel st) (with_observer (λ o, on_exit o nr ret) l))
  | Hang => Hang
  | Panic => Panic
  end.

(** ** New kernels (src/kernel.rs) *)

Definition root_vfs : Vfs := MkVfs [RootDir] [RootDir].

Definition fresh_rng_seed w : bytes * W := os_random w 32.

Definition kernel_new_inner (arguments : list bytes) (env : list (bytes * bytes)) (v : Vfs) w : kern W :=
  let '(seed, w) := fresh_rng_seed w in
  new_inner arguments env v seed (rng_from_seed w seed).

Definition new_with_preopen (arguments : list bytes) (env : list (bytes * bytes)) (preopen : path) w : kern W :=
  let v := match Vfs_new w preopen with Ok v => v | Err _ => root_vfs end in
  kernel_new_inner arguments env v w.

Definition kernel_new (arguments : list bytes) (env : list (bytes * bytes)) w : kern W :=
  new_with_preopen arguments env (match current_dir w with IoOk p => p | IoErr _ => [RootDir] end) w.

Definition new_without_stdio (arguments : list bytes) (env : list (bytes * bytes)) w : kern W :=
  kernel_new_inner arguments env root_vfs w.

(** The shared buffers behind the descriptors 1 and 2. *)
Definition stdout_buf k : option Z :=
  match get (k_fds k) STDOUT with Ok (RStdout p) => Some (pw_pipe p) | _ => None end.
Definition stderr_buf k : option Z :=
  match get (k_fds k) STDERR with Ok (RStderr p) => Some (pw_pipe p) | _ => None end.

(** ** Instantiating *)

Definition WASM_MAGIC : bytes := [0; 97; 115; 109].

(** A module by its magic, anything else as a compiled artifact. *)
Definition load_module (engine : Config) (bs : bytes) : wres Module :=
  if (4 <=? Z.of_nat (length bs)) && bool_decide (take 4 bs = WASM_MAGIC)
  then module_new engine bs else module_deserialize engine bs.

(** Instantiate and attach the memory the instance exports. *)
Definition instantiate_attached (m : Module) st : outcome (wres Instance * store W) :=
  match instantiate m st with
  | Return (WOk i, st) =>
    Return (WOk i, match get_memory i with
                   | Some mem => st_set_kernel st (attach_memory (st_kernel st) mem)
                   | None => st
                   end)
  | r => r
  end.

(** Restore the memory attached to a kernel, a handle of which the caller
    took out before. *)
Definition apply_to_attached (s : KernelSnapshot) k (m : gmem) : sres unit * kern W :=
  let '(r, m, w) := apply_snapshot_to_memory s m (k_host k) in
  (r, set_memory (set_host k w) (Some (Owned m))).

(** ** Forked children (src/sys/process.rs) *)

(** How a child came to its end: before it could start, or by what [_start]
    returned ([None] for a trap) and the code it had passed to [exit]. *)
Inductive child_end :=
  | ChildFailed
  | ChildRan (start_result exit_code : option Z).

(** The call of [_start], with its three types. *)
Definition start_code (i : Instance) st : outcome (option Z * store W) :=
  match start_sig i with
  | None => Return (None, st)
  | Some sg =>
    match call_async i st with
    | Return (WOk v, st) =>
      Return (Some (match sg with SI32 => v | SI64 => as_i32 v | SVoid => 0 end), st)
    | Return (WErr _, st) => Return (None, st)
    | Hang => Hang
    | Panic => Panic
    end
  end.

(** No observer is installed on a new thread. *)
Definition new_locals : locals := MkLocals None [] None.

(** The first part of [run_child]: the child's own kernel, up to the call of
    [_start]; [None] where the child could not be started. *)
Definition child_start (engine : Config) (m : Module) (snap : KernelSnapshot) w
    : outcome (option (Instance * store W) * W) :=
  let k := new_without_stdio (sn_args snap) (sn_env snap) w in
  match build_child_linker engine with
  | WErr _ => Return (None, k_host k)
  | WOk _ =>
    match build_child_store engine k new_locals with
    | Hang => Hang
    | Panic => Panic
    | Return st =>
      match instantiate_attached m st with
      | Hang => Hang
      | Panic => Panic
      | Return (WErr _, st) => Return (None, k_host (st_kernel st))
      | Return (WOk i, st) =>
        match apply_snapshot_kernel_state snap (st_kernel st) with
        | (SErr _, k) => Return (None, k_host k)
        | (SOk _, k) =>
          match memory k with
          | Err _ => Return (None, k_host k)
          | Ok mem =>
            match apply_to_attached snap k mem with
            | (SErr _, k) => Return (None, k_host k)
            | (SOk _, k) => Return (Some (i, st_set_kernel st k), k_host k)
            end
          end
        end
      end
    end
  end.

(** The child up to the end of [_start]. *)
Definition child_run (engine : Config) (m : Module) (snap : KernelSnapshot) w : outcome (child_end * W) :=
  match child_start engine m snap w with
  | Hang => Hang
  | Panic => Panic
  | Return (None, w) => Return (ChildFailed, w)
  | Return (Some (i, st), _) =>
    match start_code i st with
    | Hang => Hang
    | Panic => Panic
    | Return (r, st) => Return (ChildRan r (k_exit_code (st_kernel st)), k_host (st_kernel st))
    end
  end.

(** [run_child]. What it does to the table it shares with its parent comes
    after everything else: [others] is what the parent's side did to it (and
    to the notifications) in the meantime. The messages it also sends have no
    receiver: [spawn_child_thread] drops that end of the channel at once. *)
Definition run_child (engine : Config) (m : Module) (snap : KernelSnapshot) (child_pid : Z)
    (child_event : Z) (others : child_table * heap → child_table * heap)
    (cs : child_table) (h : heap) w : outcome (child_table * heap * W) :=
  match child_run engine m snap w with
  | Hang => Hang
  | Panic => Panic
  | Return (ChildFailed, w) =>
    let '(cs, h) := others (cs, h) in
    Return (register_and_signal cs h child_event child_pid 139, w)
  | Return (ChildRan r e, w) =>
    let '(cs, h) := others (cs, h) in
    Return (run_child_finish cs h child_event child_pid r e, w)
  end.

(** [run_child_pub]: the body of the child's thread. *)
Definition run_child_pub (engine : Config) (m : Module) (snap : KernelSnapshot) (child_pid : Z)
    (child_event : Z) (others : child_table * heap → child_table * heap)
    (cs : child_table) (h : heap) w : outcome (child_table * heap * W) :=
  match tokio_build w with
  | IoErr _ =>
    let '(cs, h) := others (cs, h) in
    Return (register_and_signal cs h child_event child_pid 139, w)
  | IoOk _ => run_child engine m snap child_pid child_event others cs h w
  end.

(** [spawn_child_thread]: freeze the parent and start the thread. *)
Definition spawn_child_thread (engine : Config) (m : Module) k (child_pid : Z)
    (others : child_table * heap → child_table * heap) : outcome (child_table * heap * W) :=
  run_child_pub engine m (try_to_snapshot k) child_pid (child_event (k_ps k)) others
    (children (k_ps k)) (k_heap k) (k_host k).

(** ** Guests *)

Section guest.
(** A condition on the calls: the runtime each meets, and the store after it. *)
Context (call_ok : runtime W → store W → Prop).

(** What wasm code can do: call the import, change its memory (which never
    shrinks), use fuel. A run is labelled with the calls it makes. *)
Inductive guest_run : store W → list event → store W → Prop :=
  | run_done st : guest_run st [] st
  | run_syscall rt st n a r st1 es st2 :
      syscall_import rt st n a = Return (r, st1) → call_ok rt st1 → guest_run st1 es st2 →
      guest_run st ((as_u32 n, a, r) :: es) st2
  | run_memory st m m' es st2 :
      k_memory (st_kernel st) = Some (Owned m) → gm_size m ≤ gm_size m' → mem_bounds m' →
      guest_run (st_set_kernel st (set_memory (st_kernel st) (Some (Owned m')))) es st2 →
      guest_run st es st2
  | run_burn st f es st2 :
      0 ≤ f ≤ st_fuel st → guest_run (st_set_fuel st f) es st2 → guest_run st es st2.

End guest.

Definition any_call (rt : runtime W) st : Prop := True.

(** The other threads a call meets keep the kernel's invariant, and the
    counter of descriptor numbers has not run over its 32 bits. *)
Definition sane_call (rt : runtime W) st : Prop := runtime_ok rt ∧ 3 ≤ next_fd (k_fds (st_kernel st)).

End wasm.

(** What is relied on of wasmtime: guest code does nothing but the steps of a run, a new
    instance's memory is a 32-bit memory, and fuel can be set where metering
    is on. *)
Class WasmLaws (W : Type) `{Host W} `{Net W} `{Dns W} `{SnapHost W} `{Codec} `{Wasm W} : Prop := {
  call_steps (i : Instance) (st st' : store W) r :
    call_async i st = Return (r, st') → ∃ es, guest_run any_call st es st';
  instantiate_steps (m : Module) (st st' : store W) r :
    instantiate m st = Return (r, st') → ∃ es, guest_run any_call st es st';
  get_memory_bounds (i : Instance) m : get_memory (W:=W) i = Some m → mem_bounds m;
  metering c : consume_fuel c = true → set_fuel_ok (W:=W) c = true;
}.

(** The syscalls a guest makes: while module [m] is instantiated in a store,
    and while [_start] of an instance runs from a store. They are fixed by the
    guest and the store, as its code is deterministic but for what its
    syscalls answer. *)
Class CallLog (W : Type) `{Wasm W} := {
  init_calls : Module → store W → list event;
  start_calls : Instance → store W → list event;
}.

Class CallLogLaws (W : Type) `{Host W} `{Net W} `{Dns W} `{SnapHost W} `{Codec} `{Wasm W} `{!CallLog W} : Prop := {
  init_logged (m : Module) (st st' : store W) r :
    instantiate m st = Return (r, st') → guest_run any_call st (init_calls m st) st';
  start_logged (i : Instance) (st st' : store W) r :
    call_async i st = Return (r, st') → guest_run any_call st (start_calls i st) st';
}.

(** Instantiating [m] in [st] makes sane calls only; a module without a start
    section makes none at all. *)
Definition sane_init {W} `{Host W} `{Net W} `{Dns W} `{SnapHost W} `{Codec} `{Wasm W} (m : Module) (st : store W) : Prop :=
  ∀ r st', instantiate m st = Return (r, st') → ∃ es, guest_run sane_call st es st'.

(** ** Runs *)

Section runs.
Context {W : Type} `{Host W} `{Net W} `{Dns W} `{SnapHost W} `{Codec} `{Os W} `{Wasm W}.
Implicit Types k : kern W.
Implicit Types st : store W.

Lemma guest_run_app P st1 st2 st3 es1 es2 :
  guest_run P st1 es1 st2 → guest_run P st2 es2 st3 → guest_run P st1 (es1 ++ es2) st3.
Proof. induction 1; intros; cbn [app]; eauto using guest_run. Qed.

Lemma sane_any st es st' : guest_run sane_call st es st' → guest_run any_call st es st'.
Proof. induction 1; econstructor; done. Qed.

(** The import runs the dispatcher and only that. *)
Lemma syscall_import_inv rt st n a r st' :
  syscall_import rt st n a = Return (r, st') →
  dispatch rt (as_u32 n) (st_kernel st) a = Return (r, st_kernel st') ∧ st_fuel st' = st_fuel st ∧
  st_locals st' = with_observer (λ o, on_exit o (as_u32 n) r)
    (with_observer (λ o, on_enter o (k_host (st_kernel st)) (as_u32 n) a) (st_locals st)).
Proof. unfold syscall_import. destruct (dispatch _ _ _ _) as [[r' k']| |]; [|done|done]. by intros [= <- <-]. Qed.

(** Fuel is only used up. *)
Lemma guest_run_fuel P st es st' : guest_run P st es st' → 0 ≤ st_fuel st → 0 ≤ st_fuel st' ≤ st_fuel st.
Proof.
  induction 1 as [| ? ? ? ? ? ? ? ? Hs ? ? IH | | ? f ? ? ? ? IH]; intros Hf.
  - lia.
  - apply syscall_import_inv in Hs as (_ & Hs & _). rewrite Hs in IH. auto.
  - auto.
  - simpl in IH. specialize (IH ltac:(lia)). lia.
Qed.

Lemma kern_wf_set_owned k m : kern_wf k → mem_bounds m → kern_wf (set_memory k (Some (Owned m))).
Proof. intros [] Hm. split; simpl; try done. by intros m' [= <-]. Qed.

(** The kernel invariant holds throughout a run. *)
Lemma guest_run_wf `{!HostLaws W} `{!NetLaws W} `{!DnsLaws W} `{!Memory32 (W:=W)} st es st' :
  guest_run sane_call st es st' → kern_wf (st_kernel st) → kern_wf (st_kernel st').
Proof.
  induction 1 as [| ? ? ? ? ? ? ? ? Hs [Hrt Hn] ? IH | | ]; intros Hk; auto.
  - apply IH. apply syscall_import_inv in Hs as (Hd & _). by eapply dispatch_wf.
  - apply IHguest_run. simpl. by apply kern_wf_set_owned.
Qed.

(** An entry of the trace, as an event. *)
Definition entry_event (e : TraceEntry) : event := (te_nr e, te_args e, te_ret e).

(** The trace observer adds one entry per call. *)
Lemma traced_call w n a r l :
  observer l = Some TraceObserver →
  with_observer (λ o, on_exit o n r) (with_observer (λ o, on_enter (W:=W) o w n a) l) =
    MkLocals (Some TraceObserver) (trace l ++ [MkTraceEntry (unix_nanos w) n (syscall_name n) a r]) None.
Proof.
  destruct l as [o t p]. cbn [observer]. intros ->. cbn [with_observer observer on_enter on_exit pending trace].
  by rewrite Z.eqb_refl.
Qed.

Lemma guest_run_traced P st es st' :
  guest_run P st es st' → observer (st_locals st) = Some TraceObserver →
  observer (st_locals st') = Some TraceObserver ∧
  ∃ entries, trace (st_locals st') = trace (st_locals st) ++ entries ∧ entry_event <$> entries = es ∧
    Forall (λ e, te_name e = syscall_name (te_nr e)) entries.
Proof.
  induction 1 as [st | ? ? ? ? ? ? ? ? Hs ? ? IH | | ]; intros Ho; eauto.
  - split; [done|]. exists []. by rewrite app_nil_r.
  - apply syscall_import_inv in Hs as (_ & _ & Hl). rewrite traced_call in Hl by done.
    rewrite Hl in IH. destruct (IH eq_refl) as (Ho' & entries & Ht & He & Hn). split; [done|].
    eexists (_ :: entries). rewrite Ht. cbn [trace]. rewrite <- app_assoc. cbn. rewrite He.
    split_and!; [done|done|by constructor].
Qed.

(** Without an observer there is no trace. *)
Lemma guest_run_untraced P st es st' :
  guest_run P st es st' → observer (st_locals st) = None → st_locals st' = st_locals st.
Proof.
  induction 1 as [| ? ? ? ? ? ? ? ? Hs ? ? IH | | ]; intros Ho; auto.
  apply syscall_import_inv in Hs as (_ & _ & Hl). unfold with_observer in Hl. rewrite !Ho in Hl.
  rewrite Hl in IH. by apply IH.
Qed.

End runs.

(** ** Children *)

Section children.
Context {W : Type} `{Host W} `{Net W} `{Dns W} `{SnapHost W} `{Codec} `{Os W} `{Wasm W}.
Implicit Types k : kern W.

(** Thawing into an attached memory is [apply_snapshot]'s second half. *)
Lemma apply_to_attached_dispatch s k m :
  memory k = Ok m → apply_to_attached s k m = dispatch_memory_apply s k.
Proof.
  intros Hm%memory_Ok. unfold apply_to_attached, dispatch_memory_apply, apply_snapshot_to_memory, memory_kind.
  rewrite Hm. simpl. case_bool_decide; [|done]. f_equal. destruct k. simpl in *. by subst.
Qed.

(** What a child is reported with. *)
Definition child_status (e : child_end) : Z :=
  match e with ChildFailed => 139 | ChildRan r c => child_exit_code r c end.

(** The end of [child_pid] as the parent finds it. *)
Definition reported (cs cs' : child_table) (h' : heap) (ev pid code : Z) : Prop :=
  (∃ n, cs' !! pid = Some (MkChild code true n)) ∧ (∀ p, p ≠ pid → cs' !! p = cs !! p) ∧
  NotifyWaiters ev ∈ wakes h'.

Lemma notify_waiters_elem h n : NotifyWaiters n ∈ wakes (notify_waiters h n).
Proof. unfold notify_waiters. cbn [wakes]. set_solver. Qed.

Lemma register_reported cs h ev pid code :
  let '(cs', h') := register_and_signal cs h ev pid code in reported cs cs' h' ev pid code.
Proof.
  unfold register_and_signal. destruct (cs !! pid) as [e|] eqn:E; [|destruct (new_notify h) as [n h']];
    (split_and!; [eexists; by rewrite lookup_insert_eq| |apply notify_waiters_elem]);
    intros p Hp; by rewrite lookup_insert_ne.
Qed.

Lemma finish_reported cs h ev pid r e :
  let '(cs', h') := run_child_finish cs h ev pid r e in reported cs cs' h' ev pid (child_exit_code r e).
Proof.
  unfold run_child_finish. destruct (new_notify h) as [n h']. rewrite lookup_insert_eq.
  split_and!; [eexists; by rewrite lookup_insert_eq| |apply notify_waiters_elem].
  intros p Hp. by rewrite !lookup_insert_ne.
Qed.

Lemma spawn_reported engine m k pid others cs' h' w' :
  spawn_child_thread engine m k pid others = Return (cs', h', w') →
  ∃ e, reported (others (children (k_ps k), k_heap k)).1 cs' h' (child_event (k_ps k)) pid (child_status e) ∧
    (child_run engine m (try_to_snapshot k) (k_host k) = Return (e, w') ∨
     e = ChildFailed ∧ ∃ err, tokio_build (k_host k) = IoErr err).
Proof.
  unfold spawn_child_thread, run_child_pub, run_child.
  destruct (others (children (k_ps k), k_heap k)) as [cs h]. cbn [fst].
  pose proof (register_reported cs h (child_event (k_ps k)) pid 139) as Hr.
  destruct (tokio_build _) as [|err]; [destruct (child_run _ _ _ _) as [[[|r e] w1]| |] eqn:E; try done|].
  - intros Hs%Return_inj. injection Hs as Hs <-. rewrite Hs in Hr. exists ChildFailed. split; [done|by left].
  - pose proof (finish_reported cs h (child_event (k_ps k)) pid r e) as Hf.
    intros Hs%Return_inj. injection Hs as Hs <-. rewrite Hs in Hf. exists (ChildRan r e). split; [done|by left].
  - intros Hs%Return_inj. injection Hs as Hs _. rewrite Hs in Hr. exists ChildFailed.
    split; [done|right]. split; [done|by exists err].
Qed.

(** A reported child is reaped without sleeping. *)
Lemma reported_reaped order cs cs' h' ev pid code k2 ptr :
  (∀ cs, order cs ≡ₚ map_to_list cs) → 0 < pid → as_i32 pid = pid →
  reported cs cs' h' ev pid code → children (k_ps k2) = cs' → ptr = 0 ∨ in_memory k2 ptr 4 →
  ∃ k3, wait4_syscall order [] k2 (Args pid ptr 0 0 0 0) = Return (pid, k3) ∧
    children (k_ps k3) = delete pid cs' ∧
    (ptr ≠ 0 → guest_slice k3 ptr 4 = Ok (to_le_bytes 4 (Z.shiftl (Z.land code 255) 8))).
Proof.
  intros Ho Hpid Hi ([n Hc] & _ & _) Hcs Hptr. unfold wait4_syscall. simpl a0. simpl a1. simpl a2.
  rewrite (proj2 (Z.ltb_ge _ _)) by lia. rewrite bool_decide_false by (intros E; by rewrite <- Hcs, E, lookup_empty in Hc).
  simpl (negb _). simpl (has _ _). cbv iota. unfold try_reap. rewrite (proj2 (Z.ltb_lt _ _)) by done.
  rewrite Hi, Hcs, Hc. cbn [exited mbind option_bind exit_status]. rewrite Hc. cbn.
  destruct (write_wstatus_Ok (set_ps k2 (set_children (k_ps k2) (delete pid cs'))) pid code ptr) as (k3 & -> & Hps & Hs).
  - done.
  - exists k3. rewrite Hps. by split_and!.
Qed.

(** A kernel over the root directory, before any memory. *)
Lemma root_vfs_wf : vfs_wf root_vfs.
Proof. apply (bool_decide_unpack _). vm_compute. exact I. Qed.

Lemma kernel_new_inner_wf args env v (w : W) : vfs_wf v → kern_wf (kernel_new_inner args env v w).
Proof.
  intros Hv. unfold kernel_new_inner. destruct (fresh_rng_seed w) as [seed w1].
  destruct (new_inner_wf args env v seed (rng_from_seed w1 seed) (zero_mem 0) Hv) as [].
  { split; [simpl; lia|]. intros i [? Hi]. simpl in Hi. by rewrite lookup_empty in Hi. }
  by split.
Qed.

(** ** The child's kernel *)

(** The memory of a new instance has data only in pages where [k] has. *)
Definition instance_target k (m : gmem) : Prop :=
  (∃ n, wasm_mem m n) ∧
  ∀ i, 0 ≤ i → read_byte m i ≠ 0 →
    ∃ j, 0 ≤ j ∧ j / PAGE_SIZE_BYTES = i / PAGE_SIZE_BYTES ∧ memory_byte k j ≠ 0.

Lemma attach_target k k0 m : instance_target k m → thaw_target k (attach_memory k0 m).
Proof. intros [Hm Hi]. split; [by intros mk [= <-]|done]. Qed.

(** A new instance over a well-formed kernel is well-formed, with its memory. *)
Lemma instantiate_attached_wf `{!HostLaws W} `{!NetLaws W} `{!DnsLaws W} `{!Memory32 (W:=W)} `{!WasmLaws W}
    (m : Module) st r st' :
  sane_init m st → kern_wf (st_kernel st) → instantiate_attached m st = Return (r, st') →
  kern_wf (st_kernel st') ∧
  ∀ i mem, r = WOk i → get_memory i = Some mem → ∃ k, st_kernel st' = attach_memory k mem.
Proof.
  intros Hsane Hk. unfold instantiate_attached. destruct (instantiate m st) as [[[i|e] st1]| |] eqn:E; try done.
  - apply Hsane in E as [es E]. apply guest_run_wf in E; [|done]. intros Hs%Return_inj.
    injection Hs as <- <-. destruct (get_memory i) as [mem|] eqn:Em.
    + split; [apply kern_wf_set_owned; [done|by eapply get_memory_bounds]|].
      intros i' mem' [= <-] Hm. simplify_eq. by eexists.
    + split; [done|]. intros i' mem' [= <-]. by rewrite Em.
  - apply Hsane in E as [es E]. apply guest_run_wf in E; [|done]. intros Hs%Return_inj.
    injection Hs as <- <-. split; [done|]. by intros.
Qed.

(** What reaches [_start] is a thawed kernel. *)
Lemma child_start_thawed `{!HostLaws W} `{!NetLaws W} `{!DnsLaws W} `{!Memory32 (W:=W)} `{!WasmLaws W}
    engine (m : Module) snap w i st w' :
  sane_init m (MkStore (new_without_stdio (sn_args snap) (sn_env snap) w) U64_MAX new_locals) →
  child_start engine m snap w = Return (Some (i, st), w') →
  ∃ k0, kern_wf k0 ∧ apply_snapshot snap k0 = (SOk tt, st_kernel st) ∧
    ∀ mem, get_memory i = Some mem → ∃ k, k0 = attach_memory k mem.
Proof.
  intros Hsane. unfold child_start. destruct (build_child_linker engine); [|done].
  pose proof (kernel_new_inner_wf (sn_args snap) (sn_env snap) root_vfs w root_vfs_wf) as Hk.
  unfold build_child_store, build_store, set_fuel. destruct (set_fuel_ok engine); [|done].
  destruct (instantiate_attached m _) as [[[i1|e] st1]| |] eqn:Ei; try done.
  apply instantiate_attached_wf in Ei as [Hk1 Hmem]; [|done|done].
  destruct (apply_snapshot_kernel_state snap (st_kernel st1)) as [[[]|] k1] eqn:Ea; [|done].
  destruct (memory k1) as [mem|] eqn:Em; [|done]. rewrite apply_to_attached_dispatch by done.
  destruct (dispatch_memory_apply snap k1) as [[[]|] k2] eqn:Ed; [|done].
  intros Hs%Return_inj. injection Hs as <- <- _. exists (st_kernel st1). split_and!; [done| |].
  - unfold apply_snapshot. by rewrite Ea.
  - intros mem' Hm'. by eapply Hmem.
Qed.

End children.

(** ** Theorems *)

(** The thread of a child ([spawn_child_thread], which [fork] does not call:
    it only registers the child). When the thread has ended, however it came
    to that: it could not be linked, instantiated or restored (then its status
    is 139), it returned, it called [exit] or it trapped, the table the two
    share then has the child as exited with its status, the other children
    are as they were left, sleepers on the process are notified, and a
    [wait4] for the child returns at once with its id and status. *)
Theorem child_reports {W} `{Host W} `{Net W} `{Dns W} `{SnapHost W} `{Codec} `{Os W} `{Wasm W}
    order engine m (k : kern W) pid others cs' h' w' ptr :
  (∀ cs, order cs ≡ₚ map_to_list cs) → 0 < pid → as_i32 pid = pid →
  spawn_child_thread engine m k pid others = Return (cs', h', w') →
  ∃ e, reported (others (children (k_ps k), k_heap k)).1 cs' h' (child_event (k_ps k)) pid (child_status e) ∧
    (child_run engine m (try_to_snapshot k) (k_host k) = Return (e, w') ∨
     e = ChildFailed ∧ ∃ err, tokio_build (k_host k) = IoErr err) ∧
    ∀ k2 : kern W, children (k_ps k2) = cs' → ptr = 0 ∨ in_memory k2 ptr 4 →
      ∃ k3, wait4_syscall order [] k2 (Args pid ptr 0 0 0 0) = Return (pid, k3) ∧
        children (k_ps k3) = delete pid cs' ∧
        (ptr ≠ 0 →
         guest_slice k3 ptr 4 = Ok (to_le_bytes 4 (Z.shiftl (Z.land (child_status e) 255) 8))).
Proof.
  intros Ho Hpid Hi (e & Hr & He)%spawn_reported. exists e. split_and!; [done|done|].
  intros k2 Hk2 Hptr. by eapply reported_reaped.
Qed.

(** A child thread goes on from its parent's state: when it calls [_start]
    its kernel has the parent's very snapshot (descriptors, allocator,
    signals, futex counts, arguments, environment) and its memory, up to
    trailing zero pages. For a parent without sockets, whose module exports
    its memory and whose guest left no page of the module's data all zero. *)
Theorem child_resumes_parent {W} `{Host W} `{Net W} `{Dns W} `{SnapHost W} `{Codec} `{Os W} `{Wasm W}
    `{!HostLaws W} `{!NetLaws W} `{!DnsLaws W} `{!Memory32 (W:=W)} `{!WasmLaws W}
    engine m (k : kern W) w i st w' mem :
  kern_wf k → wasm_attached k → (∀ fd r, table (k_fds k) !! fd = Some r → no_socket r) →
  sane_init m (MkStore (new_without_stdio (k_args k) (k_env k) w) U64_MAX new_locals) →
  child_start engine m (try_to_snapshot k) w = Return (Some (i, st), w') →
  get_memory i = Some mem → instance_target k mem →
  try_to_snapshot (st_kernel st) = try_to_snapshot k ∧ memory_restored k (gm_size mem) (st_kernel st).
Proof.
  intros Hk Hw Hns Hsane Hc Hm Ht. apply child_start_thawed in Hc as (k0 & Hk0 & Ha & Hat); [|done].
  destruct (Hat mem Hm) as [k1 ->].
  apply (apply_refreezes k (attach_memory k1 mem)); [done|apply Hk0|done|by apply attach_target|done|done].
Qed.

(** ** Witnesses *)

#[local] Existing Instance null_dns.
#[local] Existing Instance null_dns_laws.
#[local] Existing Instance null_codec.

(** An operating system without variables; its terminal is not looked at. *)
#[global] Instance null_os : Os NullHost := {
  vars_os _ := [];
  current_dir _ := IoErr NotFound;
  current_exe _ := IoOk [RootDir];
  temp_dir _ := [RootDir];
  process_id _ := 1;
  os_random w n := (replicate n 7, w);
  stdout_write w _ := w;
  stderr_write w _ := w;
  spawn w _ _ _ := (IoOk true, w);
  tokio_build _ := IoOk tt;
}.

(** A guest that stores "hi" in its memory, writes it to descriptor 1, exits
    with 7 and traps, each step only where it can. *)
Definition hi_memory : gmem := write_bytes (zero_mem 131072) 0 (str "hi").

Definition unreachable_trap : wasm_error := MkWasmError (Some OtherTrap) (str "unreachable") [].

Lemma zero_mem_bounds n : 0 ≤ n ≤ 2 ^ 32 → mem_bounds (zero_mem n).
Proof. intros Hn. split; [done|]. intros i [? Hi]. simpl in Hi. by rewrite lookup_empty in Hi. Qed.

Lemma hi_memory_bounds : mem_bounds hi_memory.
Proof.
  split; [simpl; lia|]. intros i Hi. simpl in Hi. unfold hi_memory in *. simpl in *.
  rewrite !lookup_insert_is_Some' in Hi. destruct Hi as [<-|[<-|[? Hi]]]; [lia|lia|].
  by rewrite lookup_empty in Hi.
Qed.

Section hi.
Context {W : Type} `{Host W} `{Net W} `{Dns W} `{SnapHost W} `{Codec} (rt : runtime W).

Definition hi_store (st : store W) : store W :=
  match k_memory (st_kernel st) with
  | Some (Owned m) =>
    if gm_size m <=? 131072
    then st_set_kernel st (set_memory (st_kernel st) (Some (Owned hi_memory))) else st
  | _ => st
  end.

Definition hi_call (nr : Z) (a : args) (st : store W) : store W :=
  match syscall_import rt st nr a with
  | Return (_, st') => if 3 <=? next_fd (k_fds (st_kernel st')) then st' else st
  | _ => st
  end.

Definition hi_start (st : store W) : store W :=
  hi_call NR_EXIT (Args 7 0 0 0 0 0) (hi_call NR_WRITE (Args 1 0 2 0 0 0) (hi_store st)).

(** The calls it gets to make. *)
Definition hi_call_log (nr : Z) (a : args) (st : store W) : list event :=
  match syscall_import rt st nr a with
  | Return (r, st') => if 3 <=? next_fd (k_fds (st_kernel st')) then [(as_u32 nr, a, r)] else []
  | _ => []
  end.

Definition hi_start_log (st : store W) : list event :=
  hi_call_log NR_WRITE (Args 1 0 2 0 0 0) (hi_store st) ++
  hi_call_log NR_EXIT (Args 7 0 0 0 0 0) (hi_call NR_WRITE (Args 1 0 2 0 0 0) (hi_store st)).

(** A runtime for which every module is this guest. *)
Definition hi_wasm : Wasm W := {|
  Module := unit;
  Instance := unit;
  engine_new _ := WOk tt;
  set_fuel_ok := consume_fuel;
  link_syscall _ := WOk tt;
  module_new _ _ := WOk tt;
  module_deserialize _ _ := WErr (MkWasmError None [] []);
  module_from_file _ _ _ := WOk tt;
  instantiate _ st := Return (WOk tt, st);
  get_memory _ := Some (zero_mem 131072);
  start_sig _ := Some SVoid;
  call_async _ st := Return (WErr unreachable_trap, hi_start st);
  call_timeout _ _ st := Return (hi_start st);
|}.

Definition hi_log : @CallLog W hi_wasm :=
  @Build_CallLog W hi_wasm (λ _ _, []) (λ _, hi_start_log).

Context (rt_ok : runtime_ok rt).

Lemma hi_call_run nr a st es st' :
  guest_run sane_call (hi_call nr a st) es st' → guest_run sane_call st (hi_call_log nr a st ++ es) st'.
Proof using rt_ok.
  unfold hi_call, hi_call_log. destruct (syscall_import rt st nr a) as [[r st1]| |] eqn:E; [|done..].
  case_if; [|done]. intros Hr. eapply run_syscall; [exact E|by split|exact Hr].
Qed.

Lemma hi_start_run st : guest_run sane_call st (hi_start_log st) (hi_start st).
Proof using rt_ok.
  pose proof (hi_call_run NR_EXIT (Args 7 0 0 0 0 0) (hi_call NR_WRITE (Args 1 0 2 0 0 0) (hi_store st)) [] _
    (run_done _ _)) as Hr. rewrite app_nil_r in Hr. apply hi_call_run in Hr.
  fold (hi_start st) in Hr. fold (hi_start_log st) in Hr. revert Hr. generalize (hi_start_log st) (hi_start st).
  intros es st'. unfold hi_store.
  destruct (k_memory (st_kernel st)) as [[m|m]|] eqn:E; [|done..]. case_if; [|done].
  intros Hr. by apply (run_memory _ st m hi_memory); [done| |apply hi_memory_bounds|].
Qed.

Lemma hi_sane_init m st : @sane_init W _ _ _ _ _ hi_wasm m st.
Proof. intros r st'. cbn. intros [= <- <-]. exists []. constructor. Qed.

Lemma hi_log_laws : @CallLogLaws W _ _ _ _ _ hi_wasm hi_log.
Proof using rt_ok.
  split; intros ? st st' r; cbn; intros [= <- <-]; [constructor|]. apply sane_any, hi_start_run.
Qed.

Lemma hi_wasm_laws : @WasmLaws W _ _ _ _ _ hi_wasm.
Proof using rt_ok.
  split.
  - intros i st st' r. cbn. intros [= <- <-]. eexists. apply sane_any, hi_start_run.
  - intros m st st' r. cbn. intros [= <- <-]. exists []. constructor.
  - intros i m [= <-]. by apply zero_mem_bounds.
  - done.
Qed.

End hi.

#[global] Instance null_wasm : Wasm NullHost := hi_wasm quiet.
#[global] Instance null_wasm_laws : WasmLaws NullHost := hi_wasm_laws quiet quiet_ok.

Definition hi_module : @Module NullHost null_wasm := tt.

Lemma child_reports_witness :
  ∃ cs' h' w', spawn_child_thread engine_config hi_module forked 2 id = Return (cs', h', w') ∧
  ∃ k3, wait4_syscall map_to_list [] (set_ps forked (set_children (k_ps forked) cs')) (Args 2 64 0 0 0 0) = Return (2, k3) ∧
    guest_slice k3 64 4 = Ok [0; 7; 0; 0].
Proof.
  assert (∃ cs' h' w', spawn_child_thread engine_config hi_module forked 2 id = Return (cs', h', w')) as (cs' & h' & w' & Hs).
  { vm_compute. by eexists _, _, _. }
  exists cs', h', w'. split; [exact Hs|].
  destruct (child_reports map_to_list engine_config hi_module forked 2 id cs' h' w' 64) as (e & _ & He & Hw).
  - done.
  - lia.
  - done.
  - exact Hs.
  - assert (child_status e = 7) as Hc.
    { destruct He as [He|[_ [err He]]]; [|done].
      assert (child_run engine_config hi_module (try_to_snapshot forked) (k_host forked) = Return (ChildRan None (Some 7), tt)) as Hr
        by by vm_compute.
      rewrite Hr in He. by injection He as <-. }
    destruct (Hw (set_ps forked (set_children (k_ps forked) cs'))) as (k3 & Hk3 & _ & Hst).
    + done.
    + right. by apply (forked_in_memory 64 4).
    + exists k3. split; [exact Hk3|]. rewrite Hst by done. by rewrite Hc.
Defined.

Lemma child_resumes_parent_witness :
  ∃ i st w', child_start engine_config hi_module (try_to_snapshot piped_kern) tt = Return (Some (i, st), w') ∧
    try_to_snapshot (st_kernel st) = try_to_snapshot piped_kern ∧ memory_restored piped_kern 131072 (st_kernel st).
Proof.
  destruct (child_start engine_config hi_module (try_to_snapshot piped_kern) tt) as [[[[i st]|] w']| |] eqn:E.
  2-4: exfalso; assert (match child_start engine_config hi_module (try_to_snapshot piped_kern) tt with
    | Return (Some _, _) => true | _ => false end = true) as Hc by (vm_compute; reflexivity); by rewrite E in Hc.
  exists i, st, w'. split; [reflexivity|].
  apply (child_resumes_parent engine_config hi_module piped_kern tt i st w' (zero_mem 131072)).
  - apply piped_wf.
  - apply piped_wasm.
  - apply piped_plain.
  - apply hi_sane_init.
  - exact E.
  - reflexivity.
  - split.
    + exists 2. split; [lia|done|]. intros p [? Hp]. simpl in Hp. by rewrite lookup_empty in Hp.
    + intros p _ Hp. destruct Hp. unfold read_byte. simpl. by rewrite lookup_empty.
Defined.
