(* ===== verification/Cli.v ===== *)
(** * The command line: errors, arguments and guests (src/cli)

    [edge-cli] has six subcommands. Each parses its arguments, builds a kernel
    and an instance of the module, and returns an exit code or a [CliError].
    This file has the errors, the dispatcher, and [run], [freeze] and [serve];
    [CliTools] has [migrate], [trace] and [bench]. Text printed for the user
    (help, diagnostics on standard error) is not modelled, and an error's
    message is known by its fixed part. *)

From S2P Require Import Prelude Word Errno GuestMem Text Parse Meter Path Host Vfs Net Fd Resolver Kernel.
From S2P Require Import Snapshot SysResolver Dispatch Wasm.

(** ** Errors (src/cli/error.rs) *)

Inductive CliError :=
  | CArgs (msg : string)
  | CMissingSubcommand
  | CUnknown (s : bytes)
  | CSnapshot (e : SnapshotError)
  | CWasmtime (e : wasm_error)
  | CIo (e : ErrorKind)
  | CBench (p50 : Z)
  | CMetered (used_ms budget_ms : Z).

(** [CliResult<T>]. *)
Inductive cres (A : Type) : Type := COk (a : A) | CErr (e : CliError).
Arguments COk {A} a.
Arguments CErr {A} e.

(** The [From] implementations. An [anyhow::Error] becomes a usage error,
    whatever it wraps. *)
Definition from_snapshot {A} (r : sres A) : cres A := match r with SOk a => COk a | SErr e => CErr (CSnapshot e) end.
Definition from_wasm {A} (r : wres A) : cres A := match r with WOk a => COk a | WErr e => CErr (CWasmtime e) end.
Definition from_anyhow {A} (r : wres A) : cres A := match r with WOk a => COk a | WErr _ => CErr (CArgs "anyhow") end.
Definition ok_or {A} (o : option A) (msg : string) : cres A := match o with Some a => COk a | None => CErr (CArgs msg) end.

(** [?] on a result without state. *)
Definition cres_bind {A B} (r : cres A) (f : A → cres B) : cres B :=
  match r with COk a => f a | CErr e => CErr e end.

Notation "'let@' x := r ; k" := (cres_bind r (λ x, k))
  (at level 10, x pattern, r at level 100, k at level 200) : libos_scope.

(** [?] on a computation that ends in a state [s]: a world, a kernel or a
    store. On an error what is left is the world. *)
Class HostOf (S W : Type) := host_of : S → W.
#[global] Instance host_of_world W : HostOf W W := id.
#[global] Instance host_of_kern W : HostOf (kern W) W := k_host.
#[global] Instance host_of_store W : HostOf (store W) W := λ st, k_host (st_kernel st).

Definition cbind {A B S W} `{HostOf S W} (m : outcome (cres A * S)) (f : A → S → outcome (cres B * W))
    : outcome (cres B * W) :=
  match m with
  | Return (COk a, s) => f a s
  | Return (CErr e, s) => Return (CErr e, host_of s)
  | Hang => Hang
  | Panic => Panic
  end.

Notation "'let$' x , s := m ; k" := (cbind m (λ x s, k))
  (at level 10, x pattern, s pattern, m at level 100, k at level 200) : libos_scope.

(** A result that changes no state. *)
Definition at_state {A S} (r : cres A) (s : S) : outcome (cres A * S) := Return (r, s).

(** ** Subcommands (src/cli/subcommand.rs) *)

Inductive Subcommand := Run | Freeze | Serve | Bench | Trace | Migrate.

#[global] Instance Subcommand_eq_dec : EqDecision Subcommand.
Proof. solve_decision. Defined.

Definition from_str (s : bytes) : cres Subcommand :=
  if bool_decide (s = str "run") then COk Run
  else if bool_decide (s = str "freeze") then COk Freeze
  else if bool_decide (s = str "serve") then COk Serve
  else if bool_decide (s = str "bench") then COk Bench
  else if bool_decide (s = str "trace") then COk Trace
  else if bool_decide (s = str "migrate") then COk Migrate
  else CErr (CUnknown s).

(** The exit code of a result. *)
Definition exit_code_of (r : cres Z) : Z :=
  match r with
  | COk code => code
  | CErr (CArgs _) => 2
  | CErr (CSnapshot _) | CErr (CWasmtime _) | CErr (CIo _) | CErr (CBench _) | CErr (CMetered _ _) => 1
  | CErr CMissingSubcommand | CErr (CUnknown _) => 2
  end.

(** ** Arguments *)

(** Guest arguments after the module: an optional [--] is dropped. *)
Definition guest_args (positional : list bytes) : list bytes :=
  if bool_decide (positional !! 1%nat = Some (str "--")) then drop 2 positional else drop 1 positional.

Definition RUN_DEFAULT_BUDGET_MS : Z := U64_MAX.

Definition USAGE_RUN : string := "usage: edge-cli run <wasm> [--] [args...] [--cpu-budget-ms <ms>]".

(** The loop of [parse_run_argv]: the budget is taken out wherever it is. *)
Fixpoint run_argv (args : list bytes) (budget_ms : Z) (rest : list bytes) : cres (Z * list bytes) :=
  match args with
  | [] => COk (budget_ms, rest)
  | a :: args =>
    if bool_decide (a = str "--cpu-budget-ms") then
      match args with
      | [] => CErr (CArgs "run: --cpu-budget-ms requires a number")
      | raw :: args =>
        let@ budget_ms := ok_or (parse_u64 raw) "run: --cpu-budget-ms";
        if budget_ms =? 0 then CErr (CArgs "run: --cpu-budget-ms 0 is reserved")
        else run_argv args budget_ms rest
      end
    else run_argv args budget_ms (rest ++ [a])
  end.

Definition parse_run_argv (args : list bytes) : cres (bytes * Z * list bytes) :=
  if bool_decide (args = []) then CErr (CArgs USAGE_RUN)
  else
    let@ (budget_ms, rest) := run_argv args RUN_DEFAULT_BUDGET_MS [];
    match rest with
    | [] => CErr (CArgs USAGE_RUN)
    | wasm_path :: _ => COk (wasm_path, budget_ms, guest_args rest)
    end.

Definition USAGE_FREEZE : string := "usage: edge-cli freeze <wasm> [--] [args...] --out <path>".

Fixpoint freeze_argv (args : list bytes) (out : option bytes) (positional : list bytes)
    : cres (option bytes * list bytes) :=
  match args with
  | [] => COk (out, positional)
  | a :: args =>
    if bool_decide (a = str "--out") then
      match args with
      | [] => CErr (CArgs "freeze: --out requires a path argument")
      | p :: args => freeze_argv args (Some p) positional
      end
    else freeze_argv args out (positional ++ [a])
  end.

(** The module, the guest's arguments and the snapshot's path. *)
Definition parse_freeze_argv (args : list bytes) : cres (bytes * list bytes * bytes) :=
  let@ (out, positional) := freeze_argv args None [];
  let@ out := ok_or out USAGE_FREEZE;
  match positional with
  | [] => CErr (CArgs USAGE_FREEZE)
  | wasm_path :: _ => COk (wasm_path, guest_args positional, out)
  end.

Fixpoint serve_argv (args : list bytes) (port : option Z) (positional : list bytes)
    : cres (option Z * list bytes) :=
  match args with
  | [] => COk (port, positional)
  | a :: args =>
    if bool_decide (a = str "--port") then
      match args with
      | [] => CErr (CArgs "serve: --port requires a number argument")
      | raw :: args =>
        let@ p := ok_or (parse_u16 raw) "serve: --port";
        if p =? 0 then CErr (CArgs "serve: --port 0 is reserved (kernel ephemeral)")
        else serve_argv args (Some p) positional
      end
    else serve_argv args port (positional ++ [a])
  end.

(** The port, the snapshot and the module. *)
Definition parse_serve_argv (args : list bytes) : cres (option Z * bytes * bytes) :=
  let@ (port, positional) := serve_argv args None [];
  match positional with
  | snap_path :: wasm_path :: _ => COk (port, snap_path, wasm_path)
  | _ => CErr (CArgs "usage: edge-cli serve <snap> <wasm> [--port <p>]")
  end.

(** ** Inherited descriptors (src/cli/serve.rs) *)

Definition EDGE_SERVE_FD_PREFIX : bytes := str "EDGE_SERVE_FD_".

(** The variables with the prefix, as target, target and source. *)
Fixpoint inherited_entries (env : list (bytes * bytes)) : cres (list (Z * Z * Z)) :=
  match env with
  | [] => COk []
  | (key, val) :: env =>
    match strip_prefix EDGE_SERVE_FD_PREFIX key with
    | None => inherited_entries env
    | Some suffix =>
      let@ target_fd := ok_or (parse_u32 suffix) "serve: suffix must be a non-negative integer";
      let@ source_fd := ok_or (parse_i32 val) "serve: source fd";
      if source_fd <? 0 then CErr (CArgs "serve: source fds must be non-negative")
      else
        let@ entries := inherited_entries env;
        COk ((target_fd, target_fd, source_fd) :: entries)
    end
  end.

Definition parse_inherited_fds (env : list (bytes * bytes)) : cres (list (Z * Z)) :=
  let@ entries := inherited_entries env;
  COk ((λ e, (e.1.2, e.2)) <$> sort_by (λ a b, a.1.1 <=? b.1.1) entries).

(** ** The port override *)

Definition set_bound (s : SocketSnapshot) (b : option SockAddr) : SocketSnapshot :=
  {| ssn_kind := ssn_kind s; ssn_nonblock := ssn_nonblock s; ssn_bound := b;
     ssn_listen_backlog := ssn_listen_backlog s; ssn_so_reuseaddr := ssn_so_reuseaddr s;
     ssn_so_keepalive := ssn_so_keepalive s; ssn_tcp_nodelay := ssn_tcp_nodelay s;
     ssn_peer_addr_present := ssn_peer_addr_present s; ssn_last_error := ssn_last_error s;
     ssn_shutdown_flags := ssn_shutdown_flags s; ssn_is_acceptor := ssn_is_acceptor s;
     ssn_peek_buf := ssn_peek_buf s; ssn_family_unix := ssn_family_unix s;
     ssn_unix_inner := ssn_unix_inner s; ssn_inherited := ssn_inherited s |}.

(** An entry with its port overwritten; [None] where it is no IPv4 listener. *)
Definition override_entry (port : Z) (e : FdEntrySnapshot) : option FdEntrySnapshot :=
  if negb (bool_decide (rs_kind (fe_kind e) = KSocket)) then None
  else match rb_socket (rs_body (fe_kind e)) with
  | None => None
  | Some sock =>
    match ssn_bound sock with
    | Some (SockV4 _ ip) =>
      if ssn_is_acceptor sock then
        let b := rs_body (fe_kind e) in
        let sock := set_bound sock (Some (SockV4 port ip)) in
        Some (MkFdEntry (fe_fd e) (MkResSnap KSocket
                (MkBody (rb_pipe b) (rb_file b) (Some sock) (rb_epoll b) (rb_eventfd b))))
      else None
    | _ => None
    end
  end.

Definition set_fd_entries (s : KernelSnapshot) (l : list FdEntrySnapshot) : KernelSnapshot :=
  {| sn_format_version := sn_format_version s; sn_pages := sn_pages s;
     sn_fds := MkFdSnap l (fd_next_fd (sn_fds s)) (fd_cloexec (sn_fds s));
     sn_mm := sn_mm s; sn_vfs := sn_vfs s; sn_boot_monotonic_ns := sn_boot_monotonic_ns s;
     sn_brk := sn_brk s; sn_args := sn_args s; sn_env := sn_env s; sn_rng_seed := sn_rng_seed s;
     sn_signals := sn_signals s; sn_exit_code := sn_exit_code s; sn_comm := sn_comm s;
     sn_futex_table := sn_futex_table s; sn_cpu_ns := sn_cpu_ns s;
     sn_module_sha256 := sn_module_sha256 s |}.

Definition override_snapshot_port (snap : KernelSnapshot) (port : Z) : cres KernelSnapshot :=
  let entries := fd_entries (sn_fds snap) in
  if existsb (λ e, bool_decide (is_Some (override_entry port e))) entries
  then COk (set_fd_entries snap ((λ e, default e (override_entry port e)) <$> entries))
  else CErr (CArgs "serve: --port: snapshot has no IPv4 listener to override").

(** The module's hash on a snapshot (src/cli/freeze.rs). *)
Definition set_module_sha256 (s : KernelSnapshot) (h : bytes) : KernelSnapshot :=
  {| sn_format_version := sn_format_version s; sn_pages := sn_pages s; sn_fds := sn_fds s;
     sn_mm := sn_mm s; sn_vfs := sn_vfs s; sn_boot_monotonic_ns := sn_boot_monotonic_ns s;
     sn_brk := sn_brk s; sn_args := sn_args s; sn_env := sn_env s; sn_rng_seed := sn_rng_seed s;
     sn_signals := sn_signals s; sn_exit_code := sn_exit_code s; sn_comm := sn_comm s;
     sn_futex_table := sn_futex_table s; sn_cpu_ns := sn_cpu_ns s; sn_module_sha256 := h |}.

Section cli.
Context {W : Type} `{Host W} `{Net W} `{Dns W} `{SnapHost W} `{Codec} `{Digest} `{Os W} `{Wasm W}.
Implicit Types k : kern W.
Implicit Types st : store W.
Implicit Types w : W.

(** ** Guests *)

(** [std::fs::read] of the module. *)
Definition read_wasm w (wasm_path : bytes) (msg : string) : cres bytes :=
  match fs_read w (components wasm_path) with IoOk bs => COk bs | IoErr _ => CErr (CArgs msg) end.

(** [instantiate_async] with [?], then the memory is attached. *)
Definition instantiate_cli (m : Module) st : outcome (cres Instance * store W) :=
  match instantiate_attached m st with
  | Return (r, st) => Return (from_wasm r, st)
  | Hang => Hang
  | Panic => Panic
  end.

Definition lift_store (o : outcome (store W)) : outcome (cres unit * store W) :=
  match o with Return st => Return (COk tt, st) | Hang => Hang | Panic => Panic end.

Definition lift_vars w (o : outcome (list (bytes * bytes))) : outcome (cres (list (bytes * bytes)) * W) :=
  match o with Return e => Return (COk e, w) | Hang => Hang | Panic => Panic end.

Definition get_fuel (engine : Config) st : option Z :=
  if set_fuel_ok (W:=W) engine then Some (st_fuel st) else None.

(** Empty a shared buffer. *)
Definition drain k (loc : Z) : bytes * kern W :=
  let p := pipe_at (k_heap k) loc in
  (buf p, set_heap k (set_pipe (k_heap k) loc (MkPipe [] (closed p) (p_nonblock p)))).

Definition drain_to_stdout k (b : option Z) : kern W :=
  match b with
  | Some loc => let '(bs, k) := drain k loc in set_host k (stdout_write (k_host k) bs)
  | None => k
  end.

Definition drain_to_stderr k (b : option Z) : kern W :=
  match b with
  | Some loc => let '(bs, k) := drain k loc in set_host k (stderr_write (k_host k) bs)
  | None => k
  end.

(** [call_start] (src/cli/util.rs). *)
Definition call_start (i : Instance) st : outcome (cres unit * store W) :=
  match start_sig i with
  | Some _ =>
    match call_async i st with
    | Return (r, st) => Return (from_wasm (match r with WOk _ => WOk tt | WErr e => WErr e end), st)
    | Hang => Hang
    | Panic => Panic
    end
  | None => Return (CErr (CArgs "no _start export"), st)
  end.

(** ** run (src/cli/run.rs) *)

(** What the guest's end means: out of fuel is an error, any other trap is
    ignored; its output is drained in both cases. *)
Definition finish_guest (engine : Config) (budget_ms : Z) (out err : option Z) (r : wres Z) st
    : outcome (cres Z * W) :=
  let budget_fuel := ms_to_fuel budget_ms in
  let k := drain_to_stderr (drain_to_stdout (st_kernel st) out) err in
  match r with
  | WErr e =>
    if is_out_of_fuel e then
      let used_ms := match get_fuel engine st with
                     | Some remaining => fuel_to_ms (Z.max (budget_fuel - remaining) 0)
                     | None => 0
                     end in
      Return (CErr (CMetered used_ms budget_ms), k_host k)
    else Return (COk (default 0 (k_exit_code k)), k_host k)
  | WOk _ => Return (COk (default 0 (k_exit_code k)), k_host k)
  end.

(** The guest's arguments are not used. *)
Definition drive_guest (wasm_path : bytes) (budget_ms : Z) (script_args : list bytes) w : outcome (cres Z * W) :=
  let$ engine, w := at_state (from_anyhow build_engine) w;
  let$ _, w := at_state (from_anyhow (add_to_linker engine)) w;
  let k := kernel_new [] [] w in
  let$ env, _ := lift_vars (k_host k) (env_vars (k_host k));
  let k := attach_resolver_config k (from_env env) in
  let$ _, st := lift_store (build_store engine k new_locals);
  let budget_fuel := ms_to_fuel budget_ms in
  let$ st, _ := at_state (ok_or (set_fuel engine st budget_fuel) "run: set_fuel failed") st;
  let$ bs, st := at_state (read_wasm (host_of st) wasm_path "reading") st;
  let$ m, st := at_state (from_wasm (load_module engine bs)) st;
  let$ i, st := instantiate_cli m st;
  let out := stdout_buf (st_kernel st) in
  let err := stderr_buf (st_kernel st) in
  match start_sig i with
  | None => Return (CErr (CArgs "edge-cli run: no _start export"), host_of st)
  | Some _ =>
    match call_async i st with
    | Return (r, st) => finish_guest engine budget_ms out err r st
    | Hang => Hang
    | Panic => Panic
    end
  end.

Definition run_main (args : list bytes) w : outcome (cres Z * W) :=
  let$ (wasm_path, budget_ms, script_args), w := at_state (parse_run_argv args) w;
  drive_guest wasm_path budget_ms script_args w.

(** ** freeze (src/cli/freeze.rs) *)

(** Drive the guest for at most ten seconds, then freeze it; the result of its
    call does not matter. *)
Definition freeze_snapshot (wasm_path : bytes) (guest : list bytes) w : outcome (cres KernelSnapshot * W) :=
  let$ engine, w := at_state (from_anyhow build_engine) w;
  let$ _, w := at_state (from_anyhow (add_to_linker engine)) w;
  let k := kernel_new guest [] w in
  let$ _, st := lift_store (build_store engine k new_locals);
  let$ bs, st := at_state (read_wasm (host_of st) wasm_path "freeze: reading") st;
  let module_sha256 := sha256 bs in
  let$ m, st := at_state (from_wasm (load_module engine bs)) st;
  let$ i, st := instantiate_cli m st;
  let driven := match start_sig i with Some _ => call_timeout 10 i st | None => Return st end in
  let$ _, st := lift_store driven;
  Return (COk (set_module_sha256 (try_to_snapshot (st_kernel st)) module_sha256), host_of st).

Definition freeze_main (args : list bytes) w : outcome (cres Z * W) :=
  let$ (wasm_path, guest, out), w := at_state (parse_freeze_argv args) w;
  let$ snap, w := freeze_snapshot wasm_path guest w;
  let '(r, w) := write_snapshot_file w (components out) snap in
  let$ _, w := at_state (from_snapshot r) w;
  Return (COk 0, w).

(** ** serve (src/cli/serve.rs) *)

(** Everything of [serve_loop] before the guest is called again: the hash is
    checked before anything is applied; the inherited listeners are attached
    before the state is restored, which wipes them, and again after it. *)
Definition serve_prepare (snap : KernelSnapshot) (wasm_path : bytes) (inherited : list (Z * Z)) w
    : outcome (cres (Instance * store W) * W) :=
  let$ engine, w := at_state (from_anyhow build_engine) w;
  let$ _, w := at_state (from_anyhow (add_to_linker engine)) w;
  let k := kernel_new [] [] w in
  let$ env, _ := lift_vars (k_host k) (env_vars (k_host k));
  let k := attach_resolver_config k (from_env env) in
  let$ _, st := lift_store (build_store engine k new_locals);
  let$ bs, st := at_state (read_wasm (host_of st) wasm_path "serve: reading") st;
  let$ m, st := at_state (from_wasm (load_module engine bs)) st;
  let$ i, st := instantiate_cli m st;
  let$ _, st := at_state (from_snapshot (verify_module_hash snap bs)) st;
  let '(preattached, k) := attach_inherited_listeners (st_kernel st) inherited in
  let '(r, k) := apply_snapshot_kernel_state snap k in
  let$ _, k := at_state (from_snapshot r) k;
  let k := apply_snapshot_inherited_listeners snap k preattached in
  match memory k with
  | Err _ => Return (CErr (CArgs "serve: no memory after instantiate"), k_host k)
  | Ok mem =>
    let '(r, k) := apply_to_attached snap k mem in
    let$ _, k := at_state (from_snapshot r) k;
    Return (COk (i, st_set_kernel st k), k_host k)
  end.

Definition serve_loop (snap : KernelSnapshot) (wasm_path : bytes) (inherited : list (Z * Z)) w
    : outcome (cres Z * W) :=
  let$ (i, st), _ := serve_prepare snap wasm_path inherited w;
  match call_start i st with
  | Return (_, st) => Return (COk 0, host_of st)
  | Hang => Hang
  | Panic => Panic
  end.

Definition serve_main (args : list bytes) w : outcome (cres Z * W) :=
  let$ (port_override, snap_path, wasm_path), w := at_state (parse_serve_argv args) w;
  let$ snap, w := at_state (from_snapshot (read_snapshot_file w (components snap_path))) w;
  let$ snap, w := at_state (match port_override with
                            | Some p => override_snapshot_port snap p
                            | None => COk snap
                            end) w;
  let$ env, w := lift_vars w (env_vars w);
  let$ inherited, w := at_state (parse_inherited_fds env) w;
  serve_loop snap wasm_path inherited w.

End cli.
