(* ===== verification/CliTools.v ===== *)
(** * The command line: migrate, trace, bench and the dispatcher (src/cli)

    The other three subcommands, and [run_main_from], which picks one. *)

From S2P Require Import Prelude Word Errno GuestMem Text Parse Meter Path Host Vfs Net Fd Resolver Kernel.
From S2P Require Import Snapshot SysResolver Dispatch Wasm Percentile Cli.

(** ** migrate: arguments (src/cli/migrate.rs) *)

(** The first [--] is dropped, wherever it is. *)
Fixpoint drop_dashdash (seen : bool) (args : list bytes) : list bytes :=
  match args with
  | [] => []
  | a :: args =>
    if negb seen && bool_decide (a = str "--") then drop_dashdash true args
    else a :: drop_dashdash seen args
  end.

Definition parse_migrate_args (args : list bytes) : cres (bytes * list bytes) :=
  match args with
  | [] => CErr (CArgs "usage: edge-cli migrate <wasm> [--] [args...]")
  | wasm :: args => COk (wasm, drop_dashdash false args)
  end.

(** What the two child processes are called with, after the subcommand. *)
Definition migrate_freeze_argv (wasm_path : bytes) (guest : list bytes) (snap_path : bytes) : list bytes :=
  str "freeze" :: wasm_path :: (if bool_decide (guest = []) then [] else str "--" :: guest) ++
  [str "--out"; snap_path].

Definition migrate_serve_argv (wasm_path snap_path : bytes) : list bytes :=
  [str "serve"; snap_path; wasm_path].

(** [collect_inherit_env]. *)
Definition inherit_env (env : list (bytes * bytes)) : list (bytes * bytes) :=
  List.filter (λ kv, utf8_valid kv.1 && bool_decide (is_Some (strip_prefix EDGE_SERVE_FD_PREFIX kv.1))) env.

Definition MIGRATE_IN_PROCESS_ENV : bytes := str "MIGRATE_IN_PROCESS".

(** ** trace: arguments and output (src/cli/trace.rs) *)

(** Baseline, whether the marker is printed, positional arguments. *)
Fixpoint trace_argv (args : list bytes) (baseline : option bytes) (emit_marker : bool) (positional : list bytes)
    : cres (option bytes * bool * list bytes) :=
  match args with
  | [] => COk (baseline, emit_marker, positional)
  | a :: args =>
    if bool_decide (a = str "--diff") then
      match args with
      | [] => CErr (CArgs "--diff requires a path argument")
      | p :: args => trace_argv args (Some p) emit_marker positional
      end
    else if bool_decide (a = str "--no-marker") then trace_argv args baseline false positional
    else trace_argv args baseline emit_marker (positional ++ [a])
  end.

Definition parse_trace_argv (args : list bytes) : cres (option bytes * bool * bytes * list bytes) :=
  let@ (baseline, emit_marker, positional) := trace_argv args None true [];
  match positional with
  | [] => CErr (CArgs "usage: edge-cli trace <wasm> [--diff <baseline>] [--no-marker] [--] [args...]")
  | wasm_path :: _ => COk (baseline, emit_marker, wasm_path, guest_args positional)
  end.

(** One line of JSON per syscall; 34 is the double quote, 92 the backslash. *)
Definition quoted (s : bytes) : bytes := 34 :: s ++ [34].

Definition trace_line (e : TraceEntry) : bytes :=
  let a := te_args e in
  str "{" ++ quoted (str "ts_ns") ++ str ":" ++ display (ts_ns e) ++
  str "," ++ quoted (str "nr") ++ str ":" ++ display (te_nr e) ++
  str "," ++ quoted (str "name") ++ str ":" ++ quoted (str (te_name e)) ++
  str "," ++ quoted (str "args") ++ str ":[" ++
    join_with (str ",") (display <$> [a0 a; a1 a; a2 a; a3 a; a4 a; a5 a]) ++ str "]" ++
  str "," ++ quoted (str "ret") ++ str ":" ++ display (te_ret e) ++ str "}" ++ [10].

(** Backslashes are doubled, then double quotes get one before them. *)
Definition escape (s : bytes) : bytes :=
  let s := concat ((λ c, if c =? 92 then [92; 92] else [c]) <$> s) in
  concat ((λ c, if c =? 34 then [92; 34] else [c]) <$> s).

Definition marker_line (marker : bytes) : bytes :=
  str "{" ++ quoted (str "marker") ++ str ":" ++ quoted (escape marker) ++ str "}" ++ [10].

(** The names of a baseline file. *)
Definition baseline_names (text : bytes) : list bytes :=
  List.filter (λ l, negb (bool_decide (l = [])) && negb (bool_decide (head l = Some 35))) (trim <$> lines text).

(** Names of the baseline that were not seen. *)
Definition missing_names (baseline : list bytes) (entries : list TraceEntry) : list bytes :=
  List.filter (λ n, negb (bool_decide (n ∈ (λ e, str (te_name e)) <$> entries))) baseline.

(** The marker's text: up to the first NUL of what follows a prefix. *)
Definition up_to_nul (s : bytes) : bytes :=
  match position (λ b, b =? 0) s with Some n => take n s | None => s end.

Definition MARKER_ADDR : Z := 4096.
Definition MARKER_LEN : Z := 64.

Definition marker_of (buf : bytes) : bytes :=
  if bool_decide (take 4 buf = str "PASS") then str "PASS"
  else if bool_decide (take 5 buf = str "FAIL:") then str "FAIL:" ++ to_string_lossy (up_to_nul (drop 5 buf))
  else if bool_decide (take 5 buf = str "SKIP:") then str "SKIP:" ++ to_string_lossy (up_to_nul (drop 5 buf))
  else [].

(** ** bench: arguments and the gate (src/cli/bench.rs) *)

Fixpoint bench_argv (args : list bytes) (iters budget_ms : Z) (positional : list bytes)
    : cres (Z * Z * list bytes) :=
  match args with
  | [] => COk (iters, budget_ms, positional)
  | a :: args =>
    if bool_decide (a = str "--iters") then
      match args with
      | [] => CErr (CArgs "bench: --iters requires a number argument")
      | raw :: args =>
        let@ iters := ok_or (parse_usize raw) "bench: --iters";
        if iters =? 0 then CErr (CArgs "bench: --iters must be > 0")
        else bench_argv args iters budget_ms positional
      end
    else if bool_decide (a = str "--cpu-budget-ms") then
      match args with
      | [] => CErr (CArgs "bench: --cpu-budget-ms requires a number argument")
      | raw :: args =>
        let@ budget_ms := ok_or (parse_u64 raw) "bench: --cpu-budget-ms";
        if budget_ms =? 0 then CErr (CArgs "bench: --cpu-budget-ms 0 is reserved")
        else bench_argv args iters budget_ms positional
      end
    else bench_argv args iters budget_ms (positional ++ [a])
  end.

(** Iterations, budget, snapshot and module. *)
Definition parse_bench_argv (args : list bytes) : cres (Z * Z * bytes * bytes) :=
  let@ (iters, budget_ms, positional) := bench_argv args 50 U64_MAX [];
  match positional with
  | snap_path :: wasm_path :: _ => COk (iters, budget_ms, snap_path, wasm_path)
  | _ => CErr (CArgs "usage: edge-cli bench <snap> <wasm> [--iters <n>] [--cpu-budget-ms <ms>]")
  end.

(** [{n:>6}]: blanks on the left up to six characters. *)
Definition pad6 (s : bytes) : bytes := replicate (6 - length s) 32 ++ s.

(** The lines of the report; the unit is printed for times only. *)
Definition figure_lines (f : figures) (unit_text : bytes) : list bytes :=
  [str "    p50:  " ++ pad6 (display (f_p50 f)) ++ unit_text;
   str "    p95:  " ++ pad6 (display (f_p95 f)) ++ unit_text;
   str "    p99:  " ++ pad6 (display (f_p99 f)) ++ unit_text;
   str "    max:  " ++ pad6 (display (f_max f)) ++ unit_text].

Definition bench_report (iters budget_ms budget_fuel : Z) (snap_path : bytes) (snap : KernelSnapshot)
    (us fuel : figures) : list bytes :=
  [str "edge-cli bench: " ++ display iters ++ str " iters over " ++ to_string_lossy snap_path ++
     str " (" ++ display (Z.of_nat (length (sn_pages snap))) ++ str " pages, " ++
     display (Z.of_nat (length (fd_entries (sn_fds snap)))) ++ str " fds)";
   str "  budget:       " ++ display budget_ms ++ str " ms (" ++ display budget_fuel ++ str " fuel)";
   str "  restore cost:"] ++
  figure_lines us (str " µs") ++
  [str "  fuel consumed (per-iter, post-apply _start):"] ++
  figure_lines fuel [].

Section tools.
Context {W : Type} `{Host W} `{Net W} `{Dns W} `{SnapHost W} `{Codec} `{Digest} `{Os W} `{Wasm W}.
Implicit Types k : kern W.
Implicit Types st : store W.
Implicit Types w : W.

(** [println!]. *)
Definition println w (line : bytes) : W := stdout_write w (line ++ [10]).

(** ** migrate *)

(** A file of our own in the temporary directory. *)
Definition migrate_snap_path w : bytes :=
  raw_join (render (temp_dir w))
    (str "edge-migrate-" ++ display (process_id w) ++ str "-" ++ display (unix_nanos w) ++ str ".snap").

(** [run_subcommand]: the error of a process that could not be started. *)
Definition run_subcommand (exe : path) (argv : list bytes) (env : list (bytes * bytes)) (msg : string) w
    : outcome (cres bool * W) :=
  match spawn w exe argv env with
  | (IoOk success, w) => Return (COk success, w)
  | (IoErr _, w) => Return (CErr (CArgs msg), w)
  end.

Definition remove_snap (snap_path : bytes) w : W := (fs_remove_file w (components snap_path)).2.

Definition run_main_subprocess (args : list bytes) w : outcome (cres Z * W) :=
  let$ (wasm_path, guest), w := at_state (parse_migrate_args args) w;
  let snap_path := migrate_snap_path w in
  let$ exe, w := at_state (match current_exe w with
                           | IoOk p => COk p
                           | IoErr _ => CErr (CArgs "migrate: cannot locate current_exe")
                           end) w;
  let$ success, w := run_subcommand exe (migrate_freeze_argv wasm_path guest snap_path) []
                       "migrate: freeze subprocess failed" w;
  if negb success
  then Return (CErr (CArgs "migrate: freeze subprocess exited"), remove_snap snap_path w)
  else
    let serve_env := inherit_env (vars_os w) in
    let$ success, w := run_subcommand exe (migrate_serve_argv wasm_path snap_path) serve_env
                         "migrate: serve subprocess failed" w;
    let w := remove_snap snap_path w in
    if negb success then Return (CErr (CArgs "migrate: serve subprocess exited"), w)
    else Return (COk 0, w).

(** Freeze after [_start] returned, encode, decode, restore in a new instance.
    Only a [_start] with an [i64] result is called. *)
Definition run_main_in_process (args : list bytes) w : outcome (cres Z * W) :=
  let$ (wasm_path, guest), w := at_state (parse_migrate_args args) w;
  let$ engine, w := at_state (from_anyhow build_engine) w;
  let$ _, w := at_state (from_anyhow (add_to_linker engine)) w;
  let$ m, w := at_state (from_wasm (module_from_file engine w (components wasm_path))) w;
  let$ _, st := lift_store (build_store engine (new_without_stdio guest [] w) new_locals);
  let$ i, st := instantiate_cli m st;
  let driven := match start_sig i with
                | Some SI64 => match call_async i st with
                               | Return (_, st) => Return st
                               | Hang => Hang
                               | Panic => Panic
                               end
                | _ => Return st
                end in
  let$ _, st := lift_store driven;
  let snap := try_to_snapshot (st_kernel st) in
  let$ bs, st := at_state (from_snapshot (encode_snapshot snap)) st;
  let$ snap_restored, st := at_state (from_snapshot (decode_snapshot bs)) st;
  let$ _, fresh := lift_store (build_store engine (new_without_stdio guest [] (host_of st)) new_locals);
  let$ _, fresh := instantiate_cli m fresh;
  let '(r, k) := apply_snapshot_kernel_state snap_restored (st_kernel fresh) in
  let$ _, k := at_state (from_snapshot r) k;
  match memory k with
  | Err _ => Return (CErr (CArgs "no memory attached"), k_host k)
  | Ok mem =>
    let '(r, k) := apply_to_attached snap_restored k mem in
    let$ _, k := at_state (from_snapshot r) k;
    Return (COk 0, k_host k)
  end.

Definition migrate_main (args : list bytes) w : outcome (cres Z * W) :=
  if existsb (λ kv, bool_decide (kv.1 = MIGRATE_IN_PROCESS_ENV)) (vars_os w)
  then run_main_in_process args w else run_main_subprocess args w.

(** ** trace *)

(** [Memory::read] fails out of bounds. *)
Definition read_marker k : bytes :=
  match memory k with
  | Err _ => []
  | Ok m =>
    if gm_size m <? MARKER_ADDR + MARKER_LEN then []
    else marker_of (read_bytes m MARKER_ADDR MARKER_LEN)
  end.

(** The guest's arguments are not used here either. [l] are the locals of the
    thread; the value has the trace and the marker. *)
Definition run_guest (wasm_path : bytes) (script_args : list bytes) (l : locals) w
    : outcome (cres (list TraceEntry * bytes) * W) :=
  let$ engine, w := at_state (from_anyhow build_engine) w;
  let$ _, w := at_state (from_anyhow (add_to_linker engine)) w;
  let '(prev, l) := install_observer (Some TraceObserver) l in
  let k := kernel_new [] [] w in
  let$ _, st := lift_store (build_store engine k l);
  let$ bs, st := at_state (read_wasm (host_of st) wasm_path "reading") st;
  let$ m, st := at_state (from_wasm (load_module engine bs)) st;
  let$ i, st := instantiate_cli m st;
  let driven := match start_sig i with
                | Some _ => match call_async i st with
                            | Return (_, st) => Return st
                            | Hang => Hang
                            | Panic => Panic
                            end
                | None => Return st
                end in
  let$ _, st := lift_store driven;
  Return (COk (trace (st_locals st), read_marker (st_kernel st)), host_of st).

(** [read_to_string]: the file has to be UTF-8. *)
Definition read_baseline w (p : bytes) : cres bytes :=
  match fs_read w (components p) with
  | IoOk bs => if utf8_valid bs then COk bs else CErr (CIo OtherKind)
  | IoErr e => CErr (CIo e)
  end.

Definition trace_main (args : list bytes) w : outcome (cres Z * W) :=
  let$ (baseline, emit_marker, wasm_path, script_args), w := at_state (parse_trace_argv args) w;
  let$ (entries, marker), w := run_guest wasm_path script_args new_locals w;
  let w := foldl (λ w e, stdout_write w (trace_line e)) w entries in
  let w := if (emit_marker : bool) then stdout_write w (marker_line marker) else w in
  match baseline with
  | None => Return (COk 0, w)
  | Some p =>
    let$ text, w := at_state (read_baseline w p) w;
    if bool_decide (missing_names (baseline_names text) entries = [])
    then Return (COk 0, w) else Return (COk 1, w)
  end.

(** ** bench *)

(** One iteration: a new instance is restored and its [_start] called; the
    sample is the time of the restore in microseconds, with the fuel used. *)
Definition bench_iter (engine : Config) (snap : KernelSnapshot) (bs : bytes) (budget_fuel : Z) w
    : outcome (cres (Z * Z) * W) :=
  let$ _, w := at_state (from_anyhow (add_to_linker engine)) w;
  let$ _, st := lift_store (build_store engine (kernel_new [] [] w) new_locals);
  let$ st, _ := at_state (ok_or (set_fuel engine st budget_fuel) "bench: set_fuel failed") st;
  let$ m, st := at_state (from_wasm (load_module engine bs)) st;
  let$ i, st := instantiate_cli m st;
  let$ mem, st := at_state (ok_or (get_memory i) "bench: no `memory` export") st;
  let t0 := elapsed (host_of st) in
  let '(r, k) := apply_snapshot_kernel_state snap (st_kernel st) in
  let$ _, k := at_state (from_snapshot r) k;
  let '(r, k) := apply_to_attached snap k mem in
  let$ _, k := at_state (from_snapshot r) k;
  let elapsed_us := as_u64 ((elapsed (k_host k) - t0) / 1000) in
  let st := st_set_kernel st k in
  let driven := match start_sig i with
                | Some _ => match call_async i st with
                            | Return (_, st) => Return st
                            | Hang => Hang
                            | Panic => Panic
                            end
                | None => Return st
                end in
  let$ _, st := lift_store driven;
  let fuel_remaining := default budget_fuel (get_fuel engine st) in
  Return (COk (elapsed_us, Z.max (budget_fuel - fuel_remaining) 0), host_of st).

Fixpoint bench_loop (n : nat) (engine : Config) (snap : KernelSnapshot) (bs : bytes) (budget_fuel : Z)
    (samples : list (Z * Z)) w : outcome (cres (list (Z * Z)) * W) :=
  match n with
  | O => Return (COk samples, w)
  | S n =>
    let$ s, w := bench_iter engine snap bs budget_fuel w;
    bench_loop n engine snap bs budget_fuel (samples ++ [s]) w
  end.

(** The two vectors of samples have to be allocatable; figures that cannot be
    computed are a panic. *)
Definition bench_main (args : list bytes) w : outcome (cres Z * W) :=
  let$ (iters, budget_ms, snap_path, wasm_path), w := at_state (parse_bench_argv args) w;
  let$ snap, w := at_state (from_snapshot (read_snapshot_file w (components snap_path))) w;
  let$ bs, w := at_state (read_wasm w wasm_path "bench: reading") w;
  let$ engine, w := at_state (from_anyhow build_engine) w;
  let budget_fuel := ms_to_fuel budget_ms in
  if I64_MAX <? iters * 8 then Panic
  else
    let$ samples, w := bench_loop (Z.to_nat iters) engine snap bs budget_fuel [] w;
    match figures_of samples.*1, figures_of samples.*2 with
    | Some us, Some fuel =>
      let w := foldl println w (bench_report iters budget_ms budget_fuel snap_path snap us fuel) in
      if 5000 <=? f_p50 us then Return (CErr (CBench (f_p50 us)), w) else Return (COk 0, w)
    | _, _ => Panic
    end.

(** ** The dispatcher (src/cli/mod.rs) *)

Definition run_sub (sub : Subcommand) (rest : list bytes) w : outcome (cres Z * W) :=
  match sub with
  | Run => run_main rest w
  | Freeze => freeze_main rest w
  | Serve => serve_main rest w
  | Bench => bench_main rest w
  | Trace => trace_main rest w
  | Migrate => migrate_main rest w
  end.

Definition run_main_from (args : list bytes) w : outcome (Z * W) :=
  match args with
  | [] => Return (2, w)
  | first :: rest =>
    if bool_decide (first = str "--help") || bool_decide (first = str "-h") then Return (0, w)
    else if bool_decide (first = str "--version") || bool_decide (first = str "-V") then Return (0, w)
    else match from_str first with
    | CErr _ => Return (2, w)
    | COk sub =>
      match tokio_build w with
      | IoErr _ => Return (1, w)
      | IoOk _ =>
        match run_sub sub rest w with
        | Return (r, w) => Return (exit_code_of r, w)
        | Hang => Hang
        | Panic => Panic
        end
      end
    end
  end.

End tools.
