(* ===== verification/Terminal.v ===== *)
(** * A small machine to run the command line on

    Two files, a module and a snapshot at the path [s], an environment without
    variables, and a terminal that keeps what is printed. The witnesses of
    the command line's theorems run here. *)

From S2P Require Import Prelude Word Text Parse Path Host LinearAllocator Net Resolver Kernel Snapshot SnapshotSpec KernInv SysMemory.
From S2P Require Import SysResolver Dispatch Wasm.

Record Term := MkTerm { t_wasm : bytes; t_snap : option bytes; t_out : bytes; t_err : bytes }.

Definition SNAP_PATH : path := components (str "s").

#[global] Instance term_host : Host Term := {
  fs_canonicalize _ p := IoOk p;
  fs_metadata _ _ := IoErr NotFound;
  fs_symlink_metadata _ _ := IoErr NotFound;
  fs_read_dir _ _ := IoErr NotFound;
  fs_open w _ _ := (IoErr NotFound, w);
  fs_create_dir w _ := (IoErr PermissionDenied, w);
  fs_remove_dir w _ := (IoErr NotFound, w);
  fs_remove_file w _ := (IoErr NotFound, w);
  fs_rename w _ _ := (IoErr NotFound, w);
  fs_read_link _ _ := IoErr NotFound;
  fs_symlink w _ _ := (IoErr PermissionDenied, w);
  fs_hard_link w _ _ := (IoErr NotFound, w);
  fs_set_permissions w _ _ := (IoErr NotFound, w);
  file_metadata _ _ := IoErr OtherKind;
  file_seek w _ _ := (IoErr OtherKind, w);
  file_read w _ _ := (IoOk [], w);
  file_write w _ _ := (IoOk 0, w);
  file_try_clone w h := (IoOk h, w);
  file_set_len w _ _ := (IoErr OtherKind, w);
  file_set_permissions w _ _ := (IoErr OtherKind, w);
  file_set_modified w _ _ := (IoErr OtherKind, w);
  now _ := 0;
  elapsed _ := 0;
  rng_fill w n := (replicate n 0, w);
  memory_grow w size pages := (size + pages * 65536 <? 2 ^ 32, w);
}.

#[global] Instance term_host_laws : HostLaws Term.
Proof.
  split.
  - intros w h n bs w' [= <- <-]. simpl. split; [lia|constructor].
  - intros w h bs n w' [= <- <-]. lia.
  - intros w n bs w' [= <- <-]. rewrite length_replicate. split; [done|].
    apply Forall_replicate. unfold byte_ok. lia.
Qed.

#[global] Instance term_grow : Memory32 (W := Term).
Proof. intros w size pages w' [= Hb%Z.ltb_lt _] _. unfold LinearAllocator.PAGE_SIZE. lia. Qed.

#[global] Instance term_net : Net Term := {
  unix_bind w _ := (NetErr NetPermissionDenied, w);
  unix_listener_clone w h := (NetOk h, w);
  unix_accept w _ := (NetErr NetOther, w);
  unix_connect w _ := (NetErr NetNotFound, w);
  unix_pair w := (NetOk (1, 2), w);
  tcp_bind w _ := (NetErr NetAddrInUse, w);
  tcp_accept w _ := (NetErr NetOther, w);
  tcp_connect w _ := (NetErr NetConnectionRefused, w);
  stream_write w _ bs := (NetOk (Z.of_nat (length bs)), w);
  stream_read w _ _ := (NetOk [], w);
  stream_shutdown w _ := w;
  udp_socket w _ := (NetErr NetPermissionDenied, w);
  udp_set_reuse_address w _ _ := w;
  udp_set_only_v6 w _ _ := w;
  udp_bind w _ _ := (NetErr NetAddrInUse, w);
  udp_set_nonblocking w _ := (NetOk tt, w);
  udp_from_std w h := (NetOk h, w);
  udp_local_addr _ _ := NetErr NetOther;
}.

#[global] Instance term_net_laws : NetLaws Term.
Proof.
  split; try done.
  - intros w h n bs w' [= <- <-]. simpl. split; [lia|constructor].
  - intros w h bs n w' [= <- <-]. lia.
Qed.

#[global] Instance term_dns : Dns Term := no_dns Term.
#[global] Instance term_dns_laws : DnsLaws Term := no_dns_laws Term.

#[global] Instance term_snap : SnapHost Term := {
  fs_write w p bs :=
    if bool_decide (p = SNAP_PATH) then (IoOk tt, MkTerm (t_wasm w) (Some bs) (t_out w) (t_err w))
    else (IoErr PermissionDenied, w);
  fs_read w p :=
    if bool_decide (p = SNAP_PATH) then match t_snap w with Some bs => IoOk bs | None => IoErr NotFound end
    else IoOk (t_wasm w);
  fs_exists w p := if bool_decide (p = SNAP_PATH) then bool_decide (is_Some (t_snap w)) else true;
  rng_from_seed w _ := w;
  std_tcp_bind w _ := (NetErr NetAddrInUse, w);
  std_set_reuseaddr w _ _ := (NetOk tt, w);
  tcp_from_std w h := (NetOk h, w);
  tcp_local_addr _ _ := NetErr NetOther;
  dup_listener w _ := (None, w);
}.

#[global] Instance term_os : Os Term := {
  vars_os _ := [];
  current_dir _ := IoErr NotFound;
  current_exe _ := IoOk [RootDir];
  temp_dir _ := [RootDir];
  process_id _ := 1;
  os_random w n := (replicate n 7, w);
  stdout_write w bs := MkTerm (t_wasm w) (t_snap w) (t_out w ++ bs) (t_err w);
  stderr_write w bs := MkTerm (t_wasm w) (t_snap w) (t_out w) (t_err w ++ bs);
  spawn w _ _ _ := (IoOk true, w);
  tokio_build _ := IoOk tt;
}.

(** Only one thread. *)
Definition alone : runtime Term :=
  {| cache_order := map_to_list; child_order := map_to_list;
     epoll_order m := (map_to_list m).*2; futex_park _ _ _ := None; wait_schedule := [];
     poll_schedule := []; epoll_park := None; sleep _ k := k; net_park k := k |}.

Lemma alone_ok : runtime_ok alone.
Proof. by split. Qed.

(** The machine before anything has run: a module by its magic. *)
Definition term0 : Term := MkTerm (WASM_MAGIC ++ [1; 0; 0; 0]) None [] [].
