(* ===== verification/CliSpec.v ===== *)
(** * What the command line does

    The theorems about [edge-cli]: usage errors have no effect, [run] reports
    the guest's exit code and charges its budget, [freeze] and [serve] hand a
    kernel over, [serve] refuses another module, [migrate] passes its children
    what they parse, the trace is the guest's syscalls, and [bench] reports
    percentiles. *)

From S2P Require Import Prelude Word Errno GuestMem Text Parse Meter Percentile Path Host Vfs Net Fd Sock Resolver Kernel.
From S2P Require Import Snapshot SnapMem SnapshotSpec KernInv SysMemory SysResolver Dispatch Wasm Cli CliTools Terminal.

(** ** Inverting [?] *)

Lemma cbind_Return {A B S W} `{HostOf S W} (m : outcome (cres A * S)) (f : A → S → outcome (cres B * W)) r w :
  cbind m f = Return (r, w) →
  (∃ a s, m = Return (COk a, s) ∧ f a s = Return (r, w)) ∨
  (∃ e s, m = Return (CErr e, s) ∧ r = CErr e ∧ w = host_of s).
Proof. destruct m as [[[a|e] s]| |]; simpl; try done; [by eauto|]. intros [= <- <-]. by eauto 10. Qed.

Lemma cbind_COk {A B S W} `{HostOf S W} (m : outcome (cres A * S)) (f : A → S → outcome (cres B * W)) b w :
  cbind m f = Return (COk b, w) → ∃ a s, m = Return (COk a, s) ∧ f a s = Return (COk b, w).
Proof. intros [?|(e & s & _ & ? & _)]%cbind_Return; [done|congruence]. Qed.

Lemma at_state_COk {A S} (r : cres A) (s : S) a s' : at_state r s = Return (COk a, s') → r = COk a ∧ s' = s.
Proof. by intros [= -> ->]. Qed.

Lemma cres_bind_COk {A B} (r : cres A) (f : A → cres B) b :
  cres_bind r f = COk b ↔ ∃ a, r = COk a ∧ f a = COk b.
Proof. destruct r; simpl; naive_solver. Qed.

Lemma ok_or_COk {A} (o : option A) msg a : ok_or o msg = COk a ↔ o = Some a.
Proof. destruct o; simpl; naive_solver. Qed.

(** One [?] that succeeded. *)
Ltac step_ok H :=
  let a := fresh "x" in let s := fresh "s" in let E := fresh "E" in
  apply cbind_COk in H as (a & s & E & H);
  try (apply at_state_COk in E as [E ->]).

(** ** Arguments *)

Lemma freeze_argv_plain l : ∀ out pos,
  str "--out" ∉ l → freeze_argv l out pos = COk (out, pos ++ l).
Proof.
  induction l as [|a l IH]; intros out pos Hn; cbn [freeze_argv]; [by rewrite app_nil_r|].
  apply not_elem_of_cons in Hn as [Ha Hl]. rewrite bool_decide_false by done.
  rewrite IH by done. by rewrite <- app_assoc.
Qed.

Lemma freeze_argv_out l p : ∀ out pos,
  str "--out" ∉ l → freeze_argv (l ++ [str "--out"; p]) out pos = COk (Some p, pos ++ l).
Proof.
  induction l as [|a l IH]; intros out pos Hn; cbn [freeze_argv app]; [by rewrite app_nil_r|].
  apply not_elem_of_cons in Hn as [Ha Hl]. rewrite bool_decide_false by done.
  rewrite IH by done. by rewrite <- app_assoc.
Qed.

Lemma parse_freeze_migrate wasm guest snap :
  str "--out" ∉ wasm :: guest →
  parse_freeze_argv (tail (migrate_freeze_argv wasm guest snap)) = COk (wasm, guest, snap).
Proof.
  intros Hn. unfold parse_freeze_argv, migrate_freeze_argv. cbn [tail].
  rewrite app_comm_cons, freeze_argv_out.
  - cbn [cres_bind app ok_or]. unfold guest_args. destruct guest as [|a guest]; [done|].
    rewrite (bool_decide_false (a :: guest = [])) by done. cbn [lookup list_lookup]. by rewrite bool_decide_true.
  - apply not_elem_of_cons in Hn as [Hw Hg]. apply not_elem_of_cons. split; [done|].
    case_bool_decide; [apply not_elem_of_nil|]. apply not_elem_of_cons. by split.
Qed.

Lemma parse_serve_migrate wasm snap :
  snap ≠ str "--port" → wasm ≠ str "--port" →
  parse_serve_argv (tail (migrate_serve_argv wasm snap)) = COk (None, snap, wasm).
Proof.
  intros Hs Hw. unfold parse_serve_argv, migrate_serve_argv. cbn [tail serve_argv].
  rewrite !bool_decide_false by done. done.
Qed.

(** ** Inherited descriptors *)

(** A variable that names an inherited listener. *)
Definition fd_var (target source : Z) : bytes * bytes :=
  (EDGE_SERVE_FD_PREFIX ++ display_u target, display_u source).

Definition is_fd_var (kv : bytes * bytes) : Prop := is_Some (strip_prefix EDGE_SERVE_FD_PREFIX kv.1).

#[global] Instance is_fd_var_dec kv : Decision (is_fd_var kv).
Proof. unfold is_fd_var. apply _. Defined.

(** Only the variables with the prefix count. *)
Lemma inherited_entries_filter env :
  inherited_entries env = inherited_entries (filter is_fd_var env).
Proof.
  induction env as [|[key val] env IH]; [done|]. rewrite filter_cons. cbn [inherited_entries].
  destruct (strip_prefix EDGE_SERVE_FD_PREFIX key) as [suffix|] eqn:E.
  - rewrite decide_True by (unfold is_fd_var; cbn [fst]; rewrite E; by eexists).
    cbn [inherited_entries]. rewrite E. by rewrite IH.
  - rewrite decide_False by (unfold is_fd_var; cbn [fst]; rewrite E; by intros []). done.
Qed.

Lemma inherited_entries_vars l :
  Forall (λ p, is_u 32 p.1 ∧ 0 ≤ p.2 < 2 ^ 31) l →
  inherited_entries ((λ p, fd_var p.1 p.2) <$> l) = COk ((λ p, (p.1, p.1, p.2)) <$> l).
Proof.
  induction 1 as [|[t s] l [Ht Hs] _ IH]; [done|]. cbn [fmap list_fmap fst snd]. unfold fd_var at 1.
  cbn [inherited_entries]. rewrite (proj2 (strip_prefix_Some _ _ (display_u t)) eq_refl).
  unfold parse_u32. cbn [fst snd] in *. rewrite parse_display_u by (unfold is_u, U32_MAX in *; lia).
  rewrite parse_display_i32 by done. cbn [ok_or cres_bind]. rewrite (proj2 (Z.ltb_ge _ _)) by lia.
  cbn [fmap list_fmap] in IH. by rewrite IH.
Qed.

(** Forwarding them is enough. *)
Lemma inherit_env_enough env :
  Forall (λ kv, utf8_valid kv.1 = true) env → parse_inherited_fds (inherit_env env) = parse_inherited_fds env.
Proof.
  intros Hu. unfold parse_inherited_fds. rewrite (inherited_entries_filter env).
  assert (inherit_env env = filter is_fd_var env) as ->; [|done].
  unfold inherit_env. induction Hu as [|kv env Hkv _ IH]; [done|].
  rewrite filter_cons. cbn [List.filter]. rewrite Hkv. cbn [andb]. case_bool_decide as Hb.
  - rewrite decide_True by done. by f_equal.
  - by rewrite decide_False.
Qed.

(** What parses is in range. *)
Lemma inherited_entries_range env : ∀ es, inherited_entries env = COk es →
  Forall (λ e, e.1.1 = e.1.2 ∧ is_u 32 e.1.2 ∧ 0 ≤ e.2 < 2 ^ 31) es.
Proof.
  induction env as [|[key val] env IH]; intros es; cbn [inherited_entries]; [intros [= <-]; constructor|].
  destruct (strip_prefix _ _) as [suffix|]; [|by apply IH].
  intros (t & Ht%ok_or_COk & Hs)%cres_bind_COk. apply cres_bind_COk in Hs as (s & Hs%ok_or_COk & He).
  case_if; [done|]. apply cres_bind_COk in He as (es' & He & [= <-]).
  constructor; [|by apply IH]. simpl. apply parse_u32_range in Ht. apply parse_i32_range in Hs.
  unfold is_i in Hs. split_and!; try done; lia.
Qed.

Lemma sort_by_key_sorted {A} (key : A → Z) (l : list A) :
  StronglySorted (λ a b, key a ≤ key b) (sort_by (λ a b, key a <=? key b) l).
Proof.
  assert (StronglySorted (λ a b, (key a <=? key b) = true) (sort_by (λ a b, key a <=? key b) l)) as Hs.
  { apply sort_by_sorted.
    - intros x y. destruct (Z.le_ge_cases (key x) (key y)); [left|right]; apply Z.leb_le; lia.
    - intros x y z Hx%Z.leb_le Hy%Z.leb_le. apply Z.leb_le. lia. }
  induction Hs as [|a l' Hs IH Ha]; constructor; [done|].
  eapply Forall_impl; [exact Ha|]. intros b Hb. by apply Z.leb_le.
Qed.

Lemma StronglySorted_fmap_in {A B} (f : A → B) (P : A → Prop) (R : A → A → Prop) (R' : B → B → Prop) l :
  (∀ a b, P a → P b → R a b → R' (f a) (f b)) → Forall P l → StronglySorted R l → StronglySorted R' (f <$> l).
Proof.
  intros Hf Hp Hs. induction Hs as [|a l Hs IH Ha]; cbn; [constructor|].
  apply Forall_cons in Hp as [Hpa Hp]. constructor; [by apply IH|]. apply Forall_fmap.
  rewrite Forall_forall in Hp, Ha |- *. intros b Hb. apply Hf; auto.
Qed.

(** ** Usage errors *)

(** The parser of each subcommand: its error, if any. *)
Definition usage_error (sub : Subcommand) (rest : list bytes) : option CliError :=
  let err {A} (r : cres A) := match r with COk _ => None | CErr e => Some e end in
  match sub with
  | Run => err (parse_run_argv rest)
  | Freeze => err (parse_freeze_argv rest)
  | Serve => err (parse_serve_argv rest)
  | Bench => err (parse_bench_argv rest)
  | Trace => err (parse_trace_argv rest)
  | Migrate => err (parse_migrate_args rest)
  end.

(** Every error of a parser is a usage error. *)
Definition only_args {A} (r : cres A) : Prop := ∀ e, r = CErr e → ∃ msg, e = CArgs msg.

Lemma only_args_ok {A} (a : A) : only_args (COk a).
Proof. by intros e. Qed.
Lemma only_args_err {A} msg : only_args (A:=A) (CErr (CArgs msg)).
Proof. intros e [= <-]. by eexists. Qed.
Lemma only_args_bind {A B} (r : cres A) (f : A → cres B) :
  only_args r → (∀ a, only_args (f a)) → only_args (cres_bind r f).
Proof. intros Hr Hf. destruct r as [a|e']; simpl; [apply Hf|]. intros e [= <-]. by apply Hr. Qed.
Lemma only_args_ok_or {A} (o : option A) msg : only_args (ok_or o msg).
Proof. destruct o; [apply only_args_ok|apply only_args_err]. Qed.

Create HintDb usage.
#[local] Hint Resolve only_args_ok only_args_err only_args_bind only_args_ok_or : usage.

(** A parser that consumes one or two arguments a step. *)
Ltac usage_loop :=
  let n := fresh "n" in let Hn := fresh "Hn" in
  match goal with |- ∀ l : list bytes, _ =>
    let l := fresh "l" in
    intros l; remember (length l) as n eqn:Hn; revert l Hn;
    induction n as [n ?IH] using lt_wf_ind; intros [|a l] Hn; intros; cbn
  end;
  repeat match goal with
  | |- only_args (if ?b then _ else _) => destruct b
  | |- only_args (match ?l with [] => _ | _ => _ end) => destruct l
  | |- only_args (cres_bind _ _) => apply only_args_bind; [auto with usage|intros]
  | |- only_args (COk _) => apply only_args_ok
  | |- only_args (CErr (CArgs _)) => apply only_args_err
  | IH : ∀ m, (m < _)%nat → _ |- only_args _ => eapply IH; [|reflexivity]; simpl in *; lia
  end.

Lemma run_argv_usage : ∀ l b r, only_args (run_argv l b r).
Proof. usage_loop. Qed.
Lemma freeze_argv_usage : ∀ l o p, only_args (freeze_argv l o p).
Proof. usage_loop. Qed.
Lemma serve_argv_usage : ∀ l o p, only_args (serve_argv l o p).
Proof. usage_loop. Qed.
Lemma trace_argv_usage : ∀ l b m p, only_args (trace_argv l b m p).
Proof. usage_loop. Qed.
Lemma bench_argv_usage : ∀ l i b p, only_args (bench_argv l i b p).
Proof. usage_loop. Qed.

#[local] Hint Resolve run_argv_usage freeze_argv_usage serve_argv_usage trace_argv_usage bench_argv_usage : usage.

Lemma usage_error_args sub rest e : usage_error sub rest = Some e → ∃ msg, e = CArgs msg.
Proof.
  assert (∀ {A} (r : cres A), only_args r →
    match r with COk _ => None | CErr e => Some e end = Some e → ∃ msg, e = CArgs msg) as Hr.
  { intros A [a|e'] Hr; [done|]. intros [= <-]. by apply Hr. }
  destruct sub; apply Hr; unfold parse_run_argv, parse_freeze_argv, parse_serve_argv, parse_bench_argv,
    parse_trace_argv, parse_migrate_args;
    repeat match goal with
    | |- only_args (if ?b then _ else _) => destruct b
    | |- only_args (match ?l with _ => _ end) => destruct l
    | |- only_args (cres_bind _ _) => apply only_args_bind; [auto with usage|intros]
    | |- only_args _ => auto with usage
    end.
Qed.

Section usage.
Context {W : Type} `{Host W} `{Net W} `{Dns W} `{SnapHost W} `{Codec} `{Digest} `{Os W} `{Wasm W}.
Implicit Types w : W.

(** A subcommand parses before it does anything. *)
Lemma run_sub_usage sub rest w e : usage_error sub rest = Some e → run_sub sub rest w = Return (CErr e, w).
Proof.
  destruct sub; unfold usage_error; cbn [run_sub].
  - unfold run_main. destruct (parse_run_argv rest); [done|]. by intros [= ->].
  - unfold freeze_main. destruct (parse_freeze_argv rest); [done|]. by intros [= ->].
  - unfold serve_main. destruct (parse_serve_argv rest); [done|]. by intros [= ->].
  - unfold bench_main. destruct (parse_bench_argv rest); [done|]. by intros [= ->].
  - unfold trace_main. destruct (parse_trace_argv rest); [done|]. by intros [= ->].
  - unfold migrate_main, run_main_in_process, run_main_subprocess.
    destruct (parse_migrate_args rest); [done|]. intros [= ->]. by destruct (existsb _ _).
Qed.

End usage.

(** ** bench *)

(** A number of iterations is positive. *)
Lemma bench_argv_iters l i b p i' b' p' : 0 < i → bench_argv l i b p = COk (i', b', p') → 0 < i'.
Proof.
  revert i b p. remember (length l) as n eqn:Hn. revert l Hn.
  induction (lt_wf n) as [n _ IH]. intros l -> i b p Hi.
  destruct l as [|a l]; [by intros [= <- _ _]|]. simpl.
  case_bool_decide; [|case_bool_decide].
  - destruct l as [|raw l]; [done|]. destruct (parse_usize raw) as [m|] eqn:Em; [|done]. simpl.
    apply parse_unsigned_range in Em; [|done]. destruct (m =? 0) eqn:E; [done|]. intros Hb.
    eapply (IH (length l)); [simpl; lia|done| |exact Hb]. lia.
  - destruct l as [|raw l]; [done|]. destruct (parse_u64 raw) as [m|]; [|done]. simpl.
    destruct (m =? 0); [done|]. intros Hb. eapply (IH (length l)); [simpl; lia|done|exact Hi|exact Hb].
  - intros Hb. eapply (IH (length l)); [simpl; lia|done|exact Hi|exact Hb].
Qed.

Lemma parse_bench_iters l i b s m : parse_bench_argv l = COk (i, b, s, m) → 0 < i.
Proof.
  unfold parse_bench_argv. intros ([[i' b'] p'] & Hb & Hl)%cres_bind_COk.
  apply bench_argv_iters in Hb; [|lia]. destruct p' as [|? [|? ?]]; [done..|]. by injection Hl as <- _ _ _.
Qed.

(** One sample per iteration. *)
Lemma bench_loop_length {W} `{Host W} `{Net W} `{SnapHost W} `{Os W} `{Wasm W}
    n engine snap bs fuel samples (w : W) l w' :
  bench_loop n engine snap bs fuel samples w = Return (COk l, w') → length l = (length samples + n)%nat.
Proof.
  revert samples w. induction n as [|n IH]; intros samples w; simpl; [intros [= <- _]; lia|].
  intros (s & w1 & _ & Hl)%cbind_COk. apply IH in Hl. rewrite length_app in Hl. simpl in Hl. lia.
Qed.

(** ** Guests and kernels *)

(** The directory a kernel starts in. *)
Definition start_dir {W} `{Os W} (w : W) : path :=
  match current_dir w with IoOk p => p | IoErr _ => [RootDir] end.

(** [std::fs::canonicalize] of it is absolute, without dots and links. *)
Class CanonicalCwd (W : Type) `{Host W} `{Os W} : Prop :=
  canonical_cwd : ∀ (w : W) q, fs_canonicalize w (start_dir w) = IoOk q → plain q.

(** ** Loading a guest *)

Section loads.
Context {W : Type} `{Host W} `{Net W} `{Dns W} `{SnapHost W} `{Codec} `{Digest} `{Os W} `{Wasm W}.
Implicit Types st : store W.
Implicit Types w : W.

(** The module in the file at [wasm_path] as the store's host reads it, its
    bytes [bs], compiled to [m] and instantiated in [st] as [i], which leaves
    [st1]. *)
Definition loads (wasm_path : bytes) st (bs : bytes) (m : Module) (i : Instance) (st1 : store W) : Prop :=
  build_engine (W:=W) = WOk engine_config ∧ add_to_linker (W:=W) engine_config = WOk tt ∧
  fs_read (k_host (st_kernel st)) (components wasm_path) = IoOk bs ∧
  load_module engine_config bs = WOk m ∧ instantiate_attached m st = Return (WOk i, st1).

(** Instantiating that module in [st] makes sane calls only. *)
Definition sane_module (wasm_path : bytes) st : Prop :=
  ∀ bs m, fs_read (k_host (st_kernel st)) (components wasm_path) = IoOk bs →
    load_module engine_config bs = WOk m → sane_init m st.

(** The stores the subcommands load it into. *)
Definition run_store (env : list (bytes * bytes)) (budget_ms : Z) w : store W :=
  MkStore (attach_resolver_config (kernel_new [] [] w) (from_env env)) (ms_to_fuel budget_ms) new_locals.
Definition serve_store (env : list (bytes * bytes)) w : store W :=
  MkStore (attach_resolver_config (kernel_new [] [] w) (from_env env)) U64_MAX new_locals.
Definition freeze_store (guest : list bytes) w : store W := MkStore (kernel_new guest [] w) U64_MAX new_locals.
Definition trace_store w : store W :=
  MkStore (kernel_new [] [] w) U64_MAX (MkLocals (Some TraceObserver) [] None).

(** The variables a new kernel finds. *)
Definition new_env w : outcome (list (bytes * bytes)) := env_vars (k_host (kernel_new [] [] w)).

End loads.

Section guests.
Context {W : Type} `{Host W} `{Net W} `{Dns W} `{SnapHost W} `{Codec} `{Digest} `{Os W} `{Wasm W}.
Context `{!HostLaws W} `{!NetLaws W} `{!DnsLaws W} `{mem32 : !Memory32 (W:=W)} `{!WasmLaws W} `{!CanonicalCwd W}.
Implicit Types k : kern W.
Implicit Types st : store W.
Implicit Types w : W.

Lemma kernel_new_wf arguments env w : kern_wf (kernel_new arguments env w).
Proof using CanonicalCwd0.
  apply kernel_new_inner_wf. unfold Vfs_new. fold (start_dir w).
  destruct (fs_canonicalize w _) as [q|] eqn:E; simpl; [|apply root_vfs_wf].
  apply canonical_cwd in E. by split.
Qed.

Lemma attach_resolver_config_wf k cfg : kern_wf k → kern_wf (attach_resolver_config k cfg).
Proof. intros Hk. apply set_resolver_wf; [done|]. by intros []. Qed.

Lemma instantiate_attached_fuel (m : Module) st r st' :
  0 ≤ st_fuel st → instantiate_attached m st = Return (r, st') → 0 ≤ st_fuel st' ≤ st_fuel st.
Proof using WasmLaws0.
  intros Hf. unfold instantiate_attached. destruct (instantiate m st) as [[x st2]| |] eqn:Ei; [|done|done].
  apply instantiate_steps in Ei as [es Hr]. apply guest_run_fuel in Hr; [|done].
  destruct x as [i|]; [destruct (get_memory i)|]; intros Hs%Return_inj; by injection Hs as <- <-.
Qed.

(** Draining two different buffers prints what was in them. *)
Lemma drain_both k o e :
  o ≠ e →
  k_host (drain_to_stderr (drain_to_stdout k (Some o)) (Some e)) =
    stderr_write (stdout_write (k_host k) (buf (pipe_at (k_heap k) o))) (buf (pipe_at (k_heap k) e)) ∧
  k_exit_code (drain_to_stderr (drain_to_stdout k (Some o)) (Some e)) = k_exit_code k.
Proof.
  intros Hne. split; [|done]. cbn. f_equal. unfold pipe_at at 1. cbn. by rewrite lookup_insert_ne.
Qed.

Lemma drain_exit_code k o e : k_exit_code (drain_to_stderr (drain_to_stdout k o) e) = k_exit_code k.
Proof. by destruct o, e. Qed.

(** The time reported for a guest that ran out is within its budget. *)
Lemma used_within budget_ms remaining :
  is_u 64 budget_ms → 0 ≤ remaining →
  let used := fuel_to_ms (Z.max (ms_to_fuel budget_ms - remaining) 0) in
  0 ≤ used ∧ (ms_to_fuel budget_ms < U64_MAX → used ≤ budget_ms).
Proof.
  intros Hb Hr. unfold is_u in Hb. unfold fuel_to_ms, ms_to_fuel, saturating_mul_u64, FUEL_PER_MS.
  assert (0 < U64_MAX) by done.
  split.
  - case_if; [lia|]. apply Z.div_pos; lia.
  - destruct (budget_ms =? U64_MAX) eqn:E; [lia|]. intros Hlt. rewrite Z.min_l in * by lia.
    case_if; [lia|]. apply Z.div_le_upper_bound; lia.
Qed.

Lemma ms_to_fuel_range budget_ms : is_u 64 budget_ms → 0 ≤ ms_to_fuel budget_ms.
Proof. unfold ms_to_fuel, saturating_mul_u64, is_u, FUEL_PER_MS. intros. case_if; [done|]. assert (0 < U64_MAX) by done. lia. Qed.

Lemma build_engine_WOk engine : build_engine (W:=W) = WOk engine → engine = engine_config.
Proof. unfold build_engine. destruct (engine_new _); [|done]. by intros [= <-]. Qed.

End guests.

(** Take a subcommand apart, one thing that can fail after the other. *)
Ltac engine_step :=
  destruct (build_engine (W:=_)) as [engine|] eqn:Eengine;
  [pose proof (build_engine_WOk _ Eengine); subst engine|]; cbn [from_anyhow at_state cbind];
  [destruct (add_to_linker engine_config) as [[]|] eqn:Elink; cbn [from_anyhow at_state cbind]|].
Ltac env_step :=
  unfold new_env; destruct (env_vars _) as [env| |] eqn:Eenv; cbn [lift_vars cbind]; [|done|done].
Ltac store_step :=
  unfold build_store, set_fuel; destruct (set_fuel_ok engine_config) eqn:Efuel; cbn [lift_store cbind]; [|done].
Ltac module_step :=
  unfold read_wasm; cbn [host_of host_of_store st_kernel st_set_fuel];
  destruct (fs_read _ (components _)) as [bs|] eqn:Eread; cbn [at_state cbind];
  [destruct (load_module engine_config bs) as [m|] eqn:Eload; cbn [from_wasm at_state cbind];
   [unfold instantiate_cli; destruct (instantiate_attached m _) as [[[i|err] st1]| |] eqn:Einst;
    cbn [from_wasm cbind]; [| |done|done]|]|].

(** ** The hand-over from freeze to serve, and running a guest *)

Section drive.
Context {W : Type} `{Host W} `{Net W} `{Dns W} `{SnapHost W} `{Codec} `{Digest} `{Os W} `{Wasm W}.
Context `{!HostLaws W} `{!NetLaws W} `{!DnsLaws W} `{mem32 : !Memory32 (W:=W)} `{!WasmLaws W} `{!CanonicalCwd W}.
Implicit Types k : kern W.
Implicit Types st : store W.
Implicit Types w : W.

(** Where [drive_guest] gets the guest to and what it makes of its end; and
    when it gets nowhere. *)
Lemma drive_guest_inv wasm_path budget_ms script_args w r w' :
  drive_guest wasm_path budget_ms script_args w = Return (r, w') →
  (∃ env bs m i st1 x st, new_env w = Return env ∧ loads wasm_path (run_store env budget_ms w) bs m i st1 ∧
     is_Some (start_sig i) ∧ call_async i st1 = Return (x, st) ∧ set_fuel_ok (W:=W) engine_config = true ∧
     finish_guest engine_config budget_ms (stdout_buf (st_kernel st1)) (stderr_buf (st_kernel st1)) x st = Return (r, w')) ∨
  ((∃ e, r = CErr e) ∧
   ∀ env bs m i st1, new_env w = Return env → loads wasm_path (run_store env budget_ms w) bs m i st1 → start_sig i = None).
Proof.
  unfold drive_guest. engine_step.
  2, 3: intros Hr%Return_inj; injection Hr as <- _; right; split; [by eexists|]; intros ????? _ (? & ? & _); congruence.
  env_step. store_step. cbn [ok_or at_state cbind]. change (st_set_fuel _ (ms_to_fuel budget_ms)) with (run_store env budget_ms w).
  module_step.
  2-4: intros Hr%Return_inj; injection Hr as <- _; right; split; [by eexists|];
    intros ????? [= <-] (_ & _ & ? & ? & ?); unfold run_store in *; cbn in *; congruence.
  destruct (start_sig i) as [sg|] eqn:Es.
  - destruct (call_async i st1) as [[x st]| |] eqn:Ec; [|done|done]. intros Hfin. left.
    exists env, bs, m, i, st1, x, st. by split_and!.
  - intros Hr%Return_inj. injection Hr as <- _. right. split; [by eexists|].
    intros ????? [= <-] (_ & _ & ? & ? & ?). unfold run_store in *. cbn in *. congruence.
Qed.

(** The hash on a snapshot does not change how it is applied. *)
Lemma apply_hashed s h k : apply_snapshot (set_module_sha256 s h) k = apply_snapshot s k.
Proof. done. Qed.

(** The store [freeze] takes its snapshot of: after the guest's call, where it
    has a [_start], ended or was given up. *)
Definition frozen_after (i : Instance) st1 st : Prop :=
  match start_sig i with Some _ => call_timeout 10 i st1 = Return st | None => st = st1 end.

Lemma freeze_snapshot_COk wasm_path guest w snap w' :
  freeze_snapshot wasm_path guest w = Return (COk snap, w') →
  ∃ bs m i st1 st, loads wasm_path (freeze_store guest w) bs m i st1 ∧ frozen_after i st1 st ∧
    w' = k_host (st_kernel st) ∧ snap = set_module_sha256 (try_to_snapshot (st_kernel st)) (sha256 bs).
Proof.
  unfold freeze_snapshot. engine_step; [|done..]. store_step.
  change (st_set_fuel _ U64_MAX) with (freeze_store guest w). module_step; [|done..].
  unfold frozen_after. destruct (start_sig i) eqn:Es.
  - destruct (call_timeout 10 i st1) as [st| |] eqn:Ec; cbn [lift_store cbind]; [|done|done].
    intros Hr%Return_inj. injection Hr as <- <-. exists bs, m, i, st1, st. rewrite Es. by split_and!.
  - cbn [lift_store cbind]. intros Hr%Return_inj. injection Hr as <- <-. exists bs, m, i, st1, st1. rewrite Es. by split_and!.
Qed.

(** The hash of a frozen module verifies against the same bytes. *)
Lemma verify_hashed s bs : verify_module_hash (set_module_sha256 s (sha256 bs)) bs = SOk tt.
Proof.
  unfold verify_module_hash. cbn [sn_module_sha256 set_module_sha256]. case_if; [done|].
  by rewrite bool_decide_true.
Qed.

(** What [serve] calls again is a thawed kernel, and the module's bytes were
    those of the snapshot or the snapshot has no hash. *)
Lemma verified_hash s bs bs' :
  verify_module_hash (set_module_sha256 s (sha256 bs)) bs' = SOk tt →
  sha256 bs ≠ replicate 32 0 → sha256 bs' = sha256 bs.
Proof.
  unfold verify_module_hash. cbn [sn_module_sha256 set_module_sha256]. intros Hv Hz.
  rewrite bool_decide_false in Hv by done. by case_bool_decide.
Qed.

Lemma serve_store_wf env w : kern_wf (st_kernel (serve_store env w)).
Proof using CanonicalCwd0. apply attach_resolver_config_wf, kernel_new_wf. Qed.

Lemma serve_prepare_COk snap wasm_path w i' st w' :
  serve_prepare snap wasm_path [] w = Return (COk (i', st), w') →
  ∃ env bs m st1, new_env w = Return env ∧ loads wasm_path (serve_store env w) bs m i' st1 ∧
    apply_snapshot snap (st_kernel st1) = (SOk tt, st_kernel st) ∧ verify_module_hash snap bs = SOk tt.
Proof.
  unfold serve_prepare. engine_step; [|done..]. env_step. store_step.
  change (st_set_fuel _ U64_MAX) with (serve_store env w). module_step; [|done..].
  destruct (verify_module_hash snap bs) as [[]|] eqn:Ev; cbn [from_snapshot at_state cbind]; [|done].
  cbn [attach_inherited_listeners].
  destruct (apply_snapshot_kernel_state snap _) as [[[]|] k1] eqn:Ea; cbn [cbind at_state from_snapshot]; [|done].
  cbn [apply_snapshot_inherited_listeners foldl].
  destruct (memory k1) as [mem|] eqn:Em; [|done]. rewrite apply_to_attached_dispatch by done.
  destruct (dispatch_memory_apply snap k1) as [[[]|] k2] eqn:Ed; cbn [cbind at_state from_snapshot]; [|done].
  intros Hr%Return_inj. injection Hr as <- <- _. exists env, bs, m, st1. split_and!; try done.
  unfold apply_snapshot. by rewrite Ea.
Qed.

(** The kernel of a guest that was loaded into a well-formed one. *)
Lemma loads_wf wasm_path st bs m i st1 :
  sane_module wasm_path st → kern_wf (st_kernel st) → loads wasm_path st bs m i st1 →
  kern_wf (st_kernel st1) ∧ ∀ mem, get_memory i = Some mem → ∃ k, st_kernel st1 = attach_memory k mem.
Proof using HostLaws0 NetLaws0 DnsLaws0 mem32 WasmLaws0.
  intros Hs Hk (_ & _ & Hr & Hm & Hi). apply instantiate_attached_wf in Hi as [Hk1 Hat]; [|by eapply Hs|done].
  split; [done|]. intros mem. by apply Hat.
Qed.

(** A module with another hash is refused before anything is applied. *)
Lemma serve_prepare_mismatch snap wasm_path inherited w r w' :
  sn_module_sha256 snap ≠ replicate 32 0 →
  (∀ bs, fs_read (k_host (kernel_new [] [] w)) (components wasm_path) = IoOk bs →
     sha256 bs ≠ sn_module_sha256 snap) →
  serve_prepare snap wasm_path inherited w = Return (r, w') →
  ∃ e, r = CErr e ∧
  ((∃ env bs m i st1, new_env w = Return env ∧ loads wasm_path (serve_store env w) bs m i st1 ∧
      e = CSnapshot (ModuleHashMismatch (sn_module_sha256 snap) (sha256 bs)) ∧ w' = k_host (st_kernel st1)) ∨
   ((∀ env bs m i st1, new_env w = Return env → ¬ loads wasm_path (serve_store env w) bs m i st1) ∧
    (w' = w ∨ w' = k_host (kernel_new [] [] w) ∨
     ∃ env bs m err st1, new_env w = Return env ∧
       fs_read (k_host (kernel_new [] [] w)) (components wasm_path) = IoOk bs ∧ load_module engine_config bs = WOk m ∧
       instantiate_attached m (serve_store env w) = Return (WErr err, st1) ∧ w' = k_host (st_kernel st1)))).
Proof.
  intros Hz Hne. unfold serve_prepare. engine_step.
  2, 3: intros Hr%Return_inj; injection Hr as <- <-; eexists; split; [done|]; right; split; [|by left];
    intros ????? _ (? & ? & _); congruence.
  env_step. store_step. change (st_set_fuel _ U64_MAX) with (serve_store env w). module_step.
  2-4: intros Hr%Return_inj; injection Hr as <- <-; eexists; split; [done|]; right; split;
    [intros ????? [= <-] (_ & _ & ? & ? & ?); unfold serve_store in *; cbn in *; congruence
    |first [by right; left|right; right; by eexists env, bs, m, err, st1]].
  assert (verify_module_hash snap bs = SErr (ModuleHashMismatch (sn_module_sha256 snap) (sha256 bs))) as ->.
  { unfold verify_module_hash. rewrite bool_decide_false by done. rewrite bool_decide_false; [done|]. by eapply Hne. }
  cbn [from_snapshot at_state cbind]. intros Hr%Return_inj. injection Hr as <- <-. eexists. split; [done|]. left.
  by exists env, bs, m, i, st1.
Qed.

(** What a traced guest does after it was loaded: [_start], if it has one. *)
Definition started (i : Instance) st1 st2 : Prop :=
  match start_sig i with Some _ => ∃ x, call_async i st1 = Return (x, st2) | None => st2 = st1 end.

(** The syscalls of a guest, loaded into [st0] as [i] and started in [st1]. *)
Definition guest_calls `{!CallLog W} (m : Module) st0 (i : Instance) st1 : list event :=
  init_calls m st0 ++ match start_sig i with Some _ => start_calls i st1 | None => [] end.

(** The trace [run_guest] returns. *)
Lemma run_guest_traced `{!CallLog W} `{!CallLogLaws W} wasm_path script_args w entries marker w' :
  run_guest wasm_path script_args new_locals w = Return (COk (entries, marker), w') →
  ∃ bs m i st1 st2, loads wasm_path (trace_store w) bs m i st1 ∧ started i st1 st2 ∧
    w' = k_host (st_kernel st2) ∧ marker = read_marker (st_kernel st2) ∧
    entry_event <$> entries = guest_calls m (trace_store w) i st1 ∧
    Forall (λ e, te_name e = syscall_name (te_nr e)) entries.
Proof.
  unfold run_guest. engine_step; [|done..]. cbn [install_observer observer new_locals trace pending]. store_step.
  change (st_set_fuel _ U64_MAX) with (trace_store w). module_step; [|done..]. intros Hd.
  assert (∃ st2, started i st1 st2 ∧ Return (COk (trace (st_locals st2), read_marker (st_kernel st2)), host_of st2) =
    Return (COk (entries, marker), w')) as (st2 & Hst & Hr).
  { unfold started. destruct (start_sig i); [|by exists st1].
    destruct (call_async i st1) as [[x st2]| |] eqn:Ec; [|done|done]. exists st2. split; [by exists x|exact Hd]. }
  apply Return_inj in Hr. injection Hr as <- <- <-. exists bs, m, i, st1, st2.
  assert (∃ t1, trace (st_locals st1) = t1 ∧ entry_event <$> t1 = init_calls m (trace_store w) ∧
    observer (st_locals st1) = Some TraceObserver ∧ Forall (λ e, te_name e = syscall_name (te_nr e)) t1)
    as (t1 & Ht1 & He1 & Ho1 & Hn1).
  { revert Einst. unfold instantiate_attached. destruct (instantiate m (trace_store w)) as [[[i'|] st']| |] eqn:Ei; try done.
    apply init_logged, guest_run_traced in Ei as (Ho & t & Ht & He & Hn); [|done].
    destruct (get_memory i'); intros Hs%Return_inj; injection Hs as _ <-; by exists t. }
  assert (∃ t2, trace (st_locals st2) = t1 ++ t2 ∧
    entry_event <$> t2 = match start_sig i with Some _ => start_calls i st1 | None => [] end ∧
    Forall (λ e, te_name e = syscall_name (te_nr e)) t2) as (t2 & Ht2 & He2 & Hn2).
  { revert Hst. unfold started. destruct (start_sig i).
    - intros [x Hc]. apply start_logged, guest_run_traced in Hc as (_ & t & Ht & He & Hn); [|done].
      exists t. by rewrite Ht, Ht1.
    - intros ->. exists []. by rewrite app_nil_r. }
  split_and!; try done.
  - unfold guest_calls. by rewrite Ht2, fmap_app, He1, He2.
  - rewrite Ht2. by apply Forall_app.
Qed.

End drive.

Lemma missing_names_nil baseline entries :
  missing_names baseline entries = [] ↔ ∀ n, n ∈ baseline → ∃ e, e ∈ entries ∧ n = str (te_name e).
Proof.
  unfold missing_names. induction baseline as [|n baseline IH]; cbn [List.filter].
  { split; [|done]. intros _ n Hn. by apply not_elem_of_nil in Hn. }
  case_bool_decide as Hn; cbn [negb].
  - rewrite IH. split; [|by intros Ha n' Hn'; apply Ha; right].
    intros Ha n' [->|Hn']%elem_of_cons; [|by apply Ha]. apply list_elem_of_fmap in Hn as (e & -> & He). by exists e.
  - split; [done|]. intros Ha. destruct Hn. destruct (Ha n) as (e & He & ->); [left|].
    apply list_elem_of_fmap. by exists e.
Qed.

Lemma missing_names_calls baseline entries :
  Forall (λ e, te_name e = syscall_name (te_nr e)) entries →
  missing_names baseline entries = [] ↔
  Forall (λ n, n ∈ (λ c : event, str (syscall_name c.1.1)) <$> (entry_event <$> entries)) baseline.
Proof.
  intros Hn. rewrite missing_names_nil, (Forall_forall _ baseline). rewrite Forall_forall in Hn. rewrite <- list_fmap_compose.
  split; intros Hb n Hin; specialize (Hb n Hin).
  - destruct Hb as (e & Hel & ->). apply list_elem_of_fmap. exists e. split; [|done]. cbn. by rewrite (Hn e Hel).
  - apply list_elem_of_fmap in Hb as (e & -> & Hel). exists e. split; [done|]. cbn. by rewrite (Hn e Hel).
Qed.

(** ** The port of a listener *)

Definition listener_port (e : FdEntrySnapshot) : option Z :=
  if negb (bool_decide (rs_kind (fe_kind e) = KSocket)) then None
  else match rb_socket (rs_body (fe_kind e)) with
  | Some sock =>
    match ssn_bound sock with
    | Some (SockV4 port _) => if ssn_is_acceptor sock then Some port else None
    | _ => None
    end
  | None => None
  end.

Lemma override_entry_None port e : override_entry port e = None ↔ listener_port e = None.
Proof. unfold override_entry, listener_port. repeat case_match; naive_solver. Qed.

Lemma override_entry_Some port e e' :
  override_entry port e = Some e' →
  fe_fd e' = fe_fd e ∧ listener_port e' = Some port ∧ is_Some (listener_port e).
Proof.
  unfold override_entry, listener_port at 2. destruct (negb _); [done|].
  destruct (rb_socket _) as [sock|]; [|done]. destruct (ssn_bound sock) as [[old ip|old ip|p]|]; try done.
  destruct (ssn_is_acceptor sock) eqn:Ea; [|done]. intros [= <-]. unfold listener_port. simpl. rewrite Ea.
  split_and!; [done..|by eexists].
Qed.

(** ** Theorems *)

(** C36: a usage error has no effect. Without arguments, with an unknown
    subcommand, or with arguments the subcommand's parser rejects, the exit
    code is 2 and nothing has been done: no file was read or written, no
    process started, no guest run. *)
Theorem usage_error_harmless {W} `{Host W} `{Net W} `{Dns W} `{SnapHost W} `{Codec} `{Digest} `{Os W} `{Wasm W}
    args (w : W) :
  tokio_build w = IoOk tt →
  (args = [] ∨
   ∃ first rest, args = first :: rest ∧ first ∉ [str "--help"; str "-h"; str "--version"; str "-V"] ∧
     ((∃ e, from_str first = CErr e) ∨
      ∃ sub e, from_str first = COk sub ∧ usage_error sub rest = Some e)) →
  run_main_from args w = Return (2, w).
Proof.
  intros Ht [->|(first & rest & -> & Hh & Hu)]; [done|]. unfold run_main_from.
  rewrite !not_elem_of_cons in Hh. destruct Hh as (? & ? & ? & ? & _).
  rewrite !bool_decide_false by done. cbn [orb].
  destruct Hu as [[e ->]|(sub & e & -> & Hu)]; [done|]. rewrite Ht, (run_sub_usage _ _ _ _ Hu).
  apply usage_error_args in Hu as [msg ->]. done.
Qed.

(** C13: running a guest. If the module can be read, compiled and instantiated
    and has a [_start], then [run] calls it in the store it was loaded into,
    with the budget's fuel, and reports that call: out of fuel is the error
    with the time the used fuel stands for, which is within the budget; after
    any other end, traps included, the result is the code the guest passed to
    [exit], 0 if it never did. What is in the two buffers that were the
    guest's standard output and error when it was loaded is what is printed,
    in that order. Otherwise [run] is an error. *)
Theorem run_reports {W} `{Host W} `{Net W} `{Dns W} `{SnapHost W} `{Codec} `{Os W} `{Wasm W} `{!WasmLaws W}
    wasm_path budget_ms script_args (w : W) r w' :
  is_u 64 budget_ms → drive_guest wasm_path budget_ms script_args w = Return (r, w') →
  (∃ env bs m i st1 x st, new_env w = Return env ∧ loads wasm_path (run_store env budget_ms w) bs m i st1 ∧
     is_Some (start_sig i) ∧ call_async i st1 = Return (x, st) ∧
     let used := fuel_to_ms (ms_to_fuel budget_ms - st_fuel st) in
     0 ≤ st_fuel st ≤ ms_to_fuel budget_ms ∧ (ms_to_fuel budget_ms < U64_MAX → used ≤ budget_ms) ∧
     r = (if match x with WErr e => is_out_of_fuel e | WOk _ => false end
          then CErr (CMetered used budget_ms) else COk (default 0 (k_exit_code (st_kernel st)))) ∧
     ∀ o e, stdout_buf (st_kernel st1) = Some o → stderr_buf (st_kernel st1) = Some e → o ≠ e →
       w' = stderr_write (stdout_write (k_host (st_kernel st)) (buf (pipe_at (k_heap (st_kernel st)) o)))
              (buf (pipe_at (k_heap (st_kernel st)) e))) ∨
  ((∃ e, r = CErr e) ∧
   ∀ env bs m i st1, new_env w = Return env → loads wasm_path (run_store env budget_ms w) bs m i st1 → start_sig i = None).
Proof.
  intros Hb [(env & bs & m & i & st1 & x & st & Henv & Hl & Hs & Hc & Hfok & Hfin)|Hno]%drive_guest_inv; [left|by right].
  exists env, bs, m, i, st1, x, st. cbv zeta.
  assert (0 ≤ st_fuel st ≤ ms_to_fuel budget_ms) as Hf.
  { pose proof (ms_to_fuel_range budget_ms Hb) as Hm. pose proof Hl as (_ & _ & _ & _ & Hi).
    apply instantiate_attached_fuel in Hi; [|done]. simpl in Hi.
    apply call_steps in Hc as [es Hc]. apply guest_run_fuel in Hc; lia. }
  pose proof (used_within budget_ms (st_fuel st) Hb ltac:(lia)) as [_ Hu]. rewrite Z.max_l in Hu by lia.
  split_and!; try done; try lia.
  - revert Hfin. unfold finish_guest, get_fuel. rewrite !drain_exit_code, Hfok, Z.max_l by lia.
    destruct x as [v|err]; [by intros [= <- _]|]. by destruct (is_out_of_fuel err); intros [= <- _].
  - intros o e Ho He Hne. destruct (drain_both (st_kernel st) o e Hne) as [Hd _]. rewrite <- Hd, <- Ho, <- He.
    revert Hfin. unfold finish_guest. destruct x; [by intros [= _ <-]|]. by destruct (is_out_of_fuel _); intros [= _ <-].
Qed.

(** C11: the kernel [freeze] writes is the kernel [serve] resumes. When
    [freeze] succeeds, the module was loaded with the given arguments, its
    [_start] was driven, and the snapshot of the kernel that left, with the
    hash of the module's bytes, was encoded to the file; if the file reads
    back, it loads as that snapshot. When [serve] with that snapshot gets as
    far as calling the guest again, the module it loaded has the same hash (a
    hash of zeros is not checked), and its kernel has the frozen kernel's
    snapshot and its memory up to trailing zero pages. The last for a
    well-formed frozen kernel without sockets, and an instance that exports
    its memory, which has data only in pages where the frozen one has, and
    that made sane calls only while it was instantiated. *)
Theorem freeze_then_serve {W} `{Host W} `{Net W} `{Dns W} `{SnapHost W} `{Codec} `{Digest} `{Os W} `{Wasm W}
    `{!HostLaws W} `{!NetLaws W} `{!DnsLaws W} `{!Memory32 (W:=W)} `{!WasmLaws W} `{!CanonicalCwd W}
    `{!CodecLaws} args wasm guest out (w w1 : W) :
  parse_freeze_argv args = COk (wasm, guest, out) → freeze_main args w = Return (COk 0, w1) →
  ∃ bs m i st1 st snap enc, loads wasm (freeze_store guest w) bs m i st1 ∧ frozen_after i st1 st ∧
    snap = set_module_sha256 (try_to_snapshot (st_kernel st)) (sha256 bs) ∧
    to_stdvec snap = Some enc ∧ fs_write (k_host (st_kernel st)) (components out) enc = (IoOk tt, w1) ∧
    (reads_back w1 (components out) enc → read_snapshot_file w1 (components out) = SOk snap) ∧
    ∀ w2 i2 st2 w3, serve_prepare snap wasm [] w2 = Return (COk (i2, st2), w3) →
      (∃ env bs2 m2 st3, new_env w2 = Return env ∧ loads wasm (serve_store env w2) bs2 m2 i2 st3 ∧
         (sha256 bs ≠ replicate 32 0 → sha256 bs2 = sha256 bs)) ∧
      (let k := st_kernel st in
       kern_wf k → wasm_attached k → (∀ fd r, table (k_fds k) !! fd = Some r → no_socket r) →
       (∀ env, new_env w2 = Return env → sane_module wasm (serve_store env w2)) →
       ∀ mem, get_memory i2 = Some mem → instance_target k mem →
         try_to_snapshot (st_kernel st2) = try_to_snapshot k ∧ memory_restored k (gm_size mem) (st_kernel st2)).
Proof.
  intros Hp Hf. unfold freeze_main in Hf. step_ok Hf. rewrite Hp in E. injection E as <-.
  step_ok Hf. apply freeze_snapshot_COk in E as (bs & m & i & st1 & st & Hl & Hfr & -> & ->).
  destruct (write_snapshot_file _ _ _) as [r w2] eqn:Ew. step_ok Hf. injection Hf as <-.
  destruct r as [[]|]; [|done]. revert Ew. unfold write_snapshot_file, encode_snapshot.
  destruct (to_stdvec _) as [enc|] eqn:Ee; [|done]. destruct (fs_write _ _ _) as [[[]|] w2'] eqn:Efw; [|done].
  intros [= <-]. exists bs, m, i, st1, st. eexists _, enc. split_and!; [done..| |].
  - intros [He Hr]. unfold read_snapshot_file, decode_snapshot. rewrite He, Hr. cbn [negb]. by rewrite (from_to_bytes _ _ Ee).
  - intros w3 i2 st2 w4 (env & bs2 & m2 & st3 & Henv & Hl2 & Ha & Hv)%serve_prepare_COk. split.
    { exists env, bs2, m2, st3. split_and!; [done..|]. by eapply verified_hash. }
    intros Hk Hw Hns Hsane mem Hm Ht. rewrite apply_hashed in Ha.
    destruct (loads_wf _ _ _ _ _ _ (Hsane _ Henv) (serve_store_wf env w3) Hl2) as [Hk3 Hat].
    destruct (Hat mem Hm) as [k1 Hk1]. rewrite Hk1 in Ha, Hk3.
    apply (apply_refreezes _ (attach_memory k1 mem)); [done|apply Hk3|done|by apply attach_target|done|done].
Qed.

(** C12: [serve] never applies a snapshot to another module. If the snapshot
    has a hash and the module's file, as [serve] reads it, does not have that
    hash, [serve] ends with an error. If the module could be loaded, the error
    names the snapshot's hash and that of the bytes read, and the host is as
    loading the module into a new kernel left it: no descriptor was restored,
    no listener bound or inherited. If it could not, nothing happened but the
    making of a kernel and the attempt to instantiate. *)
Theorem serve_refuses_mismatch {W} `{Host W} `{Net W} `{Dns W} `{SnapHost W} `{Codec} `{Digest} `{Os W} `{Wasm W}
    snap wasm_path inherited (w : W) r w' :
  sn_module_sha256 snap ≠ replicate 32 0 →
  (∀ bs, fs_read (k_host (kernel_new [] [] w)) (components wasm_path) = IoOk bs →
     sha256 bs ≠ sn_module_sha256 snap) →
  serve_loop snap wasm_path inherited w = Return (r, w') →
  ∃ e, r = CErr e ∧
  ((∃ env bs m i st1, new_env w = Return env ∧ loads wasm_path (serve_store env w) bs m i st1 ∧
      e = CSnapshot (ModuleHashMismatch (sn_module_sha256 snap) (sha256 bs)) ∧ w' = k_host (st_kernel st1)) ∨
   ((∀ env bs m i st1, new_env w = Return env → ¬ loads wasm_path (serve_store env w) bs m i st1) ∧
    (w' = w ∨ w' = k_host (kernel_new [] [] w) ∨
     ∃ env bs m err st1, new_env w = Return env ∧
       fs_read (k_host (kernel_new [] [] w)) (components wasm_path) = IoOk bs ∧ load_module engine_config bs = WOk m ∧
       instantiate_attached m (serve_store env w) = Return (WErr err, st1) ∧ w' = k_host (st_kernel st1)))).
Proof.
  intros Hz Hne [(x & s & Hp & _)|(e & s & Hp & -> & ->)]%cbind_Return;
    destruct (serve_prepare_mismatch _ _ _ _ _ _ Hz Hne Hp) as (e' & He & Hc); [done|].
  injection He as <-. by exists e.
Qed.

(** Inherited listeners from the environment. Whatever parses is sorted by
    target descriptor, every target fits 32 bits and no source is negative.
    An environment where the variables with the prefix are those of a list of
    pairs, among any others and in any order, parses to just these pairs. *)
Theorem inherited_fds_parsed env l :
  (∀ l', parse_inherited_fds env = COk l' →
     StronglySorted (λ a b, a.1 ≤ b.1) l' ∧ Forall (λ p, is_u 32 p.1 ∧ 0 ≤ p.2 < 2 ^ 31) l') ∧
  (Forall (λ p, is_u 32 p.1 ∧ 0 ≤ p.2 < 2 ^ 31) l → filter is_fd_var env ≡ₚ (λ p, fd_var p.1 p.2) <$> l →
   ∃ l', parse_inherited_fds env = COk l' ∧ l' ≡ₚ l).
Proof.
  unfold parse_inherited_fds. split.
  - intros l' (es & Hes%inherited_entries_range & [= <-])%cres_bind_COk.
    pose proof (sort_by_key_sorted (λ e : Z * Z * Z, e.1.1) es) as Hs.
    assert (Forall (λ e, e.1.1 = e.1.2 ∧ is_u 32 e.1.2 ∧ 0 ≤ e.2 < 2 ^ 31)
      (sort_by (λ a b, a.1.1 <=? b.1.1) es)) as Hf by by rewrite sort_by_perm.
    split.
    + eapply (StronglySorted_fmap_in _ (λ e : Z * Z * Z, e.1.1 = e.1.2)); [|by eapply Forall_impl; [exact Hf|naive_solver]|exact Hs].
      intros a b Ha Hb Hab. cbv beta in Ha, Hb, Hab. cbn [fst]. lia.
    + apply Forall_fmap. eapply Forall_impl; [exact Hf|]. intros e (_ & ? & ?). by split.
  - intros Hl (l2 & Hf & Hp)%Permutation_map_inv. change (map ?f ?l) with (f <$> l) in Hf.
    rewrite inherited_entries_filter, Hf, inherited_entries_vars by by rewrite <- Hp.
    eexists. split; [done|]. rewrite sort_by_perm, <- list_fmap_compose, <- (list_fmap_id l), Hp.
    erewrite list_fmap_ext; [done|]. by intros ? [].
Qed.

(** [migrate] hands over to its two child processes what they need. The
    first is a [freeze] of the module with the guest's arguments into the
    temporary file, the second a [serve] of that file with the module, as
    their own parsers read the arguments; the listeners the second inherits
    are those named in the environment of [migrate]. For guest arguments
    without the flags of the two. *)
Theorem migrate_hands_over wasm guest snap env :
  str "--out" ∉ wasm :: guest → wasm ≠ str "--port" → snap ≠ str "--port" →
  Forall (λ kv, utf8_valid kv.1 = true) env →
  (from_str <$> head (migrate_freeze_argv wasm guest snap) = Some (COk Freeze) ∧
   parse_freeze_argv (tail (migrate_freeze_argv wasm guest snap)) = COk (wasm, guest, snap)) ∧
  (from_str <$> head (migrate_serve_argv wasm snap) = Some (COk Serve) ∧
   parse_serve_argv (tail (migrate_serve_argv wasm snap)) = COk (None, snap, wasm)) ∧
  parse_inherited_fds (inherit_env env) = parse_inherited_fds env.
Proof.
  intros Ho Hw Hs He. split_and!; [done|by apply parse_freeze_migrate|done|by apply parse_serve_migrate|].
  by apply inherit_env_enough.
Qed.

(** C34: the trace is the run. When [trace] succeeds, it has loaded the module
    into a new kernel, called its [_start] if it has one, and printed one line
    per syscall the guest made while it was instantiated and while [_start]
    ran: these, in order, with their arguments, results and names; then, if
    asked, the marker the guest left in its memory. The exit code is 1 if a
    name of the baseline file is not that of a syscall made, else 0. *)
Theorem trace_is_run {W} `{Host W} `{Net W} `{Dns W} `{SnapHost W} `{Codec} `{Digest} `{Os W} `{Wasm W}
    `{!CallLog W} `{!CallLogLaws W} args baseline emit_marker wasm_path script_args (w : W) code w' :
  parse_trace_argv args = COk (baseline, emit_marker, wasm_path, script_args) →
  trace_main args w = Return (COk code, w') →
  ∃ bs m i st1 st2 entries, loads wasm_path (trace_store w) bs m i st1 ∧ started i st1 st2 ∧
    let calls := guest_calls m (trace_store w) i st1 in
    entry_event <$> entries = calls ∧ Forall (λ e, te_name e = syscall_name (te_nr e)) entries ∧
    (let w1 := foldl (λ w e, stdout_write w (trace_line e)) (k_host (st_kernel st2)) entries in
     w' = if emit_marker then stdout_write w1 (marker_line (read_marker (st_kernel st2))) else w1) ∧
    match baseline with
    | None => code = 0
    | Some p => ∃ text, read_baseline w' p = COk text ∧
        code = if decide (Forall (λ n, n ∈ (λ c : event, str (syscall_name c.1.1)) <$> calls) (baseline_names text))
               then 0 else 1
    end.
Proof.
  intros Hp Ht. unfold trace_main in Ht. step_ok Ht. rewrite Hp in E. injection E as <-.
  apply cbind_COk in Ht as ([entries marker] & w2 & Hg & Ht).
  apply run_guest_traced in Hg as (bs & m & i & st1 & st2 & Hl & Hst & -> & -> & He & Hn).
  exists bs, m, i, st1, st2, entries. split; [done|]. split; [done|]. cbv zeta in *. rewrite <- He.
  split; [done|]. split; [done|].
  destruct baseline as [p|]; [|by injection Ht as <- <-].
  step_ok Ht. case_bool_decide as Hb; injection Ht as <- <-; (split; [done|]); eexists; (split; [exact E|]).
  - rewrite decide_True; [done|]. by apply missing_names_calls.
  - rewrite decide_False; [done|]. by rewrite <- missing_names_calls.
Qed.

(** C35: the report of [bench]. When every iteration restores the snapshot and
    comes to its sample, there is one sample per iteration and [bench] does not
    panic over them: it prints the report with their 50th, 95th and 99th
    percentile and their maximum, in microseconds and in fuel, each one of the
    samples, in increasing order and with at least the part of the samples at
    most (and at least) it that its name says, and then fails exactly when the
    median restore took 5 milliseconds or more; for up to 2^40 iterations. *)
Theorem bench_reports {W} `{Host W} `{Net W} `{SnapHost W} `{Codec} `{Os W} `{Wasm W}
    args iters budget_ms snap_path wasm_path snap bs engine samples (w w1 : W) :
  parse_bench_argv args = COk (iters, budget_ms, snap_path, wasm_path) → iters ≤ 2 ^ 40 →
  read_snapshot_file w (components snap_path) = SOk snap →
  read_wasm w wasm_path "bench: reading" = COk bs → build_engine (W:=W) = WOk engine →
  bench_loop (Z.to_nat iters) engine snap bs (ms_to_fuel budget_ms) [] w = Return (COk samples, w1) →
  Z.of_nat (length samples) = iters ∧
  ∃ us fuel, summary samples.*1 us ∧ summary samples.*2 fuel ∧
    bench_main args w =
      Return (if 5000 <=? f_p50 us then CErr (CBench (f_p50 us)) else COk 0,
              foldl println w1 (bench_report iters budget_ms (ms_to_fuel budget_ms) snap_path snap us fuel)).
Proof.
  intros Hp Hi Hs Hb He Hl. pose proof (parse_bench_iters _ _ _ _ _ Hp) as Hpos.
  pose proof (bench_loop_length _ _ _ _ _ _ _ _ _ Hl) as Hlen. simpl in Hlen.
  assert (Z.of_nat (length samples) = iters) as Hn by lia. split; [done|].
  destruct (figures_of_summary samples.*1) as (us & Eus & Hus); [by destruct samples; simpl in *; [lia|]|by rewrite length_fmap, Hn|].
  destruct (figures_of_summary samples.*2) as (fuel & Ef & Hf); [by destruct samples; simpl in *; [lia|]|by rewrite length_fmap, Hn|].
  exists us, fuel. split_and!; [done..|]. unfold bench_main. rewrite Hp. cbn [cbind at_state]. rewrite Hs. cbn [cbind at_state from_snapshot].
  rewrite Hb. cbn [cbind at_state]. rewrite He. cbn [cbind at_state from_anyhow]. cbv zeta.
  destruct (I64_MAX <? iters * 8) eqn:E; [unfold I64_MAX in E; lia|].
  rewrite Hl. cbn [cbind]. rewrite Eus, Ef. by destruct (5000 <=? f_p50 us).
Qed.

(** [serve --port] moves every IPv4 listener of the snapshot to the port
    and changes nothing else of it; it is refused exactly when there is no
    such listener. *)
Theorem port_overridden snap port :
  ((∃ e, override_snapshot_port snap port = CErr e) ↔
   Forall (λ e, listener_port e = None) (fd_entries (sn_fds snap))) ∧
  ∀ snap', override_snapshot_port snap port = COk snap' →
    ∃ entries, snap' = set_fd_entries snap entries ∧
      Forall2 (λ e e', fe_fd e' = fe_fd e ∧ (listener_port e = None → e' = e) ∧
                 (is_Some (listener_port e) → listener_port e' = Some port))
        (fd_entries (sn_fds snap)) entries.
Proof.
  unfold override_snapshot_port. set (l := fd_entries (sn_fds snap)).
  assert (Forall (λ e, listener_port e = None) l ↔
    existsb (λ e, bool_decide (is_Some (override_entry port e))) l = false) as Hiff.
  { rewrite <- not_true_iff_false, existsb_exists, Forall_forall. split.
    - intros Hl (e & Hin%list_elem_of_In & Hb). to_prop. apply Hl, (override_entry_None port) in Hin.
      rewrite Hin in Hb. by destruct Hb.
    - intros Hl e Hin. apply (override_entry_None port). apply eq_None_not_Some. intros Hs. apply Hl. exists e.
      split; [by apply list_elem_of_In|by apply bool_decide_eq_true]. }
  rewrite Hiff. destruct (existsb _ l) eqn:E; (split; [split; [naive_solver|]|]); try done; [|by eexists].
  intros snap' [= <-]. eexists. split; [done|]. apply Forall2_fmap_r, Forall_Forall2_diag, Forall_forall.
  intros e _. unfold compose. destruct (override_entry port e) as [e'|] eqn:Ee; cbn [from_option id].
  - apply override_entry_Some in Ee as (? & ? & [x Hx]). split_and!; [done|by rewrite Hx|done].
  - apply override_entry_None in Ee. split_and!; [done..|]. rewrite Ee. by intros [].
Qed.

(** ** Witnesses *)

#[local] Existing Instance null_codec.

(** A digest of 32 bytes; every module is the guest that says hi. *)
#[local] Instance toy_digest : Digest := {| sha256 bs := take 32 (bs ++ replicate 32 1) |}.
#[local] Instance term_wasm : Wasm Term := hi_wasm alone.
#[local] Instance term_wasm_laws : WasmLaws Term := hi_wasm_laws alone alone_ok.
#[local] Instance term_log : CallLog Term := hi_log alone.
#[local] Instance term_log_laws : CallLogLaws Term := hi_log_laws alone alone_ok.
#[local] Instance term_cwd : CanonicalCwd Term.
Proof. intros w q. simpl. intros [= <-]. apply (bool_decide_unpack _). vm_compute. exact I. Qed.

Lemma usage_error_harmless_witness :
  run_main_from [str "serve"; str "s"; str "w"; str "--port"; str "65536"] term0 = Return (2, term0).
Proof.
  apply usage_error_harmless; [reflexivity|]. right.
  exists (str "serve"), [str "s"; str "w"; str "--port"; str "65536"]. split; [reflexivity|]. split.
  - rewrite !not_elem_of_cons. split_and!; try done. apply not_elem_of_nil.
  - right. exists Serve. eexists. split; vm_compute; reflexivity.
Defined.

(** "hi" on the terminal and exit code 7, within 5 milliseconds. *)
Lemma run_reports_witness :
  let w' := MkTerm (t_wasm term0) None (str "hi") [] in
  drive_guest (str "w") 5 [] term0 = Return (COk 7, w') ∧
  ∃ env bs m i st1 x st, loads (str "w") (run_store env 5 term0) bs m i st1 ∧
    call_async i st1 = Return (x, st) ∧ k_exit_code (st_kernel st) = Some 7.
Proof.
  intros w'. assert (drive_guest (str "w") 5 [] term0 = Return (COk 7, w')) as Hd by (vm_compute; reflexivity).
  split; [exact Hd|].
  destruct (run_reports (str "w") 5 [] term0 (COk 7) w')
    as [(env & bs & m & i & st1 & x & st & _ & Hl & _ & Hc & _ & _ & Hr & _)|[[e ?] _]].
  - unfold is_u. lia.
  - exact Hd.
  - exists env, bs, m, i, st1, x, st. split; [exact Hl|]. split; [exact Hc|].
    destruct (match x with WErr e => is_out_of_fuel e | WOk _ => false end); [discriminate|]. injection Hr as Hr.
    destruct (k_exit_code (st_kernel st)); simpl in Hr; [by subst|discriminate].
  - discriminate.
Defined.

(** A snapshot with the hash of another module. *)
Definition other_snap : KernelSnapshot := set_module_sha256 (try_to_snapshot sample_kern) (replicate 32 9).

Lemma serve_refuses_mismatch_witness :
  serve_loop other_snap (str "w") [(3, 9)] term0 =
    Return (CErr (CSnapshot (ModuleHashMismatch (replicate 32 9) (sha256 (t_wasm term0)))), term0) ∧
  ∃ env m i st1, loads (str "w") (serve_store env term0) (t_wasm term0) m i st1 ∧ term0 = k_host (st_kernel st1).
Proof.
  assert (serve_loop other_snap (str "w") [(3, 9)] term0 =
    Return (CErr (CSnapshot (ModuleHashMismatch (replicate 32 9) (sha256 (t_wasm term0)))), term0)) as Hs
    by (vm_compute; reflexivity).
  split; [exact Hs|].
  destruct (serve_refuses_mismatch other_snap (str "w") [(3, 9)] term0
    (CErr (CSnapshot (ModuleHashMismatch (replicate 32 9) (sha256 (t_wasm term0))))) term0)
    as (e & _ & [(env & bs & m & i & st1 & _ & Hl & _ & Hh)|[Hno _]]).
  - discriminate.
  - intros bs Hb. vm_compute in Hb. injection Hb as <-. discriminate.
  - exact Hs.
  - exists env, m, i, st1. assert (bs = t_wasm term0) as <-; [|by split].
    destruct Hl as (_ & _ & Hr & _). vm_compute in Hr. by injection Hr as <-.
  - exfalso. apply (Hno [] (t_wasm term0) tt tt (MkStore (attach_memory (st_kernel (serve_store [] term0)) (zero_mem 131072)) U64_MAX new_locals)).
    + vm_compute. reflexivity.
    + repeat split.
Defined.

Lemma inherited_fds_parsed_witness :
  parse_inherited_fds [fd_var 7 4; (str "HOME", str "/"); fd_var 3 11] = COk [(3, 11); (7, 4)] ∧
  StronglySorted (λ a b : Z * Z, a.1 ≤ b.1) [(3, 11); (7, 4)].
Proof.
  destruct (inherited_fds_parsed [fd_var 7 4; (str "HOME", str "/"); fd_var 3 11] [(7, 4); (3, 11)]) as [Hs _].
  assert (parse_inherited_fds [fd_var 7 4; (str "HOME", str "/"); fd_var 3 11] = COk [(3, 11); (7, 4)]) as Hp
    by (vm_compute; reflexivity).
  split; [exact Hp|]. exact (proj1 (Hs _ Hp)).
Defined.

Lemma migrate_hands_over_witness :
  parse_freeze_argv (tail (migrate_freeze_argv (str "w") [str "--"; str "a"] (str "s"))) =
    COk (str "w", [str "--"; str "a"], str "s") ∧
  parse_inherited_fds (inherit_env [(str "HOME", str "/"); fd_var 3 11]) =
    parse_inherited_fds [(str "HOME", str "/"); fd_var 3 11].
Proof.
  destruct (migrate_hands_over (str "w") [str "--"; str "a"] (str "s") [(str "HOME", str "/"); fd_var 3 11])
    as ([_ Hf] & _ & He).
  - rewrite !not_elem_of_cons. split_and!; try done. apply not_elem_of_nil.
  - done.
  - done.
  - repeat constructor.
  - split; [exact Hf|exact He].
Defined.

(** The two syscalls of the guest. *)
Lemma trace_is_run_witness :
  ∃ w', trace_main [str "w"] term0 = Return (COk 0, w') ∧
    ∃ m i st1 entries, guest_calls m (trace_store term0) i st1 =
        [(NR_WRITE, Args 1 0 2 0 0 0, 2); (NR_EXIT, Args 7 0 0 0 0 0, 0)] ∧
      entry_event <$> entries = guest_calls m (trace_store term0) i st1.
Proof.
  assert (∃ w', trace_main [str "w"] term0 = Return (COk 0, w')) as [w' Ht] by (eexists; vm_compute; reflexivity).
  exists w'. split; [exact Ht|].
  destruct (trace_is_run [str "w"] None true (str "w") [] term0 0 w')
    as (bs & m & i & st1 & st2 & entries & Hl & _ & He & _).
  - vm_compute. reflexivity.
  - exact Ht.
  - exists m, i, st1, entries. split; [|exact He]. destruct Hl as (_ & _ & _ & _ & Hi).
    apply Return_inj in Hi. injection Hi as _ <-. vm_compute. reflexivity.
Defined.

(** A listener at port 80 moves, a pipe stays. *)
Definition port_snap : KernelSnapshot :=
  set_fd_entries (try_to_snapshot sample_kern)
    [MkFdEntry 0 (from_pipe KStdin (MkPipeSnap [] false false));
     MkFdEntry 4 (from_socket (snapshot_sock
       (from_tcp_listener 0 1 5 (SockV4 80 [127; 0; 0; 1]) true false)))].

Lemma port_overridden_witness :
  ∃ snap', override_snapshot_port port_snap 8080 = COk snap' ∧
    listener_port <$> fd_entries (sn_fds snap') = [None; Some 8080] ∧
    ∃ entries, snap' = set_fd_entries port_snap entries.
Proof.
  destruct (port_overridden port_snap 8080) as [_ Hp].
  assert (∃ snap', override_snapshot_port port_snap 8080 = COk snap' ∧
    listener_port <$> fd_entries (sn_fds snap') = [None; Some 8080]) as (snap' & Hs & Hl).
  { eexists. split; vm_compute; reflexivity. }
  exists snap'. split; [exact Hs|]. split; [exact Hl|]. destruct (Hp snap' Hs) as (entries & He & _). by exists entries.
Defined.

(** ** Freezing and serving the guest that says hi *)

(** What freezing it gives; its syscalls encode nothing. *)
Definition hi_snap : KernelSnapshot :=
  match freeze_snapshot (str "w") [] term0 with Return (COk s, _) => s | _ => try_to_snapshot sample_kern end.

(** An encoding of that snapshot. *)
#[local] Instance hi_codec : Codec := {|
  to_stdvec s := if bool_decide (s = hi_snap) then Some [1] else None;
  from_bytes bs := if bool_decide (bs = [1]) then Some hi_snap else None;
|}.
#[local] Instance hi_codec_laws : CodecLaws.
Proof. intros s bs. cbn. case_bool_decide as Hs; [|done]. intros [= <-]. by rewrite Hs. Qed.
#[local] Instance served_wasm : Wasm Term := hi_wasm alone.
#[local] Instance served_wasm_laws : WasmLaws Term := hi_wasm_laws alone alone_ok.

(** The store of that guest when it was frozen. *)
Definition hi_loaded : store Term :=
  MkStore (attach_memory (kernel_new [] [] term0) (zero_mem 131072)) U64_MAX new_locals.
Definition hi_frozen : store Term := hi_start alone hi_loaded.

Lemma hi_frozen_wf : kern_wf (st_kernel hi_frozen).
Proof.
  eapply guest_run_wf; [apply hi_start_run, alone_ok|].
  apply kern_wf_set_owned; [apply (kernel_new_wf (W:=Term) [] [] term0)|by apply zero_mem_bounds].
Qed.

Lemma hi_frozen_wasm : wasm_attached (st_kernel hi_frozen).
Proof.
  intros mk Hmk. assert (memory_kind (st_kernel hi_frozen) = Ok (Owned hi_memory)) as Hc by (vm_compute; reflexivity).
  rewrite Hc in Hmk. injection Hmk as <-. exists 2. split; [lia|done|apply hi_memory_bounds].
Qed.

Lemma hi_frozen_plain fd r : table (k_fds (st_kernel hi_frozen)) !! fd = Some r → no_socket r.
Proof.
  apply (map_Forall_lookup_1 (λ _ r, no_socket r)).
  assert (bool_decide (map_Forall (λ _ r, match r with RSocket _ => false | _ => true end = true)
    (table (k_fds (st_kernel hi_frozen)))) = true) as Hb by (vm_compute; reflexivity).
  apply bool_decide_eq_true in Hb. eapply map_Forall_impl; [exact Hb|]. intros ? r'. by destruct r'.
Qed.

(** Frozen after it has said hi, and served again from there. *)
Lemma freeze_then_serve_witness :
  ∃ w1 snap i2 st2 w3, freeze_main [str "w"; str "--out"; str "s"] term0 = Return (COk 0, w1) ∧
    read_snapshot_file w1 SNAP_PATH = SOk snap ∧
    serve_prepare snap (str "w") [] w1 = Return (COk (i2, st2), w3) ∧
    try_to_snapshot (st_kernel st2) = try_to_snapshot (st_kernel hi_frozen) ∧
    memory_restored (st_kernel hi_frozen) 131072 (st_kernel st2).
Proof.
  assert (∃ w1, freeze_main [str "w"; str "--out"; str "s"] term0 = Return (COk 0, w1)) as [w1 Hf].
  { eexists. vm_compute. reflexivity. }
  destruct (freeze_then_serve [str "w"; str "--out"; str "s"] (str "w") [] (str "s") term0 w1)
    as (bs & m & i & st1 & st & snap & enc & Hl & Hfr & Hs & _ & Hw & Hr & Hserve).
  - vm_compute. reflexivity.
  - exact Hf.
  - assert (st = hi_frozen) as ->.
    { destruct Hl as (_ & _ & _ & _ & Hi). apply Return_inj in Hi. injection Hi as _ Hi.
      change (hi_loaded = st1) in Hi. subst st1. change (Return (hi_start alone hi_loaded) = Return st) in Hfr.
      apply Return_inj in Hfr. symmetry. exact Hfr. }
    assert (bs = t_wasm term0) as -> by (destruct Hl as (_ & _ & Hb & _); vm_compute in Hb; by injection Hb as <-).
    assert (∃ i2 st2 w3, serve_prepare snap (str "w") [] w1 = Return (COk (i2, st2), w3)) as (i2 & st2 & w3 & Hp).
    { assert (match serve_prepare snap (str "w") [] w1 with Return (COk _, _) => true | _ => false end = true) as Hc.
      { rewrite Hs. injection Hw as <-. vm_compute. reflexivity. }
      destruct (serve_prepare snap (str "w") [] w1) as [[[[i2 st2]|] w3]| |]; [|discriminate..].
      exists i2, st2, w3. reflexivity. }
    exists w1, snap, i2, st2, w3. split; [exact Hf|]. split; [apply Hr; injection Hw as <-; split; reflexivity|].
    split; [exact Hp|]. destruct (Hserve w1 i2 st2 w3 Hp) as [_ Hres].
    apply (Hres hi_frozen_wf hi_frozen_wasm hi_frozen_plain) with (mem := zero_mem 131072).
    + intros env _ bs m' _ _. apply hi_sane_init.
    + reflexivity.
    + split.
      * exists 2. split; [lia|done|]. intros p [? Hq]. simpl in Hq. by rewrite lookup_empty in Hq.
      * intros p _ Hq. destruct Hq. unfold read_byte. simpl. by rewrite lookup_empty.
Defined.

(** [serve] of that file calls a guest in the frozen state. *)
Example hi_served :
  match freeze_main [str "w"; str "--out"; str "s"] term0 with
  | Return (_, w1) =>
    match serve_main [str "s"; str "w"] w1 with Return (COk 0, _) => true | _ => false end
  | _ => false
  end = true.
Proof. vm_compute. reflexivity. Qed.

(** ** Deviations *)

(** The budget is taken out of the guest's arguments too, after [--]. *)
Example budget_after_dashdash :
  parse_run_argv [str "w"; str "--"; str "--cpu-budget-ms"; str "5"; str "x"] = COk (str "w", 5, [str "x"]).
Proof. vm_compute. reflexivity. Qed.

(** A guest argument [--out] of [migrate] is taken by [freeze] as its own. *)
Example migrate_loses_out :
  parse_freeze_argv (tail (migrate_freeze_argv (str "w") [str "--out"; str "a"] (str "s"))) =
    COk (str "w", [], str "s").
Proof. vm_compute. reflexivity. Qed.

(** [guest_args] drops a first guest argument [--] only once, [migrate]
    wherever it is first. *)
Example migrate_drops_later_dashdash :
  parse_migrate_args [str "w"; str "a"; str "--"; str "b"] = COk (str "w", [str "a"; str "b"]) ∧
  guest_args [str "w"; str "a"; str "--"; str "b"] = [str "a"; str "--"; str "b"].
Proof. by vm_compute. Qed.

(** A kernel "without stdio" has its three descriptors. *)
Example without_stdio_has_stdio :
  (λ fd, bool_decide (is_Some (table (k_fds (new_without_stdio [] [] term0)) !! fd))) <$> [0; 1; 2] =
    [true; true; true].
Proof. vm_compute. reflexivity. Qed.

(** Two iterations over a machine whose file decodes to a snapshot. *)
Lemma bench_reports_witness :
  let c := {| to_stdvec _ := None; from_bytes _ := Some other_snap |} in
  let w := MkTerm (t_wasm term0) (Some []) [] [] in
  ∃ us fuel, summary [0; 0] us ∧
    @bench_main Term _ _ _ c _ _ [str "s"; str "w"; str "--iters"; str "2"] w =
      Return (if 5000 <=? f_p50 us then CErr (CBench (f_p50 us)) else COk 0,
              foldl println w (bench_report 2 U64_MAX (ms_to_fuel U64_MAX) (str "s") other_snap us fuel)).
Proof.
  intros c w.
  assert (∃ f, bench_loop (W:=Term) 2 engine_config other_snap (t_wasm term0) (ms_to_fuel U64_MAX) [] w =
    Return (COk [(0, f); (0, f)], w)) as [f Hl] by (eexists; vm_compute; reflexivity).
  destruct (@bench_reports Term _ _ _ c _ _ [str "s"; str "w"; str "--iters"; str "2"] 2 U64_MAX (str "s") (str "w")
    other_snap (t_wasm term0) engine_config [(0, f); (0, f)] w w) as (_ & us & fuel & Hu & _ & Hm).
  - vm_compute. reflexivity.
  - lia.
  - vm_compute. reflexivity.
  - vm_compute. reflexivity.
  - reflexivity.
  - exact Hl.
  - exists us, fuel. split; [exact Hu|exact Hm].
Defined.

(** [bench] restores a snapshot onto a module with another hash. *)
Example bench_ignores_hash :
  match bench_iter engine_config other_snap (t_wasm term0) U64_MAX term0 with
  | Return (COk _, _) => true
  | _ => false
  end = true.
Proof. vm_compute. reflexivity. Qed.
